(* ===== verification/_CoqProject ===== *)
-Q . S2P
Prelude.v
World.v
Crypto.v
Toy.v
CryptoSpec.v
Session.v
Replay.v
SessionFacts.v
SessionRuns.v
SessionSpec.v
Channel.v
Protocol.v
Libc.v
Config.v
ConfigFacts.v
ConfigGiven.v
ConfigText.v
Routing.v
ConfigSpec.v
Log.v
Net.v
ConfigFile.v
Daemon.v
DaemonFacts.v
DaemonInput.v
Timers.v
DaemonStart.v
Effects.v
Steps.v
Keygen.v
LogSpec.v
NetSpec.v
Scenario.v
DaemonSpec.v
Untrusted.v
Reconnect.v
History.v
HistoryLoop.v
HistorySpec.v
Handshakes.v
Transcript.v
TranscriptLoop.v
Flows.v
Tunnel.v
TunnelRun.v
Shutdown.v
Twins.v
