(* ===== verification/Prelude.v ===== *)
(** * EdgarVPN: a verification development

    EdgarVPN is a point-to-point VPN daemon in C (src/src/, include/, tools/).
    It reads packets from a TUN device, finds the peer whose range contains
    the destination, seals the packet under that peer's session keys and sends
    it over UDP; what arrives over UDP is opened and written to the device.
    Sessions are agreed by a two-message handshake over long-term keys, and
    three timers (keepalive, dead-peer detection, key rotation) keep them
    alive.

    ** The program's parts and the files that model them

    - src/crypto.c, include/crypto.h: [Crypto].  The wrapper around libsodium
      function by function; libsodium is the class [Sodium], what the code
      relies on of it the class [SodiumLaws].
    - src/session.c, include/session.h: [Session].  [session_t] is a record
      with the C fields; one definition per function, the static ones and the
      loop of the replay window included.
    - src/config.c, include/config.h: [Config], over the C library functions
      of [Libc] ([fgets], [strtol], [inet_pton], ...): the parser, with the
      message of each error return and whether [fclose] precedes it.
      [ConfigFile] is the function as the program calls it: it opens the file,
      parses it and closes it on every return.
    - src/routing.c: [Routing].
    - src/log.c: [Log].  Its static variables are part of the [world].
    - src/udp.c and src/tun.c: [Net].
    - src/main.c: [Daemon].  The runtime state of [main] is the record of that
      file; one definition per function, per branch of the poll loop and per
      phase of [main].  It calls all the parts above the way the code does.
    - tools/keygen.c: [Keygen].

    [World] is the common ground: the class [Env] gives the answers of the
    kernel, the clocks, the resolver and the random generator, indexed by the
    number of the call, so that a theorem for every [Env] holds whatever the
    outside answers; the [world] accumulates errno, the logger's variables and
    the trace of visible actions; [M] is the monad of code that runs in a
    world and may have undefined behaviour ([None]); [wp] is its
    weakest-precondition calculus, in which the daemon is verified.

    ** Conventions

    A C integer is a [Z], wrapped with [u8] ... [u64] where the code computes
    in that width.  A buffer is the list of its bytes, and its length its
    capacity; a read or write out of range is [None].  A C function returns
    its return value with the new contents of what it writes through
    pointers.  Strings exclude their NUL.  The platform is 64-bit
    little-endian Linux, as the build files assume.

    ** What the theorems show

    - Packet layer ([CryptoSpec]): seal and open are inverse to each other,
      nothing but a sealed packet is accepted, no access is out of bounds,
      nonces are one-to-one with counters, keys survive their text form.
    - Sessions: [Replay] shows that the bitmap window refines the
      specification "accept each counter once, less than 1024 behind the
      highest"; [SessionFacts] has the well-formedness invariant and what each
      operation does on every branch; [SessionRuns] runs arbitrary sequences
      of operations and has their invariant; [SessionSpec] states key
      agreement, delivery, freedom from replay and from nonce reuse, wiping of
      the ephemeral secret, which messages are accepted, and reconnection.
    - The secure channel: [Channel] is the abstract specification of a session,
      a transition relation without buffers, bit map or wrap-around, and the
      simulation that session.c implements it; [Protocol] puts an initiator
      and a responder on a network that cannot forge, and proves by induction
      on the steps, for channels and through the simulation for sessions, that
      handshakes and packets are authentic.
    - Configuration and routing: [ConfigFacts] and [ConfigSpec] show that
      every file is parsed or rejected without undefined behaviour, what is
      accepted is in range, and that routing is first match by leading bits;
      [ConfigGiven] reads the text of a file without the parser's variables,
      and shows that an accepted configuration is complete and holds what the
      last entry of each key in each section says;
      [ConfigText] writes a configuration in the documented format and proves
      that it loads as the values it was written from.
    - Logging ([LogSpec]), descriptors and interface set-up ([NetSpec]).
    - The daemon: [DaemonFacts], [DaemonInput] and [DaemonStart] carry the
      invariant [daemon_inv] through the timers, the two inputs, an iteration,
      and from start-up to exit; [Timers] follows the timers call by call, to
      the answer of the resolver; [DaemonSpec] states that the poll loop is
      safe, that only authentic and fresh payloads reach the device, that a
      packet goes to the peer its destination selects, when a peer's address
      is believed, which deadlines the timers keep and what they send, that
      descriptors, the one of the configuration file included, are not leaked,
      and that a packet crosses from one daemon
      to another; [Reconnect] that a due handshake attempt, received by the
      daemon at the other end and answered, leaves both with mirrored keys.
    - Datagrams of unknown origin: [Untrusted] shows that what no session
      accepts changes nothing but counters of failures, and that one datagram
      makes the program send at most one, no longer and to where it came from.
    - Whole runs: [Effects] is the logic of what code may add to the wire;
      [Steps] is the program as an abstract machine of nine kinds of steps on
      the list of peers and the wire, and proves, function by function, that
      every run is a path of it.  What follows is proved by rule induction on
      the steps, through the interleaving of all sessions from start-up on.
      [History] and [HistoryLoop] keep an account of every data message sent
      and every packet written to the device; [HistorySpec] concludes that the
      program uses no key and counter twice in either direction, unless two key
      exchanges of the run collide.  [Handshakes] accounts for the handshake
      messages: no ephemeral key is offered twice and no peer uses a counter
      twice.  [Transcript] and [TranscriptLoop] keep, peer by peer, every
      datagram sent, every key agreed and every packet delivered; [Flows] reads
      from them to which peer each packet goes, from which peer it comes, and
      that the traffic counters of each peer are accurate.  [Shutdown] shows
      that no round of the loop starts once a signal arrived, and what else
      ends the program.
    - Two programs: [Tunnel] takes a run at each end of a relationship, over a
      network that cannot forge, and concludes from the two transcripts that
      the keys agreed are the same at both ends, and that what leaves the tunnel
      at one end entered it at the other, at most once.  [TunnelRun] evaluates
      this on two runs of the sample configuration.
    - Four theorems state behaviour a user should know of, each for every
      run in which its conditions hold: a restarted responder seals twice under
      one nonce ([responder_restart_reuses_nonce]), so does an initiator with
      two sections for one public key that starts within a second ([Twins],
      [shared_public_key_reuses_nonce]), a session whose response cannot be
      sent is established without an address ([established_without_address] in
      [Reconnect]), and the tail of an over-long comment is parsed
      ([long_comment_is_parsed]).

    ** Parameters, hypotheses and their instances

    [Sodium] with [SodiumLaws]; [Env] with [EnvLaws] (a generated key pair has
    32-byte keys that match), [ClockLaws] (the wall clock has a year of four
    digits) and [IoLaws] (what the kernel hands over are bytes, and the
    configuration file is below 2 GiB).  The laws of
    the cipher are its documented behaviour: opening a sealed text gives it
    back, and a text that opens is the sealing of the result under that key
    and nonce.  That such a text cannot be made without the key is not a law:
    in the theorems on one daemon "authentic" means sealed under the key.  In
    [Protocol], for two sessions, and in [Tunnel], for two programs, it is a
    condition on what the network delivers ([unforged]), next to the condition
    that the key exchanges of the run gave no key in two places ([separated]);
    [exchange_sound] in [Reconnect] says that the exchange
    between generated pairs does not fail.  [Toy] gives an executable
    instance with proofs of the laws; [Scenario] starts the two ends of a
    sample configuration and takes them through a handshake.  The witnesses
    evaluate the theorems there.

    ** Fuel and bounds

    - [config_load] takes as fuel one more than the length of the file: each
      line read consumes at least a byte ([config_load_returns]).
    - The clearing loop of the replay window runs at most 1024 times, by the
      guard of the code ([replay_window_refines]).
    - [dec] prints with 20 digits of fuel, enough for a 64-bit integer.
    - The poll loop ends only when a signal clears [g_running] or [poll]
      fails ([program_stops_when_asked]): the model takes the number of
      iterations and reports when the loop is still running; its theorems hold
      for every number, those of [HistorySpec], [Handshakes], [Flows] and
      [Tunnel] up to 2^56, with a wall clock that is set ([clock_is_set]), so
      that no 64-bit handshake counter wraps.  A run takes at most two steps of [Steps]
      for each of the eight peers at start-up and 26 in a round.
    - [Protocol] needs the initiator's counter to stay below 2^64; its other
      counters may wrap in [Channel].

    ** Not modelled

    The tests, packaging and documentation.  libsodium, the kernel and the
    resolver are parameters.  Signals arrive at external calls ([env_signals]):
    the handler runs for those after [sigaction], and [g_running] is what it
    left; that an earlier signal kills the process, and that one interrupts a
    call (an error of the call is an answer of the environment like any other),
    are not tied to the arrival; [sigaction] itself is the number of the call
    from which the handler counts.  The result of [fclose] is ignored, as the
    code does: the descriptor is closed whatever it is.  [printf] formatting is modelled as the text
    each call builds.  Secrecy, in the sense of what an observer of the
    ciphertexts can infer, is not stated. *)

From Stdlib Require Export ZArith Lia.
From Stdlib Require String Ascii.
From stdpp Require Export base numbers list option tactics sets.

Open Scope Z_scope.

(** ** Machine integers

    A C integer of width [w] is a [Z]; the wrap-around of unsigned arithmetic
    is written out with [u8], [u16], [u32] and [u64] wherever the source
    computes in that width. *)
Definition u8 (x : Z) : Z := x mod 2 ^ 8.
Definition u16 (x : Z) : Z := x mod 2 ^ 16.
Definition u32 (x : Z) : Z := x mod 2 ^ 32.
Definition u64 (x : Z) : Z := x mod 2 ^ 64.

(** An [unsigned char], and a sequence of them. *)
Definition is_byte (b : Z) : Prop := 0 <= b < 256.
Abbreviation bytes := (list Z).
Definition is_bytes (l : bytes) : Prop := Forall is_byte l.
Definition is_u64 (x : Z) : Prop := 0 <= x < 2 ^ 64.
Definition is_u32 (x : Z) : Prop := 0 <= x < 2 ^ 32.

(** [sizeof]/[strlen]-style lengths. *)
Abbreviation zlen l := (Z.of_nat (length l)).

#[global] Instance is_byte_dec b : Decision (is_byte b).
Proof. unfold is_byte; apply _. Defined.
#[global] Instance is_u64_dec b : Decision (is_u64 b).
Proof. unfold is_u64; apply _. Defined.
#[global] Instance is_u32_dec b : Decision (is_u32 b).
Proof. unfold is_u32; apply _. Defined.
#[global] Instance is_bytes_dec l : Decision (is_bytes l).
Proof. unfold is_bytes; apply _. Defined.

(** ** Undefined behaviour

    [option A] is the outcome of a piece of C that may have undefined
    behaviour: [None] is an access outside an object (or a shift by the width
    of its operand).  Every operation whose source indexes or copies into an
    array is written in this monad, with stdpp's [x ← m; k], and its safety
    theorem says that it never returns [None]. *)

(** [memcpy(buf + off, bs, sizeof bs)] into an object of [length buf] bytes. *)
Definition buf_write (off : nat) (bs buf : bytes) : option bytes :=
  if decide (off + length bs <= length buf)%nat
  then Some (take off buf ++ bs ++ drop (off + length bs) buf)
  else None.

(** [buf[i] = v]. *)
Definition buf_set (i : nat) (v : Z) (buf : bytes) : option bytes :=
  if decide (i < length buf)%nat then Some (<[i:=v]> buf) else None.

(** A call that receives [buf + off] with the remaining capacity: [f] works on
    the tail and the bytes before [off] are untouched. *)
Definition on_tail {A} (off : nat) (buf : bytes) (f : bytes -> option (A * bytes)) :
    option (A * bytes) :=
  '(a, tl) ← f (drop off buf);
  Some (a, take off buf ++ tl).

(** A [for] loop over [is], threading an accumulator. *)
Fixpoint foldM {A B} (f : A -> B -> option A) (a : A) (l : list B) : option A :=
  match l with
  | [] => Some a
  | b :: l => a' ← f a b; foldM f a' l
  end.

(** ASCII string literals as byte sequences. *)
Fixpoint str (s : String.string) : bytes :=
  match s with
  | String.EmptyString => []
  | String.String c s => Z.of_N (Ascii.N_of_ascii c) :: str s
  end.

(** ** Automation *)
Create HintDb edgar.

(** Destruct the scrutinee of a [match] or [if] in the goal or a hypothesis. *)
Ltac break_match :=
  match goal with
  | |- context [match ?x with _ => _ end] =>
      lazymatch x with context [match _ with _ => _ end] => fail | _ => destruct x eqn:? end
  | H : context [match ?x with _ => _ end] |- _ =>
      lazymatch x with context [match _ with _ => _ end] => fail | _ => destruct x eqn:? end
  end.

(** Turn boolean tests of the code into propositions. *)
Ltac reflect_bools :=
  repeat match goal with
  | H : (_ && _)%bool = true |- _ => apply andb_true_iff in H as [? ?]
  | H : (_ || _)%bool = false |- _ => apply orb_false_iff in H as [? ?]
  | H : negb _ = true |- _ => apply negb_true_iff in H
  | H : negb _ = false |- _ => apply negb_false_iff in H
  | H : (_ <? _) = true |- _ => apply Z.ltb_lt in H
  | H : (_ <? _) = false |- _ => apply Z.ltb_ge in H
  | H : (_ <=? _) = true |- _ => apply Z.leb_le in H
  | H : (_ <=? _) = false |- _ => apply Z.leb_gt in H
  | H : (_ =? _) = true |- _ => apply Z.eqb_eq in H
  | H : (_ =? _) = false |- _ => apply Z.eqb_neq in H
  | H : bool_decide _ = true |- _ => apply bool_decide_eq_true in H
  | H : bool_decide _ = false |- _ => apply bool_decide_eq_false in H
  end.

(** Open an equation [x ← m; k = Some v] step by step. *)
Ltac inv_bind :=
  repeat match goal with
  | H : mbind _ _ = Some _ |- _ => apply bind_Some in H as (? & ? & H)
  | H : Some _ = Some _ |- _ => injection H as H
  | H : (_, _) = (_, _) |- _ => injection H as ? ?
  | p : (_ * _)%type |- _ => destruct p
  end; simplify_eq/=.

(** Spell out the string literals of the goal. *)
Ltac norm_str :=
  repeat match goal with
  | |- context [str ?s] => let x := eval vm_compute in (str s) in change (str s) with x
  end.

(** Split [is_bytes] of a literal list. *)
Ltac inv_bytes :=
  unfold is_bytes in *;
  repeat match goal with
  | H : Forall is_byte (_ :: _) |- _ => apply Forall_cons_1 in H as [? H]
  end.

(** A member of a list whose elements all satisfy [P]. *)
Lemma Forall_in {A} {P : A -> Prop} {l : list A} : Forall P l -> forall x, x ∈ l -> P x.
Proof. apply Forall_forall. Qed.

(** ** Integer lemmas *)
Lemma u8_small x : is_byte x -> u8 x = x.
Proof. unfold u8, is_byte; intros; apply Z.mod_small; lia. Qed.
Lemma u8_byte x : is_byte (u8 x).
Proof. unfold u8, is_byte. apply (Z.mod_pos_bound x 256). lia. Qed.
Lemma u64_small x : is_u64 x -> u64 x = x.
Proof. unfold u64, is_u64; intros; apply Z.mod_small; lia. Qed.
Lemma u64_range x : is_u64 (u64 x).
Proof. unfold u64, is_u64. apply Z.mod_pos_bound. lia. Qed.
Lemma u64_succ x : u64 (u64 x + 1) = u64 (x + 1).
Proof. apply Zplus_mod_idemp_l. Qed.
Lemma u32_small x : is_u32 x -> u32 x = x.
Proof. unfold u32, is_u32; intros; apply Z.mod_small; lia. Qed.
Lemma u32_range x : is_u32 (u32 x).
Proof. unfold u32, is_u32. apply Z.mod_pos_bound. lia. Qed.

#[export] Hint Resolve u8_byte u64_range u32_range : edgar.

(** A value below [2 ^ k] has no bit at or above [k]. *)
Lemma testbit_above x k n : 0 <= x < 2 ^ k -> k <= n -> Z.testbit x n = false.
Proof.
  intros Hx Hn. destruct (Z_lt_le_dec k 0); [rewrite Z.pow_neg_r in Hx by lia; lia|].
  destruct (decide (x = 0)) as [->|]; [apply Z.bits_0|].
  apply Z.bits_above_log2; [lia|].
  enough (Z.log2 x < k) by lia. apply Z.log2_lt_pow2; lia.
Qed.

Lemma is_byte_bits x : is_byte x <-> 0 <= x /\ forall i, 8 <= i -> Z.testbit x i = false.
Proof.
  unfold is_byte. split.
  - intros Hx. split; [lia|]. intros i Hi. by apply testbit_above with 8.
  - intros [Hx Hb]. split; [lia|].
    destruct (Z_lt_le_dec x 256) as [|Hge]; [lia|].
    assert (8 <= Z.log2 x) by (apply (Z.log2_le_pow2 x 8); lia).
    specialize (Hb (Z.log2 x) ltac:(lia)). rewrite Z.bit_log2 in Hb by lia. done.
Qed.

(** Bits of a wrapped value. *)
Lemma u8_testbit x i : 0 <= i < 8 -> Z.testbit (u8 x) i = Z.testbit x i.
Proof. intros. unfold u8. apply Z.mod_pow2_bits_low. lia. Qed.

(** ** Buffer lemmas *)
Lemma buf_write_ok off bs buf :
  (off + length bs <= length buf)%nat ->
  buf_write off bs buf = Some (take off buf ++ bs ++ drop (off + length bs) buf).
Proof. intros. unfold buf_write. by rewrite decide_True. Qed.

Lemma buf_write_length off bs buf buf' :
  buf_write off bs buf = Some buf' -> length buf' = length buf.
Proof.
  unfold buf_write. case_decide; intros; simplify_eq.
  rewrite !length_app, length_take, length_drop. lia.
Qed.

Lemma buf_set_ok i v buf : (i < length buf)%nat -> buf_set i v buf = Some (<[i:=v]> buf).
Proof. intros. unfold buf_set. by rewrite decide_True. Qed.

Lemma is_bytes_app l k : is_bytes (l ++ k) <-> is_bytes l /\ is_bytes k.
Proof. apply Forall_app. Qed.

Lemma is_bytes_lookup l i b : is_bytes l -> l !! i = Some b -> is_byte b.
Proof. intros. by eapply Forall_lookup_1. Qed.

Lemma foldM_app {A B} (f : A -> B -> option A) a l k :
  foldM f a (l ++ k) = a' ← foldM f a l; foldM f a' k.
Proof.
  revert a. induction l as [|b l IH]; intros a; simpl; [done|].
  destruct (f a b); simpl; auto.
Qed.

(** The length of a literal, for the fixed arrays of the headers. *)
Lemma length_zeros n : length (replicate n 0) = n.
Proof. apply length_replicate. Qed.
Lemma is_bytes_zeros n : is_bytes (replicate n 0).
Proof. apply Forall_replicate. unfold is_byte. lia. Qed.
#[export] Hint Resolve is_bytes_zeros : edgar.

(** Membership of another element is not affected by a new head. *)
Lemma elem_of_cons_ne {A} (x y : A) l : x <> y -> y ∈ x :: l <-> y ∈ l.
Proof. rewrite elem_of_cons. naive_solver. Qed.
