(* ===== verification/World.v ===== *)
(** * The outside world

    EdgarVPN's C calls into libsodium's random generator, the clocks, the DNS
    resolver, the kernel's sockets and the TUN device.  None of that code is
    in the repository: it is the parameter [Env], a family of answers indexed
    by the number of the call, so a theorem that holds for every [Env] holds
    whatever the outside world answers, call by call.

    [world] is what the process accumulates: how many external calls it has
    made, the module state of [src/log.c], and the trace of its visible
    actions.  [M] is the monad of code that runs in a world and may have
    undefined behaviour ([None]). *)

From S2P Require Import Prelude.

(** [struct sockaddr_in]: [sin_addr] and [sin_port] hold network-order values
    exactly as the C struct does. *)
Record sockaddr_in := {
  sin_family : Z;
  sin_addr : Z;
  sin_port : Z
}.

#[global] Instance sockaddr_in_eq_dec : EqDecision sockaddr_in.
Proof. solve_decision. Defined.

(** [log_level_t] (include/log.h). *)
Inductive log_level_t :=
| LOG_LEVEL_DEBUG
| LOG_LEVEL_INFO
| LOG_LEVEL_WARN
| LOG_LEVEL_ERROR.

(** [log_format_t] (src/log.c). *)
Inductive log_format_t :=
| LOG_FORMAT_TEXT
| LOG_FORMAT_JSON.

#[global] Instance log_level_t_eq_dec : EqDecision log_level_t.
Proof. solve_decision. Defined.
#[global] Instance log_format_t_eq_dec : EqDecision log_format_t.
Proof. solve_decision. Defined.

(** The three static variables of src/log.c. *)
Record log_state := {
  g_level : log_level_t;
  g_format : log_format_t;
  g_initialized : bool
}.

Inductive stream := Stdout | Stderr.

(** [struct ifreq]: the name, and the union [ifr_ifru] with the members the
    sources use. *)
Inductive ifr_ifru :=
| ifr_addr (a : sockaddr_in)
| ifr_flags (flags : Z).

Record ifreq := {
  ifr_name : bytes;
  ifr_u : ifr_ifru
}.

Inductive ioctl_request := TUNSETIFF | SIOCSIFADDR | SIOCSIFNETMASK | SIOCGIFFLAGS | SIOCSIFFLAGS.

(** The visible actions of the process, with the return value where the kernel
    may refuse: descriptors obtained and given back, the requests that
    configure the interface and the socket, datagrams and packets sent, lines
    printed. *)
Inductive io_event :=
| EvOpen (fd : Z)
| EvClose (fd : Z)
| EvIoctl (fd : Z) (request : ioctl_request) (ifr : ifreq) (rc : Z)
| EvBind (fd : Z) (addr : sockaddr_in) (rc : Z)
| EvSend (fd : Z) (dest : sockaddr_in) (datagram : bytes) (rc : Z)
| EvTunWrite (fd : Z) (packet : bytes) (rc : Z)
| EvPrint (out : stream) (line : bytes).

Record world := {
  w_calls : nat;
  w_errno : Z;
  w_log : log_state;
  w_trace : list io_event
}.

(** What the outside answers to the [n]-th external call. *)
Class Env := {
  (** [crypto_kx_keypair]: the public and the secret key written *)
  env_keypair : nat -> bytes * bytes;
  (** [time(NULL)] *)
  env_time : nat -> Z;
  (** [clock_gettime(CLOCK_MONOTONIC)]: [tv_sec] and [tv_nsec] *)
  env_monotonic : nat -> Z * Z;
  (** [clock_gettime(CLOCK_REALTIME)]: [tv_sec] *)
  env_realtime : nat -> Z;
  (** [getenv] *)
  env_getenv : nat -> bytes -> option bytes;
  (** [fopen]: the descriptor it obtains and the contents of the file, if it
      succeeds *)
  env_fopen : nat -> bytes -> option (Z * bytes);
  (** [getaddrinfo] for AF_INET: the first address, if it succeeds *)
  env_getaddrinfo : nat -> bytes -> option sockaddr_in;
  (** [open], [socket], [bind] and [sendto]: the return value *)
  env_open : nat -> Z;
  env_socket : nat -> Z;
  env_bind : nat -> Z;
  env_sendto : nat -> Z;
  (** [ioctl]: the return value and the request block afterwards *)
  env_ioctl : nat -> ioctl_request -> ifreq -> Z * ifreq;
  (** [close]: the value it leaves in [errno], if it changes it *)
  env_close : nat -> option Z;
  (** [recvfrom]: the datagram and its source, or failure *)
  env_recvfrom : nat -> option (bytes * sockaddr_in);
  (** [read] from the TUN descriptor: the packet, or failure *)
  env_tun_read : nat -> option bytes;
  (** [write] to the TUN descriptor: its return value *)
  env_tun_write : nat -> Z;
  (** [poll]: its return value, and POLLIN of the two descriptors *)
  env_poll : nat -> Z * bool * bool;
  (** [errno] after a failed call *)
  env_errno : nat -> Z;
  (** the SIGINT and SIGTERM signals delivered at that call *)
  env_signals : nat -> list Z;
  (** [strerror] *)
  env_strerror : Z -> bytes
}.

Definition M (A : Type) : Type := world -> option (A * world).

#[global] Instance M_ret : MRet M := fun A a w => Some (a, w).
#[global] Instance M_bind : MBind M := fun A B k m w =>
  '(a, w') ← m w; k a w'.

(** Code with undefined behaviour and no effect. *)
Definition lift {A} (m : option A) : M A := fun w => a ← m; Some (a, w).

(** One external call: ask [f] for the answer to call number [w_calls]. *)
Definition ask {A} (f : nat -> A) : M A := fun w =>
  Some (f (w_calls w),
        {| w_calls := S (w_calls w); w_errno := w_errno w; w_log := w_log w; w_trace := w_trace w |}).

(** [errno]. *)
Definition get_errno : M Z := fun w => Some (w_errno w, w).
Definition set_errno (e : Z) : M unit := fun w =>
  Some (tt, {| w_calls := w_calls w; w_errno := e; w_log := w_log w; w_trace := w_trace w |}).

(** The static variables of src/log.c. *)
Definition get_log : M log_state := fun w => Some (w_log w, w).
Definition set_log (l : log_state) : M unit := fun w =>
  Some (tt, {| w_calls := w_calls w; w_errno := w_errno w; w_log := l; w_trace := w_trace w |}).

(** Append a visible action to the trace. *)
Definition emit_event (e : io_event) : M unit := fun w =>
  Some (tt, {| w_calls := w_calls w; w_errno := w_errno w; w_log := w_log w;
               w_trace := w_trace w ++ [e] |}).

(** A system call that answers a number: a negative one sets [errno]. *)
Definition syscall `{Env} (f : nat -> Z) : M Z :=
  rc ← ask f;
  if rc <? 0 then e ← ask env_errno; _ ← set_errno e; mret rc else mret rc.

Lemma M_bind_eq {A B} (m : M A) (k : A -> M B) w :
  (x ← m; k x) w = '(a, w') ← m w; k a w'.
Proof. reflexivity. Qed.

Lemma M_bind_Some {A B} (m : M A) (k : A -> M B) w a w' :
  m w = Some (a, w') -> (x ← m; k x) w = k a w'.
Proof. intros H. by rewrite M_bind_eq, H. Qed.

Lemma M_bind_inv {A B} (m : M A) (k : A -> M B) w r :
  (x ← m; k x) w = Some r -> exists a w', m w = Some (a, w') /\ k a w' = Some r.
Proof. rewrite M_bind_eq. intros ([a w'] & ? & ?)%bind_Some. eauto. Qed.

Lemma lift_inv {A} (m : option A) w a w' :
  lift m w = Some (a, w') -> m = Some a /\ w' = w.
Proof. unfold lift. intros (? & ? & ?)%bind_Some. by simplify_eq. Qed.

Lemma lift_Some {A} (a : A) w : lift (Some a) w = Some (a, w).
Proof. reflexivity. Qed.

Lemma M_bind_lift {A B} (m : option A) (k : A -> M B) w a :
  m = Some a -> (x ← lift m; k x) w = k a w.
Proof. by intros ->. Qed.

(** Open an equation about [M] step by step. *)
Ltac inv_M :=
  repeat match goal with
  | H : mbind _ (M:=M) _ _ = Some _ |- _ => apply M_bind_inv in H as (? & ? & ? & H)
  | H : lift _ _ = Some (_, _) |- _ => apply lift_inv in H as [? ->]
  | H : mret _ _ = Some _ |- _ => injection H as ? ?
  end; simplify_eq/=.

(** Run the primitive steps of a computation in the goal. *)
Ltac run_M :=
  cbv [mbind M_bind option_bind mret M_ret lift ask get_errno set_errno get_log set_log emit_event];
  cbn [fst snd w_calls w_errno w_log w_trace].

(** ** Weakest preconditions

    [wp m Q w]: run in [w], [m] has no undefined behaviour and its result and
    final world satisfy [Q]. *)
Definition wp {A} (m : M A) (Q : A -> world -> Prop) (w : world) : Prop :=
  match m w with
  | Some (a, w') => Q a w'
  | None => False
  end.

Section WP.
  Context {A B : Type}.
  Implicit Types (w : world).

Lemma wp_ret (a : A) (Q : A -> world -> Prop) w : Q a w -> wp (mret a) Q w.
Proof. done. Qed.

Lemma wp_bind (m : M A) (k : A -> M B) Q w :
  wp m (fun a w' => wp (k a) Q w') w -> wp (x ← m; k x) Q w.
Proof. unfold wp. rewrite M_bind_eq. by destruct (m w) as [[a w']|]. Qed.

Lemma wp_mono (m : M A) (P Q : A -> world -> Prop) w :
  wp m P w -> (forall a w', P a w' -> Q a w') -> wp m Q w.
Proof. unfold wp. intros H HPQ. destruct (m w) as [[a w']|]; [by apply HPQ|done]. Qed.

Lemma wp_lift (m : option A) (a : A) Q w : m = Some a -> Q a w -> wp (lift m) Q w.
Proof. by intros ->. Qed.

Lemma wp_exists (m : M A) Q w :
  wp m Q w -> exists a w', m w = Some (a, w') /\ Q a w'.
Proof. unfold wp. destruct (m w) as [[a w']|]; [eauto|done]. Qed.

Lemma wp_run (m : M A) Q w r : wp m Q w -> m w = Some r -> Q r.1 r.2.
Proof. unfold wp. intros H E. rewrite E in H. by destruct r. Qed.

(** A run has one result. *)
Lemma run_det (m : M A) w r a w' : m w = Some r -> m w = Some (a, w') -> a = r.1 /\ w' = r.2.
Proof. intros -> [= ->]. done. Qed.
End WP.

(** The trace without the printed lines. *)
Definition is_wire (e : io_event) : bool :=
  match e with EvPrint _ _ => false | _ => true end.
Definition wire (w : world) : list io_event := filter is_wire (w_trace w).

Lemma wire_emit w e :
  filter is_wire (w_trace w ++ [e]) = wire w ++ if is_wire e then [e] else [].
Proof. unfold wire. rewrite filter_app. by destruct e. Qed.

(** Steps that leave the wire and [errno] alone, and those that only leave the
    wire alone. *)
Lemma wp_ask {A} (f : nat -> A) Q w :
  (forall w', wire w' = wire w -> w_errno w' = w_errno w -> Q (f (w_calls w)) w') -> wp (ask f) Q w.
Proof. intros H. by apply H. Qed.

Lemma wp_get_errno Q w : Q (w_errno w) w -> wp get_errno Q w.
Proof. done. Qed.

Lemma wp_set_errno e Q w :
  (forall w', wire w' = wire w -> w_errno w' = e -> Q tt w') -> wp (set_errno e) Q w.
Proof. intros H. by apply H. Qed.

Lemma wp_emit e Q w :
  (forall w', wire w' = wire w ++ (if is_wire e then [e] else []) -> w_errno w' = w_errno w -> Q tt w') ->
  wp (emit_event e) Q w.
Proof. intros H. apply H; [apply wire_emit|done]. Qed.

Lemma wp_syscall `{Env} (f : nat -> Z) Q w :
  (forall rc w', wire w' = wire w -> Q rc w') -> wp (syscall f) Q w.
Proof.
  intros HQ. unfold syscall. apply wp_bind, wp_ask. intros w1 E1 _. destruct (_ <? 0).
  - apply wp_bind, wp_ask. intros w2 E2 _. apply wp_bind, wp_set_errno. intros w3 E3 _.
    apply wp_ret, HQ. congruence.
  - by apply wp_ret, HQ.
Qed.
