(* ===== verification/Crypto.v ===== *)
(** * src/crypto.c: the libsodium wrapper

    libsodium is a parameter ([Sodium]); what the source relies on of it is
    the class [SodiumLaws], documented behaviour of its API.  The definitions
    follow src/crypto.c function by function: an output buffer is the list of
    its bytes, whose length is the capacity the caller passes as [out_len],
    and an operation returns the C return value with the buffer's contents
    afterwards. *)

From S2P Require Import Prelude World.

(** ** Constants and types of include/crypto.h *)
Definition CRYPTO_PUBLIC_KEY_BYTES : nat := 32.
Definition CRYPTO_SECRET_KEY_BYTES : nat := 32.
Definition CRYPTO_SESSION_KEY_BYTES : nat := 32.
Definition CRYPTO_COUNTER_BYTES : nat := 8.
Definition CRYPTO_TAG_BYTES : nat := 16.
Definition CRYPTO_PACKET_OVERHEAD : nat := CRYPTO_COUNTER_BYTES + CRYPTO_TAG_BYTES.
Definition CRYPTO_KEY_TEXT_LEN : nat := 45.
(** [crypto_aead_chacha20poly1305_ietf_NPUBBYTES] *)
Definition NPUBBYTES : nat := 12.

Record crypto_session_keys_t := {
  rx : bytes;
  tx : bytes
}.

Inductive crypto_role_t :=
| CRYPTO_ROLE_INITIATOR
| CRYPTO_ROLE_RESPONDER.

#[global] Instance crypto_role_t_eq_dec : EqDecision crypto_role_t.
Proof. solve_decision. Defined.
#[global] Instance crypto_session_keys_t_eq_dec : EqDecision crypto_session_keys_t.
Proof. solve_decision. Defined.

(** ** libsodium

    Each function returns its C return value and the bytes it stores in its
    output arguments.  The key exchange also receives the previous contents
    of its output, so that nothing is assumed about them when it fails. *)
Class Sodium := {
  sodium_init : Z;
  crypto_scalarmult_base : bytes -> bytes;
  crypto_kx_client_session_keys :
    crypto_session_keys_t -> bytes -> bytes -> bytes -> Z * crypto_session_keys_t;
  crypto_kx_server_session_keys :
    crypto_session_keys_t -> bytes -> bytes -> bytes -> Z * crypto_session_keys_t;
  (** plaintext, nonce, key *)
  aead_encrypt : bytes -> bytes -> bytes -> Z * bytes;
  (** ciphertext, nonce, key *)
  aead_decrypt : bytes -> bytes -> bytes -> Z * bytes;
  (** [sodium_bin2base64]: the text stored, without its NUL *)
  sodium_bin2base64 : bytes -> bytes;
  (** [sodium_base642bin]: capacity and text; the return value, the bytes
      stored and the decoded length reported *)
  sodium_base642bin : nat -> bytes -> Z * bytes * nat
}.

Definition swap_keys (k : crypto_session_keys_t) : crypto_session_keys_t :=
  {| rx := tx k; tx := rx k |}.

Definition keys_wf (k : crypto_session_keys_t) : Prop :=
  length (rx k) = CRYPTO_SESSION_KEY_BYTES /\ length (tx k) = CRYPTO_SESSION_KEY_BYTES.

(** Documented behaviour of libsodium.
    - AEAD: encryption never fails and appends [ABYTES] (16) bytes; decryption
      of what was encrypted under the same key and nonce gives the plaintext
      back, and it stores at most the plaintext's size, on failure too; a
      ciphertext that verifies is the encryption of its decryption (the cipher
      is a keystream, the tag a function of the ciphertext).
    - key exchange: the two sides of an exchange between honest pairs succeed
      together and obtain each other's keys swapped; all keys are 32 bytes.
    - base64: encoding takes 4 printable characters per started group of 3 bytes;
      decoding stores at most the capacity it is given, reports how much it
      stored, and inverts encoding. *)
Class SodiumLaws `{Sodium} := {
  aead_encrypt_rc p n k : (aead_encrypt p n k).1 = 0;
  aead_encrypt_length p n k :
    length (aead_encrypt p n k).2 = (length p + CRYPTO_TAG_BYTES)%nat;
  aead_encrypt_bytes p n k : is_bytes p -> is_bytes (aead_encrypt p n k).2;
  aead_decrypt_bytes c n k : is_bytes c -> is_bytes (aead_decrypt c n k).2;
  aead_decrypt_length c n k :
    (length (aead_decrypt c n k).2 <= length c - CRYPTO_TAG_BYTES)%nat;
  aead_decrypt_encrypt p n k :
    aead_decrypt (aead_encrypt p n k).2 n k = (0, p);
  aead_decrypt_sound c n k :
    (aead_decrypt c n k).1 = 0 ->
    (CRYPTO_TAG_BYTES <= length c)%nat ->
    c = (aead_encrypt (aead_decrypt c n k).2 n k).2;
  kx_agree old old' sk_c sk_s :
    let pk_c := crypto_scalarmult_base sk_c in
    let pk_s := crypto_scalarmult_base sk_s in
    (crypto_kx_client_session_keys old pk_c sk_c pk_s).1 = 0 ->
    crypto_kx_server_session_keys old' pk_s sk_s pk_c =
      (0, swap_keys (crypto_kx_client_session_keys old pk_c sk_c pk_s).2);
  kx_client_wf old pk sk rpk :
    keys_wf old -> keys_wf (crypto_kx_client_session_keys old pk sk rpk).2;
  kx_server_wf old pk sk rpk :
    keys_wf old -> keys_wf (crypto_kx_server_session_keys old pk sk rpk).2;
  scalarmult_base_length sk :
    length (crypto_scalarmult_base sk) = CRYPTO_PUBLIC_KEY_BYTES;
  scalarmult_base_bytes sk : is_bytes sk -> is_bytes (crypto_scalarmult_base sk);
  base642bin_fits n t : (length (sodium_base642bin n t).1.2 <= n)%nat;
  base642bin_reports n t :
    (sodium_base642bin n t).1.1 = 0 ->
    (sodium_base642bin n t).2 = length (sodium_base642bin n t).1.2;
  bin2base64_length b :
    length (sodium_bin2base64 b) = (4 * ((length b + 2) / 3))%nat;
  bin2base64_graphic b : is_bytes b -> Forall (fun c => 32 < c < 127) (sodium_bin2base64 b);
  base642bin_bin2base64 b n :
    is_bytes b -> (length b <= n)%nat ->
    sodium_base642bin n (sodium_bin2base64 b) = (0, b, length b)
}.

(** [crypto_kx_keypair] gives a secret key of 32 bytes and the matching public
    key, a multiple of the base point. *)
Class EnvLaws `{Sodium} `{Env} := {
  env_keypair_matches n : (env_keypair n).1 = crypto_scalarmult_base (env_keypair n).2;
  env_keypair_sk_length n : length (env_keypair n).2 = CRYPTO_SECRET_KEY_BYTES;
  env_keypair_sk_bytes n : is_bytes (env_keypair n).2
}.

(** ** Little-endian counters *)

(** [for (i = 0; i < 8; i++) out[i] = (unsigned char)(counter >> (8 * i))],
    the loop that both [build_nonce] and [crypto_seal] contain. *)
Definition store_counter (counter : Z) (out : bytes) : option bytes :=
  foldM (fun out i => buf_set i (u8 (Z.shiftr counter (8 * Z.of_nat i))) out)
        out (seq 0 CRYPTO_COUNTER_BYTES).

(** [for (i = 0; i < 8; i++) counter |= (uint64_t)in[i] << (8 * i)]. *)
Definition load_counter (inp : bytes) : option Z :=
  foldM (fun counter i =>
           b ← inp !! i;
           Some (Z.lor counter (u64 (Z.shiftl b (8 * Z.of_nat i)))))
        0 (seq 0 CRYPTO_COUNTER_BYTES).

Definition build_nonce (counter : Z) : option bytes :=
  store_counter counter (replicate NPUBBYTES 0).

Section Crypto.
  Context `{SO : Sodium} `{EV : Env}.

(** ** Operations *)
Definition crypto_init : Z := if sodium_init <? 0 then -1 else 0.

Definition crypto_generate_keypair : M (bytes * bytes) := ask env_keypair.

Definition crypto_derive_public_key (sk : bytes) : bytes := crypto_scalarmult_base sk.

Definition crypto_derive_session_keys (role : crypto_role_t)
    (local_pk local_sk remote_pk : bytes) (out : crypto_session_keys_t) :
    Z * crypto_session_keys_t :=
  let '(rc, out') :=
    if decide (role = CRYPTO_ROLE_INITIATOR)
    then crypto_kx_client_session_keys out local_pk local_sk remote_pk
    else crypto_kx_server_session_keys out local_pk local_sk remote_pk in
  (if rc =? 0 then 0 else -1, out').

(** [out_len] bytes are available; [sodium_bin2base64] terminates the text
    with a NUL. *)
Definition crypto_encode_base64 (data out : bytes) : option bytes :=
  buf_write 0 (sodium_bin2base64 data ++ [0]) out.

Definition crypto_decode_base64 (text out : bytes) : option (Z * bytes) :=
  let expected_len := length out in
  let '(rc, stored, decoded_len) := sodium_base642bin expected_len text in
  out' ← buf_write 0 stored out;
  if negb (rc =? 0) then Some (-1, out')
  else if negb (Nat.eqb decoded_len expected_len) then Some (-1, out')
  else Some (0, out').

Definition crypto_seal (key : bytes) (counter : Z) (plaintext out : bytes) :
    option (Z * bytes) :=
  if zlen out <? u64 (zlen plaintext + Z.of_nat CRYPTO_PACKET_OVERHEAD) then
    Some (-1, out)
  else
    nonce ← build_nonce counter;
    out ← store_counter counter out;
    let '(rc, ciphertext) := aead_encrypt plaintext nonce key in
    out ← buf_write CRYPTO_COUNTER_BYTES ciphertext out;
    if negb (rc =? 0) then Some (-1, out)
    else Some (Z.of_nat CRYPTO_COUNTER_BYTES + zlen ciphertext, out).

(** Returns the C return value, [out], and [*counter_out]. *)
Definition crypto_open (key inp out : bytes) (counter_out : Z) :
    option (Z * bytes * Z) :=
  if zlen inp <? Z.of_nat CRYPTO_PACKET_OVERHEAD then Some (-1, out, counter_out)
  else
    counter ← load_counter inp;
    nonce ← build_nonce counter;
    let ciphertext_len := u64 (zlen inp - Z.of_nat CRYPTO_COUNTER_BYTES) in
    if zlen out <? u64 (ciphertext_len - Z.of_nat CRYPTO_TAG_BYTES) then
      Some (-1, out, counter_out)
    else
      let '(rc, plaintext) := aead_decrypt (drop CRYPTO_COUNTER_BYTES inp) nonce key in
      out ← buf_write 0 plaintext out;
      if negb (rc =? 0) then Some (-1, out, counter_out)
      else Some (zlen plaintext, out, counter).

(** [crypto_wipe(buf, len)] on a buffer of [length buf] bytes. *)
Definition crypto_wipe (buf : bytes) : bytes := replicate (length buf) 0.

End Crypto.

(** ** The counter encoding *)

(** The first [n] little-endian bytes of [x]: the reference encoding. *)
Fixpoint le_bytes (n : nat) (x : Z) : bytes :=
  match n with
  | O => []
  | S n => u8 x :: le_bytes n (Z.shiftr x 8)
  end.

(** The number a little-endian byte sequence denotes. *)
Fixpoint le_value (l : bytes) : Z :=
  match l with
  | [] => 0
  | b :: l => b + 256 * le_value l
  end.

Definition nonce_of (counter : Z) : bytes := le_bytes 8 counter ++ replicate 4 0.

Lemma le_bytes_length n x : length (le_bytes n x) = n.
Proof. revert x. induction n; intros; simpl; auto. Qed.

Lemma le_bytes_is_bytes n x : is_bytes (le_bytes n x).
Proof. revert x. induction n; intros; simpl; constructor; [auto with edgar|apply IHn]. Qed.

Lemma le_value_bounds l : is_bytes l -> 0 <= le_value l < 256 ^ zlen l.
Proof.
  induction 1 as [|b l Hb Hl IH]; [simpl; lia|].
  cbn [le_value length]. rewrite Nat2Z.inj_succ, Z.pow_succ_r by lia.
  unfold is_byte in Hb. nia.
Qed.

Lemma le_value_le_bytes n x : le_value (le_bytes n x) = x mod 256 ^ Z.of_nat n.
Proof.
  revert x. induction n as [|n IH]; intros x; simpl le_value; [by rewrite Z.mod_1_r|].
  cbn [le_value]. rewrite IH, Nat2Z.inj_succ, Z.pow_succ_r by lia.
  rewrite Z.shiftr_div_pow2 by lia. unfold u8. change (2 ^ 8) with 256.
  pose proof (Z.pow_pos_nonneg 256 (Z.of_nat n) ltac:(lia) ltac:(lia)).
  rewrite (Z.rem_mul_r x 256) by lia. lia.
Qed.

Lemma le_bytes_le_value l : is_bytes l -> le_bytes (length l) (le_value l) = l.
Proof.
  induction 1 as [|b l Hb Hl IH]; [done|].
  cbn [le_value length le_bytes]. unfold is_byte in Hb. f_equal.
  - unfold u8. change (2 ^ 8) with 256. rewrite Z.mul_comm, Z.mod_add by lia.
    apply Z.mod_small; lia.
  - rewrite Z.shiftr_div_pow2 by lia. change (2 ^ 8) with 256.
    rewrite Z.mul_comm, Z.div_add, Z.div_small by lia. by rewrite Z.add_0_l.
Qed.

Lemma le_bytes_inj n x y :
  0 <= x < 256 ^ Z.of_nat n -> 0 <= y < 256 ^ Z.of_nat n ->
  le_bytes n x = le_bytes n y -> x = y.
Proof.
  intros Hx Hy E. apply (f_equal le_value) in E.
  rewrite !le_value_le_bytes, !Z.mod_small in E; lia.
Qed.

Lemma store_counter_eq counter out :
  (8 <= length out)%nat ->
  store_counter counter out = Some (le_bytes 8 counter ++ drop 8 out).
Proof.
  intros Hlen. unfold store_counter.
  do 8 (destruct out as [|? out]; [simpl in Hlen; lia|]).
  cbn -[u8 Z.shiftr Z.of_nat Z.mul]. repeat (unfold buf_set; rewrite decide_True by (simpl; lia); cbn -[u8 Z.shiftr Z.of_nat Z.mul]).
  rewrite !Z.shiftr_shiftr by lia. rewrite drop_0. reflexivity.
Qed.

(** Adding a value above the bits in use is [lor]-ing it in. *)
Lemma lor_shiftl_add a b k :
  0 <= k -> 0 <= a < 2 ^ k -> Z.lor a (Z.shiftl b k) = a + b * 2 ^ k.
Proof.
  intros Hk Ha.
  assert (Z.land a (Z.shiftl b k) = 0) as Hd.
  { apply Z.bits_inj'; intros n Hn. rewrite Z.land_spec, Z.bits_0.
    destruct (Z_lt_le_dec n k).
    - rewrite Z.shiftl_spec_low by lia. apply andb_false_r.
    - rewrite (testbit_above a k n) by lia. done. }
  rewrite <- (Z.lxor_lor _ _ Hd), <- (Z.add_nocarry_lxor _ _ Hd).
  by rewrite Z.shiftl_mul_pow2.
Qed.

Lemma load_counter_eq l rest :
  is_bytes l -> length l = 8%nat -> load_counter (l ++ rest) = Some (le_value l).
Proof.
  intros Hb Hlen. unfold load_counter.
  do 8 (destruct l as [|? l]; [done|]; inv_bytes).
  destruct l; [|done]. unfold is_byte in *.
  cbn -[u64 Z.shiftl Z.lor Z.of_nat Z.mul le_value].
  cbv [Z.of_nat Pos.of_succ_nat Pos.succ Z.mul Pos.mul Pos.add].
  repeat match goal with
  | |- context [u64 (Z.shiftl ?b ?k)] =>
      rewrite (u64_small (Z.shiftl b k))
        by (unfold is_u64; rewrite Z.shiftl_mul_pow2; lia)
  end.
  f_equal. cbn [le_value]. rewrite Z.shiftl_0_r, Z.lor_0_l.
  repeat match goal with
  | |- context [Z.lor ?a (Z.shiftl ?b ?k)] =>
      lazymatch a with
      | context [Z.lor] => fail
      | _ => rewrite (lor_shiftl_add a b k) by lia
      end
  end.
  lia.
Qed.

Lemma build_nonce_eq counter : build_nonce counter = Some (nonce_of counter).
Proof. unfold build_nonce. rewrite store_counter_eq by (rewrite length_replicate; unfold NPUBBYTES; lia). reflexivity. Qed.

Lemma load_le_bytes counter rest :
  is_u64 counter -> load_counter (le_bytes 8 counter ++ rest) = Some counter.
Proof.
  intros Hc. rewrite load_counter_eq by (auto using le_bytes_is_bytes, le_bytes_length).
  rewrite le_value_le_bytes. f_equal. apply Z.mod_small. exact Hc.
Qed.

#[global] Arguments le_bytes : simpl never.
#[global] Arguments nonce_of : simpl never.

(** ** What sealing and opening do *)

Section CryptoFacts.
  Context `{SO : Sodium} {SL : SodiumLaws}.

(** The packet [counter || ciphertext || tag] of docs/CRYPTOGRAPHY.md. *)
Definition sealed_packet (key : bytes) (counter : Z) (plaintext : bytes) : bytes :=
  le_bytes 8 counter ++ (aead_encrypt plaintext (nonce_of counter) key).2.

Lemma sealed_packet_length key counter p :
  length (sealed_packet key counter p) = (length p + 24)%nat.
Proof.
  unfold sealed_packet. rewrite length_app, le_bytes_length, aead_encrypt_length.
  unfold CRYPTO_TAG_BYTES. lia.
Qed.

Lemma sealed_packet_bytes key counter p :
  is_bytes p -> is_bytes (sealed_packet key counter p).
Proof. intros. apply is_bytes_app. split; [apply le_bytes_is_bytes|by apply aead_encrypt_bytes]. Qed.

Lemma crypto_seal_ok key counter p out :
  zlen p + 24 < 2 ^ 64 -> (length p + 24 <= length out)%nat ->
  crypto_seal key counter p out =
    Some (zlen p + 24, sealed_packet key counter p ++ drop (length p + 24) out).
Proof.
  intros Hp Hlen. unfold crypto_seal, CRYPTO_PACKET_OVERHEAD, CRYPTO_COUNTER_BYTES, CRYPTO_TAG_BYTES.
  rewrite u64_small by (unfold is_u64; lia).
  rewrite (proj2 (Z.ltb_ge _ _)) by lia.
  rewrite build_nonce_eq, store_counter_eq by lia. cbn [mbind option_bind].
  pose proof (aead_encrypt_rc p (nonce_of counter) key) as Hrc.
  pose proof (aead_encrypt_length p (nonce_of counter) key) as Hl.
  unfold CRYPTO_TAG_BYTES in Hl.
  unfold sealed_packet. destruct (aead_encrypt _ _ _) as [rc c]. cbn [fst snd] in *. subst rc.
  rewrite buf_write_ok by (rewrite length_app, le_bytes_length, length_drop; lia).
  cbn [mbind option_bind Z.eqb negb].
  rewrite take_app_le, drop_app_ge, take_ge by (rewrite le_bytes_length; lia).
  rewrite <- app_assoc, le_bytes_length, drop_drop, Hl.
  do 2 f_equal; [lia|]. do 3 f_equal. lia.
Qed.

Lemma crypto_seal_short key counter p out :
  zlen p + 24 < 2 ^ 64 -> (length out < length p + 24)%nat ->
  crypto_seal key counter p out = Some (-1, out).
Proof.
  intros Hp Hlen. unfold crypto_seal, CRYPTO_PACKET_OVERHEAD, CRYPTO_COUNTER_BYTES, CRYPTO_TAG_BYTES.
  rewrite u64_small by (unfold is_u64; lia).
  by rewrite (proj2 (Z.ltb_lt _ _)) by lia.
Qed.

(** [crypto_open] on any datagram, branch by branch. *)
Lemma crypto_open_eq key inp out c0 :
  is_bytes (take 8 inp) -> zlen inp < 2 ^ 64 ->
  crypto_open key inp out c0 =
    if decide (length inp < 24)%nat then Some (-1, out, c0)
    else if decide (length out < length inp - 24)%nat then Some (-1, out, c0)
    else
      let counter := le_value (take 8 inp) in
      let '(rc, p) := aead_decrypt (drop 8 inp) (nonce_of counter) key in
      let out' := p ++ drop (length p) out in
      Some (if decide (rc = 0) then (zlen p, out', counter) else (-1, out', c0)).
Proof.
  intros Hb Hlen. unfold crypto_open, CRYPTO_PACKET_OVERHEAD, CRYPTO_COUNTER_BYTES, CRYPTO_TAG_BYTES.
  case_decide as H24; [by rewrite (proj2 (Z.ltb_lt _ _)) by lia|].
  rewrite (proj2 (Z.ltb_ge _ _)) by lia.
  assert (load_counter inp = Some (le_value (take 8 inp))) as ->.
  { rewrite <- (take_drop 8 inp) at 1. apply load_counter_eq.
    - done.
    - rewrite length_take. lia. }
  cbn [mbind option_bind]. rewrite build_nonce_eq. cbn [mbind option_bind].
  rewrite (u64_small (zlen inp - _)) by (unfold is_u64; lia).
  rewrite u64_small by (unfold is_u64; lia).
  case_decide as Hout; [by rewrite (proj2 (Z.ltb_lt _ _)) by lia|].
  rewrite (proj2 (Z.ltb_ge _ _)) by lia.
  pose proof (aead_decrypt_length (drop 8 inp) (nonce_of (le_value (take 8 inp))) key) as Hl.
  unfold CRYPTO_TAG_BYTES in Hl. rewrite length_drop in Hl.
  destruct (aead_decrypt _ _ _) as [rc p]. simpl in Hl |- *.
  rewrite buf_write_ok by (simpl; lia). simpl.
  by destruct (Z.eqb_spec rc 0); simpl; [rewrite decide_True|rewrite decide_False].
Qed.

(** Opening a sealed packet under its key. *)
Lemma crypto_open_sealed key counter p out c0 :
  is_u64 counter -> zlen p + 24 < 2 ^ 64 -> (length p <= length out)%nat ->
  crypto_open key (sealed_packet key counter p) out c0 =
    Some (zlen p, p ++ drop (length p) out, counter).
Proof.
  intros Hc Hp Hout.
  assert (take 8 (sealed_packet key counter p) = le_bytes 8 counter) as E8
    by (apply take_app_length'; by rewrite le_bytes_length).
  assert (drop 8 (sealed_packet key counter p) = (aead_encrypt p (nonce_of counter) key).2) as D8
    by (apply drop_app_length'; by rewrite le_bytes_length).
  rewrite crypto_open_eq, E8, D8 by
    (rewrite ?E8, ?sealed_packet_length; auto using le_bytes_is_bytes; lia).
  rewrite sealed_packet_length, !decide_False by lia.
  rewrite le_value_le_bytes. change (256 ^ Z.of_nat 8) with (2 ^ 64).
  rewrite Z.mod_small by done. cbv zeta.
  by rewrite aead_decrypt_encrypt.
Qed.

(** What a successful or failed [crypto_open] implies. *)
Lemma crypto_open_inv key inp out c0 r out' c :
  is_bytes inp -> zlen inp < 2 ^ 64 ->
  crypto_open key inp out c0 = Some (r, out', c) ->
  (r = -1 /\ c = c0) \/
  exists p, r = zlen p /\ out' = p ++ drop (length p) out /\
    is_u64 c /\ inp = sealed_packet key c p /\ (length p <= length out)%nat.
Proof.
  intros Hb Hlen. rewrite crypto_open_eq by (auto; by apply Forall_take).
  destruct (decide _) as [|H24]; [intros; simplify_eq; auto|].
  destruct (decide _) as [|Hout]; [intros; simplify_eq; auto|].
  pose proof (aead_decrypt_sound (drop 8 inp) (nonce_of (le_value (take 8 inp))) key) as Hs.
  pose proof (aead_decrypt_length (drop 8 inp) (nonce_of (le_value (take 8 inp))) key) as Hl.
  cbv zeta. destruct (aead_decrypt _ _ _) as [rc p]. cbn [fst snd] in *.
  destruct (decide (rc = 0)); intros E; simplify_eq; [right|auto].
  unfold CRYPTO_TAG_BYTES in *. rewrite length_drop in Hs, Hl.
  exists p. split; [done|]. split; [done|]. split; [|split; [|lia]].
  - pose proof (le_value_bounds (take 8 inp) ltac:(by apply Forall_take)) as Hv.
    rewrite length_take, Nat.min_l in Hv by lia. exact Hv.
  - unfold sealed_packet. rewrite <- Hs by (done || lia).
    assert (le_bytes 8 (le_value (take 8 inp)) = take 8 inp) as ->.
    { rewrite <- (le_bytes_le_value (take 8 inp)) at 2 by (by apply Forall_take).
      rewrite length_take. f_equal. lia. }
    by rewrite take_drop.
Qed.

(** [crypto_open] has no undefined behaviour and keeps the capacity of [out]. *)
Lemma crypto_open_total key inp out c0 :
  is_bytes inp -> zlen inp < 2 ^ 64 ->
  exists r out' c, crypto_open key inp out c0 = Some (r, out', c) /\ length out' = length out.
Proof.
  intros Hb Hlen. rewrite crypto_open_eq by (auto; by apply Forall_take).
  case_decide; [by eauto 10|]. case_decide; [by eauto 10|].
  pose proof (aead_decrypt_length (drop 8 inp) (nonce_of (le_value (take 8 inp))) key) as Hl.
  cbv zeta. destruct (aead_decrypt _ _ _) as [rc p]. cbn [fst snd] in *.
  unfold CRYPTO_TAG_BYTES in *. rewrite length_drop in Hl.
  case_decide; do 3 eexists; (split; [reflexivity|]);
    rewrite length_app, length_drop; lia.
Qed.

Lemma sealed_packet_inj key c c' p p' :
  is_u64 c -> is_u64 c' -> zlen p + 24 < 2 ^ 64 -> zlen p' + 24 < 2 ^ 64 ->
  sealed_packet key c p = sealed_packet key c' p' -> c = c' /\ p = p'.
Proof.
  intros Hc Hc' Hp Hp' E.
  assert (length p = length p') as L.
  { apply (f_equal length) in E. rewrite !sealed_packet_length in E. lia. }
  pose proof (crypto_open_sealed key c p (replicate (length p) 0) 0 Hc Hp
    ltac:(rewrite length_replicate; lia)) as O.
  rewrite E, crypto_open_sealed in O by (try rewrite length_replicate; auto; lia).
  rewrite !drop_ge, !app_nil_r in O by (rewrite length_replicate; lia).
  by simplify_eq.
Qed.
End CryptoFacts.

#[global] Arguments sealed_packet : simpl never.
#[global] Opaque le_bytes.
