(* ===== verification/Toy.v ===== *)
(** * A concrete libsodium and outside world

    An executable instance of the parameters [Sodium] and [Env], with proofs
    of their laws: it shows that the hypotheses of the theorems can hold, and
    the witnesses evaluate the model on it.  The base64 codec is the real one
    (original variant, padded); the authenticated cipher leaves the plaintext
    as it is and appends a 16-byte checksum of key, nonce and plaintext; the
    key exchange adds the two keys byte by byte. *)

From Stdlib Require Import String.
From S2P Require Import Prelude World Crypto.
Open Scope list_scope.

(** ** Base64 *)
Definition b64_enc (x : Z) : Z :=
  if x <? 26 then 65 + x
  else if x <? 52 then 97 + (x - 26)
  else if x <? 62 then 48 + (x - 52)
  else if x =? 62 then 43 else 47.

Definition b64_dec (c : Z) : option Z :=
  if (65 <=? c) && (c <=? 90) then Some (c - 65)
  else if (97 <=? c) && (c <=? 122) then Some (c - 97 + 26)
  else if (48 <=? c) && (c <=? 57) then Some (c - 48 + 52)
  else if c =? 43 then Some 62
  else if c =? 47 then Some 63
  else None.

Fixpoint b64_encode (l : bytes) : bytes :=
  match l with
  | a :: b :: c :: l =>
      b64_enc (a / 4) :: b64_enc (a mod 4 * 16 + b / 16)
      :: b64_enc (b mod 16 * 4 + c / 64) :: b64_enc (c mod 64) :: b64_encode l
  | [a; b] => [b64_enc (a / 4); b64_enc (a mod 4 * 16 + b / 16); b64_enc (b mod 16 * 4); 61]
  | [a] => [b64_enc (a / 4); b64_enc (a mod 4 * 16); 61; 61]
  | [] => []
  end.

(** The last group may be padded with one or two '='. *)
Definition b64_last (c1 c2 c3 : Z) : option bytes :=
  x ← b64_dec c1; y ← b64_dec c2;
  if c3 =? 61 then
    if y mod 16 =? 0 then Some [x * 4 + y / 16] else None
  else
    z ← b64_dec c3;
    if z mod 4 =? 0 then Some [x * 4 + y / 16; y mod 16 * 16 + z / 4] else None.

Fixpoint b64_decode (t : bytes) : option bytes :=
  match t with
  | [] => Some []
  | c1 :: c2 :: c3 :: c4 :: t =>
      if (c4 =? 61) && bool_decide (t = []) then b64_last c1 c2 c3
      else
        x ← b64_dec c1; y ← b64_dec c2; z ← b64_dec c3; v ← b64_dec c4;
        l ← b64_decode t;
        Some (x * 4 + y / 16 :: y mod 16 * 16 + z / 4 :: z mod 4 * 64 + v :: l)
  | _ => None
  end.

Lemma b64_dec_enc x : 0 <= x < 64 -> b64_dec (b64_enc x) = Some x.
Proof.
  intros Hx.
  assert (forall n, (n < 64)%nat -> b64_dec (b64_enc (Z.of_nat n)) = Some (Z.of_nat n)) as H.
  { intros n Hn. do 64 (destruct n as [|n]; [vm_compute; reflexivity|]). lia. }
  specialize (H (Z.to_nat x) ltac:(lia)). by rewrite Z2Nat.id in H by lia.
Qed.

Lemma b64_enc_not_pad x : 0 <= x < 64 -> b64_enc x <> 61.
Proof. intros Hx E. pose proof (b64_dec_enc x Hx) as H. rewrite E in H. done. Qed.

(** Induction three bytes at a time, as the encoder recurses. *)
Lemma list_ind3 {A} (P : list A -> Prop) :
  P [] -> (forall a, P [a]) -> (forall a b, P [a; b]) ->
  (forall a b c l, P l -> P (a :: b :: c :: l)) -> forall l, P l.
Proof.
  intros H0 H1 H2 H3. enough (forall n l, (length l <= n)%nat -> P l) as H.
  { intros l. by apply (H (length l)). }
  induction n as [|n IH]; intros [|a [|b [|c l]]] Hl; simpl in Hl; try lia; auto.
  apply H3, IH. lia.
Qed.

Lemma b64_encode_length l : length (b64_encode l) = (4 * ((length l + 2) / 3))%nat.
Proof.
  induction l as [|a|a b|a b c l IH] using list_ind3; try reflexivity.
  cbn [b64_encode length]. rewrite IH.
  replace (S (S (S (length l))) + 2)%nat with (length l + 2 + 1 * 3)%nat by lia.
  rewrite Nat.div_add by lia. lia.
Qed.

Ltac b64_arith := unfold is_byte in *; Z.to_euclidean_division_equations; lia.

Lemma b64_enc_graphic x : 0 <= x < 64 -> 32 < b64_enc x < 127.
Proof. intros Hx. unfold b64_enc. repeat case_match; lia. Qed.

Lemma b64_encode_graphic l : is_bytes l -> Forall (fun c => 32 < c < 127) (b64_encode l).
Proof.
  induction l as [| | |a b c l IH] using list_ind3; intros Hl; inv_bytes; cbn [b64_encode];
    unfold is_byte in *;
    repeat (constructor; [try lia; apply b64_enc_graphic; Z.to_euclidean_division_equations; lia|]);
    [constructor..|by apply IH].
Qed.

Lemma b64_decode_encode l : is_bytes l -> b64_decode (b64_encode l) = Some l.
Proof.
  induction l as [|a|a b|a b c l IH] using list_ind3; intros Hb;
    inv_bytes; [done|..]; cbn [b64_encode b64_decode].
  - rewrite Z.eqb_refl, bool_decide_true by done. cbn [andb]. unfold b64_last.
    rewrite !b64_dec_enc by b64_arith. cbn [mbind option_bind]. rewrite Z.eqb_refl.
    rewrite (proj2 (Z.eqb_eq _ _)) by b64_arith. do 2 f_equal. b64_arith.
  - rewrite Z.eqb_refl, bool_decide_true by done. cbn [andb]. unfold b64_last.
    rewrite !b64_dec_enc by b64_arith. cbn [mbind option_bind].
    rewrite (proj2 (Z.eqb_neq _ _)) by (apply b64_enc_not_pad; b64_arith).
    rewrite (proj2 (Z.eqb_eq _ _)) by b64_arith. repeat f_equal; b64_arith.
  - rewrite (proj2 (Z.eqb_neq _ _)) by (apply b64_enc_not_pad; b64_arith). cbn [andb].
    rewrite !b64_dec_enc by b64_arith. cbn [mbind option_bind].
    rewrite IH by done. cbn [mbind option_bind]. repeat f_equal; b64_arith.
Qed.

(** ** The cipher and the key exchange *)
Definition toy_hash (l : bytes) : Z := foldl (fun h b => h * 31 + b + 1) 7 l.

Definition toy_tag (p n k : bytes) : bytes := le_bytes 16 (toy_hash (k ++ n ++ p)).

Definition toy_decrypt (c n k : bytes) : Z * bytes :=
  let m := (length c - 16)%nat in
  if decide (drop m c = toy_tag (take m c) n k) then (0, take m c) else (-1, []).

(** The public key of a secret one is never zero, as X25519's is not. *)
Definition toy_base (sk : bytes) : bytes :=
  if decide (resize 32 0 sk = replicate 32 0) then replicate 32 1 else resize 32 0 sk.

Definition toy_shared (sk pk : bytes) : bytes := zip_with (fun a b => u8 (a + b)) (toy_base sk) pk.

(** The exchange refuses a zero public key. *)
Definition toy_kx (first second : Z) (old : crypto_session_keys_t) (pk sk rpk : bytes) :
    Z * crypto_session_keys_t :=
  if decide (pk = replicate 32 0 \/ rpk = replicate 32 0) then (-1, old)
  else (0, {| rx := resize 32 0 (first :: toy_shared sk rpk);
              tx := resize 32 0 (second :: toy_shared sk rpk) |}).

Definition toy_base642bin (n : nat) (t : bytes) : Z * bytes * nat :=
  match b64_decode t with
  | Some b => if decide (length b <= n)%nat then (0, b, length b) else (-1, take n b, 0%nat)
  | None => (-1, [], 0%nat)
  end.

#[global] Instance toy_sodium : Sodium := {
  sodium_init := 0;
  crypto_scalarmult_base := toy_base;
  crypto_kx_client_session_keys := toy_kx 1 2;
  crypto_kx_server_session_keys := toy_kx 2 1;
  aead_encrypt p n k := (0, p ++ toy_tag p n k);
  aead_decrypt := toy_decrypt;
  sodium_bin2base64 := b64_encode;
  sodium_base642bin := toy_base642bin
}.

Lemma toy_shared_comm a b :
  toy_shared a (toy_base b) = toy_shared b (toy_base a).
Proof.
  unfold toy_shared. generalize (toy_base a), (toy_base b). clear a b.
  intros l. induction l as [|x l IH]; intros [|y k]; simpl; try done.
  by rewrite IH, Z.add_comm.
Qed.

Lemma toy_base_nonzero sk : toy_base sk <> replicate 32 0.
Proof. unfold toy_base. by case_decide. Qed.

#[global] Instance toy_laws : SodiumLaws.
Proof.
  split; simpl.
  - done.
  - intros. rewrite length_app. unfold toy_tag. by rewrite le_bytes_length.
  - intros. apply is_bytes_app. split; [done|apply le_bytes_is_bytes].
  - intros c n k Hc. unfold toy_decrypt. case_decide; [by apply Forall_take|constructor].
  - intros. unfold toy_decrypt, CRYPTO_TAG_BYTES. case_decide; simpl; rewrite ?length_take; lia.
  - intros p n k. unfold toy_decrypt. rewrite length_app.
    replace (length p + length (toy_tag p n k) - 16)%nat with (length p)
      by (unfold toy_tag; rewrite le_bytes_length; lia).
    rewrite drop_app_length, take_app_length. by rewrite decide_True.
  - intros c n k. unfold toy_decrypt, CRYPTO_TAG_BYTES. case_decide as E; [|done].
    intros _ Hc. simpl. by rewrite <- E, take_drop.
  - intros old old' a b. unfold toy_kx.
    case_decide as E; [done|]. intros _. rewrite decide_False by tauto.
    unfold swap_keys. simpl rx. simpl tx. by rewrite (toy_shared_comm a b).
  - intros old pk sk rpk. unfold toy_kx, keys_wf. case_decide; [done|].
    intros _. cbn [snd rx tx]. by rewrite !length_resize.
  - intros old pk sk rpk. unfold toy_kx, keys_wf. case_decide; [done|].
    intros _. cbn [snd rx tx]. by rewrite !length_resize.
  - intros. unfold toy_base. case_decide; [by rewrite length_replicate|by rewrite length_resize].
  - intros sk Hb. unfold toy_base. case_decide; [by apply Forall_replicate|].
    apply Forall_resize; [unfold is_byte; lia|done].
  - intros n t. unfold toy_base642bin. repeat case_match; simpl; rewrite ?length_take; lia.
  - intros n t. unfold toy_base642bin. by repeat case_match.
  - apply b64_encode_length.
  - apply b64_encode_graphic.
  - intros b n Hb Hn. unfold toy_base642bin. rewrite b64_decode_encode by done.
    by rewrite decide_True.
Qed.

(** ** The outside world *)
Definition lines (l : list string) : bytes := concat (map (fun s => str s ++ [10]) l).

(** The example of docs/CONFIGURATION.md, cut to one peer of each role. *)
Definition sample_file : bytes := lines [
  "# EdgarVPN peer configuration";
  "[Interface]";
  "Name = peer2";
  "DeviceName = edgar0";
  "Address = 10.8.0.12/24";
  "ListenPort = 51820";
  "PrivateKey = /gtFMtBv9uKoGzLmj7Mf5/1I3tQ9lLIaTKIeOtzkyJc=";
  "";
  "[Peer]";
  "Endpoint = peer1:51820";
  "PublicKey = WH2RvdCDP2OfJ0K2WiFchwwi7XndB4uky9cYmQCAxEc=";
  "Role = responder";
  "AllowedIPs = 10.8.0.11/32";
  "[peer]";
  "endpoint = peer3:51821";
  "PUBLICKEY = WH2RvdCDP2OfJ0K2WiFchwwi7XndB4uky9cYmQCAxEc=";
  "role=Initiator";
  "AllowedIPs = 10.8.0.0/16"]%string.

Definition toy_secret (n : nat) : bytes := resize 32 0 (map (fun i => u8 (Z.of_nat i)) (seq (S n) 32)).

#[global] Instance toy_env : Env := {
  env_keypair n := (toy_base (toy_secret n), toy_secret n);
  env_time n := 1700000000 + Z.of_nat n;
  env_monotonic n := (100 + Z.of_nat n, 0);
  env_realtime n := 1700000000 + Z.of_nat n mod 1000000;
  env_getenv _ _ := None;
  env_getaddrinfo _ _ := Some {| sin_family := 2; sin_addr := 16777343; sin_port := 0 |};
  env_fopen _ _ := Some (9, sample_file);
  env_open _ := 3;
  env_socket n := Z.of_nat n + 4;
  env_bind _ := 0;
  env_sendto _ := 1;
  env_ioctl _ _ r := (0, r);
  env_close _ := None;
  env_recvfrom _ := None;
  env_tun_read _ := None;
  env_tun_write _ := 1;
  env_poll _ := (0, false, false);
  env_errno _ := 4;
  env_signals _ := [];
  env_strerror _ := []
}.

#[global] Instance toy_env_laws : EnvLaws.
Proof.
  split; intros n; [done|apply (length_resize (toy_secret n))|].
  apply Forall_resize; [unfold is_byte; lia|]. apply Forall_fmap, Forall_forall.
  intros i _. apply u8_byte.
Qed.

Definition toy_world : world := {|
  w_calls := 0;
  w_errno := 0;
  w_log := {| g_level := LOG_LEVEL_INFO; g_format := LOG_FORMAT_TEXT; g_initialized := false |};
  w_trace := []
|}.
