(* ===== verification/CryptoSpec.v ===== *)
(** * What src/crypto.c guarantees

    The packet layer: sealing and opening are inverse to each other, opening
    accepts nothing but sealed packets and never writes outside its buffer,
    nonces are one-to-one with counters, and keys survive their text form. *)

From S2P Require Import Prelude World Crypto Toy.

Section Claims.
  Context `{SO : Sodium} {SL : SodiumLaws}.

(** C23. Round trip of the packet layer: sealing a plaintext under a key and a
    64-bit counter into a large enough buffer succeeds, returns the plaintext
    length plus the 24 bytes of overhead, leaves the rest of the buffer alone,
    and opening exactly the bytes it returned under the same key gives the
    plaintext and the counter back. *)
Theorem crypto_seal_open_roundtrip key counter plaintext out buf c0 :
  is_u64 counter ->
  zlen plaintext + 24 < 2 ^ 64 ->
  (length plaintext + 24 <= length out)%nat ->
  (length plaintext <= length buf)%nat ->
  exists out',
    crypto_seal key counter plaintext out = Some (zlen plaintext + 24, out') /\
    length out' = length out /\
    drop (length plaintext + 24) out' = drop (length plaintext + 24) out /\
    crypto_open key (take (length plaintext + 24) out') buf c0 =
      Some (zlen plaintext, plaintext ++ drop (length plaintext) buf, counter).
Proof.
  intros Hc Hp Hout Hbuf.
  exists (sealed_packet key counter plaintext ++ drop (length plaintext + 24) out).
  rewrite crypto_seal_ok by done. split; [done|].
  rewrite take_app_length', drop_app_length' by (by rewrite sealed_packet_length).
  rewrite length_app, sealed_packet_length, length_drop.
  split; [lia|]. split; [done|]. by apply crypto_open_sealed.
Qed.

(** C24. [crypto_open] accepts nothing but sealed packets: when it returns a
    length, the input is byte for byte what [crypto_seal] produces under the
    same key for the counter it reports and the plaintext it wrote. *)
Theorem crypto_open_only_sealed key inp out c0 r out' counter :
  is_bytes inp -> zlen inp < 2 ^ 64 ->
  crypto_open key inp out c0 = Some (r, out', counter) ->
  0 <= r ->
  is_u64 counter /\
  inp = sealed_packet key counter (take (Z.to_nat r) out') /\
  r = zlen inp - 24.
Proof.
  intros Hb Hlen E Hr.
  destruct (crypto_open_inv _ _ _ _ _ _ _ Hb Hlen E) as [[-> _]|(p & -> & -> & Hc & Hi & Hp)]; [lia|].
  rewrite Nat2Z.id, take_app_length. split; [done|]. split; [done|].
  apply (f_equal length) in Hi. rewrite sealed_packet_length in Hi. lia.
Qed.

(** C25. [crypto_open] is memory safe on every datagram: for any input of bytes
    and any output buffer it has no out-of-bounds access, keeps the buffer's
    capacity, leaves [*counter_out] alone when it fails, and rejects every
    input shorter than the 24 bytes of overhead. *)
Theorem crypto_open_safe key inp out c0 :
  is_bytes inp -> zlen inp < 2 ^ 64 ->
  exists r out' c,
    crypto_open key inp out c0 = Some (r, out', c) /\
    length out' = length out /\
    (r < 0 -> c = c0) /\
    ((length inp < 24)%nat -> r = -1 /\ out' = out) /\
    (0 <= r -> r <= zlen out).
Proof.
  intros Hb Hlen.
  destruct (crypto_open_total key inp out c0 Hb Hlen) as (r & out' & c & E & L).
  exists r, out', c. split; [done|]. split; [done|].
  destruct (crypto_open_inv _ _ _ _ _ _ _ Hb Hlen E) as [[-> ->]|(p & -> & -> & Hc & Hi & Hp)].
  - split; [done|]. split; [|lia]. intros H24.
    rewrite crypto_open_eq, decide_True in E by (auto; by apply Forall_take). by simplify_eq.
  - split; [lia|]. split; [|lia]. intros H24.
    apply (f_equal length) in Hi. rewrite sealed_packet_length in Hi. lia.
Qed.

(** Nonces are one-to-one with counters: for every 64-bit counter the
    12-byte nonce is built without an out-of-bounds store, its high four bytes
    are zero, and two different counters never give the same nonce. *)
Theorem build_nonce_injective counter counter' :
  is_u64 counter -> is_u64 counter' ->
  exists nonce nonce',
    build_nonce counter = Some nonce /\ build_nonce counter' = Some nonce' /\
    length nonce = NPUBBYTES /\ drop 8 nonce = [0; 0; 0; 0] /\
    load_counter nonce = Some counter /\
    (nonce = nonce' -> counter = counter').
Proof.
  intros Hc Hc'. exists (nonce_of counter), (nonce_of counter').
  rewrite !build_nonce_eq. split; [done|]. split; [done|].
  unfold nonce_of. rewrite length_app, le_bytes_length, length_replicate.
  rewrite drop_app_length', load_le_bytes by (done || by rewrite le_bytes_length).
  split; [done|]. split; [done|]. split; [done|].
  intros [E _]%app_inj_1; [|by rewrite !le_bytes_length].
  apply (le_bytes_inj 8); [exact Hc|exact Hc'|done].
Qed.

(** Keys survive their text form: encoding a 32-byte key fits the 45-byte
    text buffer with its terminating NUL, and decoding that text into 32 bytes
    succeeds and restores the key; decoding it into a buffer of any other
    size is refused. *)
Theorem key_text_roundtrip key text out :
  is_bytes key -> length key = CRYPTO_PUBLIC_KEY_BYTES ->
  length text = CRYPTO_KEY_TEXT_LEN ->
  (length key <= length out)%nat ->
  exists text' out',
    crypto_encode_base64 key text = Some text' /\
    text' !! 44%nat = Some 0 /\
    crypto_decode_base64 (take 44 text') out =
      Some (if decide (length out = length key) then 0 else -1, out') /\
    take 32 out' = key.
Proof.
  intros Hb Hk Ht Ho. unfold crypto_encode_base64, crypto_decode_base64.
  assert (length (sodium_bin2base64 key) = 44%nat) as L44.
  { rewrite bin2base64_length, Hk. reflexivity. }
  unfold CRYPTO_PUBLIC_KEY_BYTES, CRYPTO_KEY_TEXT_LEN in *.
  rewrite buf_write_ok by (rewrite length_app, L44; simpl; lia).
  eexists _, (key ++ drop (length key) out). split; [reflexivity|].
  rewrite take_0, length_app, L44. cbn [app].
  rewrite <- (app_assoc (sodium_bin2base64 key)).
  rewrite lookup_app_r, take_app_length' by lia. rewrite L44. split; [done|].
  rewrite base642bin_bin2base64 by done.
  rewrite buf_write_ok by (simpl; lia). cbn [mbind option_bind Z.eqb negb take app].
  split; [|by apply take_app_length'].
  rewrite Nat.add_0_l.
  destruct (Nat.eqb_spec (length key) (length out)) as [E|E]; cbn [negb].
  - by rewrite decide_True.
  - by rewrite decide_False.
Qed.

End Claims.

(** ** Witnesses *)
Definition toy_key : bytes := resize 32 0 [11; 22; 33].

Lemma crypto_seal_open_roundtrip_witness :
  exists out',
    crypto_seal toy_key 258 [69; 0; 7] (replicate 40 255) = Some (27, out') /\
    length out' = 40%nat /\
    drop 27 out' = replicate 13 255 /\
    crypto_open toy_key (take 27 out') (replicate 5 9) 0 = Some (3, [69; 0; 7; 9; 9], 258).
Proof.
  apply (crypto_seal_open_roundtrip toy_key 258 [69; 0; 7] (replicate 40 255) (replicate 5 9) 0);
    [unfold is_u64|..]; simpl; lia.
Defined.

Lemma crypto_open_only_sealed_witness :
  sealed_packet toy_key 5 [1; 2] = sealed_packet toy_key 5 (take (Z.to_nat 2) [1; 2; 0]) /\
  2 = zlen (sealed_packet toy_key 5 [1; 2]) - 24.
Proof.
  apply (crypto_open_only_sealed toy_key (sealed_packet toy_key 5 [1; 2]) [0; 0; 0] 0 2 [1; 2; 0] 5).
  - apply (bool_decide_unpack _). vm_compute. exact I.
  - vm_compute. reflexivity.
  - vm_compute. reflexivity.
  - lia.
Defined.

Lemma crypto_open_safe_witness :
  exists r out' c,
    crypto_open toy_key [1; 2; 3] [7; 7] 4 = Some (r, out', c) /\
    length out' = 2%nat /\ (r < 0 -> c = 4) /\
    ((3 < 24)%nat -> r = -1 /\ out' = [7; 7]) /\ (0 <= r -> r <= 2).
Proof.
  apply (crypto_open_safe toy_key [1; 2; 3] [7; 7] 4).
  - apply (bool_decide_unpack _). vm_compute. exact I.
  - vm_compute. reflexivity.
Defined.

Lemma build_nonce_injective_witness :
  exists nonce nonce',
    build_nonce 258 = Some nonce /\ build_nonce 513 = Some nonce' /\
    length nonce = NPUBBYTES /\ drop 8 nonce = [0; 0; 0; 0] /\
    load_counter nonce = Some 258 /\ (nonce = nonce' -> 258 = 513).
Proof. apply (build_nonce_injective 258 513); unfold is_u64; lia. Defined.

Lemma key_text_roundtrip_witness :
  exists text' out',
    crypto_encode_base64 toy_key (replicate 45 0) = Some text' /\
    text' !! 44%nat = Some 0 /\
    crypto_decode_base64 (take 44 text') (replicate 32 1) =
      Some (if decide (length (replicate 32 1) = length toy_key) then 0 else -1, out') /\
    take 32 out' = toy_key.
Proof.
  apply (key_text_roundtrip toy_key (replicate 45 0) (replicate 32 1)).
  - apply (bool_decide_unpack _). vm_compute. exact I.
  - reflexivity.
  - reflexivity.
  - vm_compute. lia.
Defined.
