(* ===== verification/Session.v ===== *)
(** * src/session.c: handshake and data channel

    The types and constants of include/session.h and one definition per
    function of src/session.c.  A [session_t *] argument is passed and
    returned; an output buffer is returned with its new contents; the C flags
    ([int] used as a truth value) are [bool].  Functions that draw an ephemeral
    key pair run in the world monad [M]; the others are in the monad of
    undefined behaviour alone. *)

From S2P Require Import Prelude World Crypto.

(** ** include/session.h *)
Inductive session_state_t :=
| SESSION_STATE_HANDSHAKE_PENDING
| SESSION_STATE_ESTABLISHED.

#[global] Instance session_state_t_eq_dec : EqDecision session_state_t.
Proof. solve_decision. Defined.

Definition SESSION_MSG_HANDSHAKE_INIT : Z := 1.
Definition SESSION_MSG_HANDSHAKE_RESPONSE : Z := 2.
Definition SESSION_MSG_DATA : Z := 3.

Definition SESSION_HANDSHAKE_MSG_LEN : nat :=
  1 + CRYPTO_PACKET_OVERHEAD + CRYPTO_PUBLIC_KEY_BYTES.
Definition SESSION_DATA_OVERHEAD : nat := 1 + CRYPTO_PACKET_OVERHEAD.
Definition SESSION_REPLAY_WINDOW_BITS : Z := 1024.
Definition SESSION_REPLAY_WINDOW_BYTES : nat := 128.

Record session_t := {
  role : crypto_role_t;
  state : session_state_t;
  static_keys : crypto_session_keys_t;
  local_eph_pk : bytes;
  local_eph_sk : bytes;
  handshake_counter : Z;
  pending_handshake_counter : Z;
  have_seen_handshake : bool;
  highest_handshake_counter_seen : Z;
  data_keys : crypto_session_keys_t;
  tx_counter : Z;
  highest_rx_counter : Z;
  have_received_any : bool;
  replay_window : bytes
}.

(** Field assignments [s->f = v]. *)
Definition set_state v s := {| role := role s; state := v; static_keys := static_keys s;
  local_eph_pk := local_eph_pk s; local_eph_sk := local_eph_sk s;
  handshake_counter := handshake_counter s;
  pending_handshake_counter := pending_handshake_counter s;
  have_seen_handshake := have_seen_handshake s;
  highest_handshake_counter_seen := highest_handshake_counter_seen s;
  data_keys := data_keys s; tx_counter := tx_counter s;
  highest_rx_counter := highest_rx_counter s; have_received_any := have_received_any s;
  replay_window := replay_window s |}.
Definition set_static_keys v s := {| role := role s; state := state s; static_keys := v;
  local_eph_pk := local_eph_pk s; local_eph_sk := local_eph_sk s;
  handshake_counter := handshake_counter s;
  pending_handshake_counter := pending_handshake_counter s;
  have_seen_handshake := have_seen_handshake s;
  highest_handshake_counter_seen := highest_handshake_counter_seen s;
  data_keys := data_keys s; tx_counter := tx_counter s;
  highest_rx_counter := highest_rx_counter s; have_received_any := have_received_any s;
  replay_window := replay_window s |}.
Definition set_local_eph pk sk s := {| role := role s; state := state s;
  static_keys := static_keys s;
  local_eph_pk := pk; local_eph_sk := sk;
  handshake_counter := handshake_counter s;
  pending_handshake_counter := pending_handshake_counter s;
  have_seen_handshake := have_seen_handshake s;
  highest_handshake_counter_seen := highest_handshake_counter_seen s;
  data_keys := data_keys s; tx_counter := tx_counter s;
  highest_rx_counter := highest_rx_counter s; have_received_any := have_received_any s;
  replay_window := replay_window s |}.
(** [handshake_counter] and [pending_handshake_counter]. *)
Definition set_handshake_counters next pending s := {| role := role s; state := state s;
  static_keys := static_keys s;
  local_eph_pk := local_eph_pk s; local_eph_sk := local_eph_sk s;
  handshake_counter := next;
  pending_handshake_counter := pending;
  have_seen_handshake := have_seen_handshake s;
  highest_handshake_counter_seen := highest_handshake_counter_seen s;
  data_keys := data_keys s; tx_counter := tx_counter s;
  highest_rx_counter := highest_rx_counter s; have_received_any := have_received_any s;
  replay_window := replay_window s |}.
(** [have_seen_handshake] and [highest_handshake_counter_seen]. *)
Definition set_seen_handshake seen highest s := {| role := role s; state := state s;
  static_keys := static_keys s;
  local_eph_pk := local_eph_pk s; local_eph_sk := local_eph_sk s;
  handshake_counter := handshake_counter s;
  pending_handshake_counter := pending_handshake_counter s;
  have_seen_handshake := seen;
  highest_handshake_counter_seen := highest;
  data_keys := data_keys s; tx_counter := tx_counter s;
  highest_rx_counter := highest_rx_counter s; have_received_any := have_received_any s;
  replay_window := replay_window s |}.
Definition set_data_keys v s := {| role := role s; state := state s;
  static_keys := static_keys s;
  local_eph_pk := local_eph_pk s; local_eph_sk := local_eph_sk s;
  handshake_counter := handshake_counter s;
  pending_handshake_counter := pending_handshake_counter s;
  have_seen_handshake := have_seen_handshake s;
  highest_handshake_counter_seen := highest_handshake_counter_seen s;
  data_keys := v; tx_counter := tx_counter s;
  highest_rx_counter := highest_rx_counter s; have_received_any := have_received_any s;
  replay_window := replay_window s |}.
Definition set_tx_counter v s := {| role := role s; state := state s;
  static_keys := static_keys s;
  local_eph_pk := local_eph_pk s; local_eph_sk := local_eph_sk s;
  handshake_counter := handshake_counter s;
  pending_handshake_counter := pending_handshake_counter s;
  have_seen_handshake := have_seen_handshake s;
  highest_handshake_counter_seen := highest_handshake_counter_seen s;
  data_keys := data_keys s; tx_counter := v;
  highest_rx_counter := highest_rx_counter s; have_received_any := have_received_any s;
  replay_window := replay_window s |}.
(** The three fields of the replay window. *)
Definition set_replay any highest window s := {| role := role s; state := state s;
  static_keys := static_keys s;
  local_eph_pk := local_eph_pk s; local_eph_sk := local_eph_sk s;
  handshake_counter := handshake_counter s;
  pending_handshake_counter := pending_handshake_counter s;
  have_seen_handshake := have_seen_handshake s;
  highest_handshake_counter_seen := highest_handshake_counter_seen s;
  data_keys := data_keys s; tx_counter := tx_counter s;
  highest_rx_counter := highest; have_received_any := any;
  replay_window := window |}.

Definition zero_keys : crypto_session_keys_t :=
  {| rx := replicate CRYPTO_SESSION_KEY_BYTES 0; tx := replicate CRYPTO_SESSION_KEY_BYTES 0 |}.

(** [memset(s, 0, sizeof *s)] followed by [s->role = role]; the enumerator
    with value 0 is [SESSION_STATE_HANDSHAKE_PENDING]. *)
Definition zero_session (r : crypto_role_t) : session_t := {|
  role := r; state := SESSION_STATE_HANDSHAKE_PENDING; static_keys := zero_keys;
  local_eph_pk := replicate CRYPTO_PUBLIC_KEY_BYTES 0;
  local_eph_sk := replicate CRYPTO_SECRET_KEY_BYTES 0;
  handshake_counter := 0; pending_handshake_counter := 0;
  have_seen_handshake := false; highest_handshake_counter_seen := 0;
  data_keys := zero_keys; tx_counter := 0; highest_rx_counter := 0;
  have_received_any := false; replay_window := replicate SESSION_REPLAY_WINDOW_BYTES 0 |}.

(** ** The replay window *)
Definition replay_slot (counter : Z) : Z := counter mod SESSION_REPLAY_WINDOW_BITS.

Definition replay_bit_get (window : bytes) (counter : Z) : option Z :=
  let slot := replay_slot counter in
  b ← window !! Z.to_nat (slot / 8);
  Some (Z.land (Z.shiftr b (slot mod 8)) 1).

Definition replay_bit_set (window : bytes) (counter : Z) : option bytes :=
  let slot := replay_slot counter in
  b ← window !! Z.to_nat (slot / 8);
  buf_set (Z.to_nat (slot / 8)) (u8 (Z.lor b (u32 (Z.shiftl 1 (slot mod 8))))) window.

Definition replay_bit_clear (window : bytes) (counter : Z) : option bytes :=
  let slot := replay_slot counter in
  b ← window !! Z.to_nat (slot / 8);
  buf_set (Z.to_nat (slot / 8))
    (u8 (Z.land b (u32 (Z.lnot (u32 (Z.shiftl 1 (slot mod 8))))))) window.

(** [for (c = from; c < counter; c++) replay_bit_clear(window, c)], with the
    number of iterations bounded by [fuel]; running out of fuel is [None]. *)
Fixpoint replay_clear_range (fuel : nat) (c counter : Z) (window : bytes) : option bytes :=
  match fuel with
  | O => None
  | S fuel =>
      if c <? counter then
        window ← replay_bit_clear window c;
        replay_clear_range fuel (u64 (c + 1)) counter window
      else Some window
  end.

Definition replay_check_and_mark (s : session_t) (counter : Z) : option (bool * session_t) :=
  if negb (have_received_any s) then
    window ← replay_bit_set (replay_window s) counter;
    Some (true, set_replay true counter window s)
  else if highest_rx_counter s <? counter then
    let advance := u64 (counter - highest_rx_counter s) in
    window ←
      (if SESSION_REPLAY_WINDOW_BITS <=? advance
       then Some (replicate SESSION_REPLAY_WINDOW_BYTES 0)
       else replay_clear_range (Z.to_nat SESSION_REPLAY_WINDOW_BITS)
              (u64 (highest_rx_counter s + 1)) counter (replay_window s));
    window ← replay_bit_set window counter;
    Some (true, set_replay (have_received_any s) counter window s)
  else
    let age := u64 (highest_rx_counter s - counter) in
    if SESSION_REPLAY_WINDOW_BITS <=? age then Some (false, s)
    else
      bit ← replay_bit_get (replay_window s) counter;
      if negb (bit =? 0) then Some (false, s)
      else
        window ← replay_bit_set (replay_window s) counter;
        Some (true, set_replay (have_received_any s) (highest_rx_counter s) window s).

(** [in_len < 1 || in[0] != type], negated. *)
Definition has_type (type : Z) (inp : bytes) : bool :=
  match inp with
  | [] => false
  | b :: _ => b =? type
  end.

Section Session.
  Context `{SO : Sodium} `{EV : Env}.

(** ** The handshake *)
Definition session_start_handshake (s : session_t) : M session_t :=
  '(pk, sk) ← crypto_generate_keypair;
  let s := set_local_eph pk sk s in
  let s := set_state SESSION_STATE_HANDSHAKE_PENDING s in
  let s := set_tx_counter 0 s in
  mret (set_replay false (highest_rx_counter s) (replicate SESSION_REPLAY_WINDOW_BYTES 0) s).

Definition session_init (r : crypto_role_t) (local_pk local_sk peer_pk : bytes) :
    M (Z * session_t) :=
  let s := zero_session r in
  let '(rc, keys) := crypto_derive_session_keys r local_pk local_sk peer_pk (static_keys s) in
  let s := set_static_keys keys s in
  if negb (rc =? 0) then mret (-1, s)
  else
    now ← ask env_time;
    let s := set_handshake_counters (u64 now) (pending_handshake_counter s) s in
    s ← session_start_handshake s;
    mret (0, s).

Definition session_build_init (s : session_t) (out : bytes) :
    option (Z * session_t * bytes) :=
  if negb (bool_decide (role s = CRYPTO_ROLE_INITIATOR)) ||
     negb (bool_decide (state s = SESSION_STATE_HANDSHAKE_PENDING))
  then Some (-1, s, out)
  else if zlen out <? Z.of_nat SESSION_HANDSHAKE_MSG_LEN then Some (-1, s, out)
  else
    out ← buf_set 0 SESSION_MSG_HANDSHAKE_INIT out;
    '(sealed, out) ← on_tail 1 out
      (crypto_seal (tx (static_keys s)) (handshake_counter s) (local_eph_pk s));
    if sealed <? 0 then Some (-1, s, out)
    else
      let s := set_handshake_counters (u64 (handshake_counter s + 1)) (handshake_counter s) s in
      Some (1 + sealed, s, out).

Definition session_handle_init (s : session_t) (inp out : bytes) :
    M (Z * session_t * bytes) :=
  if negb (bool_decide (role s = CRYPTO_ROLE_RESPONDER)) then mret (-1, s, out)
  else if negb (has_type SESSION_MSG_HANDSHAKE_INIT inp) ||
          (zlen out <? Z.of_nat SESSION_HANDSHAKE_MSG_LEN) then mret (-1, s, out)
  else
    '(opened, peer_eph_pk, counter) ← lift (crypto_open (rx (static_keys s)) (tail inp)
       (replicate CRYPTO_PUBLIC_KEY_BYTES 0) 0);
    if negb (opened =? Z.of_nat CRYPTO_PUBLIC_KEY_BYTES) then mret (-1, s, out)
    else if have_seen_handshake s && (counter <=? highest_handshake_counter_seen s)
    then mret (-1, s, out)
    else
      s ← (if bool_decide (state s = SESSION_STATE_ESTABLISHED)
           then session_start_handshake s else mret s);
      let '(rc, keys) := crypto_derive_session_keys (role s) (local_eph_pk s) (local_eph_sk s)
                           peer_eph_pk (data_keys s) in
      let s := set_data_keys keys s in
      if negb (rc =? 0) then mret (-1, s, out)
      else
        let s := set_local_eph (local_eph_pk s) (crypto_wipe (local_eph_sk s)) s in
        out ← lift (buf_set 0 SESSION_MSG_HANDSHAKE_RESPONSE out);
        '(sealed, out) ← lift (on_tail 1 out
          (crypto_seal (tx (static_keys s)) counter (local_eph_pk s)));
        if sealed <? 0 then mret (-1, s, out)
        else
          let s := set_seen_handshake true counter s in
          let s := set_state SESSION_STATE_ESTABLISHED s in
          mret (1 + sealed, s, out).

Definition session_handle_response (s : session_t) (inp : bytes) : option (Z * session_t) :=
  if negb (bool_decide (role s = CRYPTO_ROLE_INITIATOR)) ||
     negb (bool_decide (state s = SESSION_STATE_HANDSHAKE_PENDING))
  then Some (-1, s)
  else if negb (has_type SESSION_MSG_HANDSHAKE_RESPONSE inp) then Some (-1, s)
  else
    '(opened, peer_eph_pk, counter) ← crypto_open (rx (static_keys s)) (tail inp)
       (replicate CRYPTO_PUBLIC_KEY_BYTES 0) 0;
    if negb (opened =? Z.of_nat CRYPTO_PUBLIC_KEY_BYTES) then Some (-1, s)
    else if negb (counter =? pending_handshake_counter s) then Some (-1, s)
    else
      let '(rc, keys) := crypto_derive_session_keys (role s) (local_eph_pk s) (local_eph_sk s)
                           peer_eph_pk (data_keys s) in
      let s := set_data_keys keys s in
      if negb (rc =? 0) then Some (-1, s)
      else
        let s := set_local_eph (local_eph_pk s) (crypto_wipe (local_eph_sk s)) s in
        Some (0, set_state SESSION_STATE_ESTABLISHED s).

(** ** The data channel *)
Definition session_seal_data (s : session_t) (plaintext out : bytes) :
    option (Z * session_t * bytes) :=
  if negb (bool_decide (state s = SESSION_STATE_ESTABLISHED)) then Some (-1, s, out)
  else if zlen out <? u64 (zlen plaintext + Z.of_nat SESSION_DATA_OVERHEAD)
  then Some (-1, s, out)
  else
    out ← buf_set 0 SESSION_MSG_DATA out;
    '(sealed, out) ← on_tail 1 out
      (crypto_seal (tx (data_keys s)) (tx_counter s) plaintext);
    if sealed <? 0 then Some (-1, s, out)
    else Some (1 + sealed, set_tx_counter (u64 (tx_counter s + 1)) s, out).

Definition session_open_data (s : session_t) (inp out : bytes) :
    option (Z * session_t * bytes) :=
  if negb (bool_decide (state s = SESSION_STATE_ESTABLISHED)) then Some (-1, s, out)
  else if negb (has_type SESSION_MSG_DATA inp) then Some (-1, s, out)
  else
    '(opened, out, counter) ← crypto_open (rx (data_keys s)) (tail inp) out 0;
    if opened <? 0 then Some (-1, s, out)
    else
      '(fresh, s) ← replay_check_and_mark s counter;
      if negb fresh then Some (-1, s, out)
      else Some (opened, s, out).

End Session.
