(* ===== verification/Replay.v ===== *)
(** * The sliding replay window refines "accept each counter once"

    Abstract specification: the state is the list of counters accepted so far
    and a counter is fresh when it was not accepted before and lies less than
    1024 behind every accepted one.  [window_rep] relates a session's bitmap
    and highest counter to that list, and [replay_step] shows that
    [replay_check_and_mark] implements the specification, loop and memory
    accesses included. *)

From S2P Require Import Prelude World Crypto Session.

(** ** Abstract specification *)
Definition fresh (accepted : list Z) (counter : Z) : Prop :=
  (counter ∉ accepted) /\ Forall (fun h => h - counter < SESSION_REPLAY_WINDOW_BITS) accepted.

#[global] Instance fresh_dec accepted counter : Decision (fresh accepted counter).
Proof. unfold fresh. apply _. Defined.

(** ** The bitmap as a set of slots *)
Definition window_wf (w : bytes) : Prop :=
  length w = SESSION_REPLAY_WINDOW_BYTES /\ is_bytes w.

Definition window_bit (w : bytes) (c : Z) : bool :=
  Z.testbit (default 0 (w !! Z.to_nat (replay_slot c / 8))) (replay_slot c mod 8).

Lemma replay_slot_range c : 0 <= replay_slot c < 1024.
Proof. unfold replay_slot, SESSION_REPLAY_WINDOW_BITS. apply Z.mod_pos_bound. lia. Qed.

Lemma slot_byte_range c : (Z.to_nat (replay_slot c / 8) < 128)%nat.
Proof. pose proof (replay_slot_range c). Z.to_euclidean_division_equations; lia. Qed.

Lemma slot_bit_range c : 0 <= replay_slot c mod 8 < 8.
Proof. apply Z.mod_pos_bound. lia. Qed.

(** Two counters share a slot iff they are congruent modulo the window. *)
Lemma slot_inj_near c d :
  replay_slot c = replay_slot d -> -1024 < c - d < 1024 -> c = d.
Proof.
  unfold replay_slot, SESSION_REPLAY_WINDOW_BITS. intros E H.
  Z.to_euclidean_division_equations; lia.
Qed.

Lemma slot_split c d :
  replay_slot c = replay_slot d <->
  Z.to_nat (replay_slot c / 8) = Z.to_nat (replay_slot d / 8) /\
  replay_slot c mod 8 = replay_slot d mod 8.
Proof.
  pose proof (replay_slot_range c). pose proof (replay_slot_range d).
  split; [by intros ->|]. intros [E1 E2].
  apply Z2Nat.inj in E1; [|Z.to_euclidean_division_equations; lia..].
  Z.to_euclidean_division_equations; lia.
Qed.

(** Reading the byte that holds a counter's bit. *)
Lemma window_lookup w c :
  window_wf w -> exists b, w !! Z.to_nat (replay_slot c / 8) = Some b /\ is_byte b.
Proof.
  intros [L B]. destruct (lookup_lt_is_Some_2 w (Z.to_nat (replay_slot c / 8))) as [b Hb].
  { rewrite L. apply slot_byte_range. }
  exists b. split; [done|]. by eapply is_bytes_lookup.
Qed.

Lemma replay_bit_get_eq w c :
  window_wf w -> replay_bit_get w c = Some (Z.b2z (window_bit w c)).
Proof.
  intros Hw. destruct (window_lookup w c Hw) as (b & Hb & _).
  unfold replay_bit_get, window_bit. rewrite Hb. simpl. f_equal.
  change 1 with (Z.ones 1). rewrite Z.land_ones by lia.
  change (2 ^ 1) with 2. rewrite Zmod_odd, <- Z.bit0_odd, Z.shiftr_spec, Z.add_0_l by lia.
  by destruct (Z.testbit _ _).
Qed.

(** Replacing the byte of [c] by one that differs from it only at [c]'s bit. *)
Lemma window_update w c v (b : bool) :
  window_wf w -> is_byte v ->
  (forall j, 0 <= j < 8 ->
     Z.testbit v j = if decide (j = replay_slot c mod 8) then b
                     else Z.testbit (default 0 (w !! Z.to_nat (replay_slot c / 8))) j) ->
  exists w', buf_set (Z.to_nat (replay_slot c / 8)) v w = Some w' /\ window_wf w' /\
    forall d, window_bit w' d = if decide (replay_slot c = replay_slot d) then b
                                else window_bit w d.
Proof.
  intros [L B] Hv Hbits. pose proof (slot_byte_range c) as Hc.
  exists (<[Z.to_nat (replay_slot c / 8):=v]> w).
  split; [apply buf_set_ok; by rewrite L|]. split.
  { split; [by rewrite length_insert|]. by apply Forall_insert. }
  intros d. unfold window_bit at 1.
  destruct (decide (Z.to_nat (replay_slot c / 8) = Z.to_nat (replay_slot d / 8))) as [E|E].
  - rewrite <- E, list_lookup_insert_eq by (by rewrite L). simpl.
    rewrite Hbits by apply slot_bit_range.
    case_decide as Ej; case_decide as Es; [done| | |].
    + destruct Es. by apply slot_split.
    + apply slot_split in Es as [_ ?]. congruence.
    + unfold window_bit. by rewrite <- E.
  - rewrite list_lookup_insert_ne by done. rewrite decide_False; [done|].
    intros [? _]%slot_split. done.
Qed.

Lemma u32_pow2 k : 0 <= k < 8 -> u32 (Z.shiftl 1 k) = 2 ^ k.
Proof.
  intros Hk. rewrite Z.shiftl_1_l. apply u32_small. unfold is_u32.
  split; [apply Z.pow_nonneg; lia|]. apply Z.pow_lt_mono_r; lia.
Qed.

Lemma replay_bit_set_eq w c :
  window_wf w ->
  exists w', replay_bit_set w c = Some w' /\ window_wf w' /\
    forall d, window_bit w' d = if decide (replay_slot c = replay_slot d) then true
                                else window_bit w d.
Proof.
  intros Hw. destruct (window_lookup w c Hw) as (b & Hb & Hbb).
  pose proof (slot_bit_range c) as Hk.
  unfold replay_bit_set. rewrite Hb. cbn [mbind option_bind].
  apply window_update; [done|apply u8_byte|].
  intros j Hj. rewrite Hb. simpl default.
  rewrite u8_testbit, u32_pow2, Z.lor_spec, Z.pow2_bits_eqb by lia.
  case_decide as E; destruct (Z.eqb_spec (replay_slot c mod 8) j); try congruence.
  - apply orb_true_r.
  - apply orb_false_r.
Qed.

Lemma replay_bit_clear_eq w c :
  window_wf w ->
  exists w', replay_bit_clear w c = Some w' /\ window_wf w' /\
    forall d, window_bit w' d = if decide (replay_slot c = replay_slot d) then false
                                else window_bit w d.
Proof.
  intros Hw. destruct (window_lookup w c Hw) as (b & Hb & Hbb).
  pose proof (slot_bit_range c) as Hk.
  unfold replay_bit_clear. rewrite Hb. cbn [mbind option_bind].
  apply window_update; [done|apply u8_byte|].
  intros j Hj. rewrite Hb. simpl default.
  rewrite u8_testbit, Z.land_spec, u32_pow2 by lia.
  unfold u32. rewrite Z.mod_pow2_bits_low, Z.lnot_spec, Z.pow2_bits_eqb by lia.
  case_decide as E; destruct (Z.eqb_spec (replay_slot c mod 8) j); try congruence.
  - apply andb_false_r.
  - apply andb_true_r.
Qed.

(** The clearing loop terminates within its fuel and clears exactly the slots
    of the counters it ranges over. *)
Lemma replay_clear_range_eq fuel c counter w :
  window_wf w -> 0 <= c -> c <= counter -> is_u64 counter ->
  counter - c < Z.of_nat fuel -> counter - c < 1024 ->
  exists w', replay_clear_range fuel c counter w = Some w' /\ window_wf w' /\
    (forall d, (exists e, c <= e < counter /\ replay_slot e = replay_slot d) ->
       window_bit w' d = false) /\
    (forall d, (forall e, c <= e < counter -> replay_slot e <> replay_slot d) ->
       window_bit w' d = window_bit w d).
Proof.
  revert c w. induction fuel as [|fuel IH]; intros c w Hw H0 Hc H64 Hf Hn; [lia|].
  cbn [replay_clear_range]. destruct (Z.ltb_spec c counter) as [Hlt|Hge].
  2:{ exists w. split; [done|]. split; [done|]. split; [|done]. intros d (e & ? & _). lia. }
  destruct (replay_bit_clear_eq w c Hw) as (w1 & -> & Hw1 & B1). cbn [mbind option_bind].
  unfold is_u64 in H64. rewrite u64_small by (unfold is_u64; lia).
  destruct (IH (c + 1) w1 Hw1) as (w2 & E2 & Hw2 & F2 & S2); [lia|lia|done|lia|lia|].
  exists w2. split; [done|]. split; [done|]. split; intros d.
  - intros (e & He & Es). destruct (decide (e = c)) as [->|].
    + rewrite S2, B1, decide_True; [done|done|].
      intros e' He' E'. assert (e' = c) by (apply slot_inj_near; [congruence|lia]). lia.
    + apply F2. exists e. split; [lia|done].
  - intros Hd. rewrite S2, B1, decide_False; [done| |]; intros; apply Hd; lia.
Qed.

(** ** The refinement *)
Definition window_rep (s : session_t) (accepted : list Z) : Prop :=
  window_wf (replay_window s) /\
  (if have_received_any s then
    is_u64 (highest_rx_counter s) /\
    (highest_rx_counter s ∈ accepted) /\
    Forall (fun x => 0 <= x <= highest_rx_counter s) accepted /\
    forall c, 0 <= c -> highest_rx_counter s - 1024 < c <= highest_rx_counter s ->
      window_bit (replay_window s) c = bool_decide (c ∈ accepted)
  else accepted = [] /\ forall c, window_bit (replay_window s) c = false).

Lemma window_bit_zeros c : window_bit (replicate 128 0) c = false.
Proof.
  unfold window_bit. rewrite lookup_replicate_2 by apply slot_byte_range. apply Z.bits_0.
Qed.

Lemma window_wf_zeros : window_wf (replicate SESSION_REPLAY_WINDOW_BYTES 0).
Proof. split; [apply length_replicate|apply is_bytes_zeros]. Qed.

(** The freshness test in terms of the highest accepted counter. *)
Lemma fresh_highest accepted h c :
  h ∈ accepted -> Forall (fun x => 0 <= x <= h) accepted ->
  fresh accepted c <-> h < c \/ (h - c < 1024 /\ (c ∉ accepted)).
Proof.
  intros Hh Hall. rewrite Forall_forall in Hall. unfold fresh, SESSION_REPLAY_WINDOW_BITS.
  rewrite Forall_forall. split.
  - intros [Hn Hf]. right. split; [apply (Hf h Hh)|done].
  - intros [Hlt|[Ha Hn]].
    + split; [intros Hin; specialize (Hall _ Hin); lia|].
      intros x Hx. specialize (Hall _ Hx). lia.
    + split; [done|]. intros x Hx. specialize (Hall _ Hx). lia.
Qed.

(** Advancing the window past [h] to [c]: the slots entered are cleared. *)
Lemma window_advance s c :
  window_wf (replay_window s) -> is_u64 (highest_rx_counter s) -> is_u64 c ->
  highest_rx_counter s < c ->
  exists w,
    (if SESSION_REPLAY_WINDOW_BITS <=? u64 (c - highest_rx_counter s)
     then Some (replicate SESSION_REPLAY_WINDOW_BYTES 0)
     else replay_clear_range (Z.to_nat SESSION_REPLAY_WINDOW_BITS)
            (u64 (highest_rx_counter s + 1)) c (replay_window s)) = Some w /\
    window_wf w /\
    forall d, c - 1024 < d < c ->
      window_bit w d = if decide (d <= highest_rx_counter s)
                       then window_bit (replay_window s) d else false.
Proof.
  set (h := highest_rx_counter s). unfold is_u64. intros Hw Hh Hc Hlt.
  rewrite !u64_small by (unfold is_u64; lia). unfold SESSION_REPLAY_WINDOW_BITS.
  destruct (Z.leb_spec 1024 (c - h)) as [Hadv|Hadv].
  - eexists. split; [reflexivity|]. split; [apply window_wf_zeros|].
    intros d Hd. rewrite decide_False by lia. apply window_bit_zeros.
  - destruct (replay_clear_range_eq (Z.to_nat 1024) (h + 1) c (replay_window s) Hw)
      as (w & E & Hw' & F & S); [lia|lia|done|lia|lia|].
    exists w. split; [done|]. split; [done|]. intros d Hd. case_decide.
    + apply S. intros e He E'. assert (e = d) by (apply slot_inj_near; [done|lia]). lia.
    + apply F. exists d. split; [lia|done].
Qed.

(** One step of [replay_check_and_mark] against the specification: the
    verdict is the specification's, an accepted counter joins the list and only
    the replay fields change, a rejected one changes nothing. *)
Definition step_spec (s : session_t) (accepted : list Z) (c : Z) : Prop :=
  exists s',
    replay_check_and_mark s c = Some (bool_decide (fresh accepted c), s') /\
    (if decide (fresh accepted c)
     then window_rep s' (c :: accepted) /\ exists h w, s' = set_replay true h w s
     else s' = s).

Lemma step_accept s accepted c h w :
  fresh accepted c ->
  replay_check_and_mark s c = Some (true, set_replay true h w s) ->
  window_rep (set_replay true h w s) (c :: accepted) ->
  step_spec s accepted c.
Proof.
  intros Hf E Hr. exists (set_replay true h w s).
  rewrite bool_decide_true, decide_True by done. eauto.
Qed.

Lemma step_reject s accepted c :
  ~ fresh accepted c -> replay_check_and_mark s c = Some (false, s) -> step_spec s accepted c.
Proof.
  intros Hf E. exists s. by rewrite bool_decide_false, decide_False by done.
Qed.

Lemma replay_step_first s c :
  window_rep s [] -> have_received_any s = false -> is_u64 c -> step_spec s [] c.
Proof.
  intros [Hw Hrep] Eany Hc. rewrite Eany in Hrep. destruct Hrep as [_ Hz].
  destruct (replay_bit_set_eq _ c Hw) as (w & E & Hw' & B).
  apply (step_accept _ _ _ c w).
  - split; [apply not_elem_of_nil|constructor].
  - unfold replay_check_and_mark. by rewrite Eany, E.
  - split; [done|]. simpl. split; [done|]. split; [left|].
    split; [repeat constructor; unfold is_u64 in Hc; lia|].
    intros d Hd0 Hd. rewrite B, Hz. destruct (decide (c = d)) as [->|Hne].
    + by rewrite decide_True, bool_decide_true by (done || left).
    + rewrite decide_False by (intros E'; apply Hne, slot_inj_near; [done|lia]).
      by rewrite bool_decide_false by (rewrite elem_of_cons_ne by done; apply not_elem_of_nil).
Qed.

Lemma replay_step_ahead s accepted c :
  window_rep s accepted -> have_received_any s = true -> is_u64 c ->
  highest_rx_counter s < c -> step_spec s accepted c.
Proof.
  intros [Hw Hrep] Eany Hc Hlt. rewrite Eany in Hrep. destruct Hrep as (Hh & Hin & Hall & Hbits).
  destruct (window_advance s c Hw Hh Hc Hlt) as (w1 & E1 & Hw1 & B1).
  destruct (replay_bit_set_eq w1 c Hw1) as (w & E & Hw' & B).
  apply (step_accept _ _ _ c w).
  - apply (fresh_highest _ (highest_rx_counter s)); auto.
  - unfold replay_check_and_mark. rewrite Eany. cbn [negb].
    rewrite (proj2 (Z.ltb_lt _ _) Hlt), E1. simpl. by rewrite E.
  - split; [done|]. simpl. split; [done|]. split; [left|]. split.
    { constructor; [unfold is_u64 in Hc; lia|].
      eapply Forall_impl; [done|]. simpl. lia. }
    intros d Hd0 Hd. rewrite B. destruct (decide (c = d)) as [->|Hne].
    + by rewrite decide_True, bool_decide_true by (done || left).
    + rewrite decide_False by (intros E'; apply Hne, slot_inj_near; [done|lia]).
      rewrite B1 by lia. rewrite Forall_forall in Hall. case_decide.
      * rewrite Hbits by lia. apply bool_decide_ext. by rewrite elem_of_cons_ne.
      * rewrite bool_decide_false; [done|].
        intros [->|Hd']%elem_of_cons; [lia|]. specialize (Hall _ Hd'). lia.
Qed.

Lemma replay_step_behind s accepted c :
  window_rep s accepted -> have_received_any s = true -> is_u64 c ->
  c <= highest_rx_counter s -> step_spec s accepted c.
Proof.
  intros [Hw Hrep] Eany Hc Hle. rewrite Eany in Hrep. destruct Hrep as (Hh & Hin & Hall & Hbits).
  set (h := highest_rx_counter s) in *.
  pose proof (fresh_highest accepted h c Hin Hall) as Hf. unfold is_u64 in Hh, Hc.
  assert (replay_check_and_mark s c =
    if 1024 <=? h - c then Some (false, s)
    else if window_bit (replay_window s) c then Some (false, s)
    else w ← replay_bit_set (replay_window s) c; Some (true, set_replay true h w s)) as E.
  { unfold replay_check_and_mark, SESSION_REPLAY_WINDOW_BITS. rewrite Eany. cbn [negb]. fold h.
    rewrite (proj2 (Z.ltb_ge _ _)) by lia. rewrite u64_small by (unfold is_u64; lia).
    rewrite replay_bit_get_eq by done. simpl.
    by destruct (1024 <=? h - c), (window_bit (replay_window s) c). }
  destruct (Z.leb_spec 1024 (h - c)) as [Hold|Hin'].
  { apply step_reject; [rewrite Hf; lia|done]. }
  rewrite Hbits in E by lia. destruct (decide (c ∈ accepted)) as [Hc'|Hc'].
  { apply step_reject; [rewrite Hf; intros [?|[_ ?]]; [lia|done]|].
    by rewrite bool_decide_true in E. }
  rewrite bool_decide_false in E by done.
  destruct (replay_bit_set_eq _ c Hw) as (w & Ew & Hw' & B). rewrite Ew in E.
  apply (step_accept _ _ _ h w); [apply Hf; auto with lia|done|].
  split; [done|]. simpl. split; [done|]. split; [by right|].
  split; [constructor; [lia|done]|].
  intros d Hd0 Hd. rewrite B. destruct (decide (c = d)) as [->|Hne].
  - by rewrite decide_True, bool_decide_true by (done || left).
  - rewrite decide_False by (intros E'; apply Hne, slot_inj_near; [done|lia]).
    rewrite Hbits by lia. apply bool_decide_ext. by rewrite elem_of_cons_ne.
Qed.

Lemma replay_step s accepted c :
  window_rep s accepted -> is_u64 c -> step_spec s accepted c.
Proof.
  intros Hrep Hc. destruct (have_received_any s) eqn:Eany.
  - destruct (Z_lt_le_dec (highest_rx_counter s) c).
    + by apply replay_step_ahead.
    + by apply replay_step_behind.
  - assert (accepted = []) as ->.
    { destruct Hrep as [_ Hrep]. rewrite Eany in Hrep. by destruct Hrep. }
    by apply replay_step_first.
Qed.

(** A session whose replay state was just reset represents the empty list. *)
Lemma window_rep_reset h s :
  window_rep (set_replay false h (replicate SESSION_REPLAY_WINDOW_BYTES 0) s) [].
Proof. split; [apply window_wf_zeros|]. simpl. split; [done|]. apply window_bit_zeros. Qed.

(** ** Runs *)

(** Feed a sequence of counters to the window; the accepted ones, in order. *)
Fixpoint replay_run (s : session_t) (cs : list Z) : option (list Z * session_t) :=
  match cs with
  | [] => Some ([], s)
  | c :: cs =>
      '(ok, s) ← replay_check_and_mark s c;
      '(acc, s) ← replay_run s cs;
      Some (if (ok : bool) then c :: acc else acc, s)
  end.

(** The same on the specification. *)
Fixpoint spec_run (accepted : list Z) (cs : list Z) : list Z :=
  match cs with
  | [] => []
  | c :: cs =>
      if decide (fresh accepted c) then c :: spec_run (c :: accepted) cs
      else spec_run accepted cs
  end.

Lemma replay_run_refines s accepted cs :
  window_rep s accepted -> Forall is_u64 cs ->
  exists s', replay_run s cs = Some (spec_run accepted cs, s') /\
    window_rep s' (rev (spec_run accepted cs) ++ accepted).
Proof.
  intros Hrep Hcs. revert s accepted Hrep.
  induction Hcs as [|c cs Hc Hcs IH]; intros s accepted Hrep; simpl; [by eauto|].
  destruct (replay_step s accepted c Hrep Hc) as (s1 & -> & Hstep). simpl.
  destruct (decide (fresh accepted c)) as [Hf|Hf].
  - rewrite bool_decide_true by done. destruct Hstep as [Hrep1 _].
    destruct (IH s1 _ Hrep1) as (s2 & -> & Hrep2). simpl.
    eexists. split; [done|]. by rewrite <- app_assoc.
  - rewrite bool_decide_false by done. subst s1.
    destruct (IH s _ Hrep) as (s2 & -> & Hrep2). simpl. eauto.
Qed.

Lemma spec_run_fresh (accepted cs : list Z) (x : Z) : x ∈ spec_run accepted cs -> x ∉ accepted.
Proof.
  revert accepted. induction cs as [|c cs IH]; intros accepted; simpl; [set_solver|].
  case_decide as Hf; [|auto]. intros [->|Hx]%elem_of_cons; [apply Hf|].
  specialize (IH _ Hx). set_solver.
Qed.

Lemma spec_run_nodup (accepted cs : list Z) : NoDup (spec_run accepted cs).
Proof.
  revert accepted. induction cs as [|c cs IH]; intros accepted; simpl; [constructor|].
  case_decide; [|auto]. constructor; [|auto].
  intros Hin%spec_run_fresh. set_solver.
Qed.
