(* ===== verification/SessionFacts.v ===== *)
(** * Lemmas about src/session.c

    The well-formedness invariant of [session_t], and for each operation an
    equation or a case analysis that says what it does on every branch.  The
    properties of SessionSpec are consequences of these. *)

From S2P Require Import Prelude World Crypto Session Replay.

(** ** Well-formed sessions: array sizes and integer ranges *)
Record session_wf (s : session_t) : Prop := {
  wf_static : keys_wf (static_keys s);
  wf_data : keys_wf (data_keys s);
  wf_eph_pk : length (local_eph_pk s) = CRYPTO_PUBLIC_KEY_BYTES;
  wf_eph_pk_bytes : is_bytes (local_eph_pk s);
  wf_eph_sk : length (local_eph_sk s) = CRYPTO_SECRET_KEY_BYTES;
  wf_hs_counter : is_u64 (handshake_counter s);
  wf_pending : is_u64 (pending_handshake_counter s);
  wf_hs_seen : is_u64 (highest_handshake_counter_seen s);
  wf_tx : is_u64 (tx_counter s);
  wf_rx : is_u64 (highest_rx_counter s);
  wf_window : window_wf (replay_window s)
}.

Lemma is_u64_0 : is_u64 0.
Proof. unfold is_u64. lia. Qed.
#[export] Hint Resolve wf_static wf_data wf_eph_pk wf_eph_pk_bytes wf_eph_sk wf_hs_counter wf_pending
  wf_hs_seen wf_tx wf_rx wf_window is_u64_0 window_wf_zeros : edgar.

(** Prove [session_wf] of a session obtained by field assignments. *)
Ltac solve_wf := split; simpl; eauto with edgar.

(** ** The clock ticks of an external call *)
Definition tick (w : world) : world :=
  {| w_calls := S (w_calls w); w_errno := w_errno w; w_log := w_log w; w_trace := w_trace w |}.

Lemma ask_eq {A} (f : nat -> A) w : ask f w = Some (f (w_calls w), tick w).
Proof. reflexivity. Qed.

Section SessionFacts.
  Context `{SO : Sodium} {SL : SodiumLaws} `{EV : Env} {EL : EnvLaws}.

(** ** session_start_handshake *)

(** The session after [session_start_handshake] drew the pair [kp]. *)
Definition restarted (kp : bytes * bytes) (s : session_t) : session_t :=
  set_replay false (highest_rx_counter s) (replicate SESSION_REPLAY_WINDOW_BYTES 0)
    (set_tx_counter 0
       (set_state SESSION_STATE_HANDSHAKE_PENDING (set_local_eph kp.1 kp.2 s))).

Lemma start_handshake_eq s w :
  session_start_handshake s w = Some (restarted (env_keypair (w_calls w)) s, tick w).
Proof.
  unfold session_start_handshake, crypto_generate_keypair. rewrite M_bind_eq, ask_eq. simpl.
  by destruct (env_keypair (w_calls w)).
Qed.

Lemma restarted_wf n s : session_wf s -> session_wf (restarted (env_keypair n) s).
Proof.
  intros H. pose proof (env_keypair_matches n) as E. pose proof (env_keypair_sk_length n).
  pose proof (env_keypair_sk_bytes n).
  destruct (env_keypair n) as [pk sk]. cbn [fst snd] in *. subst pk.
  solve_wf; [apply scalarmult_base_length|by apply scalarmult_base_bytes].
Qed.

(** ** Writing a message: type byte, then a sealed payload *)
Lemma write_message t key counter p out :
  zlen p + 25 < 2 ^ 64 -> (length p + 25 <= length out)%nat ->
  (out ← buf_set 0 t out; on_tail 1 out (crypto_seal key counter p)) =
    Some (zlen p + 24, t :: sealed_packet key counter p ++ drop (length p + 25) out).
Proof.
  intros Hp Hlen. destruct out as [|b out]; [simpl in Hlen; lia|]. simpl in Hlen.
  rewrite buf_set_ok by (simpl; lia). cbn [mbind option_bind]. unfold on_tail.
  replace (drop 1 (<[0%nat:=t]> (b :: out))) with out by reflexivity.
  rewrite crypto_seal_ok by lia. simpl.
  by replace (length p + 25)%nat with (S (length p + 24)) by lia.
Qed.

(** The three kinds of datagram. *)
Definition message (t : Z) (key : bytes) (counter : Z) (p : bytes) : bytes :=
  t :: sealed_packet key counter p.

Lemma message_length t key counter p : length (message t key counter p) = (length p + 25)%nat.
Proof. unfold message. cbn [length]. rewrite sealed_packet_length. lia. Qed.

Lemma message_bytes t key c p : is_byte t -> is_bytes p -> is_bytes (message t key c p).
Proof. intros. constructor; [done|by apply sealed_packet_bytes]. Qed.

Lemma message_inj t key c c' p p' :
  is_u64 c -> is_u64 c' -> zlen p + 24 < 2 ^ 64 -> zlen p' + 24 < 2 ^ 64 ->
  message t key c p = message t key c' p' -> c = c' /\ p = p'.
Proof.
  intros ???? E. apply (f_equal tail) in E. by apply (sealed_packet_inj key).
Qed.

(** Reading a message back. *)
Lemma open_message key inp out c0 r out' c :
  is_bytes inp -> zlen inp < 2 ^ 64 -> inp <> [] ->
  crypto_open key (tail inp) out c0 = Some (r, out', c) ->
  (r = -1 /\ c = c0) \/
  exists p, r = zlen p /\ out' = p ++ drop (length p) out /\ is_u64 c /\
    inp = message (hd 0 inp) key c p /\ (length p <= length out)%nat.
Proof.
  intros Hb Hlen Hne E. destruct inp as [|t inp]; [done|]. simpl in *.
  inv_bytes. apply crypto_open_inv in E as [?|(p & ? & ? & ? & ? & ?)]; [by left| |done|lia].
  right. exists p. unfold message. split; [done|]. split; [done|]. split; [done|].
  split; [by f_equal|done].
Qed.

Lemma has_type_inv t inp : has_type t inp = true -> inp <> [] /\ hd 0 inp = t.
Proof. destruct inp; simpl; [done|]. intros ?%Z.eqb_eq. done. Qed.

Lemma has_type_message t key c p : has_type t (message t key c p) = true.
Proof. apply Z.eqb_refl. Qed.

(** ** session_build_init *)
Definition can_build_init (s : session_t) (out : bytes) : Prop :=
  role s = CRYPTO_ROLE_INITIATOR /\ state s = SESSION_STATE_HANDSHAKE_PENDING /\
  (SESSION_HANDSHAKE_MSG_LEN <= length out)%nat.

Lemma build_init_eq s out :
  session_wf s ->
  (can_build_init s out /\
   session_build_init s out =
     Some (57, set_handshake_counters (u64 (handshake_counter s + 1)) (handshake_counter s) s,
           message SESSION_MSG_HANDSHAKE_INIT (tx (static_keys s)) (handshake_counter s)
             (local_eph_pk s) ++ drop 57 out)) \/
  (~ can_build_init s out /\ session_build_init s out = Some (-1, s, out)).
Proof.
  intros Hwf. unfold can_build_init, session_build_init.
  pose proof (wf_eph_pk s Hwf) as Hpk. unfold CRYPTO_PUBLIC_KEY_BYTES in Hpk.
  unfold SESSION_HANDSHAKE_MSG_LEN, CRYPTO_PACKET_OVERHEAD, CRYPTO_COUNTER_BYTES,
    CRYPTO_TAG_BYTES, CRYPTO_PUBLIC_KEY_BYTES.
  case_bool_decide as Hr; [|right; split; [tauto|done]].
  case_bool_decide as Hs; [|right; split; [tauto|done]]. cbn [negb orb].
  destruct (Z.ltb_spec (zlen out) (Z.of_nat (1 + (8 + 16) + 32))); [right; split; [lia|done]|].
  left. split; [split; [done|split; [done|lia]]|].
  pose proof (write_message SESSION_MSG_HANDSHAKE_INIT (tx (static_keys s))
    (handshake_counter s) (local_eph_pk s) out) as W.
  rewrite Hpk in W. specialize (W ltac:(lia) ltac:(lia)).
  apply bind_Some in W as (o & -> & W). cbn [mbind option_bind]. by rewrite W.
Qed.

(** ** session_handle_init *)

(** The state in which the responder processes an accepted init: an
    established session first draws a new ephemeral pair. *)
Definition responder_attempt (s : session_t) (w : world) : session_t * world :=
  if decide (state s = SESSION_STATE_ESTABLISHED)
  then (restarted (env_keypair (w_calls w)) s, tick w)
  else (s, w).

(** [inp] is an init that authenticates and is fresh for [s]. *)
Definition acceptable_init (s : session_t) (inp : bytes) (counter : Z) (peer : bytes) : Prop :=
  role s = CRYPTO_ROLE_RESPONDER /\
  inp = message SESSION_MSG_HANDSHAKE_INIT (rx (static_keys s)) counter peer /\
  length peer = CRYPTO_PUBLIC_KEY_BYTES /\ is_u64 counter /\
  (have_seen_handshake s = true -> highest_handshake_counter_seen s < counter).

(** The responder's session once the data keys [keys] are derived. *)
Definition responder_established (keys : crypto_session_keys_t) (counter : Z) (s : session_t) :
    session_t :=
  set_state SESSION_STATE_ESTABLISHED
    (set_seen_handshake true counter
       (set_local_eph (local_eph_pk s) (crypto_wipe (local_eph_sk s)) (set_data_keys keys s))).

Lemma responder_attempt_facts s w s1 w1 :
  responder_attempt s w = (s1, w1) -> session_wf s ->
  session_wf s1 /\ role s1 = role s /\ static_keys s1 = static_keys s.
Proof.
  unfold responder_attempt. intros E Hwf. case_decide; simplify_eq; [|done].
  split; [by apply restarted_wf|done].
Qed.

(** Decoding a handshake message: [crypto_open] into a 32-byte key buffer
    returns 32 exactly on the messages sealed under [key]. *)
Lemma open_handshake t key inp :
  is_bytes inp -> zlen inp < 2 ^ 64 -> has_type t inp = true ->
  exists r pk c,
    crypto_open key (tail inp) (replicate CRYPTO_PUBLIC_KEY_BYTES 0) 0 = Some (r, pk, c) /\
    ((r = 32 /\ length pk = 32%nat /\ is_u64 c /\ inp = message t key c pk) \/
     (r <> 32 /\ forall c' p, length p = 32%nat -> is_u64 c' -> inp <> message t key c' p)).
Proof.
  intros Hb Hlen [Hne Hhd]%has_type_inv. unfold CRYPTO_PUBLIC_KEY_BYTES.
  destruct (crypto_open_total key (tail inp) (replicate 32 0) 0) as (r & pk & c & E & L).
  { by destruct inp; inv_bytes. }
  { destruct inp; simpl in *; lia. }
  exists r, pk, c. split; [done|].
  assert (r <> 32 -> forall c' p, length p = 32%nat -> is_u64 c' -> inp <> message t key c' p) as Hneg.
  { intros Hr c' p Hp Hc' ->. unfold message in E. cbn [tail] in E.
    rewrite crypto_open_sealed in E by (rewrite ?length_replicate; auto; lia).
    simplify_eq. lia. }
  destruct (open_message _ _ _ _ _ _ _ Hb Hlen Hne E) as [[-> ->]|(p & -> & -> & Hc & Hi & Hp)].
  { right. auto with lia. }
  destruct (decide (length p = 32%nat)) as [Hp32|]; [left|right; split; [lia|auto with lia]].
  rewrite drop_ge, app_nil_r by (rewrite length_replicate; lia).
  rewrite Hhd in Hi. auto with lia.
Qed.

(** What [session_handle_init] does with any datagram: it is rejected and
    nothing changes, or it is an acceptable init and either the key derivation
    fails or the session is established. *)
Lemma handle_init_cases s inp out w :
  session_wf s -> is_bytes inp -> zlen inp < 2 ^ 64 ->
  (session_handle_init s inp out w = Some ((-1, s, out), w) /\
   ((57 <= length out)%nat -> forall c p, ~ acceptable_init s inp c p)) \/
  (57 <= length out)%nat /\
  exists counter peer,
    acceptable_init s inp counter peer /\
    let '(s1, w1) := responder_attempt s w in
    let '(rc, keys) := crypto_derive_session_keys CRYPTO_ROLE_RESPONDER
                         (local_eph_pk s1) (local_eph_sk s1) peer (data_keys s1) in
    (rc <> 0 /\ session_handle_init s inp out w = Some ((-1, set_data_keys keys s1, out), w1)) \/
    (rc = 0 /\
     session_handle_init s inp out w =
       Some ((57, responder_established keys counter s1,
              message SESSION_MSG_HANDSHAKE_RESPONSE (tx (static_keys s)) counter
                (local_eph_pk s1) ++ drop 57 out), w1)).
Proof.
  intros Hwf Hb Hlen. unfold session_handle_init, SESSION_HANDSHAKE_MSG_LEN,
    CRYPTO_PACKET_OVERHEAD, CRYPTO_COUNTER_BYTES, CRYPTO_TAG_BYTES.
  unfold acceptable_init at 1.
  case_bool_decide as Hr; [|left; split; [done|tauto]]. cbn [negb].
  destruct (has_type SESSION_MSG_HANDSHAKE_INIT inp) eqn:Ht.
  2:{ left. split; [done|]. intros _ c p (_ & -> & _). by rewrite has_type_message in Ht. }
  cbn [negb orb]. change (Z.of_nat (1 + (8 + 16) + CRYPTO_PUBLIC_KEY_BYTES)) with 57.
  destruct (Z.ltb_spec (zlen out) 57); [left; split; [done|lia]|].
  destruct (open_handshake _ (rx (static_keys s)) inp Hb Hlen Ht)
    as (r & pk & c & E & [(-> & Hpk & Hc & Hi)|[Hr32 Hneg]]); 
    rewrite (M_bind_lift _ _ _ _ E); cbv beta iota.
  2:{ rewrite (proj2 (Z.eqb_neq _ _)) by done. left. split; [done|].
      intros _ c' p (_ & Hi & Hp & Hc' & _). by apply (Hneg c' p). }
  change (negb (32 =? Z.of_nat CRYPTO_PUBLIC_KEY_BYTES)) with false. cbn [negb].
  destruct (have_seen_handshake s && _) eqn:Eseen.
  { left. split; [done|]. intros _ c' p (_ & Hi' & Hp & Hc' & Hnew).
    apply andb_true_iff in Eseen as [Es Ele%Z.leb_le]. specialize (Hnew Es).
    unfold CRYPTO_PUBLIC_KEY_BYTES in Hp. rewrite Hi in Hi'.
    apply message_inj in Hi' as [-> _]; [lia|done|done|lia|lia]. }
  right. split; [lia|]. exists c, pk. split.
  { split; [done|]. split; [done|]. split; [done|]. split; [done|].
    intros Es. rewrite Es in Eseen. apply Z.leb_gt in Eseen. done. }
  clear Eseen.
  rewrite (M_bind_Some _ _ _ (responder_attempt s w).1 (responder_attempt s w).2).
  2:{ unfold responder_attempt. case_bool_decide; case_decide; try done. apply start_handshake_eq. }
  destruct (responder_attempt s w) as [s1 w1] eqn:Ea. cbn [fst snd].
  destruct (responder_attempt_facts _ _ _ _ Ea Hwf) as (Hwf1 & Hr1 & Hst).
  rewrite Hr1, Hr.
  destruct (crypto_derive_session_keys _ _ _ _ _) as [rc keys].
  destruct (Z.eqb_spec rc 0) as [->|Hrc]; cbn [negb]; [right|by left].
  split; [done|].
  pose proof (wf_eph_pk s1 Hwf1) as Hp1. unfold CRYPTO_PUBLIC_KEY_BYTES in Hp1.
  pose proof (write_message SESSION_MSG_HANDSHAKE_RESPONSE (tx (static_keys s)) c
    (local_eph_pk s1) out) as W. rewrite Hp1 in W. specialize (W ltac:(lia) ltac:(lia)).
  apply bind_Some in W as (o & Ho & W). rewrite (M_bind_lift _ _ _ _ Ho).
  cbn [set_local_eph set_data_keys static_keys local_eph_pk]. rewrite Hst.
  by rewrite (M_bind_lift _ _ _ _ W).
Qed.

(** ** session_handle_response *)

(** [inp] is the response to the outstanding init of [s]. *)
Definition acceptable_response (s : session_t) (inp peer : bytes) : Prop :=
  role s = CRYPTO_ROLE_INITIATOR /\ state s = SESSION_STATE_HANDSHAKE_PENDING /\
  inp = message SESSION_MSG_HANDSHAKE_RESPONSE (rx (static_keys s))
          (pending_handshake_counter s) peer /\
  length peer = CRYPTO_PUBLIC_KEY_BYTES.

Definition initiator_established (keys : crypto_session_keys_t) (s : session_t) : session_t :=
  set_state SESSION_STATE_ESTABLISHED
    (set_local_eph (local_eph_pk s) (crypto_wipe (local_eph_sk s)) (set_data_keys keys s)).

Lemma handle_response_cases s inp :
  session_wf s -> is_bytes inp -> zlen inp < 2 ^ 64 ->
  (session_handle_response s inp = Some (-1, s) /\ forall p, ~ acceptable_response s inp p) \/
  exists peer,
    acceptable_response s inp peer /\
    let '(rc, keys) := crypto_derive_session_keys CRYPTO_ROLE_INITIATOR
                         (local_eph_pk s) (local_eph_sk s) peer (data_keys s) in
    (rc <> 0 /\ session_handle_response s inp = Some (-1, set_data_keys keys s)) \/
    (rc = 0 /\ session_handle_response s inp = Some (0, initiator_established keys s)).
Proof.
  intros Hwf Hb Hlen. unfold session_handle_response. unfold acceptable_response at 1.
  case_bool_decide as Hr; [|left; split; [done|tauto]].
  case_bool_decide as Hs; [|left; split; [done|tauto]]. cbn [negb orb].
  destruct (has_type SESSION_MSG_HANDSHAKE_RESPONSE inp) eqn:Ht.
  2:{ left. split; [done|]. intros p (_ & _ & -> & _). by rewrite has_type_message in Ht. }
  cbn [negb].
  destruct (open_handshake _ (rx (static_keys s)) inp Hb Hlen Ht)
    as (r & pk & c & E & [(-> & Hpk & Hc & Hi)|[Hr32 Hneg]]); rewrite E; cbn [mbind option_bind].
  2:{ rewrite (proj2 (Z.eqb_neq _ _)) by done. left. split; [done|].
      intros p (_ & _ & Hi & Hp). apply (Hneg (pending_handshake_counter s) p Hp); eauto with edgar. }
  change (negb (32 =? Z.of_nat CRYPTO_PUBLIC_KEY_BYTES)) with false. cbn [negb].
  destruct (Z.eqb_spec c (pending_handshake_counter s)) as [->|Hc'].
  2:{ left. split; [done|]. intros p (_ & _ & Hi' & Hp). unfold CRYPTO_PUBLIC_KEY_BYTES in Hp.
      rewrite Hi in Hi'. apply message_inj in Hi' as [? _]; eauto with edgar lia; lia. }
  cbn [negb]. right. exists pk. split; [done|]. rewrite Hr.
  destruct (crypto_derive_session_keys _ _ _ _ _) as [rc keys].
  destruct (Z.eqb_spec rc 0) as [->|Hrc]; cbn [negb]; [by right|by left].
Qed.

(** ** session_seal_data and session_open_data *)
Definition can_seal (s : session_t) (p out : bytes) : Prop :=
  state s = SESSION_STATE_ESTABLISHED /\ (length p + 25 <= length out)%nat.

Lemma seal_data_eq s p out :
  zlen p + 25 < 2 ^ 64 ->
  (can_seal s p out /\
   session_seal_data s p out =
     Some (zlen p + 25, set_tx_counter (u64 (tx_counter s + 1)) s,
           message SESSION_MSG_DATA (tx (data_keys s)) (tx_counter s) p ++
             drop (length p + 25) out)) \/
  (~ can_seal s p out /\ session_seal_data s p out = Some (-1, s, out)).
Proof.
  intros Hp. unfold can_seal, session_seal_data, SESSION_DATA_OVERHEAD,
    CRYPTO_PACKET_OVERHEAD, CRYPTO_COUNTER_BYTES, CRYPTO_TAG_BYTES.
  case_bool_decide as Hs; [|right; split; [tauto|done]]. cbn [negb].
  rewrite u64_small by (unfold is_u64; lia).
  destruct (Z.ltb_spec (zlen out) (zlen p + Z.of_nat (1 + (8 + 16)))).
  { right. split; [lia|done]. }
  left. split; [split; [done|lia]|].
  pose proof (write_message SESSION_MSG_DATA (tx (data_keys s)) (tx_counter s) p out) as W.
  specialize (W ltac:(lia) ltac:(lia)).
  apply bind_Some in W as (o & -> & W). cbn [mbind option_bind]. rewrite W. cbn [mbind option_bind].
  rewrite (proj2 (Z.ltb_ge _ _)) by lia. do 3 f_equal. lia.
Qed.

(** Opening a data message: the verdict is the replay specification's. *)
Lemma open_data_message s accepted c p out :
  window_rep s accepted -> is_u64 c -> zlen p + 25 < 2 ^ 64 ->
  state s = SESSION_STATE_ESTABLISHED -> (length p <= length out)%nat ->
  exists s',
    session_open_data s (message SESSION_MSG_DATA (rx (data_keys s)) c p) out =
      Some (if decide (fresh accepted c) then zlen p else -1, s', p ++ drop (length p) out) /\
    (if decide (fresh accepted c)
     then window_rep s' (c :: accepted) /\ exists h w, s' = set_replay true h w s
     else s' = s).
Proof.
  intros Hrep Hc Hp Hs Hout. unfold session_open_data.
  rewrite bool_decide_true, has_type_message by done. cbn [negb]. unfold message. cbn [tail].
  rewrite crypto_open_sealed by (done || lia). cbn [mbind option_bind].
  rewrite (proj2 (Z.ltb_ge _ _)) by lia.
  destruct (replay_step s accepted c Hrep Hc) as (s' & -> & Hstep). cbn [mbind option_bind].
  exists s'. split; [|done].
  case_decide; [rewrite bool_decide_true by done|rewrite bool_decide_false by done]; done.
Qed.

(** What any datagram does to the data channel. *)
Lemma open_data_cases s accepted inp out :
  window_rep s accepted -> is_bytes inp -> zlen inp < 2 ^ 64 ->
  (exists out', session_open_data s inp out = Some (-1, s, out') /\ length out' = length out) \/
  (exists c p s',
     state s = SESSION_STATE_ESTABLISHED /\
     inp = message SESSION_MSG_DATA (rx (data_keys s)) c p /\
     is_u64 c /\ fresh accepted c /\ (length p <= length out)%nat /\
     session_open_data s inp out = Some (zlen p, s', p ++ drop (length p) out) /\
     window_rep s' (c :: accepted) /\ exists h w, s' = set_replay true h w s).
Proof.
  intros Hrep Hb Hlen.
  destruct (decide (state s = SESSION_STATE_ESTABLISHED)) as [Hs|Hs].
  2:{ left. exists out. unfold session_open_data. by rewrite bool_decide_false. }
  destruct (has_type SESSION_MSG_DATA inp) eqn:Ht.
  2:{ left. exists out. unfold session_open_data. by rewrite bool_decide_true, Ht. }
  pose proof (has_type_inv _ _ Ht) as [Hne Hhd].
  destruct (crypto_open_total (rx (data_keys s)) (tail inp) out 0) as (r & out' & c & E & L).
  { by destruct inp; inv_bytes. }
  { destruct inp; simpl in *; lia. }
  destruct (open_message _ _ _ _ _ _ _ Hb Hlen Hne E) as [[-> ->]|(p & -> & -> & Hc & Hi & Hp)].
  { left. exists out'. unfold session_open_data. by rewrite bool_decide_true, Ht, E by done. }
  rewrite Hhd in Hi.
  assert (zlen p + 25 < 2 ^ 64) as Hp64.
  { rewrite Hi, message_length in Hlen. lia. }
  destruct (open_data_message s accepted c p out Hrep Hc Hp64 Hs Hp) as (s' & O & Hst).
  rewrite <- Hi in O. destruct (decide (fresh accepted c)).
  - destruct Hst. right. exists c, p, s'. by auto 10.
  - subst s'. left. eexists. split; [exact O|done].
Qed.

(** ** Handshakes that succeed *)

(** The ephemeral pair is a matching one, as [crypto_kx_keypair] makes it. *)
Definition eph_honest (s : session_t) : Prop :=
  local_eph_pk s = crypto_scalarmult_base (local_eph_sk s).

Lemma restarted_honest n s : eph_honest (restarted (env_keypair n) s).
Proof. apply env_keypair_matches. Qed.

Lemma build_init_ok s out :
  session_wf s -> can_build_init s out ->
  session_build_init s out =
    Some (57, set_handshake_counters (u64 (handshake_counter s + 1)) (handshake_counter s) s,
          message SESSION_MSG_HANDSHAKE_INIT (tx (static_keys s)) (handshake_counter s)
            (local_eph_pk s) ++ drop 57 out).
Proof. intros Hwf Hc. by destruct (build_init_eq s out Hwf) as [[_ ?]|[? _]]. Qed.

(** A message built from well-formed parts is a datagram of 57 bytes. *)
Lemma handshake_message_facts t key c pk rest :
  is_byte t -> is_bytes pk -> length pk = 32%nat ->
  take (Z.to_nat 57) (message t key c pk ++ rest) = message t key c pk /\
  is_bytes (message t key c pk) /\ zlen (message t key c pk) < 2 ^ 64.
Proof.
  intros Ht Hp Hl. pose proof (message_length t key c pk) as L. rewrite Hl in L.
  split; [apply take_app_length'; by rewrite L|]. split; [by apply message_bytes|]. lia.
Qed.

Lemma message_fixed_inj t key c c' p p' :
  is_u64 c -> is_u64 c' -> length p = 32%nat -> length p' = 32%nat ->
  message t key c p = message t key c' p' -> c = c' /\ p = p'.
Proof. intros. apply (message_inj t key); try done; lia. Qed.

(** An init is acceptable for one counter and one key. *)
Lemma acceptable_init_unique s inp c peer c' peer' :
  acceptable_init s inp c peer -> acceptable_init s inp c' peer' -> c = c' /\ peer = peer'.
Proof.
  intros (_ & Hi & Hp & Hc & _) (_ & Hi' & Hp' & Hc' & _). rewrite Hi in Hi'. by apply message_fixed_inj in Hi'.
Qed.

(** The responder answers an acceptable init when the key derivation works. *)
Lemma handle_init_ok s inp out w c peer s1 w1 keys :
  session_wf s -> is_bytes inp -> zlen inp < 2 ^ 64 -> (57 <= length out)%nat ->
  acceptable_init s inp c peer -> responder_attempt s w = (s1, w1) ->
  crypto_derive_session_keys CRYPTO_ROLE_RESPONDER (local_eph_pk s1) (local_eph_sk s1) peer
    (data_keys s1) = (0, keys) ->
  session_handle_init s inp out w =
    Some ((57, responder_established keys c s1,
           message SESSION_MSG_HANDSHAKE_RESPONSE (tx (static_keys s)) c (local_eph_pk s1)
             ++ drop 57 out), w1).
Proof.
  intros Hwf Hb Hl Ho Ha Es Ek.
  destruct (handle_init_cases s inp out w Hwf Hb Hl) as [[_ Hno]|(_ & c' & peer' & Ha' & Hcase)].
  { by destruct (Hno Ho c peer). }
  destruct (acceptable_init_unique _ _ _ _ _ _ Ha Ha') as [<- <-].
  rewrite Es, Ek in Hcase. by destruct Hcase as [[? _]|[_ ?]].
Qed.

(** When it does not, nothing is sent. *)
Lemma handle_init_refused s inp out w c peer s1 w1 rc keys :
  session_wf s -> is_bytes inp -> zlen inp < 2 ^ 64 -> (57 <= length out)%nat ->
  acceptable_init s inp c peer -> responder_attempt s w = (s1, w1) ->
  crypto_derive_session_keys CRYPTO_ROLE_RESPONDER (local_eph_pk s1) (local_eph_sk s1) peer
    (data_keys s1) = (rc, keys) -> rc <> 0 ->
  session_handle_init s inp out w = Some ((-1, set_data_keys keys s1, out), w1).
Proof.
  intros Hwf Hb Hl Ho Ha Es Ek Hrc.
  destruct (handle_init_cases s inp out w Hwf Hb Hl) as [[_ Hno]|(_ & c' & peer' & Ha' & Hcase)].
  { by destruct (Hno Ho c peer). }
  destruct (acceptable_init_unique _ _ _ _ _ _ Ha Ha') as [<- <-].
  rewrite Es, Ek in Hcase. by destruct Hcase as [[_ ?]|[? _]].
Qed.

Lemma handle_response_ok s inp peer keys :
  session_wf s -> is_bytes inp -> zlen inp < 2 ^ 64 -> acceptable_response s inp peer ->
  crypto_derive_session_keys CRYPTO_ROLE_INITIATOR (local_eph_pk s) (local_eph_sk s) peer
    (data_keys s) = (0, keys) ->
  session_handle_response s inp = Some (0, initiator_established keys s).
Proof.
  intros Hwf Hb Hl Ha Ek.
  destruct (handle_response_cases s inp Hwf Hb Hl) as [[_ Hno]|(peer' & Ha' & Hcase)].
  { by destruct (Hno peer). }
  destruct Ha as (_ & _ & Hi & Hp), Ha' as (_ & _ & Hi' & Hp').
  rewrite Hi in Hi'. apply message_fixed_inj in Hi' as [_ <-]; eauto with edgar.
  rewrite Ek in Hcase. by destruct Hcase as [[? _]|[_ ?]].
Qed.

Lemma handle_response_failed s inp peer rc keys :
  session_wf s -> is_bytes inp -> zlen inp < 2 ^ 64 -> acceptable_response s inp peer ->
  crypto_derive_session_keys CRYPTO_ROLE_INITIATOR (local_eph_pk s) (local_eph_sk s) peer
    (data_keys s) = (rc, keys) -> rc <> 0 ->
  session_handle_response s inp = Some (-1, set_data_keys keys s).
Proof.
  intros Hwf Hb Hl Ha Ek Hrc.
  destruct (handle_response_cases s inp Hwf Hb Hl) as [[_ Hno]|(peer' & Ha' & Hcase)].
  { by destruct (Hno peer). }
  destruct Ha as (_ & _ & Hi & Hp), Ha' as (_ & _ & Hi' & Hp').
  rewrite Hi in Hi'. apply message_fixed_inj in Hi' as [_ <-]; eauto with edgar.
  rewrite Ek in Hcase. by destruct Hcase as [[_ ?]|[? _]].
Qed.

(** A data message that is fresh opens into a buffer that holds it. *)
Lemma open_data_ok s c p s' :
  state s = SESSION_STATE_ESTABLISHED -> is_u64 c -> zlen p + 25 < 2 ^ 64 ->
  replay_check_and_mark s c = Some (true, s') ->
  session_open_data s (message SESSION_MSG_DATA (rx (data_keys s)) c p) (replicate (length p) 0) = Some (zlen p, s', p).
Proof.
  intros Hs Hc Hp Er. unfold session_open_data. rewrite bool_decide_true, has_type_message by done. cbn [negb].
  unfold message. cbn [tail]. rewrite crypto_open_sealed by (rewrite ?length_replicate; done || lia). cbn [mbind option_bind].
  rewrite (proj2 (Z.ltb_ge _ _)) by lia. rewrite Er. cbn. by rewrite drop_ge, app_nil_r by (by rewrite length_replicate).
Qed.

Lemma derive_agree sk_i sk_r old_i old_r keys :
  crypto_derive_session_keys CRYPTO_ROLE_INITIATOR (crypto_scalarmult_base sk_i) sk_i
    (crypto_scalarmult_base sk_r) old_i = (0, keys) ->
  crypto_derive_session_keys CRYPTO_ROLE_RESPONDER (crypto_scalarmult_base sk_r) sk_r
    (crypto_scalarmult_base sk_i) old_r = (0, swap_keys keys).
Proof.
  unfold crypto_derive_session_keys. rewrite decide_True, decide_False by done.
  pose proof (kx_agree old_i old_r sk_i sk_r) as A. cbv zeta in A.
  destruct (crypto_kx_client_session_keys _ _ _ _) as [rc k]. cbn [fst snd] in A.
  destruct (Z.eqb_spec rc 0) as [->|]; intros E; simplify_eq. by rewrite A.
Qed.

End SessionFacts.
