(* ===== verification/SessionRuns.v ===== *)
(** * Sequences of operations on one session

    [session_op] is a call of the session API, [exec_op] runs it, and
    [run_ops] runs a sequence in any order, recording what an observer of the
    cryptographic layer sees ([obs]): the nonces used, the data packets and
    handshakes accepted, the data keys established.  [run_inv] is the
    invariant of every such run from [session_init]; it is proved operation by
    operation. *)

From stdpp Require Import sorting.
From S2P Require Import Prelude World Crypto Session Replay SessionFacts.

Inductive session_op :=
| OpStartHandshake
| OpBuildInit (out : bytes)
| OpHandleInit (inp out : bytes)
| OpHandleResponse (inp : bytes)
| OpSealData (p out : bytes)
| OpOpenData (inp out : bytes).

Inductive obs :=
| ObsInitSent (counter : Z)
| ObsInitAccepted (counter : Z)
| ObsEstablished (keys : crypto_session_keys_t)
| ObsSealed (key : bytes) (counter : Z)
| ObsOpened (key : bytes) (counter : Z).

(** A datagram is a byte sequence shorter than the address space. *)
Definition datagram (inp : bytes) : Prop := is_bytes inp /\ zlen inp < 2 ^ 64.

#[global] Instance datagram_dec inp : Decision (datagram inp).
Proof. unfold datagram. apply _. Defined.

Definition op_ok (op : session_op) : Prop :=
  match op with
  | OpStartHandshake | OpBuildInit _ => True
  | OpHandleInit inp _ | OpHandleResponse inp | OpOpenData inp _ => datagram inp
  | OpSealData p _ => zlen p + 25 < 2 ^ 64
  end.

#[global] Instance op_ok_dec op : Decision (op_ok op).
Proof. destruct op; simpl; apply _. Defined.

(** The counter a message carries in the clear. *)
Definition wire_counter (inp : bytes) : Z := le_value (take 8 (tail inp)).

Section Runs.
  Context `{SO : Sodium} `{EV : Env}.

Definition exec_op (op : session_op) (s : session_t) : M (Z * session_t) :=
  match op with
  | OpStartHandshake => s ← session_start_handshake s; mret (0, s)
  | OpBuildInit out => '(rc, s, _) ← lift (session_build_init s out); mret (rc, s)
  | OpHandleInit inp out => '(rc, s, _) ← session_handle_init s inp out; mret (rc, s)
  | OpHandleResponse inp => lift (session_handle_response s inp)
  | OpSealData p out => '(rc, s, _) ← lift (session_seal_data s p out); mret (rc, s)
  | OpOpenData inp out => '(rc, s, _) ← lift (session_open_data s inp out); mret (rc, s)
  end.

(** What the operation shows, from its return value and the session before
    ([s]) and after ([s']). *)
Definition observe (op : session_op) (rc : Z) (s s' : session_t) : list obs :=
  if rc <? 0 then []
  else match op with
  | OpStartHandshake => []
  | OpBuildInit _ => [ObsInitSent (handshake_counter s)]
  | OpHandleInit inp _ => [ObsInitAccepted (wire_counter inp); ObsEstablished (data_keys s')]
  | OpHandleResponse _ => [ObsEstablished (data_keys s')]
  | OpSealData _ _ => [ObsSealed (tx (data_keys s)) (tx_counter s)]
  | OpOpenData inp _ => [ObsOpened (rx (data_keys s)) (wire_counter inp)]
  end.

Fixpoint run_ops (ops : list session_op) (s : session_t) : M (list obs * session_t) :=
  match ops with
  | [] => mret ([], s)
  | op :: ops =>
      '(rc, s') ← exec_op op s;
      '(log, s'') ← run_ops ops s';
      mret (observe op rc s s' ++ log, s'')
  end.

End Runs.

(** ** Projections of a log *)
Definition inits_sent (log : list obs) : list Z :=
  omap (fun o => match o with ObsInitSent c => Some c | _ => None end) log.
Definition inits_accepted (log : list obs) : list Z :=
  omap (fun o => match o with ObsInitAccepted c => Some c | _ => None end) log.
Definition keys_established (log : list obs) : list crypto_session_keys_t :=
  omap (fun o => match o with ObsEstablished k => Some k | _ => None end) log.
Definition data_sealed (log : list obs) : list (bytes * Z) :=
  omap (fun o => match o with ObsSealed k c => Some (k, c) | _ => None end) log.
Definition data_opened (log : list obs) : list (bytes * Z) :=
  omap (fun o => match o with ObsOpened k c => Some (k, c) | _ => None end) log.

Lemma wire_counter_message t key c p `{SO : Sodium} :
  is_u64 c -> wire_counter (message t key c p) = c.
Proof.
  intros Hc. unfold wire_counter, message, sealed_packet. cbn [tail].
  rewrite take_app_length' by (by rewrite le_bytes_length).
  rewrite le_value_le_bytes. apply Z.mod_small. exact Hc.
Qed.

(** ** The invariant *)

(** The nonces of the data channel: [log]'s seals use established keys; while
    established, those under the current key are below [tx_counter]; and if
    all established keys differ, no (key, counter) pair was used twice. *)
Definition seal_inv (s : session_t) (log : list obs) : Prop :=
  (forall k c, (k, c) ∈ data_sealed log -> k ∈ map tx (keys_established log)) /\
  (NoDup (map tx (keys_established log)) ->
   NoDup (data_sealed log) /\
   (state s = SESSION_STATE_ESTABLISHED ->
    forall c, (tx (data_keys s), c) ∈ data_sealed log -> c < tx_counter s)).

(** The same for the packets accepted, with the replay window in the place of
    the counter. *)
Definition open_inv (s : session_t) (log : list obs) : Prop :=
  (forall k c, (k, c) ∈ data_opened log -> k ∈ map rx (keys_established log)) /\
  exists accepted,
    window_rep s accepted /\
    (state s = SESSION_STATE_HANDSHAKE_PENDING -> accepted = []) /\
    (NoDup (map rx (keys_established log)) ->
     NoDup (data_opened log) /\
     (state s = SESSION_STATE_ESTABLISHED ->
      forall c, (rx (data_keys s), c) ∈ data_opened log -> c ∈ accepted)).

(** The handshake counters: an initiator's are increasing and below the next
    one, a responder's accepted ones are increasing up to the highest seen. *)
Definition handshake_inv (s : session_t) (log : list obs) : Prop :=
  StronglySorted Z.lt (inits_sent log) /\
  Forall (fun c => c < handshake_counter s) (inits_sent log) /\
  StronglySorted Z.lt (inits_accepted log) /\
  Forall (fun c => have_seen_handshake s = true /\ c <= highest_handshake_counter_seen s)
    (inits_accepted log).

Record run_inv (s0 s : session_t) (n : nat) (log : list obs) : Prop := {
  inv_wf : session_wf s;
  inv_role : role s = role s0;
  inv_static : static_keys s = static_keys s0;
  inv_wiped : state s = SESSION_STATE_ESTABLISHED ->
              local_eph_sk s = replicate CRYPTO_SECRET_KEY_BYTES 0;
  inv_current : state s = SESSION_STATE_ESTABLISHED ->
                last (keys_established log) = Some (data_keys s);
  inv_tx : tx_counter s <= Z.of_nat n;
  inv_hs : 0 <= handshake_counter s0 /\
           handshake_counter s <= handshake_counter s0 + Z.of_nat n;
  inv_seal : seal_inv s log;
  inv_open : open_inv s log;
  inv_handshake : handshake_inv s log
}.

(** ** Preservation *)

Lemma NoDup_snoc {A} (l : list A) x : NoDup (l ++ [x]) <-> NoDup l /\ (x ∉ l).
Proof.
  rewrite NoDup_app. split.
  - intros (? & Hd & _). split; [done|]. intros Hx. by apply (Hd x), list_elem_of_singleton.
  - intros [? Hx]. split; [done|]. split; [|apply NoDup_singleton].
    intros y Hy ->%list_elem_of_singleton. done.
Qed.

Lemma StronglySorted_snoc {A} (R : relation A) (l : list A) x :
  StronglySorted R l -> Forall (fun c => R c x) l -> StronglySorted R (l ++ [x]).
Proof.
  intros Hl Hx. apply StronglySorted_app. split; [|split; [done|repeat constructor]].
  intros a b Ha ->%list_elem_of_singleton. by apply (Forall_in Hx).
Qed.

Ltac log_simpl :=
  unfold keys_established, data_sealed, data_opened, inits_sent, inits_accepted in *;
  rewrite ?omap_app in *; cbn [omap list_omap app] in *; rewrite ?app_nil_r, ?map_app in *.

(** A pending session makes no promise about the current key. *)
Lemma seal_inv_pending s s' log :
  seal_inv s log -> state s' = SESSION_STATE_HANDSHAKE_PENDING -> seal_inv s' log.
Proof.
  intros [Ha Hn] Hs. split; [done|]. intros Hd. destruct (Hn Hd) as [? _].
  split; [done|]. by rewrite Hs.
Qed.

Lemma open_inv_pending s s' log :
  open_inv s log -> state s' = SESSION_STATE_HANDSHAKE_PENDING -> window_rep s' [] ->
  open_inv s' log.
Proof.
  intros (Ha & acc & Hr & Hp & Hn) Hs Hr'. split; [done|]. exists [].
  split; [done|]. split; [done|]. intros Hd. destruct (Hn Hd) as [? _].
  split; [done|]. by rewrite Hs.
Qed.

(** A new key starts with no packet sealed or opened under it. *)
Lemma seal_inv_established s s' log pre :
  seal_inv s log -> keys_established pre = [] -> data_sealed pre = [] ->
  seal_inv s' (log ++ pre ++ [ObsEstablished (data_keys s')]).
Proof.
  intros [Ha Hn] E1 E2. unfold seal_inv. log_simpl. rewrite E1, E2, app_nil_r. cbn [app map].
  split; [intros k c Hk; apply elem_of_app; left; eauto|].
  intros [Hd Hx]%NoDup_snoc. destruct (Hn Hd) as [Hs _]. split; [done|].
  intros _ c Hc. destruct Hx. eauto.
Qed.

Lemma open_inv_established s s' log pre :
  open_inv s log -> keys_established pre = [] -> data_opened pre = [] ->
  window_rep s' [] -> state s' = SESSION_STATE_ESTABLISHED ->
  open_inv s' (log ++ pre ++ [ObsEstablished (data_keys s')]).
Proof.
  intros (Ha & acc & Hr & Hp & Hn) E1 E2 Hr' Hs. unfold open_inv. log_simpl.
  rewrite E1, E2, app_nil_r. cbn [app map].
  split; [intros k c Hk; apply elem_of_app; left; eauto|].
  exists []. split; [done|]. split; [done|].
  intros [Hd Hx]%NoDup_snoc. destruct (Hn Hd) as [Ho _]. split; [done|].
  intros _ c Hc. destruct Hx. eauto.
Qed.

Lemma handshake_inv_same s s' log pre :
  handshake_inv s log -> inits_sent pre = [] -> inits_accepted pre = [] ->
  handshake_counter s' = handshake_counter s ->
  have_seen_handshake s' = have_seen_handshake s ->
  highest_handshake_counter_seen s' = highest_handshake_counter_seen s ->
  handshake_inv s' (log ++ pre).
Proof.
  intros Hi E1 E2 Eh Es Ec. unfold handshake_inv in *. log_simpl.
  by rewrite E1, E2, !app_nil_r, Eh, Es, Ec.
Qed.

Section Preservation.
  Context `{SO : Sodium} {SL : SodiumLaws} `{EV : Env} {EL : EnvLaws}.

Lemma derive_wf r pk sk rpk old :
  keys_wf old -> keys_wf (crypto_derive_session_keys r pk sk rpk old).2.
Proof.
  intros H. unfold crypto_derive_session_keys. case_decide.
  - pose proof (kx_client_wf old pk sk rpk H). by destruct (crypto_kx_client_session_keys _ _ _ _).
  - pose proof (kx_server_wf old pk sk rpk H). by destruct (crypto_kx_server_session_keys _ _ _ _).
Qed.

Lemma inv_same s0 s n log : run_inv s0 s n log -> run_inv s0 s (S n) (log ++ []).
Proof. intros []. rewrite app_nil_r. split; auto; lia. Qed.

Lemma inv_restart s0 s n log m :
  run_inv s0 s n log -> run_inv s0 (restarted (env_keypair m) s) n (log ++ []).
Proof.
  intros []. rewrite app_nil_r. split; auto; try done.
  - by apply restarted_wf.
  - simpl. lia.
  - by eapply seal_inv_pending.
  - eapply open_inv_pending; [done|done|apply window_rep_reset].
Qed.

Lemma inv_more s0 s n log : run_inv s0 s n log -> run_inv s0 s (S n) log.
Proof. intros []. split; auto; lia. Qed.

(** While pending, the data keys may be overwritten (a failed derivation). *)
Lemma inv_data_keys s0 s n log keys :
  run_inv s0 s n log -> state s = SESSION_STATE_HANDSHAKE_PENDING -> keys_wf keys ->
  run_inv s0 (set_data_keys keys s) n (log ++ []).
Proof.
  intros [Hwf ??????? Hop ?] Hs Hk. rewrite app_nil_r. split; auto.
  - destruct Hwf. solve_wf.
  - simpl. by rewrite Hs.
  - by eapply seal_inv_pending.
  - eapply open_inv_pending; [done|done|].
    destruct Hop as (_ & acc & Hr & Hp & _). by rewrite (Hp Hs) in Hr.
Qed.


Lemma inv_build_init s0 s n log :
  run_inv s0 s n log -> handshake_counter s + 1 < 2 ^ 64 ->
  run_inv s0 (set_handshake_counters (u64 (handshake_counter s + 1)) (handshake_counter s) s)
    (S n) (log ++ [ObsInitSent (handshake_counter s)]).
Proof.
  intros [Hwf ? ? ? Hcur ? ? [Hs1 Hs2] (Ho1 & acc & Ho2 & Ho3 & Ho4) (H1 & H2 & H3 & H4)] H64.
  pose proof (wf_hs_counter s Hwf) as Hc. unfold is_u64 in Hc.
  rewrite u64_small by (unfold is_u64; lia).
  split; simpl; auto; try lia.
  - destruct Hwf. solve_wf. unfold is_u64. lia.
  - log_simpl. done.
  - unfold seal_inv. log_simpl. done.
  - unfold open_inv. log_simpl. split; [done|]. by exists acc.
  - unfold handshake_inv. log_simpl. simpl. split; [by apply StronglySorted_snoc|].
    split; [|done]. apply Forall_app. split; [|repeat constructor; lia].
    eapply Forall_impl; [done|]. simpl. lia.
Qed.

(** Both ways of becoming established. *)
Lemma inv_initiator_established s0 s n log keys :
  run_inv s0 s n log -> state s = SESSION_STATE_HANDSHAKE_PENDING -> keys_wf keys ->
  run_inv s0 (initiator_established keys s) (S n) (log ++ [ObsEstablished keys]).
Proof.
  intros [Hwf ? ? ? Hcur ? ? Hse Hop Hhs] Hs Hk. split; simpl; auto; try lia.
  - destruct Hwf. solve_wf. unfold crypto_wipe. by rewrite length_replicate.
  - intros _. unfold crypto_wipe. by rewrite (wf_eph_sk s Hwf).
  - intros _. log_simpl. by rewrite last_snoc.
  - by apply (seal_inv_established s (initiator_established keys s) log []).
  - apply (open_inv_established s (initiator_established keys s) log []); try done.
    destruct Hop as (_ & acc & Hr & Hp & _). by rewrite (Hp Hs) in Hr.
  - by apply handshake_inv_same with s.
Qed.

Lemma inv_responder_established s0 s n log keys c :
  run_inv s0 s n log -> state s = SESSION_STATE_HANDSHAKE_PENDING -> keys_wf keys ->
  is_u64 c -> (have_seen_handshake s = true -> highest_handshake_counter_seen s < c) ->
  run_inv s0 (responder_established keys c s) (S n)
    (log ++ [ObsInitAccepted c; ObsEstablished keys]).
Proof.
  intros [Hwf ? ? ? Hcur ? ? Hse Hop (H1 & H2 & H3 & H4)] Hs Hk Hc Hnew. split; simpl; auto; try lia.
  - destruct Hwf. solve_wf. unfold crypto_wipe. by rewrite length_replicate.
  - intros _. unfold crypto_wipe. by rewrite (wf_eph_sk s Hwf).
  - intros _. log_simpl. by rewrite last_snoc.
  - by apply (seal_inv_established s (responder_established keys c s) log [ObsInitAccepted c]).
  - apply (open_inv_established s (responder_established keys c s) log [ObsInitAccepted c]); try done.
    destruct Hop as (_ & acc & Hr & Hp & _). by rewrite (Hp Hs) in Hr.
  - unfold handshake_inv. log_simpl. simpl. split; [done|]. split; [done|]. split.
    + apply StronglySorted_snoc; [done|]. eapply Forall_impl; [exact H4|].
      simpl. intros x [Hx Hle]. specialize (Hnew Hx). lia.
    + apply Forall_app. split; [|repeat constructor; lia].
      eapply Forall_impl; [exact H4|]. simpl. intros x [Hx Hle]. specialize (Hnew Hx). auto with lia.
Qed.

Lemma inv_sealed s0 s n log :
  run_inv s0 s n log -> state s = SESSION_STATE_ESTABLISHED -> Z.of_nat n + 1 < 2 ^ 64 ->
  run_inv s0 (set_tx_counter (u64 (tx_counter s + 1)) s) (S n)
    (log ++ [ObsSealed (tx (data_keys s)) (tx_counter s)]).
Proof.
  intros [Hwf ? ? ? Hcur ? ? [Hs1 Hs2] (Ho1 & acc & Ho2 & Ho3 & Ho4) Hhs] Hs H64.
  pose proof (wf_tx s Hwf) as Hc. unfold is_u64 in Hc.
  rewrite u64_small by (unfold is_u64; lia).
  split; simpl; auto; try lia.
  - destruct Hwf. solve_wf. unfold is_u64. lia.
  - log_simpl. done.
  - unfold seal_inv. log_simpl. simpl. split.
    { intros k c [Hk|Hk]%elem_of_app; [eauto|]. apply list_elem_of_singleton in Hk. simplify_eq.
      apply list_elem_of_fmap. eauto using last_Some_elem_of. }
    intros Hd. destruct (Hs2 Hd) as [Hnd Hlt]. specialize (Hlt Hs). split.
    + apply NoDup_snoc. split; [done|]. intros Hx. specialize (Hlt _ Hx). lia.
    + intros _ c [Hx|Hx]%elem_of_app; [specialize (Hlt _ Hx); lia|].
      apply list_elem_of_singleton in Hx. simplify_eq. lia.
  - unfold open_inv. log_simpl. split; [done|]. by exists acc.
  - by apply handshake_inv_same with s.
Qed.


(** An accepted data packet, for the list [accepted] the window represents. *)
Lemma inv_opened s0 s n log inp out :
  run_inv s0 s n log -> datagram inp ->
  exists rc s' out', session_open_data s inp out = Some (rc, s', out') /\
    length out' = length out /\
    run_inv s0 s' (S n) (log ++ observe (OpOpenData inp out) rc s s').
Proof.
  intros Hinv [Hb Hlen].
  pose proof Hinv as [Hwf ? ? ? Hcur ? ? [Hs1 Hs2] (Ho1 & acc & Ho2 & Ho3 & Ho4) Hhs].
  destruct (open_data_cases s acc inp out Ho2 Hb Hlen)
    as [(out' & E & L)|(c & p & s' & Hs & Hi & Hc & Hf & Hp & E & Hr & h & v & Es)].
  { exists (-1), s, out'. split; [done|]. split; [done|]. by apply inv_same. }
  exists (zlen p), s', (p ++ drop (length p) out). split; [done|].
  split; [rewrite length_app, length_drop; lia|].
  unfold observe. rewrite (proj2 (Z.ltb_ge _ _)) by lia.
  rewrite Hi, wire_counter_message by done. rewrite Es in Hr |- *.
  split; simpl; auto; try lia.
  - destruct Hwf. pose proof Hr as [Hw' Hr']. simpl in Hr'. destruct Hr' as [? _]. solve_wf.
  - log_simpl. done.
  - unfold seal_inv. log_simpl. done.
  - unfold open_inv. log_simpl. simpl. split.
    { intros k c' [Hk|Hk]%elem_of_app; [eauto|]. apply list_elem_of_singleton in Hk. simplify_eq.
      apply list_elem_of_fmap. eauto using last_Some_elem_of. }
    exists (c :: acc). split; [done|]. split; [by rewrite Hs|].
    intros Hd. destruct (Ho4 Hd) as [Hnd Hin]. specialize (Hin Hs). split.
    + apply NoDup_snoc. split; [done|]. intros Hx%Hin. by apply Hf.
    + intros _ c' [Hx|Hx]%elem_of_app; [right; eauto|].
      apply list_elem_of_singleton in Hx. simplify_eq. left.
  - by apply handshake_inv_same with s.
Qed.

Lemma inv_handle_init s0 s n log inp out w :
  run_inv s0 s n log -> datagram inp ->
  exists rc s' out' w', session_handle_init s inp out w = Some ((rc, s', out'), w') /\
    length out' = length out /\
    run_inv s0 s' (S n) (log ++ observe (OpHandleInit inp out) rc s s').
Proof.
  intros Hinv [Hb Hlen]. pose proof (inv_wf _ _ _ _ Hinv) as Hwf.
  destruct (handle_init_cases s inp out w Hwf Hb Hlen)
    as [[E _]|(Hout & c & peer & (Hr & Hi & Hp & Hc & Hnew) & Hcase)].
  { exists (-1), s, out, w. split; [done|]. split; [done|]. by apply inv_same. }
  destruct (responder_attempt s w) as [s1 w1] eqn:Ea.
  assert (run_inv s0 s1 n log /\ state s1 = SESSION_STATE_HANDSHAKE_PENDING /\
    have_seen_handshake s1 = have_seen_handshake s /\
    highest_handshake_counter_seen s1 = highest_handshake_counter_seen s) as (Hinv1 & Hs1 & Eh1 & Eh2).
  { unfold responder_attempt in Ea. case_decide as Hs; simplify_eq.
    - split; [|done]. rewrite <- (app_nil_r log). by apply inv_restart.
    - split; [done|]. split; [|done]. by destruct (state s1). }
  pose proof (derive_wf CRYPTO_ROLE_RESPONDER (local_eph_pk s1) (local_eph_sk s1) peer
    (data_keys s1) (wf_data _ (inv_wf _ _ _ _ Hinv1))) as Hk.
  destruct (crypto_derive_session_keys _ _ _ _ _) as [rc keys]. cbn [snd] in Hk.
  destruct Hcase as [[_ E]|[-> E]].
  - exists (-1), (set_data_keys keys s1), out, w1. split; [done|]. split; [done|].
    apply inv_more. by apply inv_data_keys.
  - eexists 57, _, _, w1. split; [exact E|]. split.
    { rewrite length_app, message_length, length_drop.
      pose proof (wf_eph_pk _ (inv_wf _ _ _ _ Hinv1)) as L. unfold CRYPTO_PUBLIC_KEY_BYTES in L. lia. }
    unfold observe. cbn [Z.ltb Z.compare]. rewrite Hi, wire_counter_message by done.
    apply inv_responder_established; auto. by rewrite Eh1, Eh2.
Qed.

Lemma inv_handle_response s0 s n log inp :
  run_inv s0 s n log -> datagram inp ->
  exists rc s', session_handle_response s inp = Some (rc, s') /\
    run_inv s0 s' (S n) (log ++ observe (OpHandleResponse inp) rc s s').
Proof.
  intros Hinv [Hb Hlen]. pose proof (inv_wf _ _ _ _ Hinv) as Hwf.
  destruct (handle_response_cases s inp Hwf Hb Hlen) as [[E _]|(peer & (_ & Hs & _) & Hcase)].
  { exists (-1), s. split; [done|]. by apply inv_same. }
  pose proof (derive_wf CRYPTO_ROLE_INITIATOR (local_eph_pk s) (local_eph_sk s) peer
    (data_keys s) (wf_data _ Hwf)) as Hk.
  destruct (crypto_derive_session_keys _ _ _ _ _) as [rc keys]. cbn [snd] in Hk.
  destruct Hcase as [[_ E]|[-> E]].
  - exists (-1), (set_data_keys keys s). split; [done|]. apply inv_more. by apply inv_data_keys.
  - exists 0, (initiator_established keys s). split; [done|]. by apply inv_initiator_established.
Qed.

(** Every operation has a defined result and preserves the invariant. *)
Lemma exec_op_inv s0 s n log op w :
  run_inv s0 s n log -> op_ok op -> handshake_counter s0 + Z.of_nat n + 1 < 2 ^ 64 ->
  exists rc s' w', exec_op op s w = Some ((rc, s'), w') /\
    run_inv s0 s' (S n) (log ++ observe op rc s s').
Proof.
  intros Hinv Hop H64. pose proof (inv_wf _ _ _ _ Hinv) as Hwf.
  pose proof (inv_hs _ _ _ _ Hinv) as [Hhs0 Hhs].
  destruct op as [|out|inp out|inp|p out|inp out]; simpl exec_op.
  - exists 0, (restarted (env_keypair (w_calls w)) s), (tick w). split.
    { by rewrite (M_bind_Some _ _ _ _ _ (start_handshake_eq s w)). }
    by apply inv_more, inv_restart.
  - destruct (build_init_eq s out Hwf) as [[_ E]|[_ E]];
      rewrite (M_bind_lift _ _ _ _ E); do 3 eexists; (split; [reflexivity|]).
    + apply inv_build_init; [done|lia].
    + by apply inv_same.
  - destruct (inv_handle_init s0 s n log inp out w Hinv Hop) as (rc & s' & out' & w' & E & _ & Hi).
    exists rc, s', w'. split; [|done]. by rewrite (M_bind_Some _ _ _ _ _ E).
  - destruct (inv_handle_response s0 s n log inp Hinv Hop) as (rc & s' & E & Hi).
    exists rc, s', w. split; [|done]. by rewrite E.
  - destruct (seal_data_eq s p out Hop) as [[[Hs _] E]|[_ E]];
      rewrite (M_bind_lift _ _ _ _ E); do 3 eexists; (split; [reflexivity|]).
    + unfold observe. rewrite (proj2 (Z.ltb_ge _ _)) by lia. apply inv_sealed; [done|done|lia].
    + by apply inv_same.
  - destruct (inv_opened s0 s n log inp out Hinv Hop) as (rc & s' & out' & E & _ & Hi).
    exists rc, s', w. split; [|done]. by rewrite (M_bind_lift _ _ _ _ E).
Qed.

(** Every sequence of operations. *)
Lemma run_ops_inv s0 s n log ops w :
  run_inv s0 s n log -> Forall op_ok ops ->
  handshake_counter s0 + Z.of_nat n + zlen ops < 2 ^ 64 ->
  exists log' s' w', run_ops ops s w = Some ((log', s'), w') /\
    run_inv s0 s' (n + length ops) (log ++ log').
Proof.
  intros Hinv Hops. revert s n log w Hinv.
  induction Hops as [|op ops Hop Hops IH]; intros s n log w Hinv H64.
  { exists [], s, w. split; [done|]. by rewrite Nat.add_0_r, app_nil_r. }
  simpl in H64. cbn [run_ops].
  destruct (exec_op_inv s0 s n log op w Hinv Hop ltac:(lia)) as (rc & s1 & w1 & E & Hinv1).
  rewrite (M_bind_Some _ _ _ _ _ E). cbv beta iota.
  destruct (IH s1 (S n) _ w1 Hinv1 ltac:(lia)) as (log' & s2 & w2 & E2 & Hinv2).
  rewrite (M_bind_Some _ _ _ _ _ E2). cbv beta iota.
  do 3 eexists. split; [reflexivity|]. rewrite app_assoc. simpl.
  by replace (n + S (length ops))%nat with (S n + length ops)%nat by lia.
Qed.

(** ** session_init *)
Lemma session_init_eq r pk sk peer w :
  let '(rc, keys) := crypto_derive_session_keys r pk sk peer zero_keys in
  session_init r pk sk peer w =
    if decide (rc = 0)
    then Some ((0, restarted (env_keypair (S (w_calls w)))
                     (set_handshake_counters (u64 (env_time (w_calls w))) 0
                        (set_static_keys keys (zero_session r)))), tick (tick w))
    else Some ((-1, set_static_keys keys (zero_session r)), w).
Proof.
  unfold session_init. cbn [static_keys zero_session].
  destruct (crypto_derive_session_keys _ _ _ _ _) as [rc keys].
  destruct (Z.eqb_spec rc 0) as [->|]; cbn [negb]; case_decide; try done.
  rewrite (M_bind_Some _ _ _ _ _ (ask_eq env_time w)). cbv beta zeta.
  by rewrite (M_bind_Some _ _ _ _ _ (start_handshake_eq _ _)).
Qed.

Lemma zero_keys_wf : keys_wf zero_keys.
Proof. split; apply length_replicate. Qed.

Lemma zero_session_wf r keys t :
  keys_wf keys -> session_wf (set_handshake_counters (u64 t) 0 (set_static_keys keys (zero_session r))).
Proof.
  intros Hk. split; simpl; eauto using zero_keys_wf with edgar;
    try apply length_replicate; exact (is_bytes_zeros 32).
Qed.

(** A session just initialised satisfies the invariant of the empty run. *)
Lemma session_init_inv r pk sk peer w s w' :
  session_init r pk sk peer w = Some ((0, s), w') ->
  run_inv s s 0 [] /\ role s = r /\ state s = SESSION_STATE_HANDSHAKE_PENDING /\
  have_seen_handshake s = false.
Proof.
  pose proof (session_init_eq r pk sk peer w) as E.
  pose proof (derive_wf r pk sk peer zero_keys zero_keys_wf) as Hk.
  destruct (crypto_derive_session_keys _ _ _ _ _) as [rc keys]. cbn [snd] in Hk.
  rewrite E. case_decide; intros Heq; simplify_eq. split; [|done].
  split; try done; simpl; try lia.
  - by apply restarted_wf, zero_session_wf.
  - pose proof (u64_range (env_time (w_calls w))). unfold is_u64 in *. lia.
  - split; [set_solver|]. intros _. split; [constructor|done].
  - split; [set_solver|]. exists []. split; [apply window_rep_reset|]. split; [done|].
    intros _. split; [constructor|done].
  - repeat split; constructor.
Qed.

End Preservation.
