(* ===== verification/SessionSpec.v ===== *)
(** * What src/session.c guarantees

    The handshake agrees on keys, the data channel delivers what was sealed
    and nothing twice, no nonce is ever reused by a running session, the
    ephemeral secret is gone once a session is established, and every
    rejected message leaves the session as it was. *)

From stdpp Require Import sorting.
From S2P Require Import Prelude World Crypto Toy Session Replay SessionFacts SessionRuns.

(** ** Scenarios composed from the API *)
Section Scenarios.
  Context `{SO : Sodium} `{EV : Env}.

(** One handshake over a perfect network: the initiator's init is handed to
    the responder, whose response is handed back.  The three return values and
    the two sessions. *)
Definition handshake (si sr : session_t) (out1 out2 : bytes) :
    M (Z * Z * Z * session_t * session_t) :=
  '(n1, si, out1) ← lift (session_build_init si out1);
  '(n2, sr, out2) ← session_handle_init sr (take (Z.to_nat n1) out1) out2;
  '(rc, si) ← lift (session_handle_response si (take (Z.to_nat n2) out2));
  mret (n1, n2, rc, si, sr).

(** Seal the packets [ps] one after the other; the datagrams sent. *)
Fixpoint send_all (s : session_t) (ps : list bytes) : option (list bytes * session_t) :=
  match ps with
  | [] => Some ([], s)
  | p :: ps =>
      '(n, s, out) ← session_seal_data s p (replicate (length p + SESSION_DATA_OVERHEAD) 0);
      '(ds, s) ← send_all s ps;
      Some (take (Z.to_nat n) out :: ds, s)
  end.

(** Open the datagrams [ds] in order, in a buffer of [cap] bytes; for each the
    plaintext, or [None] when it is rejected. *)
Fixpoint recv_all (s : session_t) (ds : list bytes) (cap : nat) :
    option (list (option bytes) * session_t) :=
  match ds with
  | [] => Some ([], s)
  | d :: ds =>
      '(n, s, out) ← session_open_data s d (replicate cap 0);
      '(rs, s) ← recv_all s ds cap;
      Some ((if n <? 0 then None else Some (take (Z.to_nat n) out)) :: rs, s)
  end.

End Scenarios.

(** The specification of delivery: datagram [i] carries packet [i] of [ps]
    under counter [base + i]; a schedule delivers datagrams in any order, any
    number of times, and each is accepted when its counter is fresh. *)
Fixpoint spec_deliver (base : Z) (ps : list bytes) (accepted : list Z) (schedule : list nat) :
    list (option bytes) :=
  match schedule with
  | [] => []
  | i :: schedule =>
      if decide (fresh accepted (base + Z.of_nat i))
      then ps !! i :: spec_deliver base ps (base + Z.of_nat i :: accepted) schedule
      else None :: spec_deliver base ps accepted schedule
  end.

Section Facts.
  Context `{SO : Sodium} {SL : SodiumLaws} `{EV : Env} {EL : EnvLaws}.

(** The whole handshake on a perfect network. *)
Lemma handshake_ok si sr out1 out2 w sr1 w1 keys :
  session_wf si -> session_wf sr ->
  can_build_init si out1 -> role sr = CRYPTO_ROLE_RESPONDER -> (57 <= length out2)%nat ->
  static_keys sr = swap_keys (static_keys si) ->
  eph_honest si -> responder_attempt sr w = (sr1, w1) -> eph_honest sr1 ->
  (have_seen_handshake sr = true -> highest_handshake_counter_seen sr < handshake_counter si) ->
  crypto_derive_session_keys CRYPTO_ROLE_INITIATOR (local_eph_pk si) (local_eph_sk si)
    (local_eph_pk sr1) (data_keys si) = (0, keys) ->
  exists si' sr',
    handshake si sr out1 out2 w = Some ((57, 57, 0, si', sr'), w1) /\
    state si' = SESSION_STATE_ESTABLISHED /\ state sr' = SESSION_STATE_ESTABLISHED /\
    data_keys si' = keys /\ data_keys sr' = swap_keys (data_keys si') /\
    role si' = role si /\ role sr' = role sr /\
    local_eph_sk si' = replicate CRYPTO_SECRET_KEY_BYTES 0 /\
    local_eph_sk sr' = replicate CRYPTO_SECRET_KEY_BYTES 0 /\
    highest_handshake_counter_seen sr' = handshake_counter si.
Proof.
  intros Hwfi Hwfr Hcan Hr Ho2 Hst Hei Ea Her Hnew Hk.
  destruct (responder_attempt_facts _ _ _ _ Ea Hwfr) as (Hwf1 & Hr1 & Hst1).
  unfold handshake. rewrite (M_bind_lift _ _ _ _ (build_init_ok si out1 Hwfi Hcan)). cbv beta iota.
  destruct (handshake_message_facts SESSION_MSG_HANDSHAKE_INIT (tx (static_keys si))
    (handshake_counter si) (local_eph_pk si) (drop 57 out1)) as (-> & Hb1 & Hl1);
    [done|eauto with edgar..|].
  pose proof Hk as Hk'. rewrite Hei, Her in Hk'. apply derive_agree with (old_r := data_keys sr1) in Hk'.
  rewrite <- Hei, <- Her in Hk'.
  assert (acceptable_init sr (message SESSION_MSG_HANDSHAKE_INIT (tx (static_keys si))
    (handshake_counter si) (local_eph_pk si)) (handshake_counter si) (local_eph_pk si)) as Hacc.
  { split; [done|]. rewrite Hst. split; [done|]. eauto with edgar. }
  rewrite (M_bind_Some _ _ _ _ _ (handle_init_ok sr _ out2 w _ _ sr1 w1 (swap_keys keys)
    Hwfr Hb1 Hl1 Ho2 Hacc Ea Hk')). cbv beta iota.
  destruct (handshake_message_facts SESSION_MSG_HANDSHAKE_RESPONSE (tx (static_keys sr))
    (handshake_counter si) (local_eph_pk sr1) (drop 57 out2)) as (-> & Hb2 & Hl2);
    [done|eauto with edgar..|].
  set (si1 := set_handshake_counters _ _ si).
  assert (acceptable_response si1 (message SESSION_MSG_HANDSHAKE_RESPONSE (tx (static_keys sr))
    (handshake_counter si) (local_eph_pk sr1)) (local_eph_pk sr1)) as Hacc'.
  { destruct Hcan as (? & ? & _). split; [done|]. split; [done|].
    rewrite Hst. split; [done|]. eauto with edgar. }
  assert (session_wf si1) as Hwfi1 by (destruct Hwfi; solve_wf).
  rewrite (M_bind_lift _ _ _ _ (handle_response_ok si1 _ _ keys Hwfi1 Hb2 Hl2 Hacc' Hk)).
  do 2 eexists. split; [reflexivity|]. simpl. unfold crypto_wipe.
  rewrite (wf_eph_sk _ Hwfi), (wf_eph_sk _ Hwf1). done.
Qed.

End Facts.

(** ** Sending and receiving *)
Section Delivery.
  Context `{SO : Sodium} {SL : SodiumLaws}.

(** The datagrams that [send_all] produces from counter [base] on. *)
Fixpoint datagrams (key : bytes) (base : Z) (ps : list bytes) : list bytes :=
  match ps with
  | [] => []
  | p :: ps => message SESSION_MSG_DATA key base p :: datagrams key (base + 1) ps
  end.

Lemma datagrams_lookup key base ps i p :
  ps !! i = Some p ->
  datagrams key base ps !! i = Some (message SESSION_MSG_DATA key (base + Z.of_nat i) p).
Proof.
  revert base i. induction ps as [|q ps IH]; intros base [|i] H; simplify_eq/=.
  - by rewrite Z.add_0_r.
  - rewrite (IH (base + 1) i H). do 2 f_equal. lia.
Qed.

Lemma send_all_eq s ps :
  state s = SESSION_STATE_ESTABLISHED -> is_u64 (tx_counter s) ->
  tx_counter s + zlen ps < 2 ^ 64 -> Forall (fun p => zlen p + 25 < 2 ^ 64) ps ->
  exists s', send_all s ps = Some (datagrams (tx (data_keys s)) (tx_counter s) ps, s') /\
    s' = set_tx_counter (tx_counter s + zlen ps) s.
Proof.
  intros Hs Hc H64 Hps. revert s Hs Hc H64.
  induction Hps as [|p ps Hp Hps IH]; intros s Hs Hc H64; simpl.
  { exists s. split; [done|]. rewrite Z.add_0_r. by destruct s. }
  simpl in H64. destruct (seal_data_eq s p (replicate (length p + SESSION_DATA_OVERHEAD) 0) Hp)
    as [[_ ->]|[Hn _]].
  2:{ destruct Hn. split; [done|]. rewrite length_replicate. reflexivity. }
  cbn [mbind option_bind]. unfold is_u64 in Hc. rewrite u64_small by (unfold is_u64; lia).
  destruct (IH (set_tx_counter (tx_counter s + 1) s)) as (s' & E & Es); [done| |simpl; lia|].
  { unfold is_u64. simpl. lia. }
  rewrite E. cbn [mbind option_bind]. exists s'. split.
  - do 2 f_equal. f_equal. rewrite take_app_length' by (rewrite message_length; lia). done.
  - rewrite Es. unfold set_tx_counter. simpl. f_equal. lia.
Qed.

(** Receiving any schedule of those datagrams follows the specification. *)
Lemma recv_all_eq r key base ps accepted schedule cap :
  window_rep r accepted -> state r = SESSION_STATE_ESTABLISHED -> rx (data_keys r) = key ->
  0 <= base -> base + zlen ps < 2 ^ 64 ->
  Forall (fun p => zlen p + 25 < 2 ^ 64 /\ (length p <= cap)%nat) ps ->
  Forall (fun i => (i < length ps)%nat) schedule ->
  exists r',
    recv_all r (map (fun i => default [] (datagrams key base ps !! i)) schedule) cap =
      Some (spec_deliver base ps accepted schedule, r').
Proof.
  intros Hrep Hs Hk H0 H64 Hps Hsch. revert r accepted Hrep Hs Hk.
  induction Hsch as [|i schedule Hi Hsch IH]; intros r accepted Hrep Hs Hk; simpl; [by eauto|].
  destruct (lookup_lt_is_Some_2 ps i Hi) as [p Hp].
  rewrite (datagrams_lookup key base ps i p Hp). simpl.
  destruct (proj1 (Forall_lookup _ _) Hps i p Hp) as [Hp1 Hp2].
  destruct (open_data_message r accepted (base + Z.of_nat i) p (replicate cap 0) Hrep) as (r1 & E & Hst).
  { unfold is_u64. lia. }
  { done. }
  { done. }
  { by rewrite length_replicate. }
  rewrite Hk in E. rewrite E. cbn [mbind option_bind].
  destruct (decide (fresh accepted (base + Z.of_nat i))).
  - destruct Hst as (Hrep1 & h & v & ->).
    destruct (IH _ _ Hrep1 Hs Hk) as (r2 & ->). cbn [mbind option_bind]. exists r2.
    rewrite (proj2 (Z.ltb_ge _ _)) by lia. by rewrite Nat2Z.id, take_app_length, Hp.
  - subst r1. destruct (IH _ _ Hrep Hs Hk) as (r2 & ->). cbn [mbind option_bind]. by exists r2.
Qed.

(** In order and without loss, everything is delivered. *)
Lemma spec_deliver_in_order base ps k n accepted :
  (k + n <= length ps)%nat -> Forall (fun x => x < base + Z.of_nat k) accepted ->
  spec_deliver base ps accepted (seq k n) = map Some (take n (drop k ps)).
Proof.
  revert k accepted. induction n as [|n IH]; intros k accepted Hk Hacc; simpl; [done|].
  destruct (lookup_lt_is_Some_2 ps k ltac:(lia)) as [p Hp].
  rewrite (drop_S ps p k Hp). simpl. rewrite decide_True.
  - rewrite Hp, IH; [done|lia|]. constructor; [lia|].
    eapply Forall_impl; [exact Hacc|]. simpl. lia.
  - rewrite Forall_forall in Hacc. split; [intros Hin; specialize (Hacc _ Hin); lia|].
    apply Forall_forall. intros x Hx. specialize (Hacc _ Hx).
    unfold SESSION_REPLAY_WINDOW_BITS. lia.
Qed.

End Delivery.

(** ** Properties *)
Section Claims.
  Context `{SO : Sodium} {SL : SodiumLaws} `{EV : Env} {EL : EnvLaws}.

(** The handshake agrees.  Take an initiator awaiting a handshake and a
    responder in any state, with mirrored static keys, honest ephemeral pairs
    and an init counter above the highest the responder has accepted, and
    suppose the X25519 exchange of the two ephemeral keys is not degenerate.
    Then the init, the response and its processing all succeed, messages are
    57 bytes, and both sessions are established with mirrored data keys, wiped
    ephemeral secrets and the handshake counter recorded. *)
Theorem handshake_agreement si sr out1 out2 w sr1 w1 keys :
  session_wf si -> session_wf sr ->
  can_build_init si out1 -> role sr = CRYPTO_ROLE_RESPONDER -> (57 <= length out2)%nat ->
  static_keys sr = swap_keys (static_keys si) ->
  eph_honest si -> responder_attempt sr w = (sr1, w1) -> eph_honest sr1 ->
  (have_seen_handshake sr = true -> highest_handshake_counter_seen sr < handshake_counter si) ->
  crypto_derive_session_keys CRYPTO_ROLE_INITIATOR (local_eph_pk si) (local_eph_sk si)
    (local_eph_pk sr1) (data_keys si) = (0, keys) ->
  exists si' sr',
    handshake si sr out1 out2 w = Some ((57, 57, 0, si', sr'), w1) /\
    state si' = SESSION_STATE_ESTABLISHED /\ state sr' = SESSION_STATE_ESTABLISHED /\
    data_keys si' = keys /\ data_keys sr' = swap_keys (data_keys si') /\
    local_eph_sk si' = replicate CRYPTO_SECRET_KEY_BYTES 0 /\
    local_eph_sk sr' = replicate CRYPTO_SECRET_KEY_BYTES 0 /\
    highest_handshake_counter_seen sr' = handshake_counter si.
Proof.
  intros ? ? ? ? ? ? ? Ha ? ? Hk.
  destruct (handshake_ok si sr out1 out2 w sr1 w1 keys)
    as (si' & sr' & E & ? & ? & ? & ? & _ & _ & ?); auto.
  by exists si', sr'.
Qed.


(** End-to-end delivery.  Two established sessions whose keys match: the
    sender seals any packets; the network delivers the datagrams in any order,
    with any losses and repetitions.  Each delivered datagram is accepted
    exactly when its counter is fresh, and then yields the packet it was made
    from; in order and without loss all packets arrive. *)
Theorem data_channel_delivers s r ps cap accepted :
  state s = SESSION_STATE_ESTABLISHED -> state r = SESSION_STATE_ESTABLISHED ->
  rx (data_keys r) = tx (data_keys s) ->
  is_u64 (tx_counter s) -> tx_counter s + zlen ps < 2 ^ 64 ->
  Forall (fun p => zlen p + 25 < 2 ^ 64 /\ (length p <= cap)%nat) ps ->
  window_rep r accepted ->
  exists ds s',
    send_all s ps = Some (ds, s') /\ length ds = length ps /\
    tx_counter s' = tx_counter s + zlen ps /\
    (forall schedule, Forall (fun i => (i < length ps)%nat) schedule ->
       exists r', recv_all r (map (fun i => default [] (ds !! i)) schedule) cap =
                    Some (spec_deliver (tx_counter s) ps accepted schedule, r')) /\
    (Forall (fun c => c < tx_counter s) accepted ->
     exists r', recv_all r ds cap = Some (map Some ps, r')).
Proof.
  intros Hs Hr Hk Hc H64 Hps Hrep.
  destruct (send_all_eq s ps Hs Hc H64) as (s' & E & Es).
  { eapply Forall_impl; [exact Hps|]. by intros ? []. }
  set (ds := datagrams _ _ _) in *. exists ds, s'.
  assert (length ds = length ps) as L.
  { unfold ds. generalize (tx_counter s). clear. induction ps; intros; simpl; auto. }
  unfold is_u64 in Hc. split; [done|]. split; [done|]. split; [by rewrite Es|]. split.
  - intros schedule Hsch. apply recv_all_eq; auto; lia.
  - intros Hacc.
    destruct (recv_all_eq r (tx (data_keys s)) (tx_counter s) ps accepted (seq 0 (length ps)) cap)
      as (r' & E'); auto; try lia.
    { apply Forall_seq. lia. }
    exists r'. rewrite spec_deliver_in_order, drop_0, take_ge in E' by (try lia; by rewrite Z.add_0_r).
    rewrite <- E'. f_equal. fold ds. rewrite <- L. apply list_eq. intros i.
    rewrite list_lookup_fmap. destruct (decide (i < length ds)%nat) as [Hi|Hi].
    + rewrite lookup_seq_lt by done. simpl. destruct (lookup_lt_is_Some_2 ds i Hi) as [d ->]. done.
    + rewrite lookup_seq_ge, lookup_ge_None_2 by lia. done.
Qed.

(** C17. The replay window implements its specification: from a session whose
    window represents the counters [accepted], any sequence of 64-bit counters
    is judged exactly as the specification judges it (accept once, never more
    than 1023 behind the highest accepted), without an out-of-bounds access
    and within the loop's bound; in particular no counter is accepted twice. *)
Theorem replay_window_refines s accepted cs :
  window_rep s accepted -> Forall is_u64 cs ->
  exists s',
    replay_run s cs = Some (spec_run accepted cs, s') /\
    window_rep s' (rev (spec_run accepted cs) ++ accepted) /\
    NoDup (spec_run accepted cs) /\
    (forall c, c ∈ spec_run accepted cs -> c ∉ accepted).
Proof.
  intros Hrep Hcs. destruct (replay_run_refines s accepted cs Hrep Hcs) as (s' & E & Hrep').
  exists s'. split; [done|]. split; [done|]. split; [apply spec_run_nodup|].
  intros c. apply spec_run_fresh.
Qed.

(** No nonce reuse on the data channel.  After [session_init], run any
    sequence of session operations on any inputs (fewer than 2^64 - the
    initial counter): if the data keys established along the way are pairwise
    different, no two data messages are sealed with the same key and counter,
    whatever restarts and failed handshakes happen in between. *)
Theorem data_nonces_unique r pk sk peer w s w1 ops :
  session_init r pk sk peer w = Some ((0, s), w1) ->
  Forall op_ok ops -> handshake_counter s + zlen ops < 2 ^ 64 ->
  exists log s' w2,
    run_ops ops s w1 = Some ((log, s'), w2) /\
    (NoDup (map tx (keys_established log)) -> NoDup (data_sealed log)).
Proof.
  intros Hi Hops H64. destruct (session_init_inv _ _ _ _ _ _ _ Hi) as [Hinv _].
  destruct (run_ops_inv s s 0 [] ops w1 Hinv Hops ltac:(lia)) as (log & s' & w2 & E & Hinv').
  exists log, s', w2. split; [done|]. intros Hd. by apply (inv_seal _ _ _ _ Hinv').
Qed.

(** No replayed data.  In the same runs, if the receive keys established
    are pairwise different, no two accepted data messages carry the same
    counter under the same key. *)
Theorem data_never_replayed r pk sk peer w s w1 ops :
  session_init r pk sk peer w = Some ((0, s), w1) ->
  Forall op_ok ops -> handshake_counter s + zlen ops < 2 ^ 64 ->
  exists log s' w2,
    run_ops ops s w1 = Some ((log, s'), w2) /\
    (NoDup (map rx (keys_established log)) -> NoDup (data_opened log)).
Proof.
  intros Hi Hops H64. destruct (session_init_inv _ _ _ _ _ _ _ Hi) as [Hinv _].
  destruct (run_ops_inv s s 0 [] ops w1 Hinv Hops ltac:(lia)) as (log & s' & w2 & E & Hinv').
  exists log, s', w2. split; [done|]. intros Hd.
  destruct (inv_open _ _ _ _ Hinv') as (_ & acc & _ & _ & Hn). by apply Hn.
Qed.

(** Handshake counters move forward.  In the same runs, the counters of
    the inits sent are strictly increasing, and so are those of the inits
    accepted (which the responses reuse): a running session never seals two
    handshake messages with the same nonce and never accepts an init twice. *)
Theorem handshake_counters_increase r pk sk peer w s w1 ops :
  session_init r pk sk peer w = Some ((0, s), w1) ->
  Forall op_ok ops -> handshake_counter s + zlen ops < 2 ^ 64 ->
  exists log s' w2,
    run_ops ops s w1 = Some ((log, s'), w2) /\
    StronglySorted Z.lt (inits_sent log) /\ StronglySorted Z.lt (inits_accepted log) /\
    role s' = r /\ static_keys s' = static_keys s.
Proof.
  intros Hi Hops H64. destruct (session_init_inv _ _ _ _ _ _ _ Hi) as (Hinv & Hr & _).
  destruct (run_ops_inv s s 0 [] ops w1 Hinv Hops ltac:(lia)) as (log & s' & w2 & E & Hinv').
  exists log, s', w2. split; [done|].
  destruct (inv_handshake _ _ _ _ Hinv') as (H1 & _ & H3 & _).
  split; [done|]. split; [done|].
  split; [|apply (inv_static _ _ _ _ Hinv')]. by rewrite (inv_role _ _ _ _ Hinv').
Qed.

(** C18. Forward secrecy in memory, and safety.  Any sequence of session
    operations after [session_init] is free of undefined behaviour, keeps the
    session well formed (array sizes, counters in range), and whenever the
    session is established its ephemeral secret key is all zeroes and its data
    keys are the last ones established. *)
Theorem established_means_wiped r pk sk peer w s w1 ops :
  session_init r pk sk peer w = Some ((0, s), w1) ->
  Forall op_ok ops -> handshake_counter s + zlen ops < 2 ^ 64 ->
  exists log s' w2,
    run_ops ops s w1 = Some ((log, s'), w2) /\ session_wf s' /\
    (state s' = SESSION_STATE_ESTABLISHED ->
     local_eph_sk s' = replicate CRYPTO_SECRET_KEY_BYTES 0 /\
     last (keys_established log) = Some (data_keys s')).
Proof.
  intros Hi Hops H64. destruct (session_init_inv _ _ _ _ _ _ _ Hi) as (Hinv & Hr & _).
  destruct (run_ops_inv s s 0 [] ops w1 Hinv Hops ltac:(lia)) as (log & s' & w2 & E & Hinv').
  exists log, s', w2. split; [done|]. split; [apply (inv_wf _ _ _ _ Hinv')|].
  intros Hs. split; [by apply (inv_wiped _ _ _ _ Hinv')|by apply (inv_current _ _ _ _ Hinv')].
Qed.


(** C19. The responder accepts exactly the fresh authentic inits.  On any
    datagram [session_handle_init] is defined and returns 57 or -1.  A message
    sealed by the peer under the static key with a counter above every one
    accepted before is accepted whenever the key exchange with the public key
    it carries succeeds (with a new ephemeral pair if the session was
    established, with the pair it holds otherwise): the call returns 57, the
    session is established with the keys exchanged and records the counter,
    and the output is the response that echoes the counter, with the
    responder's ephemeral public key.  If the exchange fails the call returns
    -1, writes no output and records no counter.  Any other datagram returns
    -1 and changes nothing: not the session, not the output, not the state of
    the random generator. *)
Theorem handle_init_accepts_exactly s inp out w :
  session_wf s -> is_bytes inp -> zlen inp < 2 ^ 64 -> (57 <= length out)%nat ->
  exists rc s' out' w',
    session_handle_init s inp out w = Some ((rc, s', out'), w') /\
    (rc = 57 \/ rc = -1) /\
    (rc = 57 -> exists c peer, acceptable_init s inp c peer /\
       highest_handshake_counter_seen s' = c /\ have_seen_handshake s' = true /\
       state s' = SESSION_STATE_ESTABLISHED) /\
    (forall c peer, acceptable_init s inp c peer ->
       let '(pk, sk) := if decide (state s = SESSION_STATE_ESTABLISHED) then env_keypair (w_calls w)
                        else (local_eph_pk s, local_eph_sk s) in
       let '(failed, keys) := crypto_derive_session_keys CRYPTO_ROLE_RESPONDER pk sk peer (data_keys s) in
       if failed =? 0 then
         rc = 57 /\ state s' = SESSION_STATE_ESTABLISHED /\ data_keys s' = keys /\
         highest_handshake_counter_seen s' = c /\ have_seen_handshake s' = true /\
         out' = message SESSION_MSG_HANDSHAKE_RESPONSE (tx (static_keys s)) c pk ++ drop 57 out
       else
         rc = -1 /\ out' = out /\ have_seen_handshake s' = have_seen_handshake s /\
         highest_handshake_counter_seen s' = highest_handshake_counter_seen s) /\
    ((forall c peer, ~ acceptable_init s inp c peer) ->
       rc = -1 /\ s' = s /\ out' = out /\ w' = w).
Proof.
  intros Hwf Hb Hl Ho.
  destruct (handle_init_cases s inp out w Hwf Hb Hl) as [[E Hno]|(_ & c & peer & Ha & Hcase)].
  { exists (-1), s, out, w. split; [done|]. split; [by right|]. split; [done|]. split; [|done].
    intros c peer Ha. by destruct (Hno Ho c peer). }
  assert (forall c' peer', acceptable_init s inp c' peer' -> c' = c /\ peer' = peer) as Huniq.
  { intros c' peer' Ha'. by apply (acceptable_init_unique s inp). }
  set (pair := if decide (state s = SESSION_STATE_ESTABLISHED) then env_keypair (w_calls w)
               else (local_eph_pk s, local_eph_sk s)).
  destruct (responder_attempt s w) as [s1 w1] eqn:Ea.
  assert (pair = (local_eph_pk s1, local_eph_sk s1) /\ data_keys s1 = data_keys s /\
    have_seen_handshake s1 = have_seen_handshake s /\
    highest_handshake_counter_seen s1 = highest_handshake_counter_seen s) as (-> & Ed & Es & Eh).
  { unfold pair, responder_attempt in *. case_decide; simplify_eq; [|done]. by destruct (env_keypair _). }
  rewrite Ed in Hcase. destruct (crypto_derive_session_keys _ _ _ _ _) as [rc keys] eqn:Ek.
  destruct Hcase as [[Hrc E]|[-> E]]; do 4 eexists; (split; [exact E|]).
  - split; [by right|]. split; [done|]. split; [|intros H; by destruct (H c peer)].
    intros c' peer' [-> ->]%Huniq. rewrite Ek. by destruct (Z.eqb_spec rc 0).
  - split; [by left|]. split; [by exists c, peer|]. split; [|intros H; by destruct (H c peer)].
    intros c' peer' [-> ->]%Huniq. by rewrite Ek.
Qed.

(** Reconnection uses fresh keys.  An established responder that accepts
    an init draws a new ephemeral pair from the generator: the response
    carries the new public key, the data keys are derived from the new secret,
    and the data channel starts over with counter 0 and an empty replay
    window. *)
Theorem reconnection_is_fresh s inp out w s' out' w' :
  session_wf s -> is_bytes inp -> zlen inp < 2 ^ 64 ->
  state s = SESSION_STATE_ESTABLISHED ->
  session_handle_init s inp out w = Some ((57, s', out'), w') ->
  exists c peer,
    acceptable_init s inp c peer /\
    w_calls w' = S (w_calls w) /\
    local_eph_pk s' = (env_keypair (w_calls w)).1 /\
    take 57 out' = message SESSION_MSG_HANDSHAKE_RESPONSE (tx (static_keys s)) c
                     (env_keypair (w_calls w)).1 /\
    crypto_derive_session_keys CRYPTO_ROLE_RESPONDER (env_keypair (w_calls w)).1
      (env_keypair (w_calls w)).2 peer (data_keys s) = (0, data_keys s') /\
    tx_counter s' = 0 /\ window_rep s' [].
Proof.
  intros Hwf Hb Hl Hs E.
  destruct (handle_init_cases s inp out w Hwf Hb Hl) as [[E' _]|(_ & c & peer & Ha & Hcase)].
  { rewrite E in E'. simplify_eq. }
  unfold responder_attempt in Hcase. rewrite decide_True in Hcase by done.
  pose proof (restarted_wf (w_calls w) s Hwf) as Hwf1.
  destruct (crypto_derive_session_keys _ _ _ _ _) as [rc keys] eqn:Ek.
  destruct Hcase as [[_ E']|[-> E']]; rewrite E in E'; simplify_eq.
  exists c, peer. split; [done|]. split; [done|]. split; [done|]. split.
  { apply take_app_length'. rewrite message_length. pose proof (wf_eph_pk _ Hwf1) as L.
    simpl in L. unfold CRYPTO_PUBLIC_KEY_BYTES in L. simpl. lia. }
  split; [exact Ek|]. split; [done|]. apply (window_rep_reset (highest_rx_counter s) s).
Qed.

(** C20. The initiator accepts only the response to its outstanding init.  On
    any datagram [session_handle_response] is defined; it succeeds only while
    pending, on a message sealed by the peer under the static key that echoes
    the counter of the last init; everything else (a stale response of an
    earlier attempt in particular) changes nothing. *)
Theorem handle_response_accepts_exactly s inp :
  session_wf s -> is_bytes inp -> zlen inp < 2 ^ 64 ->
  exists rc s',
    session_handle_response s inp = Some (rc, s') /\
    (rc = 0 \/ rc = -1) /\
    (rc = 0 -> (exists peer, acceptable_response s inp peer) /\
               state s' = SESSION_STATE_ESTABLISHED) /\
    ((forall peer, ~ acceptable_response s inp peer) -> rc = -1 /\ s' = s) /\
    (forall c peer, inp = message SESSION_MSG_HANDSHAKE_RESPONSE (rx (static_keys s)) c peer ->
       is_u64 c -> length peer = CRYPTO_PUBLIC_KEY_BYTES ->
       c <> pending_handshake_counter s -> rc = -1 /\ s' = s).
Proof.
  intros Hwf Hb Hl.
  destruct (handle_response_cases s inp Hwf Hb Hl) as [[E _]|(peer & Ha & Hcase)].
  { exists (-1), s. split; [done|]. split; [by right|]. by repeat split. }
  assert (forall c p, inp = message SESSION_MSG_HANDSHAKE_RESPONSE (rx (static_keys s)) c p ->
    is_u64 c -> length p = CRYPTO_PUBLIC_KEY_BYTES -> c = pending_handshake_counter s) as Hecho.
  { intros c p Hi Hc Hp. destruct Ha as (_ & _ & Hi' & Hp'). rewrite Hi in Hi'.
    apply message_fixed_inj in Hi' as [-> _]; eauto with edgar. }
  destruct (crypto_derive_session_keys _ _ _ _ _) as [rc keys].
  destruct Hcase as [[_ E]|[_ E]]; do 2 eexists; (split; [exact E|]);
    (split; [by auto|]);
    (split; [intros ?; first [lia | by eauto]|]); (split; [intros H; by destruct (H peer)|]);
    intros c p Hi Hc Hp Hne; by destruct (Hne (Hecho c p Hi Hc Hp)).
Qed.

(** A restarted initiator gets through.  Let the initiator process start
    again, at a wall-clock time above the highest init counter the running
    responder has accepted: the handshake from its new session succeeds
    whatever state the responder is in, and both end established with mirrored
    keys (provided the exchange of the ephemeral keys is not degenerate). *)
Theorem restarted_initiator_reconnects sk_i sk_r w0 si w1 sr out1 out2 sr1 w2 keys :
  let pk_i := crypto_derive_public_key sk_i in
  let pk_r := crypto_derive_public_key sk_r in
  session_init CRYPTO_ROLE_INITIATOR pk_i sk_i pk_r w0 = Some ((0, si), w1) ->
  session_wf sr -> role sr = CRYPTO_ROLE_RESPONDER ->
  crypto_derive_session_keys CRYPTO_ROLE_RESPONDER pk_r sk_r pk_i zero_keys = (0, static_keys sr) ->
  (57 <= length out1)%nat -> (57 <= length out2)%nat ->
  highest_handshake_counter_seen sr < u64 (env_time (w_calls w0)) ->
  responder_attempt sr w1 = (sr1, w2) -> eph_honest sr1 ->
  crypto_derive_session_keys CRYPTO_ROLE_INITIATOR (local_eph_pk si) (local_eph_sk si)
    (local_eph_pk sr1) (data_keys si) = (0, keys) ->
  exists si' sr',
    handshake si sr out1 out2 w1 = Some ((57, 57, 0, si', sr'), w2) /\
    state si' = SESSION_STATE_ESTABLISHED /\ state sr' = SESSION_STATE_ESTABLISHED /\
    data_keys sr' = swap_keys (data_keys si').
Proof.
  intros pk_i pk_r Hi Hwf Hr Hst Ho1 Ho2 Hnew Ha Hh Hk.
  destruct (session_init_inv _ _ _ _ _ _ _ Hi) as (Hinv & Hri & Hsi & _).
  pose proof (inv_wf _ _ _ _ Hinv) as Hwfi.
  pose proof (session_init_eq CRYPTO_ROLE_INITIATOR pk_i sk_i pk_r w0) as E. rewrite Hi in E.
  destruct (crypto_derive_session_keys CRYPTO_ROLE_INITIATOR pk_i sk_i pk_r zero_keys) as [rc ki] eqn:Eki.
  destruct (decide (rc = 0)) as [->|]; [|done]. injection E as Esi _.
  apply derive_agree with (old_r := zero_keys) in Eki.
  fold pk_i pk_r in Hst. unfold pk_i, pk_r, crypto_derive_public_key in Hst. rewrite Eki in Hst.
  injection Hst as Hst.
  destruct (handshake_ok si sr out1 out2 w1 sr1 w2 keys) as (si' & sr' & Hh' & ? & ? & ? & ? & _);
    try done.
  - by rewrite <- Hst, Esi.
  - rewrite Esi. apply restarted_honest.
  - intros _. by rewrite Esi.
  - by exists si', sr'.
Qed.

(** C21. A restarted responder reuses nonces.  Start the responder process
    twice with the same keys.  An init that the first process accepted is
    accepted again by the second one (nothing remembers its counter), and
    both responses are sealed under the same static key with the same
    counter, although the ephemeral public keys they carry are the two
    processes' own: the pair (key, nonce) is used for two plaintexts. *)
Theorem responder_restart_reuses_nonce pk sk peer w s1 w1 w' s2 w1' inp out r1 o1 v1 :
  session_init CRYPTO_ROLE_RESPONDER pk sk peer w = Some ((0, s1), w1) ->
  session_init CRYPTO_ROLE_RESPONDER pk sk peer w' = Some ((0, s2), w1') ->
  is_bytes inp -> zlen inp < 2 ^ 64 ->
  session_handle_init s1 inp out w1 = Some ((57, r1, o1), v1) ->
  exists c eph,
    acceptable_init s1 inp c eph /\ acceptable_init s2 inp c eph /\
    take 57 o1 = message SESSION_MSG_HANDSHAKE_RESPONSE (tx (static_keys s1)) c (local_eph_pk s1) /\
    ((crypto_derive_session_keys CRYPTO_ROLE_RESPONDER (local_eph_pk s2) (local_eph_sk s2) eph
        (data_keys s2)).1 = 0 ->
     exists r2 o2 v2,
       session_handle_init s2 inp out w1' = Some ((57, r2, o2), v2) /\
       take 57 o2 = message SESSION_MSG_HANDSHAKE_RESPONSE (tx (static_keys s1)) c (local_eph_pk s2)).
Proof.
  intros H1 H2 Hb Hl E.
  destruct (session_init_inv _ _ _ _ _ _ _ H1) as (Hinv1 & Hr1 & Hs1 & Hseen1).
  destruct (session_init_inv _ _ _ _ _ _ _ H2) as (Hinv2 & Hr2 & Hs2 & Hseen2).
  pose proof (inv_wf _ _ _ _ Hinv1) as Hwf1. pose proof (inv_wf _ _ _ _ Hinv2) as Hwf2.
  assert (static_keys s2 = static_keys s1) as Hst.
  { pose proof (session_init_eq CRYPTO_ROLE_RESPONDER pk sk peer w) as E1.
    pose proof (session_init_eq CRYPTO_ROLE_RESPONDER pk sk peer w') as E2.
    rewrite H1 in E1. rewrite H2 in E2. destruct (crypto_derive_session_keys _ _ _ _ _) as [rc k].
    destruct (decide (rc = 0)); [|done]. injection E1 as -> _. injection E2 as -> _. done. }
  destruct (handle_init_cases s1 inp out w1 Hwf1 Hb Hl) as [[E' _]|(Ho & c & eph & Ha & Hcase)].
  { rewrite E in E'. simplify_eq. }
  exists c, eph. split; [done|].
  assert (acceptable_init s2 inp c eph) as Ha2.
  { destruct Ha as (_ & Hi & ? & ? & _). split; [done|]. rewrite Hst. by rewrite Hseen2. }
  split; [done|].
  unfold responder_attempt in Hcase. rewrite Hs1, decide_False in Hcase by done.
  destruct (crypto_derive_session_keys CRYPTO_ROLE_RESPONDER (local_eph_pk s1) _ _ _) as [rc keys].
  destruct Hcase as [[_ E']|[-> E']]; rewrite E in E'; simplify_eq. split.
  { apply take_app_length'. rewrite message_length, (wf_eph_pk _ Hwf1). reflexivity. }
  intros Hk. destruct (crypto_derive_session_keys _ (local_eph_pk s2) _ _ _) as [rc2 keys2] eqn:Ek.
  cbn [fst] in Hk. subst rc2.
  pose proof (handle_init_ok s2 inp out w1' c eph s2 w1' keys2 Hwf2 Hb Hl Ho Ha2) as E2.
  unfold responder_attempt in E2. rewrite Hs2, decide_False in E2 by done.
  do 3 eexists. split; [by apply E2|]. rewrite Hst.
  apply take_app_length'. rewrite message_length, (wf_eph_pk _ Hwf2). reflexivity.
Qed.

End Claims.

(** ** Witnesses: two sessions of the toy world *)
Definition toy_sk_i : bytes := resize 32 0 [3; 5; 7].
Definition toy_sk_r : bytes := resize 32 0 [11; 13; 17].
Definition toy_pk_i : bytes := crypto_derive_public_key toy_sk_i.
Definition toy_pk_r : bytes := crypto_derive_public_key toy_sk_r.

Definition run_or {A} (d : A) (m : M A) (w : world) : A * world :=
  match m w with Some r => r | None => (d, w) end.

Definition toy_init_i : (Z * session_t) * world :=
  run_or (0, zero_session CRYPTO_ROLE_INITIATOR)
    (session_init CRYPTO_ROLE_INITIATOR toy_pk_i toy_sk_i toy_pk_r) toy_world.
Definition toy_init_r : (Z * session_t) * world :=
  run_or (0, zero_session CRYPTO_ROLE_RESPONDER)
    (session_init CRYPTO_ROLE_RESPONDER toy_pk_r toy_sk_r toy_pk_i) toy_init_i.2.
Definition toy_si : session_t := toy_init_i.1.2.
Definition toy_sr : session_t := toy_init_r.1.2.
Definition toy_w : world := toy_init_r.2.
Definition toy_buf : bytes := replicate 57 0.

Lemma toy_si_init :
  session_init CRYPTO_ROLE_INITIATOR toy_pk_i toy_sk_i toy_pk_r toy_world =
    Some ((0, toy_si), toy_init_i.2).
Proof. vm_compute. reflexivity. Qed.
Lemma toy_sr_init :
  session_init CRYPTO_ROLE_RESPONDER toy_pk_r toy_sk_r toy_pk_i toy_init_i.2 =
    Some ((0, toy_sr), toy_w).
Proof. vm_compute. reflexivity. Qed.
Lemma toy_si_wf : session_wf toy_si.
Proof. exact (inv_wf _ _ _ _ (proj1 (session_init_inv _ _ _ _ _ _ _ toy_si_init))). Qed.
Lemma toy_sr_wf : session_wf toy_sr.
Proof. exact (inv_wf _ _ _ _ (proj1 (session_init_inv _ _ _ _ _ _ _ toy_sr_init))). Qed.

(** The data keys the two toy sessions agree on. *)
Definition toy_data_keys : crypto_session_keys_t :=
  (crypto_derive_session_keys CRYPTO_ROLE_INITIATOR (local_eph_pk toy_si) (local_eph_sk toy_si)
     (local_eph_pk toy_sr) (data_keys toy_si)).2.

(** The established pair, the init and the response on the wire. *)
Definition toy_hs :=
  run_or (0, 0, 0, toy_si, toy_sr) (handshake toy_si toy_sr toy_buf toy_buf) toy_w.
Definition toy_ei : session_t := toy_hs.1.1.2.
Definition toy_er : session_t := toy_hs.1.2.
Definition toy_init_msg : bytes :=
  match session_build_init toy_si toy_buf with Some (_, _, o) => o | None => [] end.

Lemma toy_er_rep : window_rep toy_er [].
Proof.
  split.
  - split; [reflexivity|]. apply (bool_decide_unpack _). vm_compute. exact I.
  - change (have_received_any toy_er) with false. split; [done|].
    change (replay_window toy_er) with (replicate 128 0). apply window_bit_zeros.
Qed.

Lemma handshake_agreement_witness :
  exists si' sr',
    handshake toy_si toy_sr toy_buf toy_buf toy_w = Some ((57, 57, 0, si', sr'), toy_w) /\
    state si' = SESSION_STATE_ESTABLISHED /\ state sr' = SESSION_STATE_ESTABLISHED /\
    data_keys si' = toy_data_keys /\ data_keys sr' = swap_keys (data_keys si') /\
    local_eph_sk si' = replicate CRYPTO_SECRET_KEY_BYTES 0 /\
    local_eph_sk sr' = replicate CRYPTO_SECRET_KEY_BYTES 0 /\
    highest_handshake_counter_seen sr' = handshake_counter toy_si.
Proof.
  apply (handshake_agreement toy_si toy_sr toy_buf toy_buf toy_w toy_sr toy_w toy_data_keys).
  - exact toy_si_wf.
  - exact toy_sr_wf.
  - split; [reflexivity|]. split; [reflexivity|]. vm_compute. lia.
  - reflexivity.
  - vm_compute. lia.
  - vm_compute. reflexivity.
  - vm_compute. reflexivity.
  - vm_compute. reflexivity.
  - vm_compute. reflexivity.
  - intros H. vm_compute in H. discriminate H.
  - vm_compute. reflexivity.
Defined.

Lemma data_channel_delivers_witness :
  exists ds s',
    send_all toy_ei [[69; 1]; [69; 2; 2]; []] = Some (ds, s') /\ length ds = 3%nat /\
    tx_counter s' = 0 + 3 /\
    (forall schedule, Forall (fun i => (i < 3)%nat) schedule ->
       exists r', recv_all toy_er (map (fun i => default [] (ds !! i)) schedule) 8 =
                    Some (spec_deliver 0 [[69; 1]; [69; 2; 2]; []] [] schedule, r')) /\
    (Forall (fun c => c < 0) [] ->
     exists r', recv_all toy_er ds 8 = Some (map Some [[69; 1]; [69; 2; 2]; []], r')).
Proof.
  apply (data_channel_delivers toy_ei toy_er [[69; 1]; [69; 2; 2]; []] 8 []).
  - vm_compute. reflexivity.
  - vm_compute. reflexivity.
  - vm_compute. reflexivity.
  - apply (bool_decide_unpack _). vm_compute. exact I.
  - vm_compute. reflexivity.
  - repeat constructor; simpl; lia.
  - exact toy_er_rep.
Defined.

Lemma replay_window_refines_witness :
  exists s',
    replay_run toy_er [0; 2; 1; 1; 2000; 977; 976; 2000] = Some ([0; 2; 1; 2000; 977], s') /\
    window_rep s' [977; 2000; 1; 2; 0] /\ NoDup [0; 2; 1; 2000; 977] /\
    (forall c : Z, c ∈ [0; 2; 1; 2000; 977] -> c ∉ []).
Proof.
  apply (replay_window_refines toy_er [] [0; 2; 1; 1; 2000; 977; 976; 2000]).
  - exact toy_er_rep.
  - repeat constructor; unfold is_u64; lia.
Defined.

(** A run in which the initiator handshakes, sends two packets, restarts the
    handshake and is refused an empty datagram. *)
Definition toy_response_msg : bytes :=
  match session_handle_init toy_sr toy_init_msg toy_buf toy_w with
  | Some ((_, _, o), _) => o | None => [] end.
Definition toy_ops : list session_op :=
  [OpBuildInit toy_buf; OpHandleResponse toy_response_msg;
   OpSealData [1; 2] (replicate 64 0); OpSealData [] (replicate 64 0);
   OpOpenData [] []; OpStartHandshake; OpBuildInit toy_buf].
Definition toy_log : list obs :=
  [ObsInitSent 1700000000; ObsEstablished toy_data_keys;
   ObsSealed (tx toy_data_keys) 0; ObsSealed (tx toy_data_keys) 1; ObsInitSent 1700000001].

Lemma toy_ops_ok : Forall op_ok toy_ops.
Proof. apply (bool_decide_unpack _). vm_compute. exact I. Qed.

Lemma data_nonces_unique_witness :
  exists log s' w2,
    run_ops toy_ops toy_si toy_init_i.2 = Some ((log, s'), w2) /\
    (NoDup (map tx (keys_established log)) -> NoDup (data_sealed log)).
Proof.
  apply (data_nonces_unique CRYPTO_ROLE_INITIATOR toy_pk_i toy_sk_i toy_pk_r toy_world).
  - exact toy_si_init.
  - exact toy_ops_ok.
  - vm_compute. reflexivity.
Defined.

Lemma data_never_replayed_witness :
  exists log s' w2,
    run_ops toy_ops toy_si toy_init_i.2 = Some ((log, s'), w2) /\
    (NoDup (map rx (keys_established log)) -> NoDup (data_opened log)).
Proof.
  apply (data_never_replayed CRYPTO_ROLE_INITIATOR toy_pk_i toy_sk_i toy_pk_r toy_world).
  - exact toy_si_init.
  - exact toy_ops_ok.
  - vm_compute. reflexivity.
Defined.

Lemma handshake_counters_increase_witness :
  exists log s' w2,
    run_ops toy_ops toy_si toy_init_i.2 = Some ((log, s'), w2) /\
    StronglySorted Z.lt (inits_sent log) /\ StronglySorted Z.lt (inits_accepted log) /\
    role s' = CRYPTO_ROLE_INITIATOR /\ static_keys s' = static_keys toy_si.
Proof.
  apply (handshake_counters_increase CRYPTO_ROLE_INITIATOR toy_pk_i toy_sk_i toy_pk_r toy_world).
  - exact toy_si_init.
  - exact toy_ops_ok.
  - vm_compute. reflexivity.
Defined.

Lemma established_means_wiped_witness :
  exists log s' w2,
    run_ops toy_ops toy_si toy_init_i.2 = Some ((log, s'), w2) /\ session_wf s' /\
    (state s' = SESSION_STATE_ESTABLISHED ->
     local_eph_sk s' = replicate CRYPTO_SECRET_KEY_BYTES 0 /\
     last (keys_established log) = Some (data_keys s')).
Proof.
  apply (established_means_wiped CRYPTO_ROLE_INITIATOR toy_pk_i toy_sk_i toy_pk_r toy_world).
  - exact toy_si_init.
  - exact toy_ops_ok.
  - vm_compute. reflexivity.
Defined.

(** The run of the witnesses, evaluated. *)
Example toy_run_log : (run_or ([], toy_si) (run_ops toy_ops toy_si) toy_init_i.2).1.1 = toy_log.
Proof. vm_compute. reflexivity. Qed.

Lemma toy_init_msg_ok : is_bytes toy_init_msg.
Proof. apply (bool_decide_unpack _). vm_compute. exact I. Qed.
Lemma toy_response_msg_ok : is_bytes toy_response_msg.
Proof. apply (bool_decide_unpack _). vm_compute. exact I. Qed.

Lemma toy_init_acceptable : acceptable_init toy_sr toy_init_msg (handshake_counter toy_si) (local_eph_pk toy_si).
Proof.
  split; [by vm_compute|]. split; [by vm_compute|]. split; [by vm_compute|].
  split; [split; vm_compute; done|]. vm_compute. done.
Qed.

(** The responder answers the initiator's first init. *)
Lemma handle_init_accepts_exactly_witness :
  exists s' out' w' c, session_handle_init toy_sr toy_init_msg toy_buf toy_w = Some ((57, s', out'), w') /\
    state s' = SESSION_STATE_ESTABLISHED /\ highest_handshake_counter_seen s' = c /\
    out' = message SESSION_MSG_HANDSHAKE_RESPONSE (tx (static_keys toy_sr)) c (local_eph_pk toy_sr) ++ drop 57 toy_buf.
Proof.
  destruct (handle_init_accepts_exactly toy_sr toy_init_msg toy_buf toy_w toy_sr_wf toy_init_msg_ok
    ltac:(by vm_compute) ltac:(by apply Nat.leb_le; vm_compute)) as (rc & s' & out' & w' & E & _ & _ & Hacc & _).
  specialize (Hacc (handshake_counter toy_si) (local_eph_pk toy_si) toy_init_acceptable).
  rewrite decide_False in Hacc by (by vm_compute).
  assert ((crypto_derive_session_keys CRYPTO_ROLE_RESPONDER (local_eph_pk toy_sr) (local_eph_sk toy_sr)
    (local_eph_pk toy_si) (data_keys toy_sr)).1 = 0) as E0 by (by vm_compute).
  destruct (crypto_derive_session_keys _ _ _ _ _) as [failed keys]. cbn [fst] in E0. subst failed.
  destruct Hacc as (-> & Hst & _ & Hc & _ & Hout).
  exists s', out', w', (handshake_counter toy_si). exact (conj E (conj Hst (conj Hc Hout))).
Defined.

(** A later init, for the established responder. *)
Definition toy_si2 : session_t :=
  (run_or (0, toy_si) (session_init CRYPTO_ROLE_INITIATOR toy_pk_i toy_sk_i toy_pk_r) toy_w).1.2.
Definition toy_w2 : world :=
  (run_or (0, toy_si) (session_init CRYPTO_ROLE_INITIATOR toy_pk_i toy_sk_i toy_pk_r) toy_w).2.
Definition toy_init_msg2 : bytes :=
  match session_build_init toy_si2 toy_buf with Some (_, _, o) => o | None => [] end.
Definition toy_reconnect : (Z * session_t * bytes) * world :=
  run_or (0, toy_er, []) (session_handle_init toy_er toy_init_msg2 toy_buf) toy_w2.

Lemma toy_er_wf : session_wf toy_er.
Proof.
  split; try (split; vm_compute; reflexivity); try (vm_compute; reflexivity);
    try (apply (bool_decide_unpack _); vm_compute; exact I).
Qed.

Lemma reconnection_is_fresh_witness :
  exists c peer,
    acceptable_init toy_er toy_init_msg2 c peer /\
    w_calls toy_reconnect.2 = S (w_calls toy_w2) /\
    local_eph_pk toy_reconnect.1.1.2 = (env_keypair (w_calls toy_w2)).1 /\
    take 57 toy_reconnect.1.2 =
      message SESSION_MSG_HANDSHAKE_RESPONSE (tx (static_keys toy_er)) c
        (env_keypair (w_calls toy_w2)).1 /\
    crypto_derive_session_keys CRYPTO_ROLE_RESPONDER (env_keypair (w_calls toy_w2)).1
      (env_keypair (w_calls toy_w2)).2 peer (data_keys toy_er) =
      (0, data_keys toy_reconnect.1.1.2) /\
    tx_counter toy_reconnect.1.1.2 = 0 /\ window_rep toy_reconnect.1.1.2 [].
Proof.
  apply (reconnection_is_fresh toy_er toy_init_msg2 toy_buf toy_w2).
  - exact toy_er_wf.
  - apply (bool_decide_unpack _). vm_compute. exact I.
  - vm_compute. reflexivity.
  - vm_compute. reflexivity.
  - vm_compute. reflexivity.
Defined.

Lemma handle_response_accepts_exactly_witness :
  exists rc s',
    session_handle_response toy_si toy_response_msg = Some (rc, s') /\
    (rc = 0 \/ rc = -1) /\
    (rc = 0 -> (exists peer, acceptable_response toy_si toy_response_msg peer) /\
               state s' = SESSION_STATE_ESTABLISHED) /\
    ((forall peer, ~ acceptable_response toy_si toy_response_msg peer) -> rc = -1 /\ s' = toy_si) /\
    (forall c peer,
       toy_response_msg = message SESSION_MSG_HANDSHAKE_RESPONSE (rx (static_keys toy_si)) c peer ->
       is_u64 c -> length peer = CRYPTO_PUBLIC_KEY_BYTES ->
       c <> pending_handshake_counter toy_si -> rc = -1 /\ s' = toy_si).
Proof.
  apply (handle_response_accepts_exactly toy_si toy_response_msg).
  - exact toy_si_wf.
  - exact toy_response_msg_ok.
  - vm_compute. reflexivity.
Defined.

Lemma restarted_initiator_reconnects_witness :
  exists si' sr',
    handshake toy_si2 toy_er toy_buf toy_buf toy_w2 = Some ((57, 57, 0, si', sr'), tick toy_w2) /\
    state si' = SESSION_STATE_ESTABLISHED /\ state sr' = SESSION_STATE_ESTABLISHED /\
    data_keys sr' = swap_keys (data_keys si').
Proof.
  apply (restarted_initiator_reconnects toy_sk_i toy_sk_r toy_w toy_si2 toy_w2 toy_er toy_buf
    toy_buf (restarted (env_keypair (w_calls toy_w2)) toy_er) (tick toy_w2)
    (crypto_derive_session_keys CRYPTO_ROLE_INITIATOR (local_eph_pk toy_si2)
       (local_eph_sk toy_si2) (env_keypair (w_calls toy_w2)).1 (data_keys toy_si2)).2).
  - vm_compute. reflexivity.
  - exact toy_er_wf.
  - vm_compute. reflexivity.
  - vm_compute. reflexivity.
  - vm_compute. lia.
  - vm_compute. lia.
  - vm_compute. reflexivity.
  - vm_compute. reflexivity.
  - vm_compute. reflexivity.
  - vm_compute. reflexivity.
Defined.

(** The responder process started a second time. *)
Definition toy_sr_again : session_t :=
  (run_or (0, toy_sr) (session_init CRYPTO_ROLE_RESPONDER toy_pk_r toy_sk_r toy_pk_i) toy_w2).1.2.
Definition toy_w3 : world :=
  (run_or (0, toy_sr) (session_init CRYPTO_ROLE_RESPONDER toy_pk_r toy_sk_r toy_pk_i) toy_w2).2.

Lemma responder_restart_reuses_nonce_witness :
  exists c eph,
    acceptable_init toy_sr toy_init_msg c eph /\ acceptable_init toy_sr_again toy_init_msg c eph /\
    take 57 toy_response_msg =
      message SESSION_MSG_HANDSHAKE_RESPONSE (tx (static_keys toy_sr)) c (local_eph_pk toy_sr) /\
    ((crypto_derive_session_keys CRYPTO_ROLE_RESPONDER (local_eph_pk toy_sr_again)
        (local_eph_sk toy_sr_again) eph (data_keys toy_sr_again)).1 = 0 ->
     exists r2 o2 v2,
       session_handle_init toy_sr_again toy_init_msg toy_buf toy_w3 = Some ((57, r2, o2), v2) /\
       take 57 o2 = message SESSION_MSG_HANDSHAKE_RESPONSE (tx (static_keys toy_sr)) c
                      (local_eph_pk toy_sr_again)).
Proof.
  apply (responder_restart_reuses_nonce toy_pk_r toy_sk_r toy_pk_i toy_init_i.2 toy_sr toy_w
    toy_w2 toy_sr_again toy_w3 toy_init_msg toy_buf toy_er toy_response_msg toy_w).
  - exact toy_sr_init.
  - vm_compute. reflexivity.
  - exact toy_init_msg_ok.
  - vm_compute. reflexivity.
  - vm_compute. reflexivity.
Defined.

(** The two responders' ephemeral public keys differ. *)
Example toy_restart_ephemeral_differs : local_eph_pk toy_sr <> local_eph_pk toy_sr_again.
Proof. vm_compute. discriminate. Qed.
