(* ===== verification/Channel.v ===== *)
(** * The secure channel that src/session.c implements

    What a session promises, without buffers, bit maps, wrap-around or struct
    fields: a [channel] waits with an ephemeral pair or is open with a pair of
    keys, the number of messages it has sealed and the list of counters it has
    accepted.  [step] is its transition relation, a rule for each thing that
    can happen on a call, the refusals included.  [sim] relates a [session_t]
    to a channel, and the operations of session.c simulate the steps. *)

From S2P Require Import Prelude World Crypto Toy Session Replay SessionFacts SessionRuns SessionSpec.
Open Scope list_scope.

(** ** The abstract machine *)

(** A message: its type, and the key, counter and payload it is sealed from. *)
Record sealed := { m_type : Z; m_key : bytes; m_counter : Z; m_payload : bytes }.

Inductive phase :=
| Waiting (kp : bytes * bytes)
| Open (keys : crypto_session_keys_t) (count : Z) (accepted : list Z).

Record channel := {
  ch_role : crypto_role_t;
  ch_static : crypto_session_keys_t;
  ch_next : Z;            (* the counter of the next init *)
  ch_asked : Z;           (* the counter of the init that was sent last *)
  ch_seen : option Z;     (* the counter of the init that was accepted last *)
  ch_phase : phase
}.

Inductive action :=
| Restart
| Ask
| TakeInit (inp : bytes)
| TakeResponse (inp : bytes)
| Seal (p : bytes)
| TakeData (inp : bytes).

(** What comes of it, with messages as [A]. *)
Inductive reply (A : Type) :=
| Refused
| Done
| Sends (m : A)
| Yields (p : bytes).
Arguments Refused {A}.
Arguments Done {A}.
Arguments Sends {A} m.
Arguments Yields {A} p.

Definition reply_map {A B} (f : A -> B) (r : reply A) : reply B :=
  match r with Refused => Refused | Done => Done | Sends m => Sends (f m) | Yields p => Yields p end.

Definition in_phase (ph : phase) (a : channel) : channel :=
  {| ch_role := ch_role a; ch_static := ch_static a; ch_next := ch_next a; ch_asked := ch_asked a;
     ch_seen := ch_seen a; ch_phase := ph |}.
Definition after_ask (a : channel) : channel :=
  {| ch_role := ch_role a; ch_static := ch_static a; ch_next := ch_next a + 1; ch_asked := u64 (ch_next a);
     ch_seen := ch_seen a; ch_phase := ch_phase a |}.
Definition after_init (c : Z) (a : channel) : channel :=
  {| ch_role := ch_role a; ch_static := ch_static a; ch_next := ch_next a; ch_asked := ch_asked a;
     ch_seen := Some c; ch_phase := ch_phase a |}.

Section Machine.
  Context `{SO : Sodium}.

Definition wire_of (m : sealed) : bytes := message (m_type m) (m_key m) (m_counter m) (m_payload m).

(** A pair as the generator makes it. *)
Definition matching (kp : bytes * bytes) : Prop :=
  kp.1 = crypto_scalarmult_base kp.2 /\ length kp.2 = CRYPTO_SECRET_KEY_BYTES /\ is_bytes kp.2.

(** The key exchange gives [keys], or fails. *)
Definition agreed (r : crypto_role_t) (kp : bytes * bytes) (peer : bytes) (keys : crypto_session_keys_t) : Prop :=
  exists old, crypto_derive_session_keys r kp.1 kp.2 peer old = (0, keys).
Definition disagreed (r : crypto_role_t) (kp : bytes * bytes) (peer : bytes) : Prop :=
  exists old, (crypto_derive_session_keys r kp.1 kp.2 peer old).1 <> 0.

(** An init to accept: for a responder, authentic, later than the last one. *)
Definition good_init (a : channel) (inp : bytes) (c : Z) (peer : bytes) : Prop :=
  ch_role a = CRYPTO_ROLE_RESPONDER /\
  inp = message SESSION_MSG_HANDSHAKE_INIT (rx (ch_static a)) c peer /\
  length peer = CRYPTO_PUBLIC_KEY_BYTES /\ is_u64 c /\ (forall c', ch_seen a = Some c' -> c' < c).

(** A response to accept: for an initiator that waits, to the init sent last. *)
Definition good_response (a : channel) (inp peer : bytes) : Prop :=
  ch_role a = CRYPTO_ROLE_INITIATOR /\ (exists kp, ch_phase a = Waiting kp) /\
  inp = message SESSION_MSG_HANDSHAKE_RESPONSE (rx (ch_static a)) (ch_asked a) peer /\
  length peer = CRYPTO_PUBLIC_KEY_BYTES.

(** A data message to accept. *)
Definition good_data (a : channel) (inp : bytes) (c : Z) (p : bytes) : Prop :=
  exists keys n accepted, ch_phase a = Open keys n accepted /\
    inp = message SESSION_MSG_DATA (rx keys) c p /\ is_u64 c /\ fresh accepted c.

(** The pair a responder answers with: the one it waits with, or a new one. *)
Definition answering (a : channel) (kp : bytes * bytes) : Prop :=
  match ch_phase a with Waiting kp' => kp = kp' | Open _ _ _ => matching kp end.

Inductive step : channel -> action -> reply sealed -> channel -> Prop :=
| step_restart a kp : matching kp -> step a Restart Done (in_phase (Waiting kp) a)
| step_ask a kp :
    ch_role a = CRYPTO_ROLE_INITIATOR -> ch_phase a = Waiting kp ->
    step a Ask (Sends {| m_type := SESSION_MSG_HANDSHAKE_INIT; m_key := tx (ch_static a);
                         m_counter := u64 (ch_next a); m_payload := kp.1 |}) (after_ask a)
| step_ask_refused a :
    (forall kp, ch_role a = CRYPTO_ROLE_INITIATOR -> ch_phase a <> Waiting kp) -> step a Ask Refused a
| step_answer a inp c peer kp keys :
    good_init a inp c peer -> answering a kp -> agreed CRYPTO_ROLE_RESPONDER kp peer keys ->
    step a (TakeInit inp)
      (Sends {| m_type := SESSION_MSG_HANDSHAKE_RESPONSE; m_key := tx (ch_static a);
                m_counter := c; m_payload := kp.1 |})
      (in_phase (Open keys 0 []) (after_init c a))
| step_answer_failed a inp c peer kp :
    good_init a inp c peer -> answering a kp -> disagreed CRYPTO_ROLE_RESPONDER kp peer ->
    step a (TakeInit inp) Refused (in_phase (Waiting kp) a)
| step_init_refused a inp : (forall c peer, ~ good_init a inp c peer) -> step a (TakeInit inp) Refused a
| step_learn a inp peer kp keys :
    good_response a inp peer -> ch_phase a = Waiting kp -> agreed CRYPTO_ROLE_INITIATOR kp peer keys ->
    step a (TakeResponse inp) Done (in_phase (Open keys 0 []) a)
| step_learn_failed a inp peer kp :
    good_response a inp peer -> ch_phase a = Waiting kp -> disagreed CRYPTO_ROLE_INITIATOR kp peer ->
    step a (TakeResponse inp) Refused a
| step_response_refused a inp : (forall peer, ~ good_response a inp peer) -> step a (TakeResponse inp) Refused a
| step_seal a p keys n accepted :
    ch_phase a = Open keys n accepted ->
    step a (Seal p) (Sends {| m_type := SESSION_MSG_DATA; m_key := tx keys; m_counter := u64 n; m_payload := p |})
      (in_phase (Open keys (n + 1) accepted) a)
| step_seal_refused a p kp : ch_phase a = Waiting kp -> step a (Seal p) Refused a
| step_deliver a inp c p keys n accepted :
    good_data a inp c p -> ch_phase a = Open keys n accepted ->
    step a (TakeData inp) (Yields p) (in_phase (Open keys n (c :: accepted)) a)
| step_data_refused a inp : (forall c p, ~ good_data a inp c p) -> step a (TakeData inp) Refused a.

(** Inversion: what a reply tells. *)
Lemma restart_inv a rep a' : step a Restart rep a' -> exists kp, matching kp /\ a' = in_phase (Waiting kp) a.
Proof. inversion 1; subst; eauto. Qed.

Lemma ask_inv a m a' : step a Ask (Sends m) a' ->
  a' = after_ask a /\ exists kp, ch_phase a = Waiting kp /\
    m = {| m_type := SESSION_MSG_HANDSHAKE_INIT; m_key := tx (ch_static a); m_counter := u64 (ch_next a);
           m_payload := kp.1 |}.
Proof. inversion 1; subst; eauto. Qed.

Lemma answer_inv a inp m a' : step a (TakeInit inp) (Sends m) a' ->
  exists c peer kp keys, good_init a inp c peer /\ answering a kp /\ agreed CRYPTO_ROLE_RESPONDER kp peer keys /\
    m = {| m_type := SESSION_MSG_HANDSHAKE_RESPONSE; m_key := tx (ch_static a); m_counter := c; m_payload := kp.1 |} /\
    a' = in_phase (Open keys 0 []) (after_init c a).
Proof. inversion 1; subst; eauto 10. Qed.

Lemma learn_inv a inp a' : step a (TakeResponse inp) Done a' ->
  exists peer kp keys, good_response a inp peer /\ ch_phase a = Waiting kp /\
    agreed CRYPTO_ROLE_INITIATOR kp peer keys /\ a' = in_phase (Open keys 0 []) a.
Proof. inversion 1; subst; eauto 10. Qed.

Lemma seal_step_inv a p m a' : step a (Seal p) (Sends m) a' ->
  exists keys n accepted, ch_phase a = Open keys n accepted /\ a' = in_phase (Open keys (n + 1) accepted) a /\
    m = {| m_type := SESSION_MSG_DATA; m_key := tx keys; m_counter := u64 n; m_payload := p |}.
Proof. inversion 1; subst; eauto 10. Qed.

Lemma deliver_inv a inp p a' : step a (TakeData inp) (Yields p) a' ->
  exists c keys n accepted, ch_phase a = Open keys n accepted /\ inp = message SESSION_MSG_DATA (rx keys) c p /\
    is_u64 c /\ fresh accepted c /\ a' = in_phase (Open keys n (c :: accepted)) a.
Proof.
  inversion 1 as [| | | | | | | | | | |? ? c ? keys n acc (k & n' & acc' & Ep & ? & ? & ?) Ep'|]; subst.
  rewrite Ep in Ep'. simplify_eq. by exists c, keys, n, acc.
Qed.

(** A refusal changes nothing, save that a responder whose key exchange failed
    waits with a pair. *)
Lemma refuse_inv a act a' : step a act Refused a' ->
  a' = a \/ ch_role a = CRYPTO_ROLE_RESPONDER /\ exists kp, answering a kp /\ a' = in_phase (Waiting kp) a.
Proof. inversion 1 as [| | | |? ? ? ? ? [? _]| | | | | | | |]; subst; eauto. Qed.

(** A sequence of steps. *)
Inductive steps : channel -> list (action * reply sealed) -> channel -> Prop :=
| steps_nil a : steps a [] a
| steps_cons a b c act rep l : step a act rep b -> steps b l c -> steps a ((act, rep) :: l) c.
End Machine.

(** ** The calls of session.c *)

(** What a call asks for, its buffers aside, and the buffers it needs. *)
Definition action_of (op : session_op) : action :=
  match op with
  | OpStartHandshake => Restart
  | OpBuildInit _ => Ask
  | OpHandleInit inp _ => TakeInit inp
  | OpHandleResponse inp => TakeResponse inp
  | OpSealData p _ => Seal p
  | OpOpenData inp _ => TakeData inp
  end.

Definition roomy (op : session_op) : Prop :=
  match op with
  | OpStartHandshake | OpHandleResponse _ => True
  | OpBuildInit out | OpHandleInit _ out => (SESSION_HANDSHAKE_MSG_LEN <= length out)%nat
  | OpSealData p out => (length p + SESSION_DATA_OVERHEAD <= length out)%nat
  | OpOpenData inp out => (length inp <= length out + SESSION_DATA_OVERHEAD)%nat
  end.

#[global] Instance roomy_dec op : Decision (roomy op).
Proof. destruct op; simpl; apply _. Defined.

(** The message a call seals, from the session before ([s]) and after it. *)
Definition record_of (act : action) (s s' : session_t) : sealed :=
  match act with
  | Ask => {| m_type := SESSION_MSG_HANDSHAKE_INIT; m_key := tx (static_keys s);
              m_counter := handshake_counter s; m_payload := local_eph_pk s |}
  | TakeInit _ => {| m_type := SESSION_MSG_HANDSHAKE_RESPONSE; m_key := tx (static_keys s);
                     m_counter := highest_handshake_counter_seen s'; m_payload := local_eph_pk s' |}
  | Seal p => {| m_type := SESSION_MSG_DATA; m_key := tx (data_keys s); m_counter := tx_counter s;
                 m_payload := p |}
  | _ => {| m_type := 0; m_key := []; m_counter := 0; m_payload := [] |}
  end.

Section Calls.
  Context `{SO : Sodium} `{EV : Env}.

(** A return value and an output buffer, read as the callers do. *)
Definition reads {A} (f : bytes -> reply A) (rc : Z) (out : bytes) : reply A :=
  if rc <? 0 then Refused else f (take (Z.to_nat rc) out).

Definition call (op : session_op) (s : session_t) : M (reply bytes * session_t) :=
  match op with
  | OpStartHandshake => s ← session_start_handshake s; mret (Done, s)
  | OpBuildInit out =>
      '(rc, s, out) ← lift (session_build_init s out); mret (reads Sends rc out, s)
  | OpHandleInit inp out =>
      '(rc, s, out) ← session_handle_init s inp out; mret (reads Sends rc out, s)
  | OpHandleResponse inp =>
      '(rc, s) ← lift (session_handle_response s inp); mret (reads (fun _ => Done) rc [], s)
  | OpSealData p out =>
      '(rc, s, out) ← lift (session_seal_data s p out); mret (reads Sends rc out, s)
  | OpOpenData inp out =>
      '(rc, s, out) ← lift (session_open_data s inp out); mret (reads Yields rc out, s)
  end.

Fixpoint calls (ops : list session_op) (s : session_t) : M (list (reply bytes) * session_t) :=
  match ops with
  | [] => mret ([], s)
  | op :: ops =>
      '(rep, s) ← call op s;
      '(reps, s) ← calls ops s;
      mret (rep :: reps, s)
  end.
End Calls.

(** ** The simulation *)
Section Simulation.
  Context `{SO : Sodium} {SL : SodiumLaws} `{EV : Env} {EL : EnvLaws}.

Definition seen_of (s : session_t) : option Z :=
  if have_seen_handshake s then Some (highest_handshake_counter_seen s) else None.

Definition sim_phase (s : session_t) (ph : phase) : Prop :=
  match ph with
  | Waiting kp =>
      state s = SESSION_STATE_HANDSHAKE_PENDING /\ local_eph_pk s = kp.1 /\ local_eph_sk s = kp.2 /\
      matching kp /\ tx_counter s = 0 /\ window_rep s []
  | Open keys n accepted =>
      state s = SESSION_STATE_ESTABLISHED /\ data_keys s = keys /\ tx_counter s = u64 n /\
      window_rep s accepted
  end.

Record sim (s : session_t) (a : channel) : Prop := {
  sim_wf : session_wf s;
  sim_role : ch_role a = role s;
  sim_static : ch_static a = static_keys s;
  sim_next : handshake_counter s = u64 (ch_next a);
  sim_asked : ch_asked a = pending_handshake_counter s;
  sim_seen : ch_seen a = seen_of s;
  sim_ph : sim_phase s (ch_phase a)
}.

Lemma env_matching n : matching (env_keypair n).
Proof. split; [apply env_keypair_matches|]. split; [apply env_keypair_sk_length|apply env_keypair_sk_bytes]. Qed.

Lemma sim_restarted s a n : sim s a -> sim (restarted (env_keypair n) s) (in_phase (Waiting (env_keypair n)) a).
Proof.
  intros [Hw Hr Hs Hn Ha He _]. split; try done; [by apply restarted_wf|].
  split; [done|]. split; [done|]. split; [done|]. split; [apply env_matching|]. split; [done|].
  apply window_rep_reset.
Qed.

Lemma sim_waiting s a kp : sim s a -> ch_phase a = Waiting kp -> state s = SESSION_STATE_HANDSHAKE_PENDING.
Proof. intros H E. pose proof (sim_ph _ _ H) as Hp. rewrite E in Hp. apply Hp. Qed.

Lemma sim_pending s a : sim s a -> state s = SESSION_STATE_HANDSHAKE_PENDING ->
  ch_phase a = Waiting (local_eph_pk s, local_eph_sk s).
Proof.
  intros H E. pose proof (sim_ph _ _ H) as Hp. destruct (ch_phase a) as [[pk sk]|]; cbn in Hp.
  - by destruct Hp as (_ & -> & -> & _).
  - destruct Hp as [Hp _]. by rewrite E in Hp.
Qed.

Lemma sim_open s a : sim s a -> state s = SESSION_STATE_ESTABLISHED ->
  exists n accepted, ch_phase a = Open (data_keys s) n accepted.
Proof.
  intros H E. pose proof (sim_ph _ _ H) as Hp. destruct (ch_phase a) as [kp|keys n acc]; cbn in Hp.
  - destruct Hp as [Hp _]. by rewrite E in Hp.
  - destruct Hp as (_ & <- & _). by exists n, acc.
Qed.

(** A call that is a step, and sends what it records. *)
Definition simulates (op : session_op) (s : session_t) (a : channel) (w : world) : Prop :=
  exists rep s' w' a', call op s w = Some ((reply_map wire_of rep, s'), w') /\
    step a (action_of op) rep a' /\ sim s' a' /\
    forall m, rep = Sends m -> m = record_of (action_of op) s s'.

Lemma sends_message t key c p rest rc :
  rc = zlen p + 25 ->
  reads Sends rc (message t key c p ++ rest) =
    reply_map wire_of (Sends {| m_type := t; m_key := key; m_counter := c; m_payload := p |}).
Proof.
  intros ->. unfold reads. rewrite (proj2 (Z.ltb_ge _ _)) by lia. cbn [reply_map]. f_equal.
  unfold wire_of. cbn [m_type m_key m_counter m_payload]. apply take_app_length'.
  rewrite message_length. lia.
Qed.

Lemma simulates_restart s a w : sim s a -> simulates OpStartHandshake s a w.
Proof.
  intros H. eexists Done, _, _, _. split; [cbn [call]; by rewrite (M_bind_Some _ _ _ _ _ (start_handshake_eq s w))|].
  split; [apply step_restart, (env_matching (w_calls w))|]. split; [by apply sim_restarted|done].
Qed.

Lemma simulates_ask s a w out : sim s a -> roomy (OpBuildInit out) -> simulates (OpBuildInit out) s a w.
Proof.
  intros H Ho. pose proof (sim_wf _ _ H) as Hwf. unfold simulates. cbn [call action_of].
  destruct (build_init_eq s out Hwf) as [[(Hr & Hs & _) E]|[Hc E]]; rewrite (M_bind_lift _ _ _ _ E).
  - pose proof (sim_pending _ _ H Hs) as Hp. destruct H as [_ Er Es En Ea Ee Hph].
    eexists _, _, _, _. split; [|split; [apply step_ask; [by rewrite Er|done]|split]].
    + rewrite sends_message by (rewrite (wf_eph_pk s Hwf); done). by rewrite Es, <- En.
    + split; try done; [|cbn; by rewrite En, u64_succ].
      destruct Hwf. solve_wf.
    + intros m [= <-]. cbn [record_of action_of]. by rewrite Es, En.
  - exists Refused, s, w, a. split; [done|]. split; [|by split]. apply step_ask_refused.
    intros kp Hr Hp. apply Hc. split; [by rewrite <- (sim_role _ _ H)|].
    split; [by eapply sim_waiting|done].
Qed.

(** What the session and the channel accept is the same. *)
Lemma good_init_iff s a inp c peer : sim s a -> acceptable_init s inp c peer <-> good_init a inp c peer.
Proof.
  intros H. unfold acceptable_init, good_init. rewrite (sim_role _ _ H), (sim_static _ _ H), (sim_seen _ _ H).
  unfold seen_of. split; intros (? & ? & ? & ? & Hn); repeat (split; [done|]).
  - intros c' E. destruct (have_seen_handshake s); simplify_eq. by apply Hn.
  - intros E. rewrite E in Hn. by apply Hn.
Qed.

Lemma good_response_iff s a inp peer : sim s a -> acceptable_response s inp peer <-> good_response a inp peer.
Proof.
  intros H. unfold acceptable_response, good_response.
  rewrite (sim_role _ _ H), (sim_static _ _ H), (sim_asked _ _ H).
  split; intros (? & Hs & ?); (split; [done|]); (split; [|done]).
  - eexists. by apply (sim_pending _ _ H).
  - destruct Hs as [kp Hs]. by eapply sim_waiting.
Qed.

(** The pair a responder answers with. *)
Lemma sim_attempt s a w s1 w1 : sim s a -> responder_attempt s w = (s1, w1) ->
  answering a (local_eph_pk s1, local_eph_sk s1) /\ sim s1 (in_phase (Waiting (local_eph_pk s1, local_eph_sk s1)) a).
Proof.
  intros H. unfold responder_attempt. case_decide as Hs; intros E; simplify_eq.
  - destruct (sim_open _ _ H Hs) as (n & acc & Ep). unfold answering. rewrite Ep. cbn [restarted]. 
    pose proof (sim_restarted s a (w_calls w) H) as Hr. pose proof (env_matching (w_calls w)).
    unfold restarted in *. cbn. by destruct (env_keypair (w_calls w)).
  - assert (state s1 = SESSION_STATE_HANDSHAKE_PENDING) as Hp by (by destruct (state s1)).
    pose proof (sim_pending _ _ H Hp) as Ep. unfold answering. rewrite Ep. split; [done|].
    destruct H as [H1 H2 H3 H4 H5 H6 H7]. by split; try rewrite Ep in H7.
Qed.

(** Establishing, on either side. *)
Lemma established_window s a kp : sim s a -> ch_phase a = Waiting kp -> window_rep s [] /\ tx_counter s = 0.
Proof. intros H E. pose proof (sim_ph _ _ H) as Hp. rewrite E in Hp. split; apply Hp. Qed.

Lemma sim_data_keys s a kp keys : sim s a -> ch_phase a = Waiting kp -> keys_wf keys -> sim (set_data_keys keys s) a.
Proof.
  intros [Hw H2 H3 H4 H5 H6 H7] Ep Hk. split; try done; [|by rewrite Ep in *]. destruct Hw. solve_wf.
Qed.

Lemma wipe_wf s keys : session_wf s -> keys_wf keys ->
  session_wf (set_local_eph (local_eph_pk s) (crypto_wipe (local_eph_sk s)) (set_data_keys keys s)).
Proof. intros [] Hk. solve_wf. unfold crypto_wipe. by rewrite length_replicate. Qed.

Lemma sim_answered s a kp keys c :
  sim s (in_phase (Waiting kp) a) -> keys_wf keys -> is_u64 c ->
  sim (responder_established keys c s) (in_phase (Open keys 0 []) (after_init c a)).
Proof.
  intros H Hk Hc. destruct (established_window s _ kp H eq_refl) as [Hw Ht].
  pose proof (wipe_wf _ _ (sim_wf _ _ H) Hk) as Hwf. destruct H as [_ H2 H3 H4 H5 H6 H7].
  split; try done. destruct Hwf. solve_wf.
Qed.

Lemma sim_learned s a kp keys :
  sim s a -> ch_phase a = Waiting kp -> keys_wf keys ->
  sim (initiator_established keys s) (in_phase (Open keys 0 []) a).
Proof.
  intros H Ep Hk. destruct (established_window s a kp H Ep) as [Hw Ht].
  pose proof (wipe_wf _ _ (sim_wf _ _ H) Hk) as Hwf. destruct H as [_ H2 H3 H4 H5 H6 H7].
  split; try done. destruct Hwf. solve_wf.
Qed.

Lemma derive_keys_wf r pk sk peer old rc keys :
  crypto_derive_session_keys r pk sk peer old = (rc, keys) -> keys_wf old -> keys_wf keys.
Proof. intros E H. pose proof (derive_wf r pk sk peer old H) as Hk. by rewrite E in Hk. Qed.

Lemma simulates_init s a w inp out :
  sim s a -> datagram inp -> roomy (OpHandleInit inp out) -> simulates (OpHandleInit inp out) s a w.
Proof.
  intros H [Hb Hl] Ho. pose proof (sim_wf _ _ H) as Hwf. unfold simulates. cbn [call action_of].
  destruct (handle_init_cases s inp out w Hwf Hb Hl) as [[E Hno]|(_ & c & peer & Ha & Hc)].
  - rewrite (M_bind_Some _ _ _ _ _ E). exists Refused, s, w, a. split; [done|]. split; [|by split].
    apply step_init_refused. intros c peer Hg. apply (Hno Ho c peer). by eapply good_init_iff.
  - pose proof (proj1 (good_init_iff _ _ _ _ _ H) Ha) as Hg.
    destruct (responder_attempt s w) as [s1 w1] eqn:Ea. destruct (sim_attempt _ _ _ _ _ H Ea) as [Hans H1].
    destruct (responder_attempt_facts _ _ _ _ Ea Hwf) as (Hw1 & _ & _).
    destruct (crypto_derive_session_keys _ _ _ _ _) as [rc keys] eqn:Ek.
    pose proof (derive_keys_wf _ _ _ _ _ _ _ Ek (wf_data _ Hw1)) as Hk.
    destruct Hc as [[Hrc E]|[-> E]]; rewrite (M_bind_Some _ _ _ _ _ E).
    + eexists Refused, _, w1, _. split; [done|]. split.
      * eapply step_answer_failed; [done..|]. exists (data_keys s1). cbn [fst snd]. by rewrite Ek.
      * split; [by eapply sim_data_keys|done].
    + eexists _, _, w1, _. split; [|split; [eapply step_answer; [done..|by exists (data_keys s1)]|split]].
      * rewrite sends_message by (rewrite (wf_eph_pk s1 Hw1); done). by rewrite (sim_static _ _ H).
      * eapply sim_answered; [done|done|]. by destruct Hg as (_ & _ & _ & ? & _).
      * intros m [= <-]. cbn [record_of action_of]. by rewrite (sim_static _ _ H).
Qed.

Lemma simulates_response s a w inp :
  sim s a -> datagram inp -> simulates (OpHandleResponse inp) s a w.
Proof.
  intros H [Hb Hl]. pose proof (sim_wf _ _ H) as Hwf. unfold simulates. cbn [call action_of].
  destruct (handle_response_cases s inp Hwf Hb Hl) as [[E Hno]|(peer & Ha & Hc)].
  - rewrite (M_bind_lift _ _ _ _ E). exists Refused, s, w, a. split; [done|]. split; [|by split].
    apply step_response_refused. intros peer Hg. apply (Hno peer). by eapply good_response_iff.
  - pose proof (proj1 (good_response_iff _ _ _ _ H) Ha) as Hg.
    pose proof (sim_pending _ _ H ltac:(apply Ha)) as Ep.
    destruct (crypto_derive_session_keys _ _ _ _ _) as [rc keys] eqn:Ek.
    pose proof (derive_keys_wf _ _ _ _ _ _ _ Ek (wf_data _ Hwf)) as Hk.
    destruct Hc as [[Hrc E]|[-> E]]; rewrite (M_bind_lift _ _ _ _ E).
    + eexists Refused, _, w, a. split; [done|]. split.
      * eapply step_learn_failed; [done..|]. exists (data_keys s). cbn [fst snd]. by rewrite Ek.
      * split; [by eapply sim_data_keys|done].
    + eexists Done, _, w, _. split; [done|]. split.
      * eapply step_learn; [done..|]. by exists (data_keys s).
      * split; [by eapply sim_learned|done].
Qed.

Lemma simulates_seal s a w p out :
  sim s a -> zlen p + 25 < 2 ^ 64 -> roomy (OpSealData p out) -> simulates (OpSealData p out) s a w.
Proof.
  intros H Hp Ho. unfold simulates. cbn [call action_of].
  destruct (seal_data_eq s p out Hp) as [[[Hs _] E]|[Hc E]]; rewrite (M_bind_lift _ _ _ _ E).
  - destruct (sim_open _ _ H Hs) as (n & acc & Ep). destruct H as [Hw H2 H3 H4 H5 H6 H7].
    rewrite Ep in H7. destruct H7 as (_ & _ & Et & Hr).
    eexists _, _, w, _. split; [|split; [by eapply step_seal|split]].
    + rewrite sends_message by done. by rewrite Et.
    + split; try done; [destruct Hw; by solve_wf|]. split; [done|]. split; [done|]. split; [|done].
      apply u64_succ.
    + intros m [= <-]. cbn [record_of action_of]. by rewrite Et.
  - exists Refused, s, w, a. split; [done|]. split; [|by split].
    eapply step_seal_refused, (sim_pending _ _ H). destruct (state s) eqn:Es; [done|].
    destruct Hc. by split.
Qed.

Lemma simulates_open s a w inp out :
  sim s a -> datagram inp -> roomy (OpOpenData inp out) -> simulates (OpOpenData inp out) s a w.
Proof.
  intros H [Hb Hl] Ho. unfold simulates. cbn [call action_of roomy] in *.
  assert (exists acc, window_rep s acc /\ forall n keys acc', ch_phase a = Open keys n acc' -> acc' = acc /\ keys = data_keys s)
    as (acc & Hr & Hacc).
  { pose proof (sim_ph _ _ H) as Hp. destruct (ch_phase a) as [kp|keys n acc]; cbn in Hp.
    - exists []. by split; [apply Hp|].
    - exists acc. split; [apply Hp|]. intros n' k acc' [= <- <- <-]. by destruct Hp as (_ & -> & _). }
  destruct (open_data_cases s acc inp out Hr Hb Hl)
    as [(out' & E & _)|(c & p & s' & Hs & Hi & Hc & Hf & Hp & E & Hr' & h & win & ->)]; rewrite (M_bind_lift _ _ _ _ E).
  - exists Refused, s, w, a. split; [done|]. split; [|by split]. apply step_data_refused.
    intros c p (keys & n & acc' & Ep & -> & Hc & Hf). destruct (Hacc _ _ _ Ep) as [-> ->].
    rewrite message_length in Ho, Hl. unfold SESSION_DATA_OVERHEAD, CRYPTO_PACKET_OVERHEAD, CRYPTO_COUNTER_BYTES, CRYPTO_TAG_BYTES in Ho.
    pose proof (sim_ph _ _ H) as Hph. rewrite Ep in Hph.
    destruct (open_data_message s acc c p out Hr Hc ltac:(lia) (proj1 Hph) ltac:(lia)) as (s' & E' & _).
    rewrite decide_True in E' by done. rewrite E' in E. injection E as ? _ _. lia.
  - destruct (sim_open _ _ H Hs) as (n & acc' & Ep). destruct (Hacc _ _ _ Ep) as [-> _].
    eexists (Yields p), _, w, _. split; [|split; [eapply (step_deliver a inp c p); [|exact Ep]|split; [|done]]].
    + unfold reads. rewrite (proj2 (Z.ltb_ge _ _)) by lia. by rewrite Nat2Z.id, take_app_length.
    + by exists (data_keys s), n, acc.
    + destruct H as [Hw H2 H3 H4 H5 H6 H7]. rewrite Ep in H7. destruct H7 as (_ & _ & Et & _).
      split; try done. destruct Hw. destruct Hr' as [Hw' Hany]. cbn in Hany.
      solve_wf. by destruct Hany.
Qed.

Lemma sim_call op s a w : sim s a -> op_ok op -> roomy op -> simulates op s a w.
Proof.
  destruct op; cbn [op_ok]; eauto using simulates_restart, simulates_ask, simulates_init, simulates_response,
    simulates_seal, simulates_open.
Qed.

Lemma sim_calls ops s a w :
  sim s a -> Forall op_ok ops -> Forall roomy ops ->
  exists reps s' w' a', calls ops s w = Some ((map (reply_map wire_of) reps, s'), w') /\
    steps a (zip (map action_of ops) reps) a' /\ length reps = length ops /\ sim s' a'.
Proof.
  intros H Hok. revert s a w H. induction Hok as [|op ops Hop _ IH]; intros s a w H Hr.
  { exists [], s, w, a. split; [done|]. split; [constructor|done]. }
  inversion_clear Hr as [|? ? Hr1 Hr2].
  destruct (sim_call op s a w H Hop Hr1) as (rep & s1 & w1 & a1 & E & Hst & H1 & _).
  destruct (IH s1 a1 w1 H1 Hr2) as (reps & s' & w' & a' & E' & Hsts & Hlen & H').
  exists (rep :: reps), s', w', a'. cbn [calls].
  rewrite (M_bind_Some _ _ _ _ _ E). cbv beta iota. rewrite (M_bind_Some _ _ _ _ _ E').
  split; [done|]. split; [by econstructor|]. cbn. by rewrite Hlen.
Qed.

(** The channel of a new session. *)
Definition new_channel (r : crypto_role_t) (keys : crypto_session_keys_t) (time : Z) (kp : bytes * bytes) : channel :=
  {| ch_role := r; ch_static := keys; ch_next := time; ch_asked := 0; ch_seen := None; ch_phase := Waiting kp |}.

Lemma sim_init r pk sk peer w s w1 :
  session_init r pk sk peer w = Some ((0, s), w1) ->
  exists kp, matching kp /\ sim s (new_channel r (static_keys s) (env_time (w_calls w)) kp).
Proof.
  pose proof (session_init_eq r pk sk peer w) as E.
  pose proof (derive_wf r pk sk peer zero_keys zero_keys_wf) as Hk.
  destruct (crypto_derive_session_keys _ _ _ _ _) as [rc keys]. cbn [snd] in Hk.
  rewrite E. case_decide; intros Heq; simplify_eq. exists (env_keypair (S (w_calls w))).
  split; [apply env_matching|]. split; try done; [by apply restarted_wf, zero_session_wf|].
  split; [done|]. split; [done|]. split; [done|]. split; [apply env_matching|]. split; [done|].
  apply window_rep_reset.
Qed.

(** C13. session.c implements the secure channel: whatever sequence of calls a
    program makes on a session after [session_init], with buffers of the
    documented sizes, returns (no undefined behaviour), and each return value
    and output is what the rules of the abstract channel say of that request:
    a channel that knows no buffers, bit map or flags, accepts each counter
    once unless it is 1024 or more behind the highest, numbers what it seals
    from 0 under each new pair of keys, and refuses everything it has no rule
    for without changing. *)
Theorem session_refines_channel r pk sk peer w s w1 ops :
  session_init r pk sk peer w = Some ((0, s), w1) -> Forall op_ok ops -> Forall roomy ops ->
  exists kp reps s' w' a',
    matching kp /\ calls ops s w1 = Some ((map (reply_map wire_of) reps, s'), w') /\
    length reps = length ops /\
    steps (new_channel r (static_keys s) (env_time (w_calls w)) kp) (zip (map action_of ops) reps) a' /\
    sim s' a'.
Proof.
  intros Hi Hok Hr. destruct (sim_init _ _ _ _ _ _ _ Hi) as (kp & Hkp & H).
  destruct (sim_calls ops s _ w1 H Hok Hr) as (reps & s' & w' & a' & E & Hst & Hl & H').
  by exists kp, reps, s', w', a'.
Qed.
End Simulation.

(** ** A run of the responder's session *)

(** It answers an init, seals a packet, refuses the init when it comes again,
    accepts a message of the initiator and refuses it the second time. *)
Definition busy_ops : list session_op :=
  let data := message SESSION_MSG_DATA (rx (data_keys toy_er)) 5 [1; 2; 3] in
  [OpHandleInit toy_init_msg toy_buf; OpSealData [7; 7] (replicate 27 0); OpHandleInit toy_init_msg toy_buf;
   OpOpenData data (replicate 3 0); OpOpenData data (replicate 3 0)].

Lemma busy_ops_run :
  from_option (fun r => map (reply_map length) r.1.1) [] (calls busy_ops toy_sr toy_w) =
    [Sends 57%nat; Sends 27%nat; Refused; Yields [1; 2; 3]; Refused].
Proof. by vm_compute. Qed.

Lemma session_refines_channel_witness :
  from_option (fun r => map (reply_map length) r.1.1) [] (calls busy_ops toy_sr toy_w) =
    [Sends 57%nat; Sends 27%nat; Refused; Yields [1; 2; 3]; Refused] /\
  exists kp reps s' w' a',
    matching kp /\ calls busy_ops toy_sr toy_w = Some ((map (reply_map wire_of) reps, s'), w') /\
    length reps = 5%nat /\
    steps (new_channel CRYPTO_ROLE_RESPONDER (static_keys toy_sr) (env_time (w_calls toy_init_i.2)) kp)
      (zip (map action_of busy_ops) reps) a' /\ sim s' a'.
Proof.
  split; [exact busy_ops_run|].
  apply (session_refines_channel _ _ _ _ _ _ _ busy_ops toy_sr_init); apply (bool_decide_unpack _); by vm_compute.
Defined.
