(* ===== verification/Protocol.v ===== *)
(** * Two sessions and a network that cannot forge

    The handshake and the data channel between an initiator and a responder,
    over a network that loses, repeats, reorders, redirects and makes up
    datagrams and changes their type byte, but has no message sealed under a
    key of the two that neither of them sealed.  The system is defined over any
    [Machine], for the sessions of session.c and for the channels of Channel;
    its invariant is proved of channels, by induction on the steps, and holds
    of sessions by simulation. *)

From stdpp Require Import relations.
From S2P Require Import Prelude World Crypto Toy Session Replay SessionFacts SessionRuns SessionSpec Channel.
Open Scope list_scope.

(** ** Machines *)
Class Machine (St : Type) := {
  m_step : St -> action -> reply sealed -> St -> Prop;
  m_static : St -> crypto_session_keys_t;
  m_asked : St -> Z;
  m_keys : St -> option crypto_session_keys_t
}.

Definition open_keys (ph : phase) : option crypto_session_keys_t :=
  match ph with Waiting _ => None | Open keys _ _ => Some keys end.

#[global] Instance channel_machine `{Sodium} : Machine channel := {|
  m_step := step;
  m_static := ch_static;
  m_asked := ch_asked;
  m_keys a := open_keys (ch_phase a)
|}.

(** A call on a session, in whatever outside. *)
Definition session_step `{Sodium} (s : session_t) (act : action) (rep : reply sealed) (s' : session_t) : Prop :=
  exists (EV : Env) (op : session_op) w w' r, EnvLaws /\ action_of op = act /\ op_ok op /\ roomy op /\
    call op s w = Some ((r, s'), w') /\ rep = reply_map (fun _ => record_of act s s') r.

#[global] Instance session_machine `{Sodium} : Machine session_t := {|
  m_step := session_step;
  m_static := static_keys;
  m_asked := pending_handshake_counter;
  m_keys s := if bool_decide (state s = SESSION_STATE_ESTABLISHED) then Some (data_keys s) else None
|}.

(** ** The system

    The two parties with, of each, the messages it sealed, the keys it
    established with the counter of their handshake, and the packets it was
    given with the key they came under. *)
Record system (St : Type) := {
  ini : St;
  res : St;
  log_i : list sealed;
  log_r : list sealed;
  est_i : list (Z * crypto_session_keys_t);
  est_r : list (Z * crypto_session_keys_t);
  got_i : list (bytes * bytes);
  got_r : list (bytes * bytes)
}.
Arguments ini {St}.
Arguments res {St}.
Arguments log_i {St}.
Arguments log_r {St}.
Arguments est_i {St}.
Arguments est_r {St}.
Arguments got_i {St}.
Arguments got_r {St}.

Section System.
  Context `{SO : Sodium} {St : Type} `{MA : Machine St}.

Definition new_system (i r : St) : system St := {| ini := i; res := r; log_i := []; log_r := []; est_i := [];
  est_r := []; got_i := []; got_r := [] |}.

(** Each party's move: its new state, and what it adds. *)
Definition move_i (a : St) (ms : list sealed) (es : list (Z * crypto_session_keys_t)) (ps : list (bytes * bytes))
    (y : system St) : system St := {| ini := a; res := res y; log_i := log_i y ++ ms; log_r := log_r y;
  est_i := est_i y ++ es; est_r := est_r y; got_i := got_i y ++ ps; got_r := got_r y |}.
Definition move_r (b : St) (ms : list sealed) (es : list (Z * crypto_session_keys_t)) (ps : list (bytes * bytes))
    (y : system St) : system St := {| ini := ini y; res := b; log_i := log_i y; log_r := log_r y ++ ms;
  est_i := est_i y; est_r := est_r y ++ es; got_i := got_i y; got_r := got_r y ++ ps |}.

(** The network cannot forge: whatever [inp] a party is handed, if it is a
    message under the static or the current data key it receives with, of any
    type, then one of the two sealed that payload under that key and counter. *)
Definition unforged (log : list sealed) (a : St) (inp : bytes) : Prop :=
  forall k t c p, (k = rx (m_static a) \/ exists keys, m_keys a = Some keys /\ k = rx keys) -> is_u64 c ->
    inp = message t k c p ->
    exists m, m ∈ log /\ m_key m = k /\ m_counter m = c /\ m_payload m = p.

Definition sealed_in (y : system St) : list sealed := log_i y ++ log_r y.

Inductive sys_step : system St -> system St -> Prop :=
| ev_initiate y a1 a2 m :
    m_step (ini y) Restart Done a1 -> m_step a1 Ask (Sends m) a2 -> sys_step y (move_i a2 [m] [] [] y)
| ev_answer y inp m b keys :
    unforged (sealed_in y) (res y) inp -> m_step (res y) (TakeInit inp) (Sends m) b -> m_keys b = Some keys ->
    sys_step y (move_r b [m] [(m_counter m, keys)] [] y)
| ev_learn y inp a keys :
    unforged (sealed_in y) (ini y) inp -> m_step (ini y) (TakeResponse inp) Done a -> m_keys a = Some keys ->
    sys_step y (move_i a [] [(m_asked (ini y), keys)] [] y)
| ev_seal_i y p m a : m_step (ini y) (Seal p) (Sends m) a -> sys_step y (move_i a [m] [] [] y)
| ev_seal_r y p m b : m_step (res y) (Seal p) (Sends m) b -> sys_step y (move_r b [m] [] [] y)
| ev_open_i y inp p a keys :
    unforged (sealed_in y) (ini y) inp -> m_step (ini y) (TakeData inp) (Yields p) a -> m_keys a = Some keys ->
    sys_step y (move_i a [] [] [(rx keys, p)] y)
| ev_open_r y inp p b keys :
    unforged (sealed_in y) (res y) inp -> m_step (res y) (TakeData inp) (Yields p) b -> m_keys b = Some keys ->
    sys_step y (move_r b [] [] [(rx keys, p)] y)
| ev_refuse_i y act a : m_step (ini y) act Refused a -> sys_step y (move_i a [] [] [] y)
| ev_refuse_r y act b : m_step (res y) act Refused b -> sys_step y (move_r b [] [] [] y).

(** The data keys of the system as the initiator has them, and the condition
    that the exchanges gave no key twice in two rôles: no key to send with is
    one to receive with, and no data key is a static one. *)
Definition data_pairs (y : system St) : list crypto_session_keys_t :=
  map snd (est_i y) ++ map (fun e => swap_keys e.2) (est_r y).
Definition separated (ks : crypto_session_keys_t) (y : system St) : Prop :=
  Forall (fun k => Forall (fun k' => tx k <> rx k') (ks :: data_pairs y)) (ks :: data_pairs y) /\
  Forall (fun k => tx k <> tx ks /\ rx k <> rx ks) (data_pairs y).

#[global] Instance separated_dec ks y : Decision (separated ks y).
Proof. unfold separated. apply _. Defined.

Lemma separated_mono ks (y y' : system St) : data_pairs y ⊆ data_pairs y' -> separated ks y' -> separated ks y.
Proof.
  intros Hs [H1 H2]. assert (ks :: data_pairs y ⊆ ks :: data_pairs y') as Hs'.
  { intros k [->|Hk]%elem_of_cons; [by left|right; by apply Hs]. }
  split.
  - apply Forall_forall. intros k Hk. apply Forall_forall. intros k' Hk'.
    rewrite Forall_forall in H1. specialize (H1 _ (Hs' _ Hk)). rewrite Forall_forall in H1. by apply H1, Hs'.
  - apply Forall_forall. intros k Hk. rewrite Forall_forall in H2. by apply H2, Hs.
Qed.

Lemma data_pairs_move_i a ms es ps (y : system St) : data_pairs y ⊆ data_pairs (move_i a ms es ps y).
Proof. intros k. unfold data_pairs. cbn. rewrite map_app, !elem_of_app. tauto. Qed.
Lemma data_pairs_move_r b ms es ps (y : system St) : data_pairs y ⊆ data_pairs (move_r b ms es ps y).
Proof. intros k. unfold data_pairs. cbn. rewrite map_app, !elem_of_app. tauto. Qed.

(** What only grows. *)
Lemma sys_step_grows (y y' : system St) :
  sys_step y y' -> data_pairs y ⊆ data_pairs y' /\ (length (log_i y) <= length (log_i y'))%nat.
Proof.
  intros []; (split; [by auto using data_pairs_move_i, data_pairs_move_r|]);
    cbn [move_i move_r log_i]; rewrite ?length_app; lia.
Qed.
End System.

(** ** The invariant *)
Section Invariant.
  Context `{SO : Sodium} {SL : SodiumLaws}.
  Variables (ks : crypto_session_keys_t) (start : Z).
  Implicit Types (y : system channel) (asks : list (Z * (bytes * bytes))).

(** [asks] are the initiator's attempts: the counter of the init and the
    ephemeral pair. *)

(** What each party has sealed. *)
Definition by_initiator asks y (m : sealed) : Prop :=
  (m_type m = SESSION_MSG_HANDSHAKE_INIT /\ m_key m = tx ks /\
   exists kp, (m_counter m, kp) ∈ asks /\ m_payload m = kp.1) \/
  (m_type m = SESSION_MSG_DATA /\ exists e, e ∈ est_i y /\ m_key m = tx e.2).

Definition by_responder asks y (m : sealed) : Prop :=
  (m_key m = rx ks /\ exists keys kp kpi, (m_counter m, keys) ∈ est_r y /\ matching kp /\ m_payload m = kp.1 /\
     (m_counter m, kpi) ∈ asks /\ agreed CRYPTO_ROLE_RESPONDER kp kpi.1 keys) \/
  (m_type m = SESSION_MSG_DATA /\ exists e, e ∈ est_r y /\ m_key m = tx e.2).

Record initiator_inv asks y : Prop := {
  ii_role : ch_role (ini y) = CRYPTO_ROLE_INITIATOR;
  ii_static : ch_static (ini y) = ks;
  ii_next : ch_next (ini y) = start + Z.of_nat (length asks);
  ii_count : (length asks <= length (log_i y))%nat;
  ii_asks : Forall (fun e => start <= e.1 < ch_next (ini y) /\ matching e.2) asks;
  ii_nodup : NoDup (map fst asks);
  ii_sent : Forall (fun e => exists m, m ∈ log_i y /\ m_type m = SESSION_MSG_HANDSHAKE_INIT /\ m_key m = tx ks /\
    m_counter m = e.1 /\ m_payload m = e.2.1) asks;
  ii_log : Forall (by_initiator asks y) (log_i y);
  ii_asked : is_u64 (ch_asked (ini y));
  ii_waiting : forall kp, ch_phase (ini y) = Waiting kp ->
    (asks <> [] -> (ch_asked (ini y), kp) ∈ asks) /\ (ch_asked (ini y) ∉ map fst (est_i y));
  ii_open : forall keys n acc, ch_phase (ini y) = Open keys n acc -> exists c, (c, keys) ∈ est_i y;
  ii_est : Forall (fun e => (e.1, swap_keys e.2) ∈ est_r y) (est_i y);
  ii_once : NoDup (map fst (est_i y));
  ii_got : Forall (fun e => exists m, m ∈ log_r y /\ m_type m = SESSION_MSG_DATA /\ m_key m = e.1 /\ m_payload m = e.2)
    (got_i y)
}.

Record responder_inv asks y : Prop := {
  ri_role : ch_role (res y) = CRYPTO_ROLE_RESPONDER;
  ri_static : ch_static (res y) = swap_keys ks;
  ri_log : Forall (by_responder asks y) (log_r y);
  ri_waiting : forall kp, ch_phase (res y) = Waiting kp -> matching kp;
  ri_open : forall keys n acc, ch_phase (res y) = Open keys n acc -> exists c, (c, keys) ∈ est_r y;
  ri_est : Forall (fun e => e.1 ∈ map fst asks) (est_r y);
  ri_seen : Forall (fun e => exists c, ch_seen (res y) = Some c /\ e.1 <= c) (est_r y);
  ri_once : NoDup (map fst (est_r y));
  ri_got : Forall (fun e => exists m, m ∈ log_i y /\ m_type m = SESSION_MSG_DATA /\ m_key m = e.1 /\ m_payload m = e.2)
    (got_r y)
}.

Definition sys_inv y : Prop := exists asks, initiator_inv asks y /\ responder_inv asks y.

(** *** Who sealed a message, from its key *)
Lemma separated_send y k k' :
  separated ks y -> k ∈ ks :: data_pairs y -> k' ∈ ks :: data_pairs y -> tx k <> rx k'.
Proof. intros [H _] Hk Hk'. rewrite Forall_forall in H. specialize (H _ Hk). rewrite Forall_forall in H. by apply H. Qed.

Lemma separated_static y k : separated ks y -> k ∈ data_pairs y -> tx k <> tx ks /\ rx k <> rx ks.
Proof. intros [_ H] Hk. rewrite Forall_forall in H. by apply H. Qed.

Lemma pair_i y e : e ∈ est_i y -> e.2 ∈ data_pairs y.
Proof. intros H. apply elem_of_app. left. by apply list_elem_of_fmap_2. Qed.
Lemma pair_r y e : e ∈ est_r y -> swap_keys e.2 ∈ data_pairs y.
Proof. intros H. apply elem_of_app. right. apply list_elem_of_fmap. by exists e. Qed.

Lemma sealer_static_i asks y m :
  separated ks y -> initiator_inv asks y -> responder_inv asks y -> m ∈ sealed_in y -> m_key m = tx ks ->
  exists kp, (m_counter m, kp) ∈ asks /\ m_payload m = kp.1.
Proof.
  intros Hsep Hi Hr [Hm|Hm]%elem_of_app Hk.
  - destruct (Forall_in (ii_log _ _ Hi) m Hm) as [(_ & _ & H)|(_ & e & He & Ee)]; [done|].
    destruct (separated_static y e.2 Hsep (pair_i _ _ He)) as [[] _]. congruence.
  - destruct (Forall_in (ri_log _ _ Hr) m Hm) as [[Hk' _]|(_ & e & He & Ee)].
    + destruct (separated_send y ks ks Hsep); [by left..|congruence].
    + destruct (separated_send y ks (swap_keys e.2) Hsep); [by left|right; by apply pair_r|].
      cbn. congruence.
Qed.

Lemma sealer_static_r asks y m :
  separated ks y -> initiator_inv asks y -> responder_inv asks y -> m ∈ sealed_in y -> m_key m = rx ks ->
  exists keys kp kpi, (m_counter m, keys) ∈ est_r y /\ matching kp /\ m_payload m = kp.1 /\
    (m_counter m, kpi) ∈ asks /\ agreed CRYPTO_ROLE_RESPONDER kp kpi.1 keys.
Proof.
  intros Hsep Hi Hr [Hm|Hm]%elem_of_app Hk.
  - destruct (Forall_in (ii_log _ _ Hi) m Hm) as [(_ & Hk' & _)|(_ & e & He & Ee)].
    + destruct (separated_send y ks ks Hsep); [by left..|congruence].
    + destruct (separated_send y e.2 ks Hsep); [right; by apply pair_i|by left|congruence].
  - destruct (Forall_in (ri_log _ _ Hr) m Hm) as [[_ H]|(_ & e & He & Ee)]; [done|].
    destruct (separated_static y (swap_keys e.2) Hsep (pair_r _ _ He)) as [_ []]. cbn. congruence.
Qed.

Lemma sealer_data_i asks y m k :
  separated ks y -> initiator_inv asks y -> responder_inv asks y -> k ∈ data_pairs y -> m ∈ sealed_in y ->
  m_key m = tx k -> m ∈ log_i y /\ m_type m = SESSION_MSG_DATA.
Proof.
  intros Hsep Hi Hr Hd [Hm|Hm]%elem_of_app Hk; destruct (separated_static y k Hsep Hd) as [Hs _].
  - destruct (Forall_in (ii_log _ _ Hi) m Hm) as [(_ & Hk' & _)|[? _]]; [congruence|done].
  - destruct (Forall_in (ri_log _ _ Hr) m Hm) as [[Hk' _]|(_ & e & He & Ee)].
    + destruct (separated_send y k ks Hsep); [by right|by left|congruence].
    + destruct (separated_send y k (swap_keys e.2) Hsep); [by right|right; by apply pair_r|].
      cbn. congruence.
Qed.

Lemma sealer_data_r asks y m k :
  separated ks y -> initiator_inv asks y -> responder_inv asks y -> k ∈ data_pairs y -> m ∈ sealed_in y ->
  m_key m = rx k -> m ∈ log_r y /\ m_type m = SESSION_MSG_DATA.
Proof.
  intros Hsep Hi Hr Hd [Hm|Hm]%elem_of_app Hk; destruct (separated_static y k Hsep Hd) as [_ Hs].
  - destruct (Forall_in (ii_log _ _ Hi) m Hm) as [(_ & Hk' & _)|(_ & e & He & Ee)].
    + destruct (separated_send y ks k Hsep); [by left|by right|congruence].
    + destruct (separated_send y e.2 k Hsep); [right; by apply pair_i|by right|congruence].
  - destruct (Forall_in (ri_log _ _ Hr) m Hm) as [[Hk' _]|[? _]]; [congruence|done].
Qed.

(** *** Moves *)
Lemma by_initiator_mono asks asks' y y' m :
  asks ⊆ asks' -> est_i y ⊆ est_i y' -> by_initiator asks y m -> by_initiator asks' y' m.
Proof.
  intros Ha He [(? & ? & kp & ? & ?)|(? & e & ? & ?)]; [left|right]; (split; [done|]); [|by exists e; auto].
  split; [done|]. exists kp. auto.
Qed.

Lemma by_responder_mono asks asks' y y' m :
  asks ⊆ asks' -> est_r y ⊆ est_r y' -> by_responder asks y m -> by_responder asks' y' m.
Proof.
  intros Ha He [(? & keys & kp & kpi & ? & ? & ? & ? & ?)|(? & e & ? & ?)]; [left|right]; (split; [done|]);
    [|by exists e; auto]. exists keys, kp, kpi. auto 10.
Qed.

(** A move of the initiator leaves the responder's side as it is. *)
Lemma responder_frame asks asks' y a ms es ps :
  asks ⊆ asks' -> responder_inv asks y -> responder_inv asks' (move_i a ms es ps y).
Proof.
  intros Ha [H1 H2 H3 H4 H5 H6 H7 H8 H9]. split; try done.
  - eapply Forall_impl; [exact H3|]. intros m. by apply by_responder_mono.
  - eapply Forall_impl; [exact H6|]. intros e (x & -> & Hx)%list_elem_of_fmap. apply list_elem_of_fmap. exists x. auto.
  - eapply Forall_impl; [exact H9|]. intros e (m & Hm & ?). exists m. split; [by apply elem_of_app; left|done].
Qed.

Lemma initiator_frame asks y b ms es ps : initiator_inv asks y -> initiator_inv asks (move_r b ms es ps y).
Proof.
  intros [H1 H2 H3 H4 H5 H6 Hsn H7 H8 H9 H10 H11 H12 H13]. split; try done.
  - eapply Forall_impl; [exact H11|]. intros e He. by apply elem_of_app; left.
  - eapply Forall_impl; [exact H13|]. intros e (m & Hm & ?). exists m. split; [by apply elem_of_app; left|done].
Qed.

(** The counters of established handshakes are below the next one. *)
Lemma est_below asks y c :
  initiator_inv asks y -> responder_inv asks y -> c ∈ map fst (est_i y) -> c < ch_next (ini y).
Proof.
  intros Hi Hr (e & -> & He)%list_elem_of_fmap.
  pose proof (Forall_in (ii_est _ _ Hi) e He) as He'.
  apply (Forall_in (ri_est _ _ Hr)) in He'. cbn in He'.
  apply list_elem_of_fmap in He' as (x & -> & Hx). by apply (Forall_in (ii_asks _ _ Hi)) in Hx as [[_ ?] _].
Qed.

Lemma sent_more asks y ms :
  Forall (fun e => exists m, m ∈ log_i y /\ m_type m = SESSION_MSG_HANDSHAKE_INIT /\ m_key m = tx ks /\
    m_counter m = e.1 /\ m_payload m = e.2.1) asks ->
  Forall (fun e => exists m, m ∈ log_i y ++ ms /\ m_type m = SESSION_MSG_HANDSHAKE_INIT /\ m_key m = tx ks /\
    m_counter m = e.1 /\ m_payload m = e.2.1) asks.
Proof.
  intros H. eapply Forall_impl; [exact H|]. intros e (m & Hm & ?). exists m. split; [by apply elem_of_app; left|done].
Qed.

Lemma initiate_inv asks y a1 a2 m :
  initiator_inv asks y -> responder_inv asks y -> 0 <= start -> ch_next (ini y) < 2 ^ 64 ->
  step (ini y) Restart Done a1 -> step a1 Ask (Sends m) a2 ->
  exists asks', asks ⊆ asks' /\ initiator_inv asks' (move_i a2 [m] [] [] y).
Proof.
  intros Hi Hr Hst Hn S1 S2. pose proof (est_below asks y (ch_next (ini y)) Hi Hr) as Hnew.
  apply restart_inv in S1 as (kp' & Hkp & ->). apply ask_inv in S2 as (-> & kp & [= <-] & ->). destruct Hi as [H1 H2 H3 H4 H5 H6 Hsn H7 H8 H9 H10 H11 H12 H13].
  assert (u64 (ch_next (ini y)) = ch_next (ini y)) as Eu by (apply u64_small; unfold is_u64; lia).
  exists (asks ++ [(ch_next (ini y), kp')]). split; [intros x Hx; by apply elem_of_app; left|].
  split; cbn [move_i ini after_ask in_phase ch_role ch_static ch_next ch_asked ch_phase ch_seen log_i est_i est_r got_i log_r];
    rewrite ?app_nil_r, ?Eu; try done.
  - rewrite length_app. cbn. lia.
  - rewrite !length_app. cbn. lia.
  - apply Forall_app. split; [|constructor; [cbn; split; [lia|done]|constructor]].
    eapply Forall_impl; [exact H5|]. cbn. intros e [? ?]. split; [lia|done].
  - rewrite map_app. apply NoDup_snoc. split; [done|]. intros (x & Ex & Hx)%list_elem_of_fmap.
    apply (Forall_in H5) in Hx. cbn in Ex. lia.
  - apply Forall_app. split; [by apply sent_more|]. constructor; [|constructor].
    eexists. split; [apply elem_of_app; right; by left|]. cbn [m_key]. by rewrite H2.
  - apply Forall_app. split.
    + eapply Forall_impl; [exact H7|]. intros x. apply by_initiator_mono; cbn; [|by rewrite app_nil_r].
      intros e He. by apply elem_of_app; left.
    + constructor; [|constructor]. left. split; [done|]. split; [cbn; by rewrite H2|]. exists kp'.
      split; [apply elem_of_app; right; by left|done].
  - rewrite <- Eu. apply u64_range.
  - intros kp [= ->]. split; [intros _; apply elem_of_app; right; by left|]. intros ?%Hnew. lia.
Qed.

(** What opens under the initiator's send key, or the responder's, at the
    other party. *)
Lemma unforged_static (a : channel) log inp t c p :
  unforged log a inp -> is_u64 c -> inp = message t (rx (ch_static a)) c p ->
  exists m, m ∈ log /\ m_key m = rx (ch_static a) /\ m_counter m = c /\ m_payload m = p.
Proof. intros H Hc E. apply (H _ t); [by left|done|done]. Qed.

Lemma unforged_data (a : channel) log inp t c p keys n acc :
  unforged log a inp -> ch_phase a = Open keys n acc -> is_u64 c -> inp = message t (rx keys) c p ->
  exists m, m ∈ log /\ m_key m = rx keys /\ m_counter m = c /\ m_payload m = p.
Proof. intros H Ep Hc E. apply (H _ t); [|done|done]. right. exists keys. cbn. by rewrite Ep. Qed.

(** Both ends of a completed exchange have the same keys. *)
Lemma agreed_mirror kp_i kp_r keys_i keys_r :
  matching kp_i -> matching kp_r -> agreed CRYPTO_ROLE_INITIATOR kp_i kp_r.1 keys_i ->
  agreed CRYPTO_ROLE_RESPONDER kp_r kp_i.1 keys_r -> keys_r = swap_keys keys_i.
Proof.
  intros (Ei & _ & _) (Er & _ & _) [old_i H1] [old_r H2]. rewrite Ei, Er in H1, H2.
  apply (derive_agree _ _ _ old_r) in H1. congruence.
Qed.

Lemma asks_functional asks c kp kp' : NoDup (map fst asks) -> (c, kp) ∈ asks -> (c, kp') ∈ asks -> kp = kp'.
Proof.
  intros Hnd. induction asks as [|[c0 k0] asks IH]; [by intros ?%elem_of_nil|].
  cbn in Hnd. apply NoDup_cons in Hnd as [Hx Hnd]. rewrite !elem_of_cons.
  intros [[= -> ->]|H1] [[= ->]|H2]; try done; [| |by apply IH].
  - destruct Hx. apply list_elem_of_fmap. by exists (c0, kp').
  - destruct Hx. apply list_elem_of_fmap. by exists (c0, kp).
Qed.

Lemma learn_inv_kept asks y inp a keys :
  initiator_inv asks y -> responder_inv asks y -> separated ks y -> unforged (sealed_in y) (ini y) inp ->
  step (ini y) (TakeResponse inp) Done a -> m_keys a = Some keys ->
  initiator_inv asks (move_i a [] [(m_asked (ini y), keys)] [] y).
Proof.
  intros Hi Hr Hsep Hu St Hk. apply learn_inv in St as (peer & kp & keys' & (_ & _ & Einp & _) & Ep & Hag & ->).
  injection Hk as ->. destruct (unforged_static _ _ _ _ _ _ Hu (ii_asked _ _ Hi) Einp) as (m & Hm & Ek & Ec & Epl).
  rewrite (ii_static _ _ Hi) in Ek.
  destruct (sealer_static_r asks y m Hsep Hi Hr Hm Ek) as (kr & kpr & kpi & Her & Hmr & Epr & Hask & Hagr).
  rewrite Ec in Her, Hask. destruct (ii_waiting _ _ Hi kp Ep) as [Hw Hnot].
  assert (kpi = kp) as ->.
  { apply (asks_functional asks (ch_asked (ini y))); [apply Hi|done|]. apply Hw. intros ->. by apply elem_of_nil in Hask. }
  pose proof (Forall_in (ii_asks _ _ Hi) _ Hask) as [_ Hmi].
  assert (kr = swap_keys keys) as -> by (apply (agreed_mirror kp kpr); [done|done|congruence|done]).
  destruct Hi as [H1 H2 H3 H4 H5 H6 Hsn H7 H8 H9 H10 H11 H12 H13]. split; try done.
  - cbn. by rewrite app_nil_r.
  - by apply sent_more.
  - cbn. rewrite app_nil_r. eapply Forall_impl; [exact H7|]. intros x. apply by_initiator_mono; [done|].
    intros e He. by apply elem_of_app; left.
  - intros k n acc [= -> <- <-]. eexists. apply elem_of_app. right. by left.
  - apply Forall_app. split; [done|]. by repeat constructor.
  - cbn. rewrite map_app. by apply NoDup_snoc.
  - cbn. by rewrite app_nil_r.
Qed.

Lemma answer_inv_kept asks y inp m b keys :
  initiator_inv asks y -> responder_inv asks y -> separated ks y -> unforged (sealed_in y) (res y) inp ->
  step (res y) (TakeInit inp) (Sends m) b -> m_keys b = Some keys ->
  responder_inv asks (move_r b [m] [(m_counter m, keys)] [] y).
Proof.
  intros Hi Hr Hsep Hu St Hk.
  apply answer_inv in St as (c & peer & kp & keys' & (_ & Einp & _ & Hc & Hnew) & Hans & Hag & -> & ->).
  injection Hk as ->. destruct (unforged_static _ _ _ _ _ _ Hu Hc Einp) as (m & Hm & Ek & Ec & Epl).
  rewrite (ri_static _ _ Hr) in Ek.
  destruct (sealer_static_i asks y m Hsep Hi Hr Hm Ek) as (kpi & Hask & Epi). rewrite Ec in Hask.
  assert (matching kp) as Hkp.
  { unfold answering in Hans. destruct (ch_phase (res y)) eqn:Eph; [|done]. subst kp. by apply (ri_waiting _ _ Hr). }
  destruct Hr as [H1 H2 H3 H4 H5 H6 H7 H8 H9].
  assert (forall c', c' ∈ map fst (est_r y) -> c' < c) as Hlt.
  { intros c' (e & -> & He)%list_elem_of_fmap. destruct (Forall_in H7 e He) as (h & Eh & Hle).
    specialize (Hnew h Eh). lia. }
  split; try done; cbn [move_r in_phase after_init res est_r log_r got_r log_i ch_phase ch_seen m_counter].
  - apply Forall_app. split.
    + eapply Forall_impl; [exact H3|]. intros x. apply by_responder_mono; [done|]. intros e He. by apply elem_of_app; left.
    + constructor; [|constructor]. left. split; [cbn; by rewrite H2|]. exists keys, kp, kpi. cbn.
      split; [apply elem_of_app; right; by left|]. split; [done|]. split; [done|]. split; [done|]. congruence.
  - intros k n acc [= -> <- <-]. eexists. apply elem_of_app. right. by left.
  - apply Forall_app. split; [done|]. constructor; [|constructor]. apply list_elem_of_fmap. by exists (c, kpi).
  - apply Forall_app. split; [|constructor; [exists c; cbn; split; [done|lia]|constructor]].
    apply Forall_forall. intros e He. exists c. split; [done|]. apply Z.lt_le_incl, Hlt, list_elem_of_fmap. by exists e.
  - rewrite map_app. apply NoDup_snoc. split; [done|]. intros ?%Hlt. cbn in *. lia.
  - by rewrite app_nil_r.
Qed.

(** Moves of the initiator on an open channel, or none. *)
Lemma initiator_open_move asks y a ms ps :
  initiator_inv asks y -> ch_role a = ch_role (ini y) -> ch_static a = ch_static (ini y) ->
  ch_next a = ch_next (ini y) -> ch_asked a = ch_asked (ini y) -> open_keys (ch_phase a) = open_keys (ch_phase (ini y)) ->
  (open_keys (ch_phase a) = None -> ch_phase a = ch_phase (ini y)) ->
  Forall (by_initiator asks y) ms ->
  Forall (fun e => exists m, m ∈ log_r y /\ m_type m = SESSION_MSG_DATA /\ m_key m = e.1 /\ m_payload m = e.2) ps ->
  initiator_inv asks (move_i a ms [] ps y).
Proof.
  intros [H1 H2 H3 H4 H5 H6 Hsn H7 H8 H9 H10 H11 H12 H13] Ero Est Enx Eas Eop Ewt Hms Hps.
  split; cbn [move_i ini log_i est_i est_r got_i log_r]; rewrite ?app_nil_r, ?Ero, ?Est, ?Enx, ?Eas; try done.
  - rewrite length_app. lia.
  - by apply sent_more.
  - apply Forall_app. split; (eapply Forall_impl; [eassumption|]); intros x; apply by_initiator_mono; try done;
      cbn; by rewrite app_nil_r.
  - intros kp Ep. apply H9. rewrite <- Ewt; [done|]. by rewrite Ep.
  - intros keys n acc Ep. rewrite Ep in Eop. destruct (ch_phase (ini y)) eqn:E; [done|]. injection Eop as ->. by eapply H10.
  - apply Forall_app. by split.
Qed.

Lemma responder_open_move asks y b ms ps :
  responder_inv asks y -> ch_role b = ch_role (res y) -> ch_static b = ch_static (res y) ->
  ch_seen b = ch_seen (res y) -> (forall kp, ch_phase b = Waiting kp -> matching kp) ->
  (forall keys n acc, ch_phase b = Open keys n acc -> open_keys (ch_phase (res y)) = Some keys) ->
  Forall (by_responder asks y) ms ->
  Forall (fun e => exists m, m ∈ log_i y /\ m_type m = SESSION_MSG_DATA /\ m_key m = e.1 /\ m_payload m = e.2) ps ->
  responder_inv asks (move_r b ms [] ps y).
Proof.
  intros [H1 H2 H3 H4 H5 H6 H7 H8 H9] Ero Est Ese Hwt Hop Hms Hps.
  split; cbn [move_r res log_i est_r got_r log_r]; rewrite ?app_nil_r, ?Ero, ?Est, ?Ese; try done.
  - apply Forall_app. split; (eapply Forall_impl; [eassumption|]); intros x; apply by_responder_mono; try done;
      cbn; by rewrite app_nil_r.
  - intros keys n acc Ep. specialize (Hop _ _ _ Ep). destruct (ch_phase (res y)) eqn:E; [done|]. injection Hop as ->.
    by eapply H5.
  - apply Forall_app. by split.
Qed.

Lemma seal_i_kept asks y p m a :
  initiator_inv asks y -> step (ini y) (Seal p) (Sends m) a -> initiator_inv asks (move_i a [m] [] [] y).
Proof.
  intros Hi (keys & n & acc & Ep & -> & ->)%seal_step_inv. destruct (ii_open _ _ Hi _ _ _ Ep) as [c Hc].
  apply initiator_open_move; try done; cbn; rewrite ?Ep; try done.
  constructor; [|constructor]. right. split; [done|]. by exists (c, keys).
Qed.

Lemma seal_r_kept asks y p m b :
  responder_inv asks y -> step (res y) (Seal p) (Sends m) b -> responder_inv asks (move_r b [m] [] [] y).
Proof.
  intros Hr (keys & n & acc & Ep & -> & ->)%seal_step_inv. destruct (ri_open _ _ Hr _ _ _ Ep) as [c Hc].
  apply responder_open_move; try done; cbn; rewrite ?Ep; try done.
  - by intros ? ? ? [= -> <- <-].
  - constructor; [|constructor]. right. split; [done|]. by exists (c, keys).
Qed.

Lemma open_i_kept asks y inp p a keys :
  initiator_inv asks y -> responder_inv asks y -> separated ks y -> unforged (sealed_in y) (ini y) inp ->
  step (ini y) (TakeData inp) (Yields p) a -> m_keys a = Some keys ->
  initiator_inv asks (move_i a [] [] [(rx keys, p)] y).
Proof.
  intros Hi Hr Hsep Hu (c & k & n & acc & Ep & Einp & Hc & _ & ->)%deliver_inv [= ->].
  destruct (unforged_data _ _ _ _ _ _ _ _ _ Hu Ep Hc Einp) as (m & Hm & Ek & _ & Epl).
  destruct (ii_open _ _ Hi _ _ _ Ep) as [c' Hc'].
  destruct (sealer_data_r asks y m keys Hsep Hi Hr (pair_i _ _ Hc') Hm Ek) as [Hlog Ht].
  apply initiator_open_move; try done; cbn; rewrite ?Ep; try done.
  constructor; [|constructor]. by exists m.
Qed.

Lemma open_r_kept asks y inp p b keys :
  initiator_inv asks y -> responder_inv asks y -> separated ks y -> unforged (sealed_in y) (res y) inp ->
  step (res y) (TakeData inp) (Yields p) b -> m_keys b = Some keys ->
  responder_inv asks (move_r b [] [] [(rx keys, p)] y).
Proof.
  intros Hi Hr Hsep Hu (c & k & n & acc & Ep & Einp & Hc & _ & ->)%deliver_inv [= ->].
  destruct (unforged_data _ _ _ _ _ _ _ _ _ Hu Ep Hc Einp) as (m & Hm & Ek & _ & Epl).
  destruct (ri_open _ _ Hr _ _ _ Ep) as [c' Hc'].
  destruct (sealer_data_i asks y m (swap_keys keys) Hsep Hi Hr (pair_r _ _ Hc') Hm Ek) as [Hlog Ht].
  apply responder_open_move; try done; cbn; rewrite ?Ep; try done.
  - by intros ? ? ? [= -> <- <-].
  - constructor; [|constructor]. by exists m.
Qed.

Lemma refuse_i_kept asks y act a :
  initiator_inv asks y -> step (ini y) act Refused a -> initiator_inv asks (move_i a [] [] [] y).
Proof.
  intros Hi [->|[Hro _]]%refuse_inv; [|by rewrite (ii_role _ _ Hi) in Hro].
  by apply initiator_open_move.
Qed.

Lemma refuse_r_kept asks y act b :
  responder_inv asks y -> step (res y) act Refused b -> responder_inv asks (move_r b [] [] [] y).
Proof.
  intros Hr [->|(_ & kp & Ha & ->)]%refuse_inv.
  - apply responder_open_move; try done; [apply Hr|]. by intros ? ? ? ->.
  - apply responder_open_move; try done. cbn. intros kp' [= <-]. unfold answering in Ha.
    destruct (ch_phase (res y)) eqn:E; [|done]. subst kp. by apply (ri_waiting _ _ Hr).
Qed.

(** *** Every step keeps it *)
Lemma sys_step_kept y y' :
  sys_step y y' -> separated ks y' -> 0 <= start -> start + zlen (log_i y') < 2 ^ 64 -> sys_inv y -> sys_inv y'.
Proof.
  intros St Hsep Hst Hn (asks & Hi & Hr).
  assert (separated ks y) as Hs.
  { apply (separated_mono _ y y'); [|done]. by apply sys_step_grows. }
  destruct St; cbn [log_i move_i] in Hn.
  - destruct (initiate_inv asks y a1 a2 m Hi Hr) as (asks' & Hsub & Hi'); [done| |done..|].
    { rewrite (ii_next _ _ Hi). pose proof (ii_count _ _ Hi). rewrite length_app in Hn. lia. }
    exists asks'. split; [done|]. by apply (responder_frame asks).
  - exists asks. split; [by apply initiator_frame|by eapply answer_inv_kept].
  - exists asks. split; [by eapply learn_inv_kept|by apply (responder_frame asks)].
  - exists asks. split; [by eapply seal_i_kept|by apply (responder_frame asks)].
  - exists asks. split; [by apply initiator_frame|by eapply seal_r_kept].
  - exists asks. split; [by eapply open_i_kept|by apply (responder_frame asks)].
  - exists asks. split; [by apply initiator_frame|by eapply open_r_kept].
  - exists asks. split; [by eapply refuse_i_kept|by apply (responder_frame asks)].
  - exists asks. split; [by apply initiator_frame|by eapply refuse_r_kept].
Qed.
End Invariant.

(** ** Runs *)
Section Reachable.
  Context `{SO : Sodium} {SL : SodiumLaws}.

Lemma new_system_inv kp_i kp_r ks start time :
  matching kp_r -> sys_inv ks start
    (new_system (new_channel CRYPTO_ROLE_INITIATOR ks start kp_i) (new_channel CRYPTO_ROLE_RESPONDER (swap_keys ks) time kp_r)).
Proof.
  intros Hr. exists []. split; split; try done; cbn; try lia; try by constructor.
  - intros kp _. split; [done|]. apply not_elem_of_nil.
  - by intros kp [= <-].
Qed.

Lemma reachable_inv ks start y z :
  rtc sys_step y z -> sys_inv ks start y -> separated ks z -> 0 <= start -> start + zlen (log_i z) < 2 ^ 64 ->
  sys_inv ks start z.
Proof.
  intros Hrun Hy. revert z Hrun. refine (rtc_ind_r _ _ _ _); [done|].
  intros z z' _ St IH Hsep H0 Hn. destruct (sys_step_grows _ _ St) as [Hd Hl].
  eapply sys_step_kept; try done. apply IH; [by eapply separated_mono|done|lia].
Qed.

(** ** From sessions to channels *)
Lemma session_step_sim s a act rep s' :
  sim s a -> session_step s act rep s' -> exists a', step a act rep a' /\ sim s' a'.
Proof.
  intros H (EV & op & w & w' & r & EL & <- & Hok & Hr & E & ->).
  destruct (sim_call op s a w H Hok Hr) as (rep & s1 & w1 & a1 & E1 & St & H1 & Hm).
  rewrite E in E1. injection E1 as -> -> ->. exists a1. split; [|done].
  destruct rep; cbn [reply_map] in *; try done. by rewrite <- (Hm _ eq_refl).
Qed.

Lemma sim_static_eq s a : sim s a -> m_static a = m_static s.
Proof. apply sim_static. Qed.
Lemma sim_asked_eq s a : sim s a -> m_asked a = m_asked s.
Proof. apply sim_asked. Qed.
Lemma sim_keys_eq s a : sim s a -> m_keys a = m_keys s.
Proof.
  intros H. cbn. pose proof (sim_ph _ _ H) as Hp. destruct (ch_phase a); cbn in *; destruct Hp as [-> Hp].
  - by rewrite bool_decide_false.
  - destruct Hp as [-> _]. by rewrite bool_decide_true.
Qed.

Lemma sim_unforged log s a inp : sim s a -> unforged log s inp -> unforged log a inp.
Proof. intros H Hu k t c p. rewrite (sim_static_eq _ _ H), (sim_keys_eq _ _ H). apply Hu. Qed.

Record sys_rel (y : system session_t) (z : system channel) : Prop := {
  rel_ini : sim (ini y) (ini z);
  rel_res : sim (res y) (res z);
  rel_logs : log_i z = log_i y /\ log_r z = log_r y /\ est_i z = est_i y /\ est_r z = est_r y /\
    got_i z = got_i y /\ got_r z = got_r y
}.

Lemma rel_new s s' a a' : sim s a -> sim s' a' -> sys_rel (new_system s s') (new_system a a').
Proof. by split. Qed.

Lemma rel_move_i y z a b ms es ps :
  sys_rel y z -> sim a b -> sys_rel (move_i a ms es ps y) (move_i b ms es ps z).
Proof. intros [_ ? (E1 & E2 & E3 & E4 & E5 & E6)] ?. split; [done|done|]. cbn. by rewrite E1, E2, E3, E4, E5, E6. Qed.
Lemma rel_move_r y z a b ms es ps :
  sys_rel y z -> sim a b -> sys_rel (move_r a ms es ps y) (move_r b ms es ps z).
Proof. intros [? _ (E1 & E2 & E3 & E4 & E5 & E6)] ?. split; [done|done|]. cbn. by rewrite E1, E2, E3, E4, E5, E6. Qed.

Lemma rel_sealed y z : sys_rel y z -> sealed_in z = sealed_in y.
Proof. intros [_ _ (E1 & E2 & _)]. unfold sealed_in. by rewrite E1, E2. Qed.

Lemma sys_sim y z y' : sys_rel y z -> sys_step y y' -> exists z', sys_step z z' /\ sys_rel y' z'.
Proof.
  intros H St. pose proof (rel_ini _ _ H) as Hi. pose proof (rel_res _ _ H) as Hr. pose proof (rel_sealed _ _ H) as El.
  destruct St as [y a1 a2 m S1 S2|y inp m b keys Hu S1 Hk|y inp a keys Hu S1 Hk|y p m a S1|y p m b S1
    |y inp p a keys Hu S1 Hk|y inp p b keys Hu S1 Hk|y act a S1|y act b S1];
    (eapply session_step_sim in S1 as (x & X1 & Hx); [|eassumption]).
  - eapply session_step_sim in S2 as (x2 & X2 & Hx2); [|done]. eexists. split; [by eapply ev_initiate|by apply rel_move_i].
  - eexists. split; [|by apply rel_move_r]. eapply ev_answer; [rewrite El; by eapply sim_unforged|done|].
    by rewrite (sim_keys_eq _ _ Hx).
  - eexists. split; [|by apply rel_move_i]. rewrite <- (sim_asked_eq _ _ Hi).
    eapply ev_learn; [rewrite El; by eapply sim_unforged|done|]. by rewrite (sim_keys_eq _ _ Hx).
  - eexists. split; [by eapply ev_seal_i|by apply rel_move_i].
  - eexists. split; [by eapply ev_seal_r|by apply rel_move_r].
  - eexists. split; [|by apply rel_move_i]. eapply ev_open_i; [rewrite El; by eapply sim_unforged|done|].
    by rewrite (sim_keys_eq _ _ Hx).
  - eexists. split; [|by apply rel_move_r]. eapply ev_open_r; [rewrite El; by eapply sim_unforged|done|].
    by rewrite (sim_keys_eq _ _ Hx).
  - eexists. split; [by eapply ev_refuse_i|by apply rel_move_i].
  - eexists. split; [by eapply ev_refuse_r|by apply rel_move_r].
Qed.

Lemma run_sim y z y' : rtc sys_step y y' -> sys_rel y z -> exists z', rtc sys_step z z' /\ sys_rel y' z'.
Proof.
  intros Hrun. revert z. induction Hrun as [y|y y1 y' St _ IH]; intros z H; [by exists z|].
  destruct (sys_sim _ _ _ H St) as (z1 & St1 & H1). destruct (IH _ H1) as (z' & Hz & H').
  exists z'. split; [by eapply rtc_l|done].
Qed.
End Reachable.

(** ** What the two sessions know of each other *)
Section Sessions.
  Context `{SO : Sodium} {SL : SodiumLaws}.
  Context (here there : Env) {EH : @EnvLaws _ here} {ET : @EnvLaws _ there}.
  Variables (sk_i sk_r : bytes) (wi wi1 wr wr1 : world) (si sr : session_t).
  Hypothesis init_i : session_init (EV:=here) CRYPTO_ROLE_INITIATOR (crypto_scalarmult_base sk_i) sk_i
    (crypto_scalarmult_base sk_r) wi = Some ((0, si), wi1).
  Hypothesis init_r : session_init (EV:=there) CRYPTO_ROLE_RESPONDER (crypto_scalarmult_base sk_r) sk_r
    (crypto_scalarmult_base sk_i) wr = Some ((0, sr), wr1).

Lemma init_static `{Env} r pk sk peer w s w1 :
  session_init r pk sk peer w = Some ((0, s), w1) ->
  crypto_derive_session_keys r pk sk peer zero_keys = (0, static_keys s) /\ is_u64 (handshake_counter s).
Proof.
  pose proof (session_init_eq r pk sk peer w) as E. intros Hi. rewrite Hi in E.
  destruct (crypto_derive_session_keys _ _ _ _ _) as [rc keys]. case_decide; simplify_eq.
  split; [done|apply u64_range].
Qed.

Lemma mirrored_static : static_keys sr = swap_keys (static_keys si).
Proof.
  destruct (init_static _ _ _ _ _ _ _ init_i) as [Ei _], (init_static _ _ _ _ _ _ _ init_r) as [Er _].
  apply (derive_agree _ _ _ zero_keys) in Ei. congruence.
Qed.

(** The channel of a session, numbered from its own counter. *)
Lemma sim_numbered s r keys time kp :
  sim s (new_channel r keys time kp) -> sim s (new_channel r keys (handshake_counter s) kp).
Proof.
  intros [H1 H2 H3 H4 H5 H6 H7]. split; try done. cbn [new_channel ch_next]. symmetry. by apply u64_small, wf_hs_counter.
Qed.

Lemma sessions_inv y :
  rtc sys_step (new_system si sr) y -> separated (static_keys si) y ->
  handshake_counter si + zlen (log_i y) < 2 ^ 64 ->
  exists z asks, sys_rel y z /\ initiator_inv (static_keys si) (handshake_counter si) asks z /\
    responder_inv (static_keys si) asks z.
Proof.
  intros Hrun Hsep Hn.
  destruct (sim_init _ _ _ _ _ _ _ init_i) as (kp_i & _ & Hi%sim_numbered).
  destruct (sim_init _ _ _ _ _ _ _ init_r) as (kp_r & Hkr & Hr). rewrite mirrored_static in Hr.
  destruct (run_sim _ _ _ Hrun (rel_new _ _ _ _ Hi Hr)) as (z & Hz & Hrel).
  destruct (rel_logs _ _ Hrel) as (El & _ & Ei & Er & _).
  assert (sys_inv (static_keys si) (handshake_counter si) z) as (asks & H1 & H2).
  { eapply reachable_inv; [exact Hz|by apply new_system_inv| |apply (init_static _ _ _ _ _ _ _ init_i)|by rewrite El].
    unfold separated, data_pairs in *. by rewrite Ei, Er. }
  by exists z, asks.
Qed.

(** Authenticated key agreement.  Two sessions initialised with each
    other's public keys, each called any number of times in any order (inits
    attempted anew, messages handed over or not, packets sealed and opened)
    over a network that may do anything but forge: every pair of keys the
    initiator establishes, the responder established from the same handshake,
    mirrored; every pair the responder establishes is for an init that the
    initiator did send; no handshake establishes keys twice on either side;
    and the keys of an established session are of one of those handshakes. *)
Theorem handshakes_are_authentic y :
  rtc sys_step (new_system si sr) y -> separated (static_keys si) y ->
  handshake_counter si + zlen (log_i y) < 2 ^ 64 ->
  (forall c keys, (c, keys) ∈ est_i y -> (c, swap_keys keys) ∈ est_r y) /\
  (forall c keys, (c, keys) ∈ est_r y -> exists m, m ∈ log_i y /\ m_type m = SESSION_MSG_HANDSHAKE_INIT /\
     m_key m = tx (static_keys si) /\ m_counter m = c) /\
  NoDup (map fst (est_i y)) /\ NoDup (map fst (est_r y)) /\
  (state (ini y) = SESSION_STATE_ESTABLISHED -> exists c, (c, data_keys (ini y)) ∈ est_i y) /\
  (state (res y) = SESSION_STATE_ESTABLISHED -> exists c, (c, data_keys (res y)) ∈ est_r y).
Proof.
  intros Hrun Hsep Hn. destruct (sessions_inv y Hrun Hsep Hn) as (z & asks & Hrel & Hi & Hr).
  pose proof (rel_ini _ _ Hrel) as Si. pose proof (rel_res _ _ Hrel) as Sr.
  destruct (rel_logs _ _ Hrel) as (<- & _ & <- & <- & _ & _).
  split; [intros c keys He; exact (Forall_in (ii_est _ _ _ _ Hi) _ He)|]. split.
  - intros c keys He. apply (Forall_in (ri_est _ _ _ Hr)), list_elem_of_fmap in He as (e & Ec & He).
    destruct (Forall_in (ii_sent _ _ _ _ Hi) _ He) as (m & ? & ? & ? & ? & _). cbn in Ec. subst c. by exists m.
  - split; [apply Hi|]. split; [apply Hr|]. split; intros Hs.
    + destruct (sim_open _ _ Si Hs) as (n & acc & Ep). by eapply ii_open.
    + destruct (sim_open _ _ Sr Hs) as (n & acc & Ep). by eapply ri_open.
Qed.

(** Authenticated packets.  In the same setting, every packet that either
    session gives its caller was sealed by the other one, as a data message,
    under the key it was opened with. *)
Theorem packets_are_authentic y :
  rtc sys_step (new_system si sr) y -> separated (static_keys si) y ->
  handshake_counter si + zlen (log_i y) < 2 ^ 64 ->
  (forall key p, (key, p) ∈ got_r y -> exists m, m ∈ log_i y /\ m_type m = SESSION_MSG_DATA /\ m_key m = key /\
     m_payload m = p) /\
  (forall key p, (key, p) ∈ got_i y -> exists m, m ∈ log_r y /\ m_type m = SESSION_MSG_DATA /\ m_key m = key /\
     m_payload m = p).
Proof.
  intros Hrun Hsep Hn. destruct (sessions_inv y Hrun Hsep Hn) as (z & asks & Hrel & Hi & Hr).
  destruct (rel_logs _ _ Hrel) as (<- & <- & _ & _ & <- & <-). split; intros key p Hp.
  - exact (Forall_in (ri_got _ _ _ Hr) _ Hp).
  - exact (Forall_in (ii_got _ _ _ _ Hi) _ Hp).
Qed.
End Sessions.

(** ** A run

    Whether a datagram is forged can be decided by opening it. *)
Section Check.
  Context `{SO : Sodium} {SL : SodiumLaws}.

Definition opens_logged (log : list sealed) (k inp : bytes) : bool :=
  match crypto_open k (tail inp) (replicate (length inp) 0) 0 with
  | Some (r, out, c) =>
      (r <? 0) || existsb (fun m => bool_decide (m_key m = k /\ m_counter m = c /\ m_payload m = take (Z.to_nat r) out)) log
  | None => false
  end.

Lemma opens_logged_sound log k inp t c p :
  opens_logged log k inp = true -> zlen inp < 2 ^ 64 -> is_u64 c -> inp = message t k c p ->
  exists m, m ∈ log /\ m_key m = k /\ m_counter m = c /\ m_payload m = p.
Proof.
  intros Ho Hl Hc ->. unfold opens_logged in Ho. rewrite message_length in Ho, Hl. unfold message in Ho. cbn [tail] in Ho.
  rewrite crypto_open_sealed in Ho by (rewrite ?length_replicate; try done; lia).
  rewrite (proj2 (Z.ltb_ge _ _)) in Ho by lia. cbn [orb] in Ho.
  apply existsb_exists in Ho as (m & Hm & (E1 & E2 & E3)%bool_decide_eq_true).
  rewrite Nat2Z.id, take_app_length in E3. exists m. split; [by apply list_elem_of_In|done].
Qed.

Definition unforged_check (log : list sealed) (s : session_t) (inp : bytes) : bool :=
  (zlen inp <? 2 ^ 64) && opens_logged log (rx (static_keys s)) inp && opens_logged log (rx (data_keys s)) inp.

Lemma unforged_check_sound log s inp : unforged_check log s inp = true -> unforged log s inp.
Proof.
  intros [[Hl%Z.ltb_lt H1]%andb_true_iff H2]%andb_true_iff k t c p Hk Hc E.
  destruct Hk as [->|(keys & Hs & ->)]; [by eapply opens_logged_sound|]. cbn in Hs.
  case_bool_decide; simplify_eq. by eapply (opens_logged_sound log _ _ t).
Qed.

Lemma call_is_step `{EV : Env} {EL : EnvLaws} op s w r s' w' :
  op_ok op -> roomy op -> call op s w = Some ((r, s'), w') ->
  session_step s (action_of op) (reply_map (fun _ => record_of (action_of op) s s') r) s'.
Proof. intros. exists EV, op, w, w', r. split; [exact EL|]. done. Qed.
End Check.

(** The session, the world and the reply after a call. *)
Definition called (op : session_op) (s : session_t) (w : world) : reply bytes * session_t * world :=
  default (Refused, s, w) (call op s w).

(** One attempt that completes, the init handed over a second time, and a
    packet each way. *)
Definition packet_op (p : bytes) : session_op := OpSealData p (replicate (length p + 25) 0).
Definition open_op (inp : bytes) : session_op := OpOpenData inp (replicate (length inp) 0).

Definition t1 := Eval vm_compute in called OpStartHandshake toy_si toy_w.
Definition t2 := Eval vm_compute in called (OpBuildInit toy_buf) t1.1.2 t1.2.
Definition t_init : sealed := Eval vm_compute in record_of Ask t1.1.2 t2.1.2.
Definition t3 := Eval vm_compute in called (OpHandleInit (wire_of t_init) toy_buf) toy_sr t2.2.
Definition t_response : sealed := Eval vm_compute in record_of (TakeInit []) toy_sr t3.1.2.
Definition t4 := Eval vm_compute in called (OpHandleInit (wire_of t_init) toy_buf) t3.1.2 t3.2.
Definition t5 := Eval vm_compute in called (OpHandleResponse (wire_of t_response)) t2.1.2 t4.2.
Definition t6 := Eval vm_compute in called (packet_op [69; 1; 2]) t5.1.2 t5.2.
Definition t_there : sealed := Eval vm_compute in record_of (Seal [69; 1; 2]) t5.1.2 t6.1.2.
Definition t7 := Eval vm_compute in called (open_op (wire_of t_there)) t4.1.2 t6.2.
Definition t8 := Eval vm_compute in called (packet_op [69; 3]) t7.1.2 t7.2.
Definition t_back : sealed := Eval vm_compute in record_of (Seal [69; 3]) t7.1.2 t8.1.2.
Definition t9 := Eval vm_compute in called (open_op (wire_of t_back)) t6.1.2 t8.2.

Definition toy_final : system session_t := Eval vm_compute in
  {| ini := t9.1.2; res := t8.1.2; log_i := [t_init; t_there]; log_r := [t_response; t_back];
     est_i := [(m_counter t_init, data_keys t5.1.2)]; est_r := [(m_counter t_init, data_keys t3.1.2)];
     got_i := [(rx (data_keys t9.1.2), [69; 3])]; got_r := [(rx (data_keys t7.1.2), [69; 1; 2])] |}.

(** A call of the run, checked by evaluation. *)
Lemma toy_call op s w rep s' :
  bool_decide (op_ok op) && bool_decide (roomy op) = true ->
  (exists r w', call op s w = Some ((r, s'), w') /\ reply_map (fun _ => record_of (action_of op) s s') r = rep) ->
  m_step s (action_of op) rep s'.
Proof.
  intros [H1%bool_decide_eq_true H2%bool_decide_eq_true]%andb_true_iff (r & w' & E & <-).
  by apply (call_is_step op s w r s' w').
Qed.

Ltac toy_step op s w t := apply (toy_call op s w); [by vm_compute|exists t.1.1, t.2; split; by vm_compute].

Lemma toy_run : rtc sys_step (new_system toy_si toy_sr) toy_final.
Proof.
  eapply rtc_l; [apply (ev_initiate _ t1.1.2 t2.1.2 t_init);
    [toy_step OpStartHandshake toy_si toy_w t1|toy_step (OpBuildInit toy_buf) t1.1.2 t1.2 t2]|].
  eapply rtc_l; [apply (ev_answer _ (wire_of t_init) t_response t3.1.2 (data_keys t3.1.2));
    [apply unforged_check_sound; by vm_compute|toy_step (OpHandleInit (wire_of t_init) toy_buf) toy_sr t2.2 t3|done]|].
  eapply rtc_l; [apply (ev_refuse_r _ (TakeInit (wire_of t_init)) t4.1.2);
    toy_step (OpHandleInit (wire_of t_init) toy_buf) t3.1.2 t3.2 t4|].
  eapply rtc_l; [apply (ev_learn _ (wire_of t_response) t5.1.2 (data_keys t5.1.2));
    [apply unforged_check_sound; by vm_compute|toy_step (OpHandleResponse (wire_of t_response)) t2.1.2 t4.2 t5|done]|].
  eapply rtc_l; [apply (ev_seal_i _ [69; 1; 2] t_there t6.1.2); toy_step (packet_op [69; 1; 2]) t5.1.2 t5.2 t6|].
  eapply rtc_l; [apply (ev_open_r _ (wire_of t_there) [69; 1; 2] t7.1.2 (data_keys t7.1.2));
    [apply unforged_check_sound; by vm_compute|toy_step (open_op (wire_of t_there)) t4.1.2 t6.2 t7|done]|].
  eapply rtc_l; [apply (ev_seal_r _ [69; 3] t_back t8.1.2); toy_step (packet_op [69; 3]) t7.1.2 t7.2 t8|].
  eapply rtc_l; [apply (ev_open_i _ (wire_of t_back) [69; 3] t9.1.2 (data_keys t9.1.2));
    [apply unforged_check_sound; by vm_compute|toy_step (open_op (wire_of t_back)) t6.1.2 t8.2 t9|done]|].
  match goal with |- rtc _ ?x _ => replace x with toy_final by (vm_compute; reflexivity) end. apply rtc_refl.
Qed.

Lemma handshakes_are_authentic_witness :
  est_i toy_final = [(m_counter t_init, data_keys (ini toy_final))] /\
  (forall c keys, (c, keys) ∈ est_i toy_final -> (c, swap_keys keys) ∈ est_r toy_final) /\
  (forall c keys, (c, keys) ∈ est_r toy_final -> exists m, m ∈ log_i toy_final /\
     m_type m = SESSION_MSG_HANDSHAKE_INIT /\ m_key m = tx (static_keys toy_si) /\ m_counter m = c) /\
  NoDup (map fst (est_i toy_final)) /\ NoDup (map fst (est_r toy_final)) /\
  (state (ini toy_final) = SESSION_STATE_ESTABLISHED -> exists c, (c, data_keys (ini toy_final)) ∈ est_i toy_final) /\
  (state (res toy_final) = SESSION_STATE_ESTABLISHED -> exists c, (c, data_keys (res toy_final)) ∈ est_r toy_final).
Proof.
  split; [by vm_compute|].
  apply (handshakes_are_authentic toy_env toy_env toy_sk_i toy_sk_r _ _ _ _ _ _ toy_si_init toy_sr_init _ toy_run);
    [apply (bool_decide_unpack _); by vm_compute|by vm_compute].
Defined.

Lemma packets_are_authentic_witness :
  got_r toy_final = [(rx (data_keys (res toy_final)), [69; 1; 2])] /\
  (forall key p, (key, p) ∈ got_r toy_final -> exists m, m ∈ log_i toy_final /\ m_type m = SESSION_MSG_DATA /\
     m_key m = key /\ m_payload m = p) /\
  (forall key p, (key, p) ∈ got_i toy_final -> exists m, m ∈ log_r toy_final /\ m_type m = SESSION_MSG_DATA /\
     m_key m = key /\ m_payload m = p).
Proof.
  split; [by vm_compute|].
  apply (packets_are_authentic toy_env toy_env toy_sk_i toy_sk_r _ _ _ _ _ _ toy_si_init toy_sr_init _ toy_run);
    [apply (bool_decide_unpack _); by vm_compute|by vm_compute].
Defined.
