(* ===== verification/Libc.v ===== *)
(** * The parts of the C library the sources use

    C strings are byte sequences without their NUL.  Each function is the
    library's documented behaviour in the "C" locale on a 64-bit little-endian
    Linux: character classes, case-insensitive comparison, [strchr] and
    [strrchr], [strtol] in base 10, decimal printing, the network byte order
    and the IPv4 text format, and [fgets]. *)

From S2P Require Import Prelude Crypto.

(** ** Characters *)
Definition isspace (c : Z) : bool := (c =? 32) || ((9 <=? c) && (c <=? 13)).
Definition isdigit (c : Z) : bool := (48 <=? c) && (c <=? 57).
Definition tolower (c : Z) : Z := if (65 <=? c) && (c <=? 90) then c + 32 else c.

(** The C string held in a buffer: the bytes before the first NUL. *)
Fixpoint c_string (buf : bytes) : bytes :=
  match buf with
  | [] => []
  | c :: buf => if c =? 0 then [] else c :: c_string buf
  end.

(** [strcasecmp(a, b) == 0]. *)
Fixpoint strcaseeq (a b : bytes) : bool :=
  match a, b with
  | [], [] => true
  | x :: a, y :: b => (tolower x =? tolower y) && strcaseeq a b
  | _, _ => false
  end.

(** Split a string at the first occurrence of [c]: what precedes it (the
    string once [*strchr(s, c) = '\0']) and what follows. *)
Fixpoint strchr_split (s : bytes) (c : Z) : option (bytes * bytes) :=
  match s with
  | [] => None
  | x :: s =>
      if x =? c then Some ([], s)
      else '(a, b) ← strchr_split s c; Some (x :: a, b)
  end.

(** The same at the last occurrence ([strrchr]). *)
Fixpoint strrchr_split (s : bytes) (c : Z) : option (bytes * bytes) :=
  match s with
  | [] => None
  | x :: s =>
      match strrchr_split s c with
      | Some (a, b) => Some (x :: a, b)
      | None => if x =? c then Some ([], s) else None
      end
  end.

(** [strcpy] into an array of [n] bytes: undefined unless the string and its
    NUL fit. *)
Definition strcpy (n : nat) (s : bytes) : option bytes :=
  if decide (length s < n)%nat then Some s else None.

(** ** strtol, base 10 *)
Definition LONG_MAX : Z := 2 ^ 63 - 1.
Definition LONG_MIN : Z := - 2 ^ 63.

Fixpoint skip_spaces (s : bytes) : bytes :=
  match s with
  | c :: s' => if isspace c then skip_spaces s' else s
  | [] => []
  end.

(** The value of the leading digits, and the rest. *)
Fixpoint take_digits (acc : Z) (s : bytes) : Z * bytes :=
  match s with
  | c :: s' => if isdigit c then take_digits (10 * acc + (c - 48)) s' else (acc, s)
  | [] => (acc, [])
  end.

(** The value, and [*end] as the remaining string; [None] when no number was
    found, in which case [end] is the start of the string. *)
Definition strtol (s : bytes) : option (Z * bytes) :=
  let s1 := skip_spaces s in
  let '(neg, s2) :=
    match s1 with
    | c :: r => if c =? 45 then (true, r) else if c =? 43 then (false, r) else (false, s1)
    | [] => (false, s1)
    end in
  match s2 with
  | c :: _ =>
      if isdigit c then
        let '(v, rest) := take_digits 0 s2 in
        Some (if neg : bool then Z.max LONG_MIN (- v) else Z.min LONG_MAX v, rest)
      else None
  | [] => None
  end.

(** [strtol(s, &end, 10)] followed by [end == s || *end != '\0']: the value
    when the whole string is a number. *)
Definition strtol_all (s : bytes) : option Z :=
  match strtol s with
  | Some (v, []) => Some v
  | _ => None
  end.

(** ** Decimal printing ([%u], [%d], [%zd], [%llu] of a non-negative value) *)
Fixpoint dec_digits (fuel : nat) (n : Z) (acc : bytes) : bytes :=
  match fuel with
  | O => acc
  | S fuel =>
      let acc := (48 + n mod 10) :: acc in
      if n <? 10 then acc else dec_digits fuel (n / 10) acc
  end.

Lemma dec_digits_S fuel n acc :
  dec_digits (S fuel) n acc =
  if n <? 10 then (48 + n mod 10) :: acc else dec_digits fuel (n / 10) ((48 + n mod 10) :: acc).
Proof. reflexivity. Qed.

(** Twenty digits are enough for 64 bits. *)
Definition dec (n : Z) : bytes := dec_digits 20 n [].

(** ** Network byte order and IPv4 text *)

(** [htonl]/[ntohl] and [htons]/[ntohs] on a little-endian machine. *)
Definition htonl (x : Z) : Z := le_value (rev (le_bytes 4 x)).
Definition htons (x : Z) : Z := le_value (rev (le_bytes 2 x)).

(** [inet_pton(AF_INET, s, &addr)]: the scan of the text, with the octets
    completed, the current octet, whether a digit of it was seen, and the
    number of octets begun. *)
Fixpoint inet_pton_scan (s : bytes) (done : bytes) (cur : Z) (saw : bool) (octets : nat) :
    option bytes :=
  match s with
  | [] => if (octets <? 4)%nat then None else Some (rev (cur :: done))
  | ch :: s =>
      if isdigit ch then
        let new := cur * 10 + (ch - 48) in
        if saw && (cur =? 0) then None
        else if 255 <? new then None
        else if saw then inet_pton_scan s done new true octets
        else if (4 <? S octets)%nat then None
        else inet_pton_scan s done new true (S octets)
      else if (ch =? 46) && saw then
        if (octets =? 4)%nat then None
        else inet_pton_scan s (cur :: done) 0 false octets
      else None
  end.

(** The address as stored: [s_addr] holds the four octets in memory order. *)
Definition inet_pton (s : bytes) : option Z :=
  octets ← inet_pton_scan s [] 0 false 0;
  Some (le_value octets).

Definition dotted (octets : bytes) : bytes :=
  match octets with
  | [a; b; c; d] => dec a ++ [46] ++ dec b ++ [46] ++ dec c ++ [46] ++ dec d
  | _ => []
  end.

(** [inet_ntop(AF_INET, &addr, dst, size)]: [None] when the text and its NUL
    do not fit. *)
Definition inet_ntop (addr : Z) (size : nat) : option bytes :=
  let text := dotted (le_bytes 4 addr) in
  if (length text <? size)%nat then Some text else None.

(** ** fgets *)

(** Up to [n] bytes, stopping after a newline: what is stored and the rest. *)
Fixpoint read_line (n : nat) (f : bytes) : bytes * bytes :=
  match n, f with
  | S n, c :: f =>
      if c =? 10 then ([c], f)
      else let '(l, rest) := read_line n f in (c :: l, rest)
  | _, _ => ([], f)
  end.

(** [fgets(line, size, f)]: [None] at end of file. *)
Definition fgets (size : nat) (f : bytes) : option (bytes * bytes) :=
  match f with
  | [] => None
  | _ => Some (read_line (size - 1) f)
  end.

(** ** Facts *)
Lemma c_string_length s : (length (c_string s) <= length s)%nat.
Proof. induction s; simpl; [lia|]. case_match; simpl; lia. Qed.

Lemma strchr_split_eq s c a b : strchr_split s c = Some (a, b) -> s = a ++ c :: b.
Proof.
  revert a b. induction s as [|x s IH]; intros a b H; simpl in H; [done|].
  destruct (Z.eqb_spec x c); simplify_eq; [done|].
  apply bind_Some in H as ([a' b'] & H & ?). simplify_eq. by rewrite (IH _ _ H).
Qed.

Lemma strrchr_split_eq s c a b : strrchr_split s c = Some (a, b) -> s = a ++ c :: b.
Proof.
  revert a b. induction s as [|x s IH]; intros a b H; simpl in H; [done|].
  destruct (strrchr_split s c) as [[a' b']|]; simplify_eq.
  - by rewrite (IH _ _ eq_refl).
  - destruct (Z.eqb_spec x c); by simplify_eq.
Qed.

Lemma strcpy_ok n s : (length s < n)%nat -> strcpy n s = Some s.
Proof. intros. unfold strcpy. by rewrite decide_True. Qed.

Lemma read_line_app n f l rest : read_line n f = (l, rest) -> f = l ++ rest.
Proof.
  revert f l rest. induction n as [|n IH]; intros [|c f] l rest H; simpl in H; simplify_eq; auto.
  case_match; simplify_eq; [done|]. destruct (read_line n f) eqn:E. simplify_eq.
  simpl. by rewrite (IH _ _ _ E).
Qed.

Lemma read_line_length n f l rest : read_line n f = (l, rest) -> (length l <= n)%nat.
Proof.
  revert f l rest. induction n as [|n IH]; intros [|c f] l rest H; simpl in H; simplify_eq; simpl; try lia.
  case_match; simplify_eq; simpl; [lia|]. destruct (read_line n f) eqn:E. simplify_eq.
  simpl. specialize (IH _ _ _ E). lia.
Qed.

(** Every call of [fgets] consumes at least one byte and fits its buffer. *)
Lemma fgets_progress size f l rest :
  (2 <= size)%nat -> fgets size f = Some (l, rest) ->
  (length rest < length f)%nat /\ (length l < size)%nat /\ f = l ++ rest.
Proof.
  intros Hs. destruct f as [|c f]; [done|]. unfold fgets. intros H. injection H as H.
  pose proof (read_line_app _ _ _ _ H) as E. pose proof (read_line_length _ _ _ _ H).
  split; [|split; [lia|done]]. rewrite E, length_app.
  enough (length l <> 0%nat) by lia. destruct size as [|[|n]]; [lia..|].
  simpl in H. case_match; simplify_eq; [done|]. destruct (read_line n f). simplify_eq. done.
Qed.

(** ** inet_pton and inet_ntop *)
Lemma inet_pton_scan_octets s dn cur (saw : bool) (octets : nat) l :
  is_bytes dn -> is_byte cur -> length dn = (if saw then octets - 1 else octets)%nat ->
  (saw = true -> 0 < octets)%nat -> (octets <= 4)%nat ->
  inet_pton_scan s dn cur saw octets = Some l -> is_bytes l /\ (saw = true \/ s <> [] -> length l = 4%nat).
Proof.
  revert dn cur saw octets. induction s as [|ch s IH]; intros dn cur saw octets Hd Hc Hl Hs Ho; simpl.
  { destruct (Nat.ltb_spec octets 4); intros; simplify_eq. split.
    - apply Forall_app. split; [by apply Forall_rev|by constructor].
    - intros [->|]; [|done]. simpl. rewrite length_app, length_rev. simpl. lia. }
  destruct (isdigit ch) eqn:Ed.
  - destruct (saw && (cur =? 0)); [done|]. destruct (Z.ltb_spec 255 (cur * 10 + (ch - 48))); [done|].
    assert (is_byte (cur * 10 + (ch - 48))).
    { unfold isdigit in Ed. reflect_bools. unfold is_byte in *. lia. }
    destruct saw.
    + intros H'. apply IH in H'; auto. destruct H' as [? H']. auto.
    + destruct (Nat.ltb_spec 4 (S octets)); [done|]. intros H'.
      apply IH in H'; auto; [destruct H' as [? H']; auto|simpl; lia|lia].
  - destruct ((ch =? 46) && saw) eqn:E46; [|done].
    destruct (Nat.eqb_spec octets 4); [done|]. apply andb_true_iff in E46 as [_ ->]. intros H'.
    destruct s as [|ch' s'].
    { simpl in H'. destruct (Nat.ltb_spec octets 4); [done|lia]. }
    apply IH in H'; [|by constructor|unfold is_byte; lia|simpl; specialize (Hs eq_refl); lia|done|lia].
    destruct H' as [? H']. split; [done|]. intros _. apply H'. by right.
Qed.

Lemma inet_pton_u32 s a : inet_pton s = Some a -> is_u32 a.
Proof.
  unfold inet_pton. intros (l & H & ?)%bind_Some. simplify_eq.
  destruct s as [|c s]; [done|].
  apply inet_pton_scan_octets in H as [Hb Hl]; [|constructor|unfold is_byte; lia|done|done|lia].
  pose proof (le_value_bounds l Hb) as Hv. rewrite Hl in Hv by (by right). exact Hv.
Qed.

(** The decimal text of an octet. *)
Lemma dec_byte b : is_byte b ->
  dec b = if b <? 10 then [48 + b]
          else if b <? 100 then [48 + b / 10; 48 + b mod 10]
          else [48 + b / 100; 48 + (b / 10) mod 10; 48 + b mod 10].
Proof.
  unfold is_byte, dec. intros Hb. cbn [dec_digits].
  destruct (Z.ltb_spec b 10); [by rewrite Z.mod_small by lia|].
  destruct (Z.ltb_spec (b / 10) 10) as [H10|H10].
  - destruct (Z.ltb_spec b 100); [|pose proof (Z.div_le_lower_bound b 10 10); lia].
    by rewrite (Z.mod_small (b / 10)) by (pose proof (Z.div_pos b 10); lia).
  - rewrite Z.div_div by lia. change (10 * 10) with 100.
    destruct (Z.ltb_spec b 100); [pose proof (Z.div_lt_upper_bound b 10 10); lia|].
    pose proof (Z.div_lt_upper_bound b 100 10 ltac:(lia) ltac:(lia)).
    pose proof (Z.div_pos b 100 ltac:(lia) ltac:(lia)).
    destruct (Z.ltb_spec (b / 100) 10); [|lia]. by rewrite (Z.mod_small (b / 100)) by lia.
Qed.

Lemma dec_byte_length b : is_byte b -> (1 <= length (dec b) <= 3)%nat.
Proof. intros Hb. rewrite dec_byte by done. repeat case_match; simpl; lia. Qed.

(** Scanning the text of an octet completes it. *)
Lemma inet_pton_scan_dec b rest dn octets :
  is_byte b -> (octets < 4)%nat ->
  inet_pton_scan (dec b ++ rest) dn 0 false octets = inet_pton_scan rest dn b true (S octets).
Proof.
  intros Hb Ho. rewrite dec_byte by done. unfold is_byte in Hb.
  pose proof (Z.div_mod b 10). pose proof (Z.mod_pos_bound b 10).
  pose proof (Z.div_mod b 100). pose proof (Z.mod_pos_bound b 100).
  pose proof (Z.mod_pos_bound (b / 10) 10). pose proof (Z.div_mod (b / 10) 10).
  assert (b / 10 / 10 = b / 100) by (by rewrite Z.div_div by lia).
  assert (forall d, 0 <= d < 10 -> isdigit (48 + d) = true) as D.
  { intros d Hd. unfold isdigit. apply andb_true_iff. split; apply Z.leb_le; lia. }
  destruct (Z.ltb_spec b 10); [|destruct (Z.ltb_spec b 100)]; cbn [app inet_pton_scan];
    rewrite !D by lia; cbn [andb];
    repeat match goal with
    | |- context [255 <? ?x] => destruct (Z.ltb_spec 255 x); [lia|]
    | |- context [(4 <? S ?x)%nat] => destruct (Nat.ltb_spec 4 (S x)); [lia|]
    | |- context [?x =? 0] => destruct (Z.eqb_spec x 0); [lia|]
    end; f_equal; lia.
Qed.

Lemma inet_pton_dotted l : is_bytes l -> length l = 4%nat -> inet_pton (dotted l) = Some (le_value l).
Proof.
  intros Hb Hl. destruct l as [|a [|b [|c [|d [|]]]]]; try done. inv_bytes.
  unfold inet_pton, dotted. rewrite <- (app_nil_r (dec d)). cbn [app].
  do 3 (rewrite inet_pton_scan_dec by (done || lia); cbn [inet_pton_scan Nat.eqb];
        change (isdigit 46) with false; cbn [Z.eqb Pos.eqb andb]).
  by rewrite inet_pton_scan_dec by (done || lia).
Qed.

(** The text form of an address and back. *)
Lemma inet_pton_ntop a : is_u32 a -> inet_pton (dotted (le_bytes 4 a)) = Some a.
Proof.
  intros Ha. rewrite inet_pton_dotted by (apply le_bytes_is_bytes || apply le_bytes_length).
  rewrite le_value_le_bytes. f_equal. apply Z.mod_small. exact Ha.
Qed.

(** Fifteen characters are enough: INET_ADDRSTRLEN is 16. *)
Lemma dotted_length l : is_bytes l -> (length (dotted l) <= 15)%nat.
Proof.
  intros Hb. destruct l as [|a [|b [|c [|d [|]]]]]; simpl; try lia.
  inv_bytes. rewrite !length_app; simpl; rewrite !length_app; simpl; rewrite !length_app; simpl.
  repeat match goal with H : is_byte ?x |- _ => pose proof (dec_byte_length x H); clear H end. lia.
Qed.

Lemma inet_ntop_fits a : inet_ntop a 16 = Some (dotted (le_bytes 4 a)).
Proof.
  unfold inet_ntop. pose proof (dotted_length _ (le_bytes_is_bytes 4 a)).
  destruct (Nat.ltb_spec (length (dotted (le_bytes 4 a))) 16); [done|lia].
Qed.

(** ** Byte order *)
Lemma htonl_range x : is_u32 (htonl x).
Proof.
  unfold htonl. pose proof (le_value_bounds (rev (le_bytes 4 x))
    (Forall_rev (le_bytes_is_bytes 4 x))) as H.
  by rewrite length_rev, le_bytes_length in H.
Qed.

Lemma htonl_htonl x : is_u32 x -> htonl (htonl x) = x.
Proof.
  intros Hx. unfold htonl.
  pose proof (le_bytes_le_value (rev (le_bytes 4 x)) (Forall_rev (le_bytes_is_bytes 4 x))) as E.
  rewrite length_rev, le_bytes_length in E. rewrite E, rev_involutive, le_value_le_bytes.
  apply Z.mod_small. exact Hx.
Qed.

Lemma htonl_inj x y : is_u32 x -> is_u32 y -> htonl x = htonl y -> x = y.
Proof. intros Hx Hy E. rewrite <- (htonl_htonl x), <- (htonl_htonl y) by done. by rewrite E. Qed.

Lemma u8_land x y : u8 (Z.land x y) = Z.land (u8 x) (u8 y).
Proof.
  unfold u8. rewrite <- !Z.land_ones by lia. apply Z.bits_inj'. intros i _.
  rewrite !Z.land_spec. destruct (Z.testbit x i), (Z.testbit y i), (Z.testbit (Z.ones 8) i); done.
Qed.

#[local] Transparent le_bytes.
Lemma le_bytes_land n x y :
  le_bytes n (Z.land x y) = zip_with Z.land (le_bytes n x) (le_bytes n y).
Proof.
  revert x y. induction n as [|n IH]; intros x y; [done|].
  change (u8 (Z.land x y) :: le_bytes n (Z.shiftr (Z.land x y) 8) =
    Z.land (u8 x) (u8 y) :: zip_with Z.land (le_bytes n (Z.shiftr x 8)) (le_bytes n (Z.shiftr y 8))).
  by rewrite u8_land, Z.shiftr_land, IH.
Qed.
#[local] Opaque le_bytes.

Lemma le_value_land l k :
  is_bytes l -> is_bytes k -> length l = length k ->
  le_value (zip_with Z.land l k) = Z.land (le_value l) (le_value k).
Proof.
  revert k. induction l as [|a l IH]; intros [|b k] Hl Hk E; try done.
  inv_bytes. cbn [zip_with le_value]. rewrite IH by (auto; simpl in E; lia).
  assert (forall c x, is_byte c -> c + 256 * x = Z.lor c (Z.shiftl x 8)) as F.
  { intros c x Hc. rewrite lor_shiftl_add by (unfold is_byte in Hc; lia). lia. }
  assert (is_byte a /\ is_byte b) as [Ha Hb] by done.
  apply is_byte_bits in Ha as (? & Ha'), Hb as (? & Hb').
  assert (is_byte (Z.land a b)).
  { apply is_byte_bits. split; [apply Z.land_nonneg; by left|].
    intros i Hi. by rewrite Z.land_spec, Ha'. }
  rewrite !F by done. apply Z.bits_inj'. intros i Hi. rewrite !Z.land_spec, !Z.lor_spec, !Z.land_spec.
  destruct (Z_lt_le_dec i 8).
  - rewrite !Z.shiftl_spec_low by lia. by rewrite !orb_false_r.
  - rewrite !Z.shiftl_spec_high, Z.land_spec by lia. by rewrite Ha', Hb' by lia.
Qed.

Lemma zip_with_rev {A B C} (f : A -> B -> C) l k :
  length l = length k -> rev (zip_with f l k) = zip_with f (rev l) (rev k).
Proof.
  revert k. induction l as [|a l IH]; intros [|b k] E; try done. cbn [zip_with rev].
  rewrite IH, zip_with_app by (rewrite ?length_rev; simpl in E; lia). done.
Qed.

(** Swapping bytes commutes with masking. *)
Lemma htonl_land x y : htonl (Z.land x y) = Z.land (htonl x) (htonl y).
Proof.
  unfold htonl. rewrite le_bytes_land, <- le_value_land.
  - by rewrite zip_with_rev by (by rewrite !le_bytes_length).
  - apply Forall_rev, le_bytes_is_bytes.
  - apply Forall_rev, le_bytes_is_bytes.
  - by rewrite !length_rev, !le_bytes_length.
Qed.
