(* ===== verification/Config.v ===== *)
(** * Configuration files (src/config.c, include/config.h)

    The INI-style parser, line by line as [config_load] reads them.  Strings
    are their bytes without the NUL; [strcpy] into a field is undefined unless
    it fits, array indexing unless it is in range.  A failure is a value of
    [config_error], one constructor per message the code prints. *)

From Stdlib Require Import String.
From S2P Require Import Prelude Crypto Libc.
Open Scope list_scope.

(** ** Data *)
Definition CONFIG_DEFAULT_PORT : Z := 51820.
Definition CONFIG_DEFAULT_DEVICE : bytes := str "edgar0".
Definition CONFIG_MAX_LINE : nat := 512.
Definition CONFIG_MAX_NAME : nat := 64.
Definition CONFIG_MAX_HOST : nat := 256.
Definition CONFIG_MAX_PEERS : nat := 8.
(** <linux/if.h>, <netinet/in.h> and <limits.h> *)
Definition IFNAMSIZ : nat := 16.
Definition INET_ADDRSTRLEN : nat := 16.
Definition INT_MAX : Z := 2 ^ 31 - 1.

Record config_peer_t := {
  host : bytes;
  port : Z;
  public_key : bytes;
  peer_role : crypto_role_t;
  allowed_address : Z;
  allowed_prefix : Z
}.

Record edgarvpn_config_t := {
  name : bytes;
  tun_name : bytes;
  tun_address : bytes;
  tun_netmask : bytes;
  listen_port : Z;
  has_private_key : bool;
  private_key : bytes;
  peer_count : nat;
  peers : list config_peer_t
}.

Inductive section_t := SECTION_NONE | SECTION_INTERFACE | SECTION_PEER.

#[global] Instance section_t_eq_dec : EqDecision section_t.
Proof. solve_decision. Defined.

(** [memset(cur, 0, sizeof *cur)]: [CRYPTO_ROLE_INITIATOR] is 0. *)
Definition zero_peer : config_peer_t := {|
  host := []; port := 0; public_key := replicate CRYPTO_PUBLIC_KEY_BYTES 0;
  peer_role := CRYPTO_ROLE_INITIATOR; allowed_address := 0; allowed_prefix := 0
|}.

(** What [config_load] reports on stderr. *)
Inductive config_error :=
| CannotOpen
| UnterminatedHeader (lineno : Z)
| PreviousPeerIncomplete (lineno : Z)
| TooManyPeers (lineno : Z)
| UnknownSection (lineno : Z) (section_name : bytes)
| ExpectedKeyValue (lineno : Z)
| NameTooLong (lineno : Z)
| DeviceNameTooLong (lineno : Z)
| InvalidAddress (lineno : Z) (value : bytes)
| InvalidListenPort (lineno : Z) (value : bytes)
| InvalidPrivateKey (lineno : Z)
| UnknownInterfaceKey (lineno : Z) (key : bytes)
| InvalidEndpoint (lineno : Z) (value : bytes)
| InvalidPublicKey (lineno : Z)
| InvalidRole (lineno : Z) (value : bytes)
| InvalidAllowedIPs (lineno : Z) (value : bytes)
| UnknownPeerKey (lineno : Z) (key : bytes)
| KeyOutsideSection (lineno : Z)
| FinalPeerIncomplete
| MissingAddress
| MissingPrivateKey.

(** The line printed for each: "config: <path>:<line>: ...", or
    "config: <path>: ..." once the file has been read. *)
Definition config_error_text (path strerror : bytes) (e : config_error) : bytes :=
  let at_line n msg := str "config: " ++ path ++ str ":" ++ dec n ++ str ": " ++ msg ++ [10] in
  let at_file msg := str "config: " ++ path ++ str ": " ++ msg ++ [10] in
  match e with
  | CannotOpen => str "config: failed to open '" ++ path ++ str "': " ++ strerror ++ [10]
  | UnterminatedHeader n => at_line n (str "unterminated section header")
  | PreviousPeerIncomplete n => at_line n (str
      "previous [Peer] section is incomplete (needs Endpoint, PublicKey, Role, AllowedIPs)")
  | TooManyPeers n => at_line n (str "too many [Peer] sections (max 8)")
  | UnknownSection n s => at_line n (str "unknown section '" ++ s ++ str "'")
  | ExpectedKeyValue n => at_line n (str "expected 'key = value'")
  | NameTooLong n => at_line n (str "Name is too long")
  | DeviceNameTooLong n => at_line n (str "DeviceName is too long")
  | InvalidAddress n v =>
      at_line n (str "invalid Address '" ++ v ++ str "' (expected a.b.c.d/prefix)")
  | InvalidListenPort n v => at_line n (str "invalid ListenPort '" ++ v ++ str "'")
  | InvalidPrivateKey n =>
      at_line n (str "invalid PrivateKey (not valid base64 or wrong length)")
  | UnknownInterfaceKey n k => at_line n (str "unknown key '" ++ k ++ str "' in [Interface]")
  | InvalidEndpoint n v =>
      at_line n (str "invalid Endpoint '" ++ v ++ str "' (expected host:port)")
  | InvalidPublicKey n => at_line n (str "invalid PublicKey (not valid base64 or wrong length)")
  | InvalidRole n v =>
      at_line n (str "invalid Role '" ++ v ++ str "' (expected initiator or responder)")
  | InvalidAllowedIPs n v =>
      at_line n (str "invalid AllowedIPs '" ++ v ++ str "' (expected a.b.c.d/prefix)")
  | UnknownPeerKey n k => at_line n (str "unknown key '" ++ k ++ str "' in [Peer]")
  | KeyOutsideSection n => at_line n (str "key outside of a section")
  | FinalPeerIncomplete => at_file (str
      "final [Peer] section is incomplete (needs Endpoint, PublicKey, Role, AllowedIPs)")
  | MissingAddress => at_file (str "missing required Address in [Interface]")
  | MissingPrivateKey => at_file (str
      "[Interface] is missing PrivateKey, required when at least one [Peer] section is present")
  end.

(** The variables of [config_load]. *)
Record parser := {
  p_cfg : edgarvpn_config_t;
  section : section_t;
  cur : option nat;
  have_address : bool;
  have_endpoint : bool;
  have_pubkey : bool;
  have_role : bool;
  have_allowed : bool;
  lineno : Z
}.

(** Field updates. *)
Definition set_name v c := {| name := v; tun_name := tun_name c; tun_address := tun_address c;
  tun_netmask := tun_netmask c; listen_port := listen_port c; has_private_key := has_private_key c;
  private_key := private_key c; peer_count := peer_count c; peers := peers c |}.
Definition set_tun_name v c := {| name := name c; tun_name := v; tun_address := tun_address c;
  tun_netmask := tun_netmask c; listen_port := listen_port c; has_private_key := has_private_key c;
  private_key := private_key c; peer_count := peer_count c; peers := peers c |}.
Definition set_address a m c := {| name := name c; tun_name := tun_name c; tun_address := a;
  tun_netmask := m; listen_port := listen_port c; has_private_key := has_private_key c;
  private_key := private_key c; peer_count := peer_count c; peers := peers c |}.
Definition set_listen_port v c := {| name := name c; tun_name := tun_name c;
  tun_address := tun_address c; tun_netmask := tun_netmask c; listen_port := v;
  has_private_key := has_private_key c; private_key := private_key c;
  peer_count := peer_count c; peers := peers c |}.
Definition set_private_key v c := {| name := name c; tun_name := tun_name c;
  tun_address := tun_address c; tun_netmask := tun_netmask c; listen_port := listen_port c;
  has_private_key := true; private_key := v; peer_count := peer_count c; peers := peers c |}.
Definition set_peers n l c := {| name := name c; tun_name := tun_name c;
  tun_address := tun_address c; tun_netmask := tun_netmask c; listen_port := listen_port c;
  has_private_key := has_private_key c; private_key := private_key c;
  peer_count := n; peers := l |}.

Definition set_endpoint h p c := {| host := h; port := p; public_key := public_key c;
  peer_role := peer_role c; allowed_address := allowed_address c; allowed_prefix := allowed_prefix c |}.
Definition set_public_key v c := {| host := host c; port := port c; public_key := v;
  peer_role := peer_role c; allowed_address := allowed_address c; allowed_prefix := allowed_prefix c |}.
Definition set_peer_role v c := {| host := host c; port := port c; public_key := public_key c;
  peer_role := v; allowed_address := allowed_address c; allowed_prefix := allowed_prefix c |}.
Definition set_allowed a p c := {| host := host c; port := port c; public_key := public_key c;
  peer_role := peer_role c; allowed_address := a; allowed_prefix := p |}.

Definition set_cfg v p := {| p_cfg := v; section := section p; cur := cur p;
  have_address := have_address p; have_endpoint := have_endpoint p; have_pubkey := have_pubkey p;
  have_role := have_role p; have_allowed := have_allowed p; lineno := lineno p |}.
Definition set_section v p := {| p_cfg := p_cfg p; section := v; cur := cur p;
  have_address := have_address p; have_endpoint := have_endpoint p; have_pubkey := have_pubkey p;
  have_role := have_role p; have_allowed := have_allowed p; lineno := lineno p |}.
Definition set_lineno v p := {| p_cfg := p_cfg p; section := section p; cur := cur p;
  have_address := have_address p; have_endpoint := have_endpoint p; have_pubkey := have_pubkey p;
  have_role := have_role p; have_allowed := have_allowed p; lineno := v |}.
Definition mark_address p := {| p_cfg := p_cfg p; section := section p; cur := cur p;
  have_address := true; have_endpoint := have_endpoint p; have_pubkey := have_pubkey p;
  have_role := have_role p; have_allowed := have_allowed p; lineno := lineno p |}.

(** The four [have_*] flags of the current peer. *)
Inductive peer_key := KEndpoint | KPubkey | KRole | KAllowed.
Definition mark (k : peer_key) p := {| p_cfg := p_cfg p; section := section p; cur := cur p;
  have_address := have_address p;
  have_endpoint := match k with KEndpoint => true | _ => have_endpoint p end;
  have_pubkey := match k with KPubkey => true | _ => have_pubkey p end;
  have_role := match k with KRole => true | _ => have_role p end;
  have_allowed := match k with KAllowed => true | _ => have_allowed p end;
  lineno := lineno p |}.

(** How [config_load] returns -1: the message it prints, and whether it calls
    [fclose(f)] between the message and the return. *)
Record config_exit := { reported : config_error; closes : bool }.

(** Undefined behaviour, a return of -1, or a value. *)
Definition R (A : Type) : Type := option (config_exit + A).
#[global] Instance R_ret : MRet R := fun A a => Some (inr a).
#[global] Instance R_bind : MBind R := fun A B k m =>
  match m with
  | Some (inr a) => k a
  | Some (inl e) => Some (inl e)
  | None => None
  end.
(** [fprintf(stderr, ...); return -1;] and
    [fprintf(stderr, ...); fclose(f); return -1;]. *)
Definition fails {A} (e : config_error) : R A := Some (inl {| reported := e; closes := false |}).
Definition fclose_fails {A} (e : config_error) : R A := Some (inl {| reported := e; closes := true |}).
Definition lift_R {A} (m : option A) : R A := match m with Some a => mret a | None => None end.
(** A helper that returns -1 on failure: report [e] and close the file. *)
Definition or_fail {A} (m : option (option A)) (e : config_error) : R A :=
  match m with
  | Some (Some a) => mret a
  | Some None => fclose_fails e
  | None => None
  end.

(** ** Values *)

Definition trim (s : bytes) : bytes :=
  match skip_spaces s with
  | [] => []
  | c :: r => c :: rev (skip_spaces (rev r))
  end.

(** [x << n] on [unsigned int]: undefined unless [n] is below the width. *)
Definition shl32 (x n : Z) : option Z :=
  if (0 <=? n) && (n <? 32) then Some (u32 (Z.shiftl x n)) else None.

(** [(prefix == 0) ? 0 : ~0U << (32 - prefix)]. *)
Definition prefix_mask (prefix : Z) : option Z :=
  if prefix =? 0 then Some 0 else shl32 (2 ^ 32 - 1) (u32 (32 - prefix)).

(** The address text before the slash and the prefix after it, common to the
    two parsers of "a.b.c.d/prefix". *)
Definition split_prefix (text : bytes) : option (option (bytes * Z)) :=
  if (CONFIG_MAX_LINE <=? length text)%nat then Some None else
  buf ← strcpy CONFIG_MAX_LINE text;
  match strchr_split buf 47 with
  | None => Some None
  | Some (addr, prefix_str) =>
      match strtol_all prefix_str with
      | None => Some None
      | Some prefix =>
          if (prefix <? 0) || (32 <? prefix) then Some None else Some (Some (addr, prefix))
      end
  end.

Definition parse_cidr (cidr : bytes) (addr_len mask_len : nat) :
    option (option (bytes * bytes)) :=
  r ← split_prefix cidr;
  match r with
  | None => Some None
  | Some (buf, prefix) =>
      match inet_pton buf with
      | None => Some None
      | Some _ =>
          if (addr_len <=? length buf)%nat then Some None else
          addr_out ← strcpy addr_len buf;
          mask_bits ← prefix_mask prefix;
          match inet_ntop (htonl mask_bits) mask_len with
          | None => Some None
          | Some mask_out => Some (Some (addr_out, mask_out))
          end
      end
  end.

Definition parse_ip_prefix (text : bytes) : option (option (Z * Z)) :=
  r ← split_prefix text;
  match r with
  | None => Some None
  | Some (buf, prefix) =>
      match inet_pton buf with
      | None => Some None
      | Some addr => Some (Some (addr, prefix))
      end
  end.

Definition parse_endpoint_value (value : bytes) (host_len : nat) : option (option (bytes * Z)) :=
  if (CONFIG_MAX_HOST <=? length value)%nat then Some None else
  buf ← strcpy CONFIG_MAX_HOST value;
  match strrchr_split buf 58 with
  | None | Some ([], _) => Some None
  | Some (h, port_str) =>
      match strtol_all port_str with
      | None => Some None
      | Some p =>
          if (p <=? 0) || (65535 <? p) then Some None
          else if (host_len <=? length h)%nat then Some None
          else host_out ← strcpy host_len h; Some (Some (host_out, u16 p))
      end
  end.

(** ** Lines *)
Section Load.
  Context `{SO : Sodium}.

(** [if (crypto_decode_base64(value, bytes, sizeof bytes) != 0)]. *)
Definition parse_key (value key_bytes : bytes) : option (option bytes) :=
  '(rc, out) ← crypto_decode_base64 value key_bytes;
  Some (if rc =? 0 then Some out else None).

Definition peer_incomplete (p : parser) : bool :=
  bool_decide (section p = SECTION_PEER) &&
  (negb (have_endpoint p) || negb (have_pubkey p) || negb (have_role p) || negb (have_allowed p)).

(** [cur->field = v]: undefined when [cur] is NULL. *)
Definition update_cur (f : config_peer_t -> config_peer_t) (p : parser) : option parser :=
  i ← cur p;
  peer ← peers (p_cfg p) !! i;
  Some (set_cfg (set_peers (peer_count (p_cfg p)) (<[i := f peer]> (peers (p_cfg p))) (p_cfg p)) p).

(** A line that begins with '['. *)
Definition section_header (p : parser) (trimmed : bytes) : R parser :=
  match strchr_split trimmed 93 with
  | None => fclose_fails (UnterminatedHeader (lineno p))
  | Some (before, _) =>
      let section_name := drop 1 before in
      if peer_incomplete p then fclose_fails (PreviousPeerIncomplete (lineno p))
      else if strcaseeq section_name (str "Interface") then mret (set_section SECTION_INTERFACE p)
      else if strcaseeq section_name (str "Peer") then
        let c := p_cfg p in
        if (CONFIG_MAX_PEERS <=? peer_count c)%nat then fclose_fails (TooManyPeers (lineno p))
        else
          (* cur = &cfg->peers[cfg->peer_count++]; memset(cur, 0, sizeof *cur) *)
          _ ← lift_R (peers c !! peer_count c);
          mret {| p_cfg := set_peers (S (peer_count c)) (<[peer_count c := zero_peer]> (peers c)) c;
                  section := SECTION_PEER; cur := Some (peer_count c);
                  have_address := have_address p; have_endpoint := false; have_pubkey := false;
                  have_role := false; have_allowed := false; lineno := lineno p |}
      else fclose_fails (UnknownSection (lineno p) section_name)
  end.

Definition interface_key (p : parser) (key value : bytes) : R parser :=
  let c := p_cfg p in
  if strcaseeq key (str "Name") then
    if (CONFIG_MAX_NAME <=? length value)%nat then fclose_fails (NameTooLong (lineno p))
    else v ← lift_R (strcpy CONFIG_MAX_NAME value); mret (set_cfg (set_name v c) p)
  else if strcaseeq key (str "DeviceName") then
    if (IFNAMSIZ <=? length value)%nat then fclose_fails (DeviceNameTooLong (lineno p))
    else v ← lift_R (strcpy IFNAMSIZ value); mret (set_cfg (set_tun_name v c) p)
  else if strcaseeq key (str "Address") then
    '(addr, mask) ← or_fail (parse_cidr value INET_ADDRSTRLEN INET_ADDRSTRLEN)
                            (InvalidAddress (lineno p) value);
    mret (mark_address (set_cfg (set_address addr mask c) p))
  else if strcaseeq key (str "ListenPort") then
    match strtol_all value with
    | None => fclose_fails (InvalidListenPort (lineno p) value)
    | Some v =>
        if (v <=? 0) || (65535 <? v) then fclose_fails (InvalidListenPort (lineno p) value)
        else mret (set_cfg (set_listen_port (u16 v) c) p)
    end
  else if strcaseeq key (str "PrivateKey") then
    k ← or_fail (parse_key value (private_key c)) (InvalidPrivateKey (lineno p));
    mret (set_cfg (set_private_key k c) p)
  else fclose_fails (UnknownInterfaceKey (lineno p) key).

Definition peer_key_value (p : parser) (key value : bytes) : R parser :=
  if strcaseeq key (str "Endpoint") then
    '(h, pt) ← or_fail (parse_endpoint_value value CONFIG_MAX_HOST)
                       (InvalidEndpoint (lineno p) value);
    p ← lift_R (update_cur (set_endpoint h pt) p);
    mret (mark KEndpoint p)
  else if strcaseeq key (str "PublicKey") then
    (* cur->public_key.bytes: [cur] is dereferenced before the call *)
    i ← lift_R (cur p);
    peer ← lift_R (peers (p_cfg p) !! i);
    k ← or_fail (parse_key value (public_key peer)) (InvalidPublicKey (lineno p));
    p ← lift_R (update_cur (set_public_key k) p);
    mret (mark KPubkey p)
  else if strcaseeq key (str "Role") then
    if strcaseeq value (str "initiator") then
      p ← lift_R (update_cur (set_peer_role CRYPTO_ROLE_INITIATOR) p); mret (mark KRole p)
    else if strcaseeq value (str "responder") then
      p ← lift_R (update_cur (set_peer_role CRYPTO_ROLE_RESPONDER) p); mret (mark KRole p)
    else fclose_fails (InvalidRole (lineno p) value)
  else if strcaseeq key (str "AllowedIPs") then
    '(a, pre) ← or_fail (parse_ip_prefix value) (InvalidAllowedIPs (lineno p) value);
    p ← lift_R (update_cur (set_allowed a pre) p);
    mret (mark KAllowed p)
  else fclose_fails (UnknownPeerKey (lineno p) key).

Definition key_value (p : parser) (trimmed : bytes) : R parser :=
  match strchr_split trimmed 61 with
  | None => fclose_fails (ExpectedKeyValue (lineno p))
  | Some (before, after) =>
      let key := trim before in
      let value := trim after in
      match section p with
      | SECTION_INTERFACE => interface_key p key value
      | SECTION_PEER => peer_key_value p key value
      | SECTION_NONE => fclose_fails (KeyOutsideSection (lineno p))
      end
  end.

(** The body of the loop, for the contents of [line]; [lineno++] is signed. *)
Definition config_line (p : parser) (line : bytes) : R parser :=
  if INT_MAX <=? lineno p then None else
  let p := set_lineno (lineno p + 1) p in
  let trimmed := trim (c_string line) in
  match trimmed with
  | [] => mret p
  | c :: _ =>
      if (c =? 35) || (c =? 59) then mret p
      else if c =? 91 then section_header p trimmed
      else key_value p trimmed
  end.

(** [while (fgets(line, sizeof(line), f) != NULL)].  Each iteration consumes
    a byte, so [S (length f)] iterations are enough. *)
Fixpoint config_loop (fuel : nat) (f : bytes) (p : parser) : R parser :=
  match fuel with
  | O => None
  | S fuel =>
      match fgets CONFIG_MAX_LINE f with
      | None => mret p
      | Some (line, f) => p ← config_line p line; config_loop fuel f p
      end
  end.

(** ** The file *)
Definition config_init : edgarvpn_config_t := {|
  name := str "unnamed-peer"; tun_name := []; tun_address := []; tun_netmask := [];
  listen_port := CONFIG_DEFAULT_PORT; has_private_key := false;
  private_key := replicate CRYPTO_SECRET_KEY_BYTES 0;
  peer_count := 0; peers := replicate CONFIG_MAX_PEERS zero_peer
|}.

Definition parser_init : parser := {|
  p_cfg := config_init; section := SECTION_NONE; cur := None;
  have_address := false; have_endpoint := false; have_pubkey := false;
  have_role := false; have_allowed := false; lineno := 0
|}.

(** After the loop, with the file closed. *)
Definition config_finish (p : parser) : R edgarvpn_config_t :=
  let c := p_cfg p in
  if peer_incomplete p then fails FinalPeerIncomplete
  else if negb (have_address p) then fails MissingAddress
  else if (0 <? peer_count c)%nat && negb (has_private_key c) then fails MissingPrivateKey
  else match tun_name c with
       | [] => v ← lift_R (strcpy IFNAMSIZ CONFIG_DEFAULT_DEVICE); mret (set_tun_name v c)
       | _ => mret c
       end.

(** The result for a file with these contents, [None] when [fopen] fails; what
    the function does to the descriptor is in ConfigFile.v. *)
Definition config_load (file : option bytes) : R edgarvpn_config_t :=
  match file with
  | None => fails CannotOpen
  | Some f =>
      p ← config_loop (S (length f)) f parser_init;
      config_finish p
  end.

End Load.
