(* ===== verification/ConfigFacts.v ===== *)
(** * Facts about the configuration parser

    The values a successful parse yields, the invariant of the parser's
    variables, and that no line has undefined behaviour. *)

From Stdlib Require Import String.
From S2P Require Import Prelude Crypto Libc Config.
Open Scope list_scope.

#[global] Arguments Nat.leb : simpl never.
#[global] Arguments Nat.ltb : simpl never.

(** ** Masks *)

(** The netmask of a prefix length, as a host-order number. *)
Definition netmask (prefix : Z) : Z := 2 ^ 32 - 2 ^ (32 - prefix).

Lemma netmask_u32 prefix : 0 <= prefix <= 32 -> is_u32 (netmask prefix).
Proof.
  intros H. unfold netmask, is_u32.
  pose proof (Z.pow_pos_nonneg 2 (32 - prefix)). 
  pose proof (Z.pow_le_mono_r 2 (32 - prefix) 32). lia.
Qed.

Lemma netmask_shift prefix :
  0 <= prefix <= 32 -> netmask prefix = Z.shiftl (Z.ones prefix) (32 - prefix).
Proof.
  intros H. unfold netmask. rewrite Z.shiftl_mul_pow2, Z.ones_equiv by lia.
  rewrite Z.mul_pred_l, <- Z.pow_add_r by lia. f_equal; f_equal; lia.
Qed.

Lemma netmask_testbit prefix i :
  0 <= prefix <= 32 -> 0 <= i < 32 ->
  Z.testbit (netmask prefix) i = bool_decide (32 - prefix <= i).
Proof.
  intros H Hi. rewrite netmask_shift by done. case_bool_decide.
  - rewrite Z.shiftl_spec_high by lia. apply Z.ones_spec_low. lia.
  - apply Z.shiftl_spec_low. lia.
Qed.

Lemma prefix_mask_eq prefix : 0 <= prefix <= 32 -> prefix_mask prefix = Some (netmask prefix).
Proof.
  intros H. unfold prefix_mask. destruct (Z.eqb_spec prefix 0) as [->|]; [done|].
  unfold shl32. rewrite (u32_small (32 - prefix)) by (unfold is_u32; lia).
  destruct (Z.leb_spec 0 (32 - prefix)); [|lia]. destruct (Z.ltb_spec (32 - prefix) 32); [|lia].
  cbn [andb]. f_equal. unfold u32, netmask. rewrite Z.shiftl_mul_pow2 by lia.
  replace ((2 ^ 32 - 1) * 2 ^ (32 - prefix))
    with (2 ^ 32 - 2 ^ (32 - prefix) + (2 ^ (32 - prefix) - 1) * 2 ^ 32) by lia.
  rewrite Z.mod_add by lia. apply Z.mod_small. apply netmask_u32. lia.
Qed.

Lemma prefix_mask_undefined prefix : 32 < prefix < 2 ^ 32 -> prefix_mask prefix = None.
Proof.
  intros H. unfold prefix_mask. destruct (Z.eqb_spec prefix 0) as [->|]; [lia|].
  unfold shl32. replace (u32 (32 - prefix)) with (2 ^ 32 + (32 - prefix)).
  - destruct (Z.ltb_spec (2 ^ 32 + (32 - prefix)) 32); [lia|]. by rewrite andb_false_r.
  - unfold u32. rewrite <- (Z.mod_add (32 - prefix) 1) by lia. rewrite Z.mod_small; lia.
Qed.

(** ** What the value parsers return *)
Lemma split_prefix_total text : exists r, split_prefix text = Some r.
Proof.
  unfold split_prefix. case_match eqn:E; [eauto|]. apply Nat.leb_gt in E.
  rewrite strcpy_ok by done. simpl. repeat case_match; eauto.
Qed.

Lemma split_prefix_inv text addr prefix :
  split_prefix text = Some (Some (addr, prefix)) ->
  0 <= prefix <= 32 /\ exists rest, text = addr ++ 47 :: rest /\ strtol_all rest = Some prefix.
Proof.
  unfold split_prefix, strcpy. intros H. case_match; [done|].
  apply bind_Some in H as (buf & Hs & H). case_decide; simplify_eq.
  destruct (strchr_split buf 47) as [[a rest]|] eqn:E; simplify_eq.
  apply strchr_split_eq in E. destruct (strtol_all rest) eqn:E2; simplify_eq.
  destruct (_ || _) eqn:E3; simplify_eq. reflect_bools. eauto with lia.
Qed.

(** [parse_cidr]: the address text, and the netmask of the prefix in text. *)
Lemma parse_cidr_total cidr :
  exists r, parse_cidr cidr INET_ADDRSTRLEN INET_ADDRSTRLEN = Some r.
Proof.
  unfold parse_cidr. destruct (split_prefix_total cidr) as [[[buf prefix]|] E]; rewrite E; simpl; [|eauto].
  apply split_prefix_inv in E as [Hp _]. destruct (inet_pton buf); [|eauto].
  destruct (Nat.leb_spec INET_ADDRSTRLEN (length buf)); [eauto|].
  rewrite strcpy_ok by done. simpl. rewrite prefix_mask_eq by lia. simpl. rewrite inet_ntop_fits. eauto.
Qed.

Lemma parse_cidr_inv cidr addr mask :
  parse_cidr cidr INET_ADDRSTRLEN INET_ADDRSTRLEN = Some (Some (addr, mask)) ->
  (length addr < INET_ADDRSTRLEN)%nat /\ is_Some (inet_pton addr) /\
  exists prefix rest, 0 <= prefix <= 32 /\ cidr = addr ++ 47 :: rest /\
    strtol_all rest = Some prefix /\ mask = dotted (le_bytes 4 (htonl (netmask prefix))).
Proof.
  unfold parse_cidr. intros ([[buf prefix]|] & E & H)%bind_Some; [|done].
  apply split_prefix_inv in E as (Hp & rest & -> & Hr). destruct (inet_pton buf) eqn:Ei; [|done].
  destruct (Nat.leb_spec INET_ADDRSTRLEN (length buf)); [done|].
  rewrite strcpy_ok in H by done. simpl in H. rewrite prefix_mask_eq in H by lia. simpl in H.
  rewrite inet_ntop_fits in H. simplify_eq. eauto 10.
Qed.

Lemma parse_ip_prefix_total text : exists r, parse_ip_prefix text = Some r.
Proof.
  unfold parse_ip_prefix. destruct (split_prefix_total text) as [[[buf prefix]|] E]; rewrite E; simpl; [|eauto].
  destruct (inet_pton buf); eauto.
Qed.

Lemma parse_ip_prefix_inv text a prefix :
  parse_ip_prefix text = Some (Some (a, prefix)) -> is_u32 a /\ 0 <= prefix <= 32.
Proof.
  unfold parse_ip_prefix. intros ([[buf p]|] & E & H)%bind_Some; [|done].
  apply split_prefix_inv in E as [Hp _]. destruct (inet_pton buf) eqn:Ei; [|done].
  simplify_eq. split; [by eapply inet_pton_u32|done].
Qed.

Lemma parse_endpoint_total value : exists r, parse_endpoint_value value CONFIG_MAX_HOST = Some r.
Proof.
  unfold parse_endpoint_value. destruct (Nat.leb_spec CONFIG_MAX_HOST (length value)); [eauto|].
  rewrite strcpy_ok by done. simpl. destruct (strrchr_split value 58) as [[[|c h] rest]|]; eauto.
  destruct (strtol_all rest); [|eauto]. case_match; [eauto|]. case_match eqn:E; [eauto|].
  apply Nat.leb_gt in E. rewrite strcpy_ok by done. simpl. eauto.
Qed.

Lemma parse_endpoint_inv value h p :
  parse_endpoint_value value CONFIG_MAX_HOST = Some (Some (h, p)) ->
  0 < p <= 65535 /\ (0 < length h < CONFIG_MAX_HOST)%nat /\
  exists rest, value = h ++ 58 :: rest /\ strtol_all rest = Some p.
Proof.
  unfold parse_endpoint_value, strcpy. intros H. case_match; [done|].
  apply bind_Some in H as (buf & Hs & H). case_decide; simplify_eq.
  destruct (strrchr_split buf 58) as [[h' rest]|] eqn:E; [|done]. apply strrchr_split_eq in E.
  destruct h' as [|c h']; [done|].
  destruct (strtol_all rest) eqn:E2; [|done]. destruct (_ || _) eqn:E3; [done|].
  destruct (Nat.leb_spec CONFIG_MAX_HOST (length (c :: h'))); [done|].
  rewrite decide_True in H by done. simplify_eq/=. reflect_bools.
  assert (u16 z = z) as -> by (unfold u16; apply Z.mod_small; lia).
  split; [lia|]. split; [simpl; lia|eauto].
Qed.

(** ** Well-formed configurations *)
Definition endpoint_ok (q : config_peer_t) : Prop :=
  (0 < length (host q) < CONFIG_MAX_HOST)%nat /\ 0 < port q <= 65535.
Definition allowed_ok (q : config_peer_t) : Prop :=
  is_u32 (allowed_address q) /\ 0 <= allowed_prefix q <= 32.

Record peer_ok (q : config_peer_t) : Prop := {
  peer_ok_endpoint : endpoint_ok q;
  peer_ok_key : length (public_key q) = CRYPTO_PUBLIC_KEY_BYTES;
  peer_ok_allowed : allowed_ok q
}.

(** The address parses, and the netmask is the one of some prefix length. *)
Definition address_ok (c : edgarvpn_config_t) : Prop :=
  (length (tun_address c) < INET_ADDRSTRLEN)%nat /\ is_Some (inet_pton (tun_address c)) /\
  exists prefix, 0 <= prefix <= 32 /\
    tun_netmask c = dotted (le_bytes 4 (htonl (netmask prefix))).

(** What every prefix of the file leaves in [cfg]. *)
Record fields_ok (c : edgarvpn_config_t) : Prop := {
  fields_name : (length (name c) < CONFIG_MAX_NAME)%nat;
  fields_tun_name : (length (tun_name c) < IFNAMSIZ)%nat;
  fields_listen_port : 0 < listen_port c <= 65535;
  fields_private_key : length (private_key c) = CRYPTO_SECRET_KEY_BYTES;
  fields_count : (peer_count c <= CONFIG_MAX_PEERS)%nat;
  fields_peers : length (peers c) = CONFIG_MAX_PEERS
}.

(** What [config_load] promises of the configuration it returns. *)
Record config_wf (c : edgarvpn_config_t) : Prop := {
  wf_fields : fields_ok c;
  wf_device : tun_name c <> [];
  wf_address : address_ok c;
  wf_peers : forall i q, (i < peer_count c)%nat -> peers c !! i = Some q -> peer_ok q;
  wf_has_key : (0 < peer_count c)%nat -> has_private_key c = true
}.

(** The invariant of the parser: every peer but the current one is complete,
    and each [have_*] flag vouches for the field it stands for. *)
Record parser_inv (p : parser) : Prop := {
  inv_fields : fields_ok (p_cfg p);
  inv_address : have_address p = true -> address_ok (p_cfg p);
  inv_cur : match cur p with
            | None => peer_count (p_cfg p) = 0%nat /\ section p <> SECTION_PEER
            | Some i => peer_count (p_cfg p) = S i
            end;
  inv_others : forall i q, (S i < peer_count (p_cfg p))%nat -> peers (p_cfg p) !! i = Some q -> peer_ok q;
  inv_current : forall i q, cur p = Some i -> peers (p_cfg p) !! i = Some q ->
    length (public_key q) = CRYPTO_PUBLIC_KEY_BYTES /\
    (have_endpoint p = true -> endpoint_ok q) /\ (have_allowed p = true -> allowed_ok q);
  inv_left : section p <> SECTION_PEER -> cur p <> None ->
    have_endpoint p = true /\ have_pubkey p = true /\ have_role p = true /\ have_allowed p = true
}.

Lemma config_init_fields : fields_ok config_init.
Proof. split; try reflexivity; try (apply Nat.ltb_lt; reflexivity); try (apply Nat.leb_le; reflexivity). by vm_compute. Qed.

Lemma parser_init_inv : parser_inv parser_init.
Proof.
  split; try done; [exact config_init_fields|].
  intros i q Hi. cbn in Hi. lia.
Qed.

Section ConfigFacts.
  Context `{SO : Sodium} {SL : SodiumLaws}.

Lemma parse_key_total value key : exists r, parse_key value key = Some r /\
  forall k, r = Some k -> length k = length key.
Proof.
  unfold parse_key, crypto_decode_base64. pose proof (base642bin_fits (length key) value) as F.
  destruct (sodium_base642bin (length key) value) as [[rc stored] n]. cbn [fst snd] in F.
  unfold buf_write. rewrite decide_True by lia. cbn [mbind option_bind].
  assert (length (take 0 key ++ stored ++ drop (0 + length stored) key) = length key) as L.
  { rewrite !length_app, length_take, length_drop. lia. }
  destruct (negb (rc =? 0)); [|destruct (negb _)]; eexists; (split; [reflexivity|]);
    cbn; intros ? [= <-]; exact L.
Qed.

(** A step keeps the invariant and moves on by one line, or reports an error;
    it has no undefined behaviour. *)
Definition step_ok (p : parser) (r : R parser) : Prop :=
  match r with
  | None => False
  | Some (inl _) => True
  | Some (inr p') => parser_inv p' /\ lineno p' = lineno p
  end.

Lemma step_mret p p' : parser_inv p' -> lineno p' = lineno p -> step_ok p (mret p').
Proof. done. Qed.

Lemma step_or_fail {A} p (m : option (option A)) e k :
  (exists r, m = Some r) -> (forall a, m = Some (Some a) -> step_ok p (k a)) ->
  step_ok p (a ← or_fail m e; k a).
Proof. intros [[a|] ->] H; [by apply H|done]. Qed.

(** Changing a field of [cfg] other than the peers. *)
Lemma set_cfg_inv p c :
  parser_inv p -> fields_ok c -> peer_count c = peer_count (p_cfg p) -> peers c = peers (p_cfg p) ->
  (have_address p = true -> address_ok c) -> parser_inv (set_cfg c p).
Proof.
  intros [] Hf E1 E2 Ha. split; unfold set_cfg; cbn; rewrite ?E1, ?E2; done.
Qed.

(** Changing the current peer, and noting which key was given. *)
Lemma update_cur_step p f k :
  parser_inv p -> section p = SECTION_PEER ->
  (forall q, length (public_key q) = CRYPTO_PUBLIC_KEY_BYTES ->
             length (public_key (f q)) = CRYPTO_PUBLIC_KEY_BYTES) ->
  (forall q, endpoint_ok q \/ k = KEndpoint -> endpoint_ok (f q)) ->
  (forall q, allowed_ok q \/ k = KAllowed -> allowed_ok (f q)) ->
  step_ok p (p' ← lift_R (update_cur f p); mret (mark k p')).
Proof.
  intros [Hf Ha Hc Ho Hu Hl] Hs Fk Fe Fa. unfold update_cur.
  destruct (cur p) as [i|] eqn:Ec; [|by destruct Hc].
  assert (i < length (peers (p_cfg p)))%nat as Hi.
  { rewrite (fields_peers _ Hf). pose proof (fields_count _ Hf). lia. }
  destruct (lookup_lt_is_Some_2 _ _ Hi) as [q Hq]. cbn [mbind option_bind]. rewrite Hq. cbn.
  specialize (Hu i q eq_refl Hq) as (Uk & Ue & Ua).
  split; [|done]. split; cbn; rewrite ?Ec; try done.
  - destruct Hf. split; cbn; try done. by rewrite length_insert.
  - intros j q' Hj. rewrite list_lookup_insert_ne by lia. apply Ho. done.
  - intros ? q' [= <-]. rewrite list_lookup_insert_eq by done. intros [= <-].
    split; [by apply Fk|]. split; intros E.
    + apply Fe. destruct k; [by right|left; by apply Ue..].
    + apply Fa. destruct k; [left; by apply Ua..|by right].
Qed.

Lemma section_header_step p trimmed : parser_inv p -> step_ok p (section_header p trimmed).
Proof.
  intros Hi. unfold section_header. destruct (strchr_split trimmed 93) as [[before after]|]; [|done].
  destruct (peer_incomplete p) eqn:Ep; [done|].
  assert (cur p <> None -> have_endpoint p = true /\ have_pubkey p = true /\
    have_role p = true /\ have_allowed p = true) as Hall.
  { intros Hc. destruct (decide (section p = SECTION_PEER)) as [Es|Es]; [|by apply (inv_left _ Hi)].
    unfold peer_incomplete in Ep. rewrite bool_decide_true in Ep by done. cbn [andb] in Ep.
    by reflect_bools. }
  destruct (strcaseeq _ (str "Interface")).
  { apply step_mret; [|done]. destruct Hi as [Hf Ha Hc Ho Hu Hl]. split; try done.
    cbn. by destruct (cur p); [|destruct Hc]. }
  destruct (strcaseeq _ (str "Peer")); [|done].
  destruct (Nat.leb_spec CONFIG_MAX_PEERS (peer_count (p_cfg p))) as [|Hlt]; [done|].
  destruct Hi as [Hf Ha Hc Ho Hu Hl].
  destruct (lookup_lt_is_Some_2 (peers (p_cfg p)) (peer_count (p_cfg p))) as [q0 Hq0].
  { by rewrite (fields_peers _ Hf). }
  rewrite Hq0. cbn. split; [|done]. split; cbn; try done.
  - destruct Hf. split; cbn; try done. by rewrite length_insert.
  - intros i q Hi. rewrite list_lookup_insert_ne by lia. intros Hq.
    destruct (decide (S i = peer_count (p_cfg p))) as [E|]; [|apply (Ho i); [lia|done]].
    destruct (cur p) as [j|] eqn:Ec; [|lia]. assert (j = i) as -> by lia.
    destruct (Hall ltac:(done)) as (H1 & _ & _ & H4). destruct (Hu i q eq_refl Hq) as (? & ? & ?).
    split; auto.
  - intros i q [= <-]. rewrite list_lookup_insert_eq by (by eapply lookup_lt_Some).
    intros [= <-]. done.
Qed.

Lemma interface_key_step p key value : parser_inv p -> step_ok p (interface_key p key value).
Proof.
  intros Hi. pose proof (inv_fields _ Hi) as Hf. pose proof (inv_address _ Hi) as Ha. unfold interface_key.
  destruct (strcaseeq key (str "Name")).
  { destruct (Nat.leb_spec CONFIG_MAX_NAME (length value)); [done|]. rewrite strcpy_ok by done.
    apply step_mret; [|done]. apply set_cfg_inv; try done. by destruct Hf. }
  destruct (strcaseeq key (str "DeviceName")).
  { destruct (Nat.leb_spec IFNAMSIZ (length value)); [done|]. rewrite strcpy_ok by done.
    apply step_mret; [|done]. apply set_cfg_inv; try done. by destruct Hf. }
  destruct (strcaseeq key (str "Address")).
  { apply step_or_fail; [apply parse_cidr_total|]. intros [addr mask] H.
    apply parse_cidr_inv in H as (Hl & Hp & prefix & rest & ? & ? & ? & ->).
    assert (address_ok (set_address addr (dotted (le_bytes 4 (htonl (netmask prefix)))) (p_cfg p)))
      by (unfold address_ok; cbn; eauto).
    apply step_mret; [|done].
    destruct Hi. by split; [destruct Hf|..]. }
  destruct (strcaseeq key (str "ListenPort")).
  { destruct (strtol_all value) as [v|]; [|done]. destruct (_ || _) eqn:E; [done|]. reflect_bools.
    apply step_mret; [|done]. apply set_cfg_inv; try done. destruct Hf; split; try done. cbn.
    unfold u16. rewrite Z.mod_small; lia. }
  destruct (strcaseeq key (str "PrivateKey")); [|done].
  destruct (parse_key_total value (private_key (p_cfg p))) as (r & E & L).
  apply step_or_fail; [by exists r|]. intros k Hk. rewrite E in Hk. simplify_eq.
  apply step_mret; [|done]. apply set_cfg_inv; try done. destruct Hf; split; try done. cbn.
  by rewrite (L _ eq_refl).
Qed.

Lemma peer_key_step p key value :
  parser_inv p -> section p = SECTION_PEER -> step_ok p (peer_key_value p key value).
Proof.
  intros Hi Hs. unfold peer_key_value.
  destruct (strcaseeq key (str "Endpoint")).
  { apply step_or_fail; [apply parse_endpoint_total|]. intros [h pt] H.
    apply parse_endpoint_inv in H as (Hp & Hh & _).
    apply update_cur_step; auto; unfold endpoint_ok, allowed_ok; cbn; [done|].
    by intros q [|]. }
  destruct (strcaseeq key (str "PublicKey")).
  { destruct (cur p) as [i|] eqn:Ec; [|pose proof (inv_cur _ Hi) as H; rewrite Ec in H; by destruct H].
    cbn [lift_R mbind R_bind mret R_ret].
    destruct (lookup_lt_is_Some_2 (peers (p_cfg p)) i) as [q Hq].
    { rewrite (fields_peers _ (inv_fields _ Hi)). pose proof (fields_count _ (inv_fields _ Hi)).
      pose proof (inv_cur _ Hi) as H'. rewrite Ec in H'. lia. }
    rewrite Hq. cbn [lift_R mbind R_bind mret R_ret].
    destruct (inv_current _ Hi i q Ec Hq) as (Hk & _).
    destruct (parse_key_total value (public_key q)) as (r & E & L).
    apply step_or_fail; [by exists r|]. intros k Hk'. rewrite E in Hk'. simplify_eq.
    apply update_cur_step; auto; unfold endpoint_ok, allowed_ok; cbn; try (by intros q' [|]).
    intros. by rewrite (L _ eq_refl). }
  destruct (strcaseeq key (str "Role")).
  { destruct (strcaseeq value (str "initiator")); [|destruct (strcaseeq value (str "responder")); [|done]];
      apply update_cur_step; auto; unfold endpoint_ok, allowed_ok; cbn; by intros q' [|]. }
  destruct (strcaseeq key (str "AllowedIPs")); [|done].
  apply step_or_fail; [apply parse_ip_prefix_total|]. intros [a pre] H.
  apply parse_ip_prefix_inv in H as [? ?].
  apply update_cur_step; auto; unfold endpoint_ok, allowed_ok; cbn; by intros q' [|].
Qed.

(** One line keeps the invariant. *)
Lemma config_line_step p line :
  parser_inv p -> lineno p < INT_MAX ->
  match config_line p line with
  | None => False
  | Some (inl _) => True
  | Some (inr p') => parser_inv p' /\ lineno p' = lineno p + 1
  end.
Proof.
  intros Hi Hn. unfold config_line. destruct (Z.leb_spec INT_MAX (lineno p)); [lia|].
  set (p1 := set_lineno (lineno p + 1) p).
  assert (parser_inv p1) as Hi1 by (by destruct Hi).
  cut (step_ok p1 (match trim (c_string line) with
    | [] => mret p1
    | c :: _ => if (c =? 35) || (c =? 59) then mret p1
                else if c =? 91 then section_header p1 (trim (c_string line))
                else key_value p1 (trim (c_string line)) end)); [done|].
  destruct (trim (c_string line)) as [|c t]; [done|].
  destruct ((c =? 35) || (c =? 59)); [done|]. destruct (c =? 91); [by apply section_header_step|].
  unfold key_value. destruct (strchr_split (c :: t) 61) as [[before after]|]; [|done].
  destruct (section p1) eqn:Es; [done|by apply interface_key_step|by apply peer_key_step].
Qed.

(** The loop ends within its fuel, without undefined behaviour. *)
Lemma config_loop_ok fuel f p :
  (length f < fuel)%nat -> parser_inv p -> lineno p + zlen f < INT_MAX ->
  match config_loop fuel f p with
  | None => False
  | Some (inl _) => True
  | Some (inr p') => parser_inv p'
  end.
Proof.
  revert f p. induction fuel as [|fuel IH]; intros f p Hf Hi Hn; [lia|]. cbn [config_loop].
  destruct (fgets CONFIG_MAX_LINE f) as [[line rest]|] eqn:E; [|done].
  apply fgets_progress in E as (Hr & _ & _); [|unfold CONFIG_MAX_LINE; lia].
  pose proof (config_line_step p line Hi ltac:(lia)) as H.
  destruct (config_line p line) as [[e|p']|]; [done| |done]. destruct H as [Hi' Hl].
  apply IH; [lia|done|lia].
Qed.

Lemma config_finish_ok p c : parser_inv p -> config_finish p = Some (inr c) -> config_wf c.
Proof.
  intros Hi. unfold config_finish. destruct (peer_incomplete p) eqn:Ep; [done|].
  destruct (have_address p) eqn:Ea; [|done]. cbn [negb].
  destruct ((0 <? peer_count (p_cfg p))%nat && negb (has_private_key (p_cfg p))) eqn:Ek; [done|].
  assert (forall i q, (i < peer_count (p_cfg p))%nat -> peers (p_cfg p) !! i = Some q -> peer_ok q) as Hp.
  { intros i q Hlt Hq. destruct (decide (S i < peer_count (p_cfg p))%nat); [by apply (inv_others _ Hi i)|].
    pose proof (inv_cur _ Hi) as Hc. destruct (cur p) as [j|] eqn:Ec; [|lia].
    assert (j = i) as -> by lia. destruct (inv_current _ Hi i q Ec Hq) as (? & He & Hal).
    assert (have_endpoint p = true /\ have_allowed p = true) as [? ?].
    { destruct (decide (section p = SECTION_PEER)) as [Es|Es].
      - unfold peer_incomplete in Ep. rewrite bool_decide_true in Ep by done. cbn [andb] in Ep. by reflect_bools.
      - destruct (inv_left _ Hi Es) as (? & _ & _ & ?); [congruence|done]. }
    split; auto. }
  assert ((0 < peer_count (p_cfg p))%nat -> has_private_key (p_cfg p) = true) as Hk.
  { intros Hlt. destruct (has_private_key _); [done|]. apply Nat.ltb_lt in Hlt. by rewrite Hlt in Ek. }
  pose proof (inv_fields _ Hi) as Hf. pose proof (inv_address _ Hi Ea) as Hadr.
  destruct (tun_name (p_cfg p)) eqn:Et.
  - intros [= <-]. split; try done. destruct Hf. split; try done. cbn. unfold IFNAMSIZ. lia.
  - intros [= <-]. split; try done. by rewrite Et.
Qed.

Lemma config_load_total f : zlen f < INT_MAX -> exists r, config_load (Some f) = Some r.
Proof.
  intros Hf. pose proof (config_loop_ok (S (length f)) f parser_init ltac:(lia) parser_init_inv) as H.
  unfold config_load. destruct (config_loop _ _ _) as [[e|p]|].
  - by exists (inl e).
  - cbn. unfold config_finish. repeat case_match; eexists; reflexivity.
  - destruct H. cbn. lia.
Qed.

Lemma config_load_wf f c :
  zlen f < INT_MAX -> config_load (Some f) = Some (inr c) -> config_wf c.
Proof.
  intros Hf. pose proof (config_loop_ok (S (length f)) f parser_init ltac:(lia) parser_init_inv) as H.
  unfold config_load. destruct (config_loop _ _ _) as [[e|p]|]; [done| |done].
  cbn [mbind R_bind]. apply config_finish_ok, H. cbn. lia.
Qed.
End ConfigFacts.
