(* ===== verification/ConfigGiven.v ===== *)
(** * Where the values of a configuration come from

    A reading of the text of a configuration file that knows nothing of the
    parser's variables: its lines, the entry on each and the section the entry
    stands in.  The configuration that [config_load] accepts is what the last
    entry of each key says, and the keys that a section needs are there: the
    [have_*] flags of src/config.c tell the truth. *)

From Stdlib Require Import String.
From S2P Require Import Prelude Crypto Libc Config ConfigFacts.
Open Scope list_scope.

(** ** The text *)

(** The strings [fgets] returns for a file, in order. *)
Fixpoint pieces (fuel : nat) (f : bytes) : list bytes :=
  match fuel with
  | O => []
  | S fuel =>
      match fgets CONFIG_MAX_LINE f with
      | None => []
      | Some (line, f) => line :: pieces fuel f
      end
  end.

(** What is written on a line. *)
Inductive item :=
| Blank
| Header (section_name : bytes)
| Entry (key value : bytes)
| Garbled.

Definition item_of (line : bytes) : item :=
  let trimmed := trim (c_string line) in
  match trimmed with
  | [] => Blank
  | c :: _ =>
      if (c =? 35) || (c =? 59) then Blank
      else if c =? 91 then
        match strchr_split trimmed 93 with
        | None => Garbled
        | Some (before, _) => Header (drop 1 before)
        end
      else
        match strchr_split trimmed 61 with
        | None => Garbled
        | Some (before, after) => Entry (trim before) (trim after)
        end
  end.

(** The section an entry stands in: [Peer] sections are numbered from 0. *)
Inductive place := Outside | InInterface | InPeer (i : nat).

#[global] Instance place_eq_dec : EqDecision place.
Proof. solve_decision. Defined.

(** The entries so far, latest first, the current section and the number of
    [Peer] headers. *)
Record gathered := {
  at_place : place;
  headers : nat;
  entries : list (place * bytes * bytes)
}.

Definition gather (g : gathered) (line : bytes) : gathered :=
  match item_of line with
  | Header n =>
      if strcaseeq n (str "Interface") then
        {| at_place := InInterface; headers := headers g; entries := entries g |}
      else if strcaseeq n (str "Peer") then
        {| at_place := InPeer (headers g); headers := S (headers g); entries := entries g |}
      else g
  | Entry key value =>
      {| at_place := at_place g; headers := headers g; entries := (at_place g, key, value) :: entries g |}
  | Blank | Garbled => g
  end.

Definition nothing : gathered := {| at_place := Outside; headers := 0; entries := [] |}.

Definition text_of (f : bytes) : gathered := foldl gather nothing (pieces (S (length f)) f).

(** The last value given for a key in a section. *)
Fixpoint latest (o : place) (key : bytes) (l : list (place * bytes * bytes)) : option bytes :=
  match l with
  | [] => None
  | (o', k, v) :: l => if bool_decide (o' = o) && strcaseeq k key then Some v else latest o key l
  end.

Definition given (g : gathered) (o : place) (key : bytes) : option bytes := latest o key (entries g).

(** ** What a value says *)
#[global] Instance peer_key_eq_dec : EqDecision peer_key.
Proof. solve_decision. Defined.

Definition key_name (k : peer_key) : bytes :=
  match k with
  | KEndpoint => str "Endpoint"
  | KPubkey => str "PublicKey"
  | KRole => str "Role"
  | KAllowed => str "AllowedIPs"
  end.

Definition have (k : peer_key) (p : parser) : bool :=
  match k with
  | KEndpoint => have_endpoint p
  | KPubkey => have_pubkey p
  | KRole => have_role p
  | KAllowed => have_allowed p
  end.

Section Given.
  Context `{SO : Sodium} {SL : SodiumLaws}.

(** [v] is base64 for exactly the bytes of [key]. *)
Definition decodes (v key : bytes) : Prop := sodium_base642bin (length key) v = (0, key, length key).

(** The value [v] of the key [k] says what the peer [q] has. *)
Definition vouches (k : peer_key) (v : bytes) (q : config_peer_t) : Prop :=
  match k with
  | KEndpoint => parse_endpoint_value v CONFIG_MAX_HOST = Some (Some (host q, port q))
  | KPubkey => decodes v (public_key q)
  | KRole => strcaseeq v (match peer_role q with
                          | CRYPTO_ROLE_INITIATOR => str "initiator"
                          | CRYPTO_ROLE_RESPONDER => str "responder" end) = true
  | KAllowed => parse_ip_prefix v = Some (Some (allowed_address q, allowed_prefix q))
  end.

(** The fields of [Interface] that have defaults. *)
Definition optional_fields (g : gathered) (c : edgarvpn_config_t) : Prop :=
  name c = default (str "unnamed-peer") (given g InInterface (str "Name")) /\
  tun_name c = default [] (given g InInterface (str "DeviceName")) /\
  match given g InInterface (str "ListenPort") with
  | None => listen_port c = CONFIG_DEFAULT_PORT
  | Some v => strtol_all v = Some (listen_port c)
  end.

Definition address_given (g : gathered) (c : edgarvpn_config_t) : Prop :=
  exists v, given g InInterface (str "Address") = Some v /\
    parse_cidr v INET_ADDRSTRLEN INET_ADDRSTRLEN = Some (Some (tun_address c, tun_netmask c)).

Definition private_key_given (g : gathered) (c : edgarvpn_config_t) : Prop :=
  exists v, given g InInterface (str "PrivateKey") = Some v /\ decodes v (private_key c).

(** ** The parser agrees with the text *)
Definition at_section (p : parser) : place :=
  match section p, cur p with
  | SECTION_PEER, Some i => InPeer i
  | SECTION_INTERFACE, _ => InInterface
  | _, _ => Outside
  end.

Record tells (p : parser) (g : gathered) : Prop := {
  t_place : at_place g = at_section p;
  t_count : headers g = peer_count (p_cfg p);
  t_peer : forall i q k, (i < peer_count (p_cfg p))%nat -> peers (p_cfg p) !! i = Some q ->
    (exists v, given g (InPeer i) (key_name k) = Some v /\ vouches k v q) \/ (cur p = Some i /\ have k p = false);
  t_address : have_address p = true -> address_given g (p_cfg p);
  t_private : has_private_key (p_cfg p) = true -> private_key_given g (p_cfg p);
  t_optional : optional_fields g (p_cfg p)
}.

Lemma tells_init : tells parser_init nothing.
Proof. split; try done. intros i q k Hi. cbn in Hi. lia. Qed.

Lemma tells_lineno p g n : tells p g -> tells (set_lineno n p) g.
Proof. by intros []. Qed.

(** Comparing without case. *)
Lemma strcaseeq_same k a b : strcaseeq k a = true -> strcaseeq k b = strcaseeq a b.
Proof.
  revert a b. induction k as [|x k IH]; intros [|y a] [|z b] H; cbn in *; try done.
  apply andb_true_iff in H as [->%Z.eqb_eq H]. by rewrite (IH a b H).
Qed.

Lemma given_entry g o key value name o' key' :
  strcaseeq key name = true ->
  given {| at_place := o; headers := headers g; entries := (o, key, value) :: entries g |} o' key' =
    if bool_decide (o = o') && strcaseeq name key' then Some value else given g o' key'.
Proof. intros H. unfold given. cbn. by rewrite (strcaseeq_same _ _ _ H). Qed.

Lemma parse_key_decodes value old key :
  parse_key value old = Some (Some key) -> decodes value key /\ length key = length old.
Proof.
  unfold parse_key, crypto_decode_base64, decodes. pose proof (base642bin_fits (length old) value) as F.
  pose proof (base642bin_reports (length old) value) as Hr.
  destruct (sodium_base642bin (length old) value) as [[rc stored] n] eqn:E. cbn [fst snd] in F, Hr.
  unfold buf_write. rewrite decide_True by lia. cbn [mbind option_bind take app Nat.add].
  destruct (Z.eqb_spec rc 0) as [->|]; [cbn [negb]|cbn; discriminate]. specialize (Hr eq_refl).
  destruct (Nat.eqb_spec n (length old)) as [Hn|]; [cbn|cbn; discriminate].
  intros H. injection H as <-. rewrite drop_ge, app_nil_r by lia.
  assert (length stored = length old) as -> by lia. split; [by rewrite E, Hn|done].
Qed.

(** An entry of [Interface] leaves the peers as they are. *)
Lemma tells_interface p g c have_addr key value kname :
  tells p g -> section p = SECTION_INTERFACE -> strcaseeq key kname = true ->
  peer_count c = peer_count (p_cfg p) -> peers c = peers (p_cfg p) ->
  let g' := {| at_place := at_place g; headers := headers g; entries := (at_place g, key, value) :: entries g |} in
  (have_addr = true -> address_given g' c) -> (has_private_key c = true -> private_key_given g' c) ->
  optional_fields g' c ->
  tells {| p_cfg := c; section := section p; cur := cur p; have_address := have_addr;
           have_endpoint := have_endpoint p; have_pubkey := have_pubkey p; have_role := have_role p;
           have_allowed := have_allowed p; lineno := lineno p |} g'.
Proof.
  intros Ht Hs Hk Hc Hp g' Ha Hpr Ho. destruct Ht as [T1 T2 T3 _ _ _].
  assert (at_place g = InInterface) as E by (rewrite T1; unfold at_section; by rewrite Hs).
  split; cbn [p_cfg section cur have_address]; try done.
  - unfold g'. cbn. by rewrite Hc.
  - intros i q k. rewrite Hc, Hp. intros Hi Hq. unfold g'. rewrite (given_entry _ _ _ _ _ _ _ Hk), E.
    cbn [bool_decide decide]. rewrite bool_decide_false by done. destruct (T3 i q k Hi Hq) as [?|[? Hf]]; [by left|].
    right. split; [done|]. by destruct k.
Qed.

(** The entry a line adds. *)
Definition add_entry (g : gathered) (key value : bytes) : gathered :=
  {| at_place := at_place g; headers := headers g; entries := (at_place g, key, value) :: entries g |}.

Ltac look_up H E := unfold address_given, private_key_given, optional_fields, add_entry in *;
  rewrite ?(given_entry _ _ _ _ _ _ _ H), ?E; cbn [bool_decide decide andb default].

Lemma interface_key_tells p g key value p' :
  tells p g -> section p = SECTION_INTERFACE -> interface_key p key value = Some (inr p') ->
  tells p' (add_entry g key value).
Proof.
  intros Ht Hs. pose proof Ht as [T1 _ _ T4 T5 T6].
  assert (at_place g = InInterface) as E by (rewrite T1; unfold at_section; by rewrite Hs). unfold interface_key.
  destruct (strcaseeq key (str "Name")) eqn:K1.
  { destruct (_ <=? _)%nat; [done|]. unfold strcpy. case_decide as Hfit; [|done]. intros Hret. injection Hret as <-.
    apply (tells_interface p g _ _ key value _ Ht Hs K1); try done; look_up K1 E; try done. by destruct T6 as (_ & ? & ?). }
  destruct (strcaseeq key (str "DeviceName")) eqn:K2.
  { destruct (_ <=? _)%nat; [done|]. unfold strcpy. case_decide as Hfit; [|done]. intros Hret. injection Hret as <-.
    apply (tells_interface p g _ _ key value _ Ht Hs K2); try done; look_up K2 E; try done. by destruct T6 as (? & _ & ?). }
  destruct (strcaseeq key (str "Address")) eqn:K3.
  { destruct (parse_cidr _ _ _) as [[[addr mask]|]|] eqn:Ep; try done. intros Hret. injection Hret as <-.
    apply (tells_interface p g _ true key value _ Ht Hs K3); try done; look_up K3 E; try done. by eauto. }
  destruct (strcaseeq key (str "ListenPort")) eqn:K4.
  { destruct (strtol_all value) as [v|] eqn:Ev; [|done]. destruct (_ || _) eqn:Er; [done|]. reflect_bools.
    intros Hret. injection Hret as <-. apply (tells_interface p g _ _ key value _ Ht Hs K4); try done; look_up K4 E; try done.
    destruct T6 as (? & ? & _). split; [done|]. split; [done|]. cbn. unfold u16. rewrite Z.mod_small by lia. done. }
  destruct (strcaseeq key (str "PrivateKey")) eqn:K5; [|done].
  destruct (parse_key value _) as [[k|]|] eqn:Ek; try done. apply parse_key_decodes in Ek as [Ek _].
  intros Hret. injection Hret as <-.
  apply (tells_interface p g _ _ key value _ Ht Hs K5); try done; look_up K5 E; try done. by eauto.
Qed.

(** An entry of the current peer. *)
Lemma key_names k k' : strcaseeq (key_name k) (key_name k') = bool_decide (k = k').
Proof. by destruct k, k'. Qed.

Lemma peer_entry_tells p g key value k f p1 :
  tells p g -> section p = SECTION_PEER -> strcaseeq key (key_name k) = true -> update_cur f p = Some p1 ->
  (forall q, vouches k value (f q)) -> (forall q k' v, k' <> k -> vouches k' v q -> vouches k' v (f q)) ->
  tells (mark k p1) (add_entry g key value).
Proof.
  intros [T1 T2 T3 T4 T5 T6] Hs Hk Hu Hnew Hold. unfold update_cur in Hu.
  apply bind_Some in Hu as (i & Hi & Hu). apply bind_Some in Hu as (q & Hq & Hu). injection Hu as <-.
  assert (at_place g = InPeer i) as E by (rewrite T1; unfold at_section; by rewrite Hs, Hi).
  assert (forall name', given (add_entry g key value) InInterface name' = given g InInterface name') as Hif.
  { intros name'. unfold add_entry. by rewrite (given_entry _ _ _ _ _ _ _ Hk), E. }
  split; cbn [mark set_cfg set_peers p_cfg peer_count peers have_address has_private_key]; try done.
  - intros j q' k' Hj Hq'. unfold add_entry. rewrite (given_entry _ _ _ _ _ _ _ Hk), E, key_names.
    apply list_lookup_insert_Some in Hq' as [(<- & <- & _)|[Hne Hq']].
    + rewrite bool_decide_true by done. destruct (decide (k = k')) as [<-|Hkk].
      { left. exists value. rewrite bool_decide_true by done. by split. }
      rewrite (bool_decide_false (k = k')) by done. cbn [andb].
      destruct (T3 i q k' Hj Hq) as [(v & Hv & Hvq)|[_ Hf]]; [left; by eauto|right]. split; [done|].
      by destruct k, k'.
    + rewrite bool_decide_false by congruence. cbn [andb].
      destruct (T3 j q' k' Hj Hq') as [?|[Hc _]]; [by left|congruence].
  - intros Ha. unfold address_given. rewrite Hif. by apply T4.
  - intros Ha. unfold private_key_given. rewrite Hif. by apply T5.
  - unfold optional_fields. rewrite !Hif. apply T6.
Qed.

Lemma peer_key_tells p g key value p' :
  tells p g -> section p = SECTION_PEER -> peer_key_value p key value = Some (inr p') ->
  tells p' (add_entry g key value).
Proof.
  intros Ht Hs. unfold peer_key_value.
  destruct (strcaseeq key (str "Endpoint")) eqn:K1.
  { destruct (parse_endpoint_value _ _) as [[[h pt]|]|] eqn:Ep; try done. cbn [or_fail mbind R_bind mret R_ret].
    destruct (update_cur _ p) as [p1|] eqn:Eu; [|done]. intros Hret. injection Hret as <-.
    apply (peer_entry_tells p g key value KEndpoint _ p1 Ht Hs K1 Eu); [done|]. by intros q [] v. }
  destruct (strcaseeq key (str "PublicKey")) eqn:K2.
  { destruct (cur p) as [i|]; [|done]. cbn [lift_R mbind R_bind mret R_ret].
    destruct (peers (p_cfg p) !! i) as [q0|]; [|done]. cbn [lift_R mbind R_bind mret R_ret].
    destruct (parse_key _ _) as [[k|]|] eqn:Ek; try done. cbn [or_fail mbind R_bind mret R_ret].
    apply parse_key_decodes in Ek as [Ek _].
    destruct (update_cur _ p) as [p1|] eqn:Eu; [|done]. intros Hret. injection Hret as <-.
    apply (peer_entry_tells p g key value KPubkey _ p1 Ht Hs K2 Eu); [done|]. by intros q [] v. }
  destruct (strcaseeq key (str "Role")) eqn:K3.
  { destruct (strcaseeq value (str "initiator")) eqn:V1; [|destruct (strcaseeq value (str "responder")) eqn:V2; [|done]];
    (destruct (update_cur _ p) as [p1|] eqn:Eu; [|done]); intros Hret; injection Hret as <-;
    (apply (peer_entry_tells p g key value KRole _ p1 Ht Hs K3 Eu); [done|]; by intros q [] v). }
  destruct (strcaseeq key (str "AllowedIPs")) eqn:K4; [|done].
  destruct (parse_ip_prefix _) as [[[a pre]|]|] eqn:Ep; try done. cbn [or_fail mbind R_bind mret R_ret].
  destruct (update_cur _ p) as [p1|] eqn:Eu; [|done]. intros Hret. injection Hret as <-.
  apply (peer_entry_tells p g key value KAllowed _ p1 Ht Hs K4 Eu); [done|]. by intros q [] v.
Qed.

(** A complete section has all four keys. *)
Lemma complete_have p k :
  parser_inv p -> cur p <> None -> peer_incomplete p = false -> have k p = true.
Proof.
  intros Hi Hc Ep.
  assert (have_endpoint p = true /\ have_pubkey p = true /\ have_role p = true /\ have_allowed p = true) as H.
  { destruct (decide (section p = SECTION_PEER)) as [Es|Es]; [|by apply (inv_left _ Hi)].
    unfold peer_incomplete in Ep. rewrite bool_decide_true in Ep by done. cbn [andb] in Ep. by reflect_bools. }
  destruct H as (? & ? & ? & ?). by destruct k.
Qed.

Lemma section_header_tells p g trimmed before rest p' :
  parser_inv p -> tells p g -> strchr_split trimmed 93 = Some (before, rest) ->
  section_header p trimmed = Some (inr p') ->
  tells p' (if strcaseeq (drop 1 before) (str "Interface") then
              {| at_place := InInterface; headers := headers g; entries := entries g |}
            else if strcaseeq (drop 1 before) (str "Peer") then
              {| at_place := InPeer (headers g); headers := S (headers g); entries := entries g |}
            else g).
Proof.
  intros Hi [T1 T2 T3 T4 T5 T6] Hb. unfold section_header. rewrite Hb.
  destruct (peer_incomplete p) eqn:Ep; [done|].
  destruct (strcaseeq _ (str "Interface")); [intros Hret; injection Hret as <-; by split|].
  destruct (strcaseeq _ (str "Peer")); [|done]. destruct (_ <=? _)%nat; [done|].
  destruct (peers (p_cfg p) !! peer_count (p_cfg p)) as [q0|] eqn:Eq; [|done].
  intros Hret. injection Hret as <-.
  split; cbn [p_cfg set_peers peer_count peers cur have_address has_private_key]; try done.
  - cbn. by rewrite T2.
  - cbn. by rewrite T2.
  - intros i q k Hlt Hq. apply list_lookup_insert_Some in Hq as [(<- & _)|[Hne Hq]]; [right; by destruct k|].
    left. destruct (T3 i q k ltac:(lia) Hq) as [?|[Hc Hf]]; [done|].
    rewrite (complete_have p k Hi ltac:(congruence) Ep) in Hf. done.
Qed.

Lemma config_line_tells p g line p' :
  parser_inv p -> tells p g -> config_line p line = Some (inr p') -> tells p' (gather g line).
Proof.
  intros Hi Ht. unfold config_line, gather, item_of. destruct (INT_MAX <=? lineno p); [done|].
  assert (parser_inv (set_lineno (lineno p + 1) p)) as Hi1 by (by destruct Hi).
  apply (tells_lineno _ _ (lineno p + 1)) in Ht. set (p1 := set_lineno (lineno p + 1) p) in *.
  destruct (trim (c_string line)) as [|c t]; [intros Hret; by injection Hret as <-|].
  destruct ((c =? 35) || (c =? 59)); [intros Hret; by injection Hret as <-|]. destruct (c =? 91).
  - destruct (strchr_split (c :: t) 93) as [[before rest]|] eqn:Hb; [by eapply section_header_tells|].
    unfold section_header. by rewrite Hb.
  - unfold key_value. destruct (strchr_split (c :: t) 61) as [[before after]|]; [|done].
    destruct (section p1) eqn:Es; [done|by apply interface_key_tells|by apply peer_key_tells].
Qed.

Lemma config_loop_tells fuel f p g p' :
  (length f < fuel)%nat -> lineno p + zlen f < INT_MAX ->
  parser_inv p -> tells p g -> config_loop fuel f p = Some (inr p') ->
  parser_inv p' /\ tells p' (foldl gather g (pieces fuel f)).
Proof.
  revert f p g. induction fuel as [|fuel IH]; intros f p g Hf Hn Hi Ht; [done|]. cbn [config_loop pieces].
  destruct (fgets CONFIG_MAX_LINE f) as [[line rest]|] eqn:E; [|intros Hret; by injection Hret as <-].
  apply fgets_progress in E as (Hr & _ & _); [|unfold CONFIG_MAX_LINE; lia].
  pose proof (config_line_step p line Hi ltac:(lia)) as H.
  destruct (config_line p line) as [[e|p1]|] eqn:El; [done| |done]. destruct H as [Hi1 Hl1].
  cbn [foldl mbind R_bind]. apply IH; [lia|lia|done|by apply (config_line_tells p)].
Qed.

(** What an accepted configuration says is what the text says. *)
Lemma config_load_tells f c :
  zlen f < INT_MAX -> config_load (Some f) = Some (inr c) ->
  let g := text_of f in
  peer_count c = headers g /\
  (forall i q k, (i < peer_count c)%nat -> peers c !! i = Some q ->
     exists v, given g (InPeer i) (key_name k) = Some v /\ vouches k v q) /\
  address_given g c /\ (has_private_key c = true -> private_key_given g c) /\
  exists device, optional_fields g (set_tun_name device c) /\
    tun_name c = match device with [] => CONFIG_DEFAULT_DEVICE | _ => device end.
Proof.
  intros Hf Hl g. unfold config_load in Hl. destruct (config_loop _ _ _) as [[e|p]|] eqn:El; [done| |done].
  destruct (config_loop_tells (S (length f)) f parser_init nothing p ltac:(lia) ltac:(cbn; lia) parser_init_inv tells_init El) as [Hi Ht].
  fold (text_of f) in Ht. fold g in Ht. cbn [mbind R_bind] in Hl. unfold config_finish in Hl.
  destruct (peer_incomplete p) eqn:Ep; [done|]. destruct (have_address p) eqn:Ea; [|done]. cbn [negb] in Hl.
  destruct (_ && _); [done|]. destruct Ht as [T1 T2 T3 T4 T5 T6].
  assert (forall i q k, (i < peer_count (p_cfg p))%nat -> peers (p_cfg p) !! i = Some q ->
     exists v, given g (InPeer i) (key_name k) = Some v /\ vouches k v q) as Hp.
  { intros i q k Hlt Hq. destruct (T3 i q k Hlt Hq) as [?|[Hc Hh]]; [done|].
    rewrite (complete_have p k Hi ltac:(congruence) Ep) in Hh. done. }
  destruct (tun_name (p_cfg p)) eqn:Et; injection Hl as <-.
  - split; [done|]. split; [done|]. split; [by apply T4|]. split; [done|]. exists []. split; [|done].
    destruct T6 as (? & Ed & ?). rewrite Et in Ed. by split.
  - split; [done|]. split; [done|]. split; [by apply T4|]. split; [done|]. exists (tun_name (p_cfg p)).
    rewrite Et. split; [|done]. destruct T6 as (? & Ed & ?). rewrite Et in Ed. by split.
Qed.
End Given.

(** ** Lines longer than the buffer *)

(** Text made of whole lines. *)
Definition whole_lines (f : bytes) : Prop := f = [] \/ last f = Some 10.

#[global] Instance whole_lines_dec f : Decision (whole_lines f).
Proof. unfold whole_lines. apply _. Defined.

Lemma whole_lines_tail x f : whole_lines (x :: f) -> whole_lines f.
Proof. intros [?|H]; [done|]. destruct f; [by left|by right]. Qed.

(** Reading from whole lines does not look at what follows them. *)
Lemma read_line_whole n f t l rest :
  whole_lines f -> f <> [] -> read_line n f = (l, rest) ->
  read_line n (f ++ t) = (l, rest ++ t) /\ whole_lines rest.
Proof.
  revert f l rest. induction n as [|n IH]; intros [|x f] l rest Hw Hne E; try done; cbn in *.
  { injection E as <- <-. done. }
  destruct (Z.eqb_spec x 10) as [->|Hx].
  { injection E as <- <-. split; [done|]. by eapply whole_lines_tail. }
  destruct f as [|y f].
  { destruct Hw as [?|H]; [done|]. injection H. done. }
  destruct (read_line n (y :: f)) as [l' rest'] eqn:E'. injection E as <- <-.
  apply IH in E' as [-> Hr]; [done|by eapply whole_lines_tail|done].
Qed.

Lemma fgets_whole size f t l rest :
  whole_lines f -> fgets size f = Some (l, rest) ->
  fgets size (f ++ t) = Some (l, rest ++ t) /\ whole_lines rest.
Proof.
  intros Hw E. unfold fgets in *. destruct f as [|x f]; [done|]. cbn [app]. injection E as E.
  apply (read_line_whole _ _ t) in E as [E Hr]; [|done|done]. cbn [app] in E. by rewrite E.
Qed.

(** A full buffer without a newline. *)
Lemma read_line_full c t : Forall (fun x => x <> 10) c -> read_line (length c) (c ++ t) = (c, t).
Proof.
  induction 1 as [|x c Hx Hc IH]; [by destruct t|]. cbn. rewrite (proj2 (Z.eqb_neq _ _)) by done. by rewrite IH.
Qed.

Section Chunks.
  Context `{SO : Sodium} {SL : SodiumLaws}.

Lemma config_loop_fuel fuel fuel' f p :
  (length f < fuel)%nat -> (length f < fuel')%nat -> config_loop fuel f p = config_loop fuel' f p.
Proof.
  revert fuel' f p. induction fuel as [|fuel IH]; intros [|fuel'] f p H H'; [lia..|]. cbn [config_loop].
  destruct (fgets CONFIG_MAX_LINE f) as [[line rest]|] eqn:E; [|done].
  apply fgets_progress in E as (Hr & _ & _); [|unfold CONFIG_MAX_LINE; lia].
  destruct (config_line p line) as [[e|p1]|]; try done. cbn [mbind R_bind]. apply IH; lia.
Qed.

Lemma config_loop_step fuel f p :
  config_loop (S fuel) f p =
    match fgets CONFIG_MAX_LINE f with
    | None => mret p
    | Some (line, f) => p ← config_line p line; config_loop fuel f p
    end.
Proof. done. Qed.

Lemma config_loop_app f t p :
  whole_lines f ->
  config_loop (S (length (f ++ t))) (f ++ t) p =
    p' ← config_loop (S (length f)) f p; config_loop (S (length t)) t p'.
Proof.
  remember (length f) as n eqn:En. revert f p En.
  induction n as [n IH] using lt_wf_ind. intros f p -> Hw.
  destruct (fgets CONFIG_MAX_LINE f) as [[l rest]|] eqn:E; [|by destruct f].
  pose proof (fgets_whole _ _ t _ _ Hw E) as [E' Hw'].
  rewrite (config_loop_step _ (f ++ t)), (config_loop_step _ f), E, E'.
  apply fgets_progress in E as (Hr & _ & _); [|unfold CONFIG_MAX_LINE; lia].
  destruct (config_line p l) as [[e|p1]|]; try done. cbn [mbind R_bind].
  rewrite (config_loop_fuel (length f) (S (length rest))) by lia.
  rewrite (config_loop_fuel _ (S (length (rest ++ t)))) by (rewrite !length_app; lia).
  by apply (IH (length rest)).
Qed.

(** The bytes of a full buffer are one line, whatever follows. *)
Lemma config_loop_full c t p :
  length c = (CONFIG_MAX_LINE - 1)%nat -> Forall (fun x => x <> 10) c ->
  config_loop (S (length (c ++ t))) (c ++ t) p = p' ← config_line p c; config_loop (S (length t)) t p'.
Proof.
  intros Hl Hc. assert (fgets CONFIG_MAX_LINE (c ++ t) = Some (c, t)) as E.
  { unfold fgets. rewrite <- Hl, read_line_full by done. by destruct c. }
  rewrite config_loop_step, E. destruct (config_line p c) as [[e|p1]|]; try done. cbn [mbind R_bind].
  apply config_loop_fuel; [|lia]. rewrite length_app, Hl. unfold CONFIG_MAX_LINE. lia.
Qed.

Lemma comment_line p x c :
  x = 35 \/ x = 59 ->
  config_line p (x :: c) = if INT_MAX <=? lineno p then None else mret (set_lineno (lineno p + 1) p).
Proof.
  intros Hx. unfold config_line. destruct (INT_MAX <=? lineno p); [done|].
  assert (exists r, trim (c_string (x :: c)) = x :: r) as [r ->]; [|by destruct Hx as [-> | ->]].
  unfold trim. by destruct Hx as [-> | ->]; cbn; eexists.
Qed.
End Chunks.
