(* ===== verification/ConfigText.v ===== *)
(** * What a configuration file means

    The text of a configuration in the format of docs/CONFIGURATION.md, one
    key a line, and that [config_load] reads it back: the parser accepts every
    such file, whatever comments and blank lines are put between its lines,
    and gives the values that were written. *)

From Stdlib Require Import String.
From S2P Require Import Prelude Crypto Toy Libc Config ConfigFacts.
Open Scope list_scope.

(** ** Visible characters and trimming *)
Definition graphic (c : Z) : Prop := 32 < c < 127.

Lemma graphic_not_space c : graphic c -> isspace c = false.
Proof.
  unfold graphic, isspace. intros H. apply orb_false_iff. split; [apply Z.eqb_neq; lia|].
  apply andb_false_iff. right. apply Z.leb_gt. lia.
Qed.

Lemma c_string_graphic t rest : Forall graphic t -> c_string (t ++ 0 :: rest) = t.
Proof.
  induction 1 as [|c t Hc Ht IH]; [done|]. cbn. unfold graphic in Hc.
  destruct (Z.eqb_spec c 0); [lia|]. by rewrite IH.
Qed.

Lemma c_string_id t : Forall (fun c => c <> 0) t -> c_string t = t.
Proof.
  induction 1 as [|c t Hc Ht IH]; [done|]. cbn. destruct (Z.eqb_spec c 0); [done|]. by rewrite IH.
Qed.

Lemma skip_spaces_graphic t rest : t <> [] -> Forall graphic t -> skip_spaces (t ++ rest) = t ++ rest.
Proof. destruct t as [|c t]; [done|]. intros _ [Hc _]%Forall_cons_1. cbn. by rewrite graphic_not_space. Qed.

(** Trimming a value between one blank and a newline, or between two blanks. *)
Lemma trim_graphic pre t :
  t <> [] -> Forall graphic t -> skip_spaces pre = [] -> trim (pre ++ t) = t.
Proof.
  intros Hne Ht Hp.
  assert (skip_spaces (pre ++ t) = t) as E.
  { induction pre as [|c pre IH]; cbn.
    - rewrite <- (app_nil_r t) at 1. by rewrite skip_spaces_graphic, app_nil_r.
    - cbn in Hp. destruct (isspace c); [by apply IH|done]. }
  unfold trim. rewrite E. destruct t as [|c t]; [done|]. f_equal.
  inv_bytes. destruct (decide (t = [])) as [->|Hne']; [done|].
  apply Forall_cons_1 in Ht as [_ Ht].
  rewrite <- (app_nil_r (rev t)), skip_spaces_graphic, app_nil_r, rev_involutive; [done| |by apply Forall_rev].
  intros E'. apply Hne'. by rewrite <- (rev_involutive t), E'.
Qed.

(** A line that starts with a visible character and ends in a newline. *)
Lemma trim_line a t :
  a <> [] -> Forall graphic (take 1 a) -> t <> [] -> Forall graphic t -> trim (a ++ t ++ [10]) = a ++ t.
Proof.
  intros Ha Ha1 Hne Ht. destruct a as [|c a]; [done|]. apply Forall_cons_1 in Ha1 as [Hc _].
  unfold trim. cbn [app skip_spaces]. rewrite graphic_not_space by done. f_equal.
  rewrite !rev_app_distr. cbn [rev app].
  change (skip_spaces (10 :: ?l)) with (skip_spaces l).
  rewrite skip_spaces_graphic; [by rewrite rev_app_distr, !rev_involutive| |by apply Forall_rev].
  intros E. apply Hne. by rewrite <- (rev_involutive t), E.
Qed.

(** A word followed by blanks. *)
Lemma trim_trailing t gap :
  t <> [] -> Forall graphic t -> Forall (fun c => c = 32) gap -> trim (t ++ gap) = t.
Proof.
  intros Hne Ht Hg. destruct t as [|c t]; [done|]. apply Forall_cons_1 in Ht as [Hc Ht].
  unfold trim. cbn [app skip_spaces]. rewrite graphic_not_space by done. f_equal.
  rewrite rev_app_distr. apply Forall_rev in Hg.
  assert (skip_spaces (rev gap ++ rev t) = rev t) as ->; [|apply rev_involutive].
  induction Hg as [|x g -> _ IH]; [|done]. cbn [app]. destruct (decide (t = [])) as [->|Hne']; [done|].
  rewrite <- (app_nil_r (rev t)), skip_spaces_graphic; [done| |by apply Forall_rev].
  intros E. apply Hne'. by rewrite <- (rev_involutive t), E.
Qed.

Lemma strchr_split_app a c b : Forall (fun x => x <> c) a -> strchr_split (a ++ c :: b) c = Some (a, b).
Proof.
  induction 1 as [|x a Hx _ IH]; cbn; [by rewrite Z.eqb_refl|].
  rewrite (proj2 (Z.eqb_neq _ _)) by done. by rewrite IH.
Qed.

Lemma strrchr_split_app a c b : Forall (fun x => x <> c) b -> strrchr_split (a ++ c :: b) c = Some (a, b).
Proof.
  intros Hb. assert (strrchr_split b c = None) as E.
  { induction Hb as [|x b Hx _ IH]; [done|]. cbn. by rewrite IH, (proj2 (Z.eqb_neq _ _)). }
  induction a as [|x a IH]; cbn; [by rewrite E, Z.eqb_refl|]. by rewrite IH.
Qed.

(** ** Decimal numbers *)
Lemma isdigit_digit d : 0 <= d < 10 -> isdigit (48 + d) = true.
Proof. intros H. unfold isdigit. apply andb_true_iff. split; apply Z.leb_le; lia. Qed.

Lemma take_digits_dec fuel n rest :
  0 <= n < 10 ^ Z.of_nat fuel -> exists k, forall v,
    take_digits v (dec_digits fuel n rest) = take_digits (v * k + n) rest.
Proof.
  revert n rest. induction fuel as [|fuel IH]; intros n rest Hn.
  { change (10 ^ Z.of_nat 0) with 1 in Hn. assert (n = 0) as -> by lia. exists 1. intros v. cbn. f_equal. lia. }
  rewrite dec_digits_S. pose proof (Z.mod_pos_bound n 10 ltac:(lia)) as Hm.
  destruct (Z.ltb_spec n 10).
  - exists 10. intros v. cbn [take_digits]. rewrite isdigit_digit by done. f_equal. rewrite Z.mod_small by lia. lia.
  - rewrite Nat2Z.inj_succ, Z.pow_succ_r in Hn by lia.
    destruct (IH (n / 10) ((48 + n mod 10) :: rest)) as [k Hk].
    { split; [apply Z.div_pos; lia|]. apply Z.div_lt_upper_bound; lia. }
    exists (k * 10). intros v. rewrite Hk. cbn [take_digits]. rewrite isdigit_digit by done. f_equal.
    pose proof (Z.div_mod n 10). lia.
Qed.

Lemma dec_digits_head fuel n rest : 0 <= n -> (0 < fuel)%nat -> exists d r, dec_digits fuel n rest = d :: r /\ isdigit d = true.
Proof.
  revert n rest. induction fuel as [|fuel IH]; intros n rest Hn Hf; [lia|]. rewrite dec_digits_S.
  pose proof (Z.mod_pos_bound n 10 ltac:(lia)) as Hm. destruct (Z.ltb_spec n 10).
  - eexists _, _. split; [done|by apply isdigit_digit].
  - destruct fuel as [|fuel]; [eexists _, _; split; [done|by apply isdigit_digit]|].
    apply IH; [apply Z.div_pos; lia|lia].
Qed.

Lemma isdigit_graphic d : isdigit d = true -> graphic d /\ d <> 45 /\ d <> 43 /\ isspace d = false.
Proof.
  unfold isdigit, graphic. intros H. reflect_bools. split; [lia|]. split; [lia|]. split; [lia|].
  apply graphic_not_space. unfold graphic. lia.
Qed.

Lemma strtol_dec n : 0 <= n < 10 ^ 18 -> strtol_all (dec n) = Some n.
Proof.
  intros Hn. unfold strtol_all, strtol, dec.
  destruct (dec_digits_head 20 n [] ltac:(lia) ltac:(lia)) as (d & r & E & Hd).
  destruct (isdigit_graphic d Hd) as (_ & H1 & H2 & Hs).
  destruct (take_digits_dec 20 n []) as [k Hk]; [change (10 ^ Z.of_nat 20) with (10 ^ 20); lia|].
  specialize (Hk 0). rewrite E in *. cbn [skip_spaces]. rewrite Hs.
  rewrite (proj2 (Z.eqb_neq _ _)) by done. rewrite (proj2 (Z.eqb_neq _ _)) by done. rewrite Hd, Hk. cbn [take_digits].
  f_equal. unfold LONG_MAX. lia.
Qed.

(** The characters of a number are digits, at most twenty. *)
Lemma dec_digits_all fuel n rest : 0 <= n -> Forall (fun c => isdigit c = true) rest ->
  Forall (fun c => isdigit c = true) (dec_digits fuel n rest) /\ (length (dec_digits fuel n rest) <= fuel + length rest)%nat.
Proof.
  revert n rest. induction fuel as [|fuel IH]; intros n rest Hn Hr; [done|]. rewrite dec_digits_S.
  pose proof (Z.mod_pos_bound n 10 ltac:(lia)) as Hm.
  assert (Forall (fun c => isdigit c = true) ((48 + n mod 10) :: rest)) as H'
    by (constructor; [by apply isdigit_digit|done]).
  destruct (n <? 10); [split; [done|cbn; lia]|].
  destruct (IH (n / 10) _ ltac:(apply Z.div_pos; lia) H') as [? ?]. split; [done|]. cbn in *. lia.
Qed.

Lemma dec_graphic n : 0 <= n -> Forall graphic (dec n) /\ (length (dec n) <= 20)%nat /\ dec n <> [].
Proof.
  intros Hn. destruct (dec_digits_all 20 n [] Hn ltac:(constructor)) as [H1 H2]. split.
  - eapply Forall_impl; [exact H1|]. intros c Hc. by apply isdigit_graphic.
  - split; [exact H2|]. unfold dec. by destruct (dec_digits_head 20 n [] Hn ltac:(lia)) as (d & r & -> & _).
Qed.

Lemma dec_not n c : 0 <= n -> isdigit c = false -> Forall (fun x => x <> c) (dec n).
Proof.
  intros Hn Hc. eapply Forall_impl; [apply (dec_digits_all 20 n [] Hn); constructor|].
  intros x Hx ->. congruence.
Qed.

(** ** Addresses *)
Definition address_text (a : Z) : bytes := dotted (le_bytes 4 a).

Lemma dotted_chars l c :
  is_bytes l -> isdigit c = false -> c <> 46 -> Forall (fun x => x <> c) (dotted l).
Proof.
  intros Hb Hc H46. destruct l as [|x [|y [|z [|t [|]]]]]; try (by constructor). unfold dotted. inv_bytes.
  assert (forall b, is_byte b -> Forall (fun x => x <> c) (dec b)) as D.
  { intros b [? ?]. by apply dec_not. }
  rewrite !Forall_app, !Forall_singleton. auto 10.
Qed.

Lemma dotted_graphic l : is_bytes l -> Forall graphic (dotted l).
Proof.
  intros Hb. destruct l as [|x [|y [|z [|t [|]]]]]; try (by constructor). unfold dotted. inv_bytes.
  assert (forall b, is_byte b -> Forall graphic (dec b)) as D.
  { intros b [? ?]. by apply dec_graphic. }
  assert (graphic 46) by (unfold graphic; lia). rewrite !Forall_app, !Forall_singleton. auto 10.
Qed.

(** "a.b.c.d/prefix" *)
Definition range_text (a prefix : Z) : bytes := address_text a ++ 47 :: dec prefix.

Lemma split_range a prefix : 0 <= prefix <= 32 -> split_prefix (range_text a prefix) = Some (Some (address_text a, prefix)).
Proof.
  intros Hp. unfold split_prefix, range_text.
  assert (length (address_text a ++ 47%Z :: dec prefix) < CONFIG_MAX_LINE)%nat as Hl.
  { rewrite length_app. cbn [length]. pose proof (dotted_length _ (le_bytes_is_bytes 4 a)).
    pose proof (dec_graphic prefix ltac:(lia)) as (_ & ? & _). unfold CONFIG_MAX_LINE, address_text. lia. }
  rewrite (proj2 (Nat.leb_gt _ _)) by lia. rewrite strcpy_ok by lia. cbn [mbind option_bind].
  rewrite strchr_split_app by (apply dotted_chars; [apply le_bytes_is_bytes|done|done]).
  rewrite strtol_dec by lia. rewrite (proj2 (Z.ltb_ge _ _)), (proj2 (Z.ltb_ge _ _)) by lia. done.
Qed.

Lemma parse_ip_range a prefix : is_u32 a -> 0 <= prefix <= 32 -> parse_ip_prefix (range_text a prefix) = Some (Some (a, prefix)).
Proof.
  intros Ha Hp. unfold parse_ip_prefix. rewrite split_range by done. cbn [mbind option_bind].
  unfold address_text. by rewrite inet_pton_ntop.
Qed.

Definition netmask_text (prefix : Z) : bytes := dotted (le_bytes 4 (htonl (netmask prefix))).

Lemma parse_cidr_range a prefix : is_u32 a -> 0 <= prefix <= 32 ->
  parse_cidr (range_text a prefix) INET_ADDRSTRLEN INET_ADDRSTRLEN = Some (Some (address_text a, netmask_text prefix)).
Proof.
  intros Ha Hp. unfold parse_cidr. rewrite split_range by done. cbn [mbind option_bind].
  pose proof (dotted_length _ (le_bytes_is_bytes 4 a)) as Hl. unfold address_text. rewrite inet_pton_ntop by done.
  unfold INET_ADDRSTRLEN. rewrite (proj2 (Nat.leb_gt _ _)) by lia. rewrite strcpy_ok by lia. cbn [mbind option_bind].
  rewrite prefix_mask_eq by done. cbn [mbind option_bind]. by rewrite inet_ntop_fits.
Qed.

Lemma range_graphic a prefix : 0 <= prefix -> Forall graphic (range_text a prefix) /\
  (length (range_text a prefix) <= 36)%nat /\ range_text a prefix <> [].
Proof.
  intros Hp. unfold range_text. split; [|split].
  - apply Forall_app. split; [apply dotted_graphic, le_bytes_is_bytes|]. constructor; [unfold graphic; lia|].
    by apply dec_graphic.
  - rewrite length_app. cbn [length]. pose proof (dotted_length _ (le_bytes_is_bytes 4 a)).
    pose proof (dec_graphic prefix Hp) as (_ & ? & _). unfold address_text. lia.
  - intros E. apply (f_equal length) in E. rewrite length_app in E. cbn in E. lia.
Qed.

(** "host:port" *)
Definition endpoint_text (h : bytes) (pt : Z) : bytes := h ++ 58 :: dec pt.

Lemma parse_endpoint h pt :
  h <> [] -> (length (endpoint_text h pt) < CONFIG_MAX_HOST)%nat -> 0 < pt <= 65535 ->
  parse_endpoint_value (endpoint_text h pt) CONFIG_MAX_HOST = Some (Some (h, pt)).
Proof.
  intros Hne Hl Hp. unfold parse_endpoint_value. unfold endpoint_text in *.
  assert (length h < CONFIG_MAX_HOST)%nat as Hh by (rewrite length_app in Hl; lia).
  rewrite (proj2 (Nat.leb_gt _ _)) by lia. rewrite strcpy_ok by lia. cbn [mbind option_bind].
  rewrite strrchr_split_app by (apply dec_not; [lia|done]). destruct h as [|c h]; [done|].
  rewrite strtol_dec by lia. rewrite (proj2 (Z.leb_gt _ _)), (proj2 (Z.ltb_ge _ _)) by lia. cbn [orb].
  rewrite (proj2 (Nat.leb_gt _ _)) by lia. rewrite strcpy_ok by lia. cbn [mbind option_bind].
  unfold u16. by rewrite Z.mod_small by lia.
Qed.

(** ** Lines *)
Definition line_ok (l : bytes) : Prop := Forall (fun c => c <> 10) l /\ (length l < 511)%nat.

#[global] Instance line_ok_dec l : Decision (line_ok l).
Proof. unfold line_ok. apply _. Defined.

Definition file_text (ls : list bytes) : bytes := concat (map (fun l => l ++ [10]) ls).

Lemma read_line_newline n l rest : line_ok l -> (length l < n)%nat -> read_line n (l ++ 10 :: rest) = (l ++ [10], rest).
Proof.
  intros [Hl _]. revert n. induction Hl as [|c l Hc _ IH]; intros [|n] Hn; cbn in *; try lia; [done|].
  rewrite (proj2 (Z.eqb_neq _ _)) by done. by rewrite IH by lia.
Qed.

Section Text.
  Context `{SO : Sodium} {SL : SodiumLaws}.

Fixpoint config_lines (ls : list bytes) (p : parser) : R parser :=
  match ls with
  | [] => mret p
  | l :: ls => p ← config_line p (l ++ [10]); config_lines ls p
  end.

Lemma loop_lines ls : forall fuel p, Forall line_ok ls -> (length (file_text ls) < fuel)%nat ->
  config_loop fuel (file_text ls) p = config_lines ls p.
Proof.
  induction ls as [|l ls IH]; intros [|fuel] p Hok Hf; try (cbn in *; lia); [done|].
  apply Forall_cons in Hok as [Hl Hls]. unfold file_text in *. cbn [map concat] in *. cbn [config_loop].
  unfold fgets. replace (_ ++ _) with (l ++ 10 :: concat (map (fun l => l ++ [10]) ls)) in * by (by rewrite <- app_assoc).
  destruct (l ++ 10 :: _) eqn:E; [by destruct l|]. rewrite <- E in *. clear E.
  rewrite read_line_newline; [|done|destruct Hl; cbn; lia]. cbn [config_lines].
  destruct (config_line p (l ++ [10])) as [[e|p']|]; try done. cbn. apply IH; [done|].
  rewrite length_app in Hf. cbn [length] in Hf. unfold file_text. lia.
Qed.

(** [l] takes the parser from [p] to [p'], whatever line it is on. *)
Definition line_reads (l : bytes) (p p' : parser) : Prop := forall n, 0 <= n < INT_MAX ->
  config_line (set_lineno n p) (l ++ [10]) = Some (inr (set_lineno (n + 1) p')).

Inductive reads : list bytes -> parser -> parser -> Prop :=
| reads_nil p : reads [] p p
| reads_cons l ls p p1 p' : line_reads l p p1 -> reads ls p1 p' -> reads (l :: ls) p p'.

Lemma reads_app ls ls' p p1 p' : reads ls p p1 -> reads ls' p1 p' -> reads (ls ++ ls') p p'.
Proof. induction 1; [done|]. intros. econstructor; eauto. Qed.

(** Comments and blank lines change nothing but the line number. *)
Definition noise (l : bytes) : bool :=
  match trim (c_string (l ++ [10])) with
  | [] => true
  | c :: _ => (c =? 35) || (c =? 59)
  end.

Lemma noise_reads l p : noise l = true -> line_reads l p p.
Proof.
  unfold noise. intros Hn n Hi. unfold config_line. cbn [lineno set_lineno]. destruct (Z.leb_spec INT_MAX n); [lia|].
  cbv zeta. destruct (trim _); [done|]. by rewrite Hn.
Qed.

Lemma reads_lines core ls : forall p p' n,
  reads core p p' -> filter (fun l => noise l = false) ls = core -> 0 <= n -> n + zlen ls < INT_MAX ->
  config_lines ls (set_lineno n p) = Some (inr (set_lineno (n + zlen ls) p')).
Proof.
  revert core. induction ls as [|l ls IH]; intros core p p' n Hr Hf Hn Hi.
  { cbn in Hf. subst core. inversion Hr; subst. cbn. by rewrite Z.add_0_r. }
  rewrite filter_cons in Hf. cbn [config_lines length] in *.
  assert (exists p1, line_reads l p p1 /\ exists core', reads core' p1 p' /\ filter (fun l => noise l = false) ls = core')
    as (p1 & H1 & core' & H2 & H3).
  { case_decide as Hl.
    - subst core. inversion Hr as [|? ? ? p1]; subst. by exists p1; eauto.
    - apply not_false_iff_true in Hl. exists p. split; [by apply noise_reads|]. by exists core. }
  rewrite H1 by lia. cbn. rewrite (IH core' p1 p' (n + 1)) by (done || lia). do 3 f_equal. lia.
Qed.

(** A key, blanks, '=', a blank and a value. *)
Definition key_ok (key : bytes) : Prop :=
  key <> [] /\ Forall graphic key /\ Forall (fun c => c <> 61) key /\
  (head key <> Some 35 /\ head key <> Some 59 /\ head key <> Some 91).

#[global] Instance key_ok_dec key : Decision (key_ok key).
Proof. unfold key_ok, graphic. apply _. Defined.

Definition word (v : bytes) : Prop := v <> [] /\ Forall graphic v.

#[global] Instance word_dec v : Decision (word v).
Proof. unfold word, graphic. apply _. Defined.

Definition keyed (p : parser) (key value : bytes) : R parser :=
  match section p with
  | SECTION_INTERFACE => interface_key p key value
  | SECTION_PEER => peer_key_value p key value
  | SECTION_NONE => fclose_fails (KeyOutsideSection (lineno p))
  end.

Lemma entry_line p key gap v :
  key_ok key -> Forall (fun c => c = 32) gap -> word v -> lineno p < INT_MAX ->
  config_line p (key ++ gap ++ [61; 32] ++ v ++ [10]) = keyed (set_lineno (lineno p + 1) p) key v.
Proof.
  intros (Hne & Hg & Heq & Hh) Hgap [Hv Hvg] Hl. unfold config_line. destruct (Z.leb_spec INT_MAX (lineno p)); [lia|].
  replace (key ++ gap ++ [61; 32] ++ v ++ [10]) with ((key ++ gap ++ [61; 32]) ++ v ++ [10]) by (by rewrite <- !app_assoc).
  assert (forall l, Forall graphic l -> Forall (fun c => c <> 0) l) as Hnz.
  { intros l Hx. eapply Forall_impl; [exact Hx|]. unfold graphic. intros; lia. }
  assert (Forall (fun c => c <> 0) gap) as Hgz by (eapply Forall_impl; [exact Hgap|]; by intros x ->).
  rewrite c_string_id.
  2:{ rewrite !Forall_app. split_and!; auto; repeat constructor; lia. }
  rewrite trim_line; [|by destruct key| |done|done].
  2:{ destruct key; [done|]. apply Forall_cons_1 in Hg as [? _]. by constructor. }
  destruct key as [|c key]; [done|]. cbn [app]. cbn [head] in Hh. destruct Hh as (H1 & H2 & H3).
  rewrite (proj2 (Z.eqb_neq c 35)), (proj2 (Z.eqb_neq c 59)), (proj2 (Z.eqb_neq c 91)) by congruence. cbn [orb].
  unfold key_value.
  replace (c :: (key ++ gap ++ [61; 32]) ++ v) with (((c :: key) ++ gap) ++ 61 :: 32 :: v)
    by (by rewrite <- !app_assoc).
  rewrite strchr_split_app.
  2:{ apply Forall_app. split; [done|]. eapply Forall_impl; [exact Hgap|]. by intros x ->. }
  rewrite trim_trailing by done. change (32 :: v) with ([32] ++ v). by rewrite trim_graphic.
Qed.

Lemma parse_key_encoded k old :
  is_bytes k -> length k = length old -> parse_key (sodium_bin2base64 k) old = Some (Some k).
Proof.
  intros Hb Hl. unfold parse_key, crypto_decode_base64. rewrite base642bin_bin2base64 by (done || lia).
  cbv beta iota. unfold buf_write. rewrite decide_True by lia. cbn [mbind option_bind].
  rewrite Hl, Nat.eqb_refl. cbn. rewrite drop_ge by lia. by rewrite app_nil_r.
Qed.

Lemma encoded_nonempty k : length k = 32%nat -> sodium_bin2base64 k <> [].
Proof. intros Hl E. pose proof (bin2base64_length k) as L. rewrite Hl, E in L. done. Qed.

(** ** A configuration as its operator writes it *)
Definition entry (key : string) (v : bytes) : bytes := str key ++ [32; 61; 32] ++ v.

Definition role_text (r : crypto_role_t) : bytes :=
  match r with CRYPTO_ROLE_INITIATOR => str "initiator" | CRYPTO_ROLE_RESPONDER => str "responder" end.

Record setup := {
  s_name : bytes;
  s_device : bytes;
  s_address : Z;
  s_prefix : Z;
  s_port : Z;
  s_private_key : bytes;
  s_peers : list config_peer_t
}.

Definition peer_lines (q : config_peer_t) : list bytes := [
  str "[Peer]";
  entry "Endpoint" (endpoint_text (host q) (port q));
  entry "PublicKey" (sodium_bin2base64 (public_key q));
  entry "Role" (role_text (peer_role q));
  entry "AllowedIPs" (range_text (allowed_address q) (allowed_prefix q))]%string.

Definition interface_lines (s : setup) : list bytes := [
  str "[Interface]";
  entry "Name" (s_name s);
  entry "DeviceName" (s_device s);
  entry "Address" (range_text (s_address s) (s_prefix s));
  entry "ListenPort" (dec (s_port s));
  entry "PrivateKey" (sodium_bin2base64 (s_private_key s))]%string.

Definition setup_lines (s : setup) : list bytes := interface_lines s ++ concat (map peer_lines (s_peers s)).

(** What is in range. *)
Definition peer_ok (q : config_peer_t) : Prop :=
  word (host q) /\ (length (endpoint_text (host q) (port q)) < CONFIG_MAX_HOST)%nat /\ 0 < port q <= 65535 /\
  length (public_key q) = CRYPTO_PUBLIC_KEY_BYTES /\ is_bytes (public_key q) /\
  is_u32 (allowed_address q) /\ 0 <= allowed_prefix q <= 32.

Definition setup_ok (s : setup) : Prop :=
  word (s_name s) /\ (length (s_name s) < CONFIG_MAX_NAME)%nat /\
  word (s_device s) /\ (length (s_device s) < IFNAMSIZ)%nat /\
  is_u32 (s_address s) /\ 0 <= s_prefix s <= 32 /\ 0 < s_port s <= 65535 /\
  length (s_private_key s) = CRYPTO_SECRET_KEY_BYTES /\ is_bytes (s_private_key s) /\
  (length (s_peers s) <= CONFIG_MAX_PEERS)%nat /\ Forall peer_ok (s_peers s).

#[global] Instance peer_ok_dec q : Decision (peer_ok q).
Proof. unfold peer_ok, is_bytes, is_byte, is_u32. apply _. Defined.

#[global] Instance setup_ok_dec s : Decision (setup_ok s).
Proof. unfold setup_ok, is_bytes, is_byte, is_u32. apply _. Defined.

(** The configuration it stands for. *)
Definition loaded (s : setup) : edgarvpn_config_t := {|
  name := s_name s; tun_name := s_device s; tun_address := address_text (s_address s);
  tun_netmask := netmask_text (s_prefix s); listen_port := s_port s; has_private_key := true;
  private_key := s_private_key s; peer_count := length (s_peers s);
  peers := s_peers s ++ replicate (CONFIG_MAX_PEERS - length (s_peers s)) zero_peer |}.

(** *** Reading an entry *)
Lemma entry_reads key v p p' :
  key_ok (str key) -> word v ->
  (forall n, keyed (set_lineno n p) (str key) v = Some (inr (set_lineno n p'))) -> line_reads (entry key v) p p'.
Proof.
  intros Hk Hv H n Hn. unfold entry. rewrite <- !app_assoc. change ([32; 61; 32] ++ v ++ [10]) with ([32] ++ [61; 32] ++ v ++ [10]).
  rewrite entry_line; [|done|by constructor|done|exact (proj2 Hn)]. apply H.
Qed.

Lemma header_line p text rest :
  trim (c_string (text ++ [10])) = 91 :: rest -> lineno p < INT_MAX ->
  config_line p (text ++ [10]) = section_header (set_lineno (lineno p + 1) p) (91 :: rest).
Proof.
  intros Ht Hl. unfold config_line. destruct (Z.leb_spec INT_MAX (lineno p)); [lia|]. by rewrite Ht.
Qed.

Lemma interface_header_reads p :
  section p = SECTION_NONE -> line_reads (str "[Interface]") p (set_section SECTION_INTERFACE p).
Proof.
  intros Hs n Hn. rewrite (header_line _ _ (tail (str "[Interface]"))); [|by vm_compute|exact (proj2 Hn)].
  unfold section_header. change (strchr_split _ 93) with (Some (str "[Interface", @nil Z)). cbv beta iota zeta.
  unfold peer_incomplete. cbn [section set_lineno]. rewrite Hs. by vm_compute strcaseeq.
Qed.

(** Decide the comparisons of literals. *)
Ltac compare_strings :=
  repeat match goal with
  | |- context [strcaseeq (str ?a) (str ?b)] =>
      let x := eval vm_compute in (strcaseeq (str a) (str b)) in change (strcaseeq (str a) (str b)) with x
  end; cbv beta iota zeta.
Ltac interface_entry Hs :=
  apply entry_reads; [apply (bool_decide_unpack _); by vm_compute|done|];
  intros n; unfold keyed; cbn [section set_lineno]; rewrite Hs; unfold interface_key; compare_strings.

Lemma name_reads v p : section p = SECTION_INTERFACE -> word v -> (length v < CONFIG_MAX_NAME)%nat ->
  line_reads (entry "Name" v) p (set_cfg (set_name v (p_cfg p)) p).
Proof.
  intros Hs Hv Hl. interface_entry Hs. rewrite (proj2 (Nat.leb_gt _ _)) by done. by rewrite strcpy_ok.
Qed.

Lemma device_reads v p : section p = SECTION_INTERFACE -> word v -> (length v < IFNAMSIZ)%nat ->
  line_reads (entry "DeviceName" v) p (set_cfg (set_tun_name v (p_cfg p)) p).
Proof.
  intros Hs Hv Hl. interface_entry Hs. rewrite (proj2 (Nat.leb_gt _ _)) by done. by rewrite strcpy_ok.
Qed.

Lemma address_reads a prefix p : section p = SECTION_INTERFACE -> is_u32 a -> 0 <= prefix <= 32 ->
  line_reads (entry "Address" (range_text a prefix)) p
    (mark_address (set_cfg (set_address (address_text a) (netmask_text prefix) (p_cfg p)) p)).
Proof.
  intros Hs Ha Hp. assert (word (range_text a prefix)) as Hw by (split; apply range_graphic; lia).
  interface_entry Hs. by rewrite parse_cidr_range.
Qed.

Lemma port_reads v p : section p = SECTION_INTERFACE -> 0 < v <= 65535 ->
  line_reads (entry "ListenPort" (dec v)) p (set_cfg (set_listen_port v (p_cfg p)) p).
Proof.
  intros Hs Hv. assert (word (dec v)) as Hw by (split; apply dec_graphic; lia).
  interface_entry Hs. rewrite strtol_dec by lia. rewrite (proj2 (Z.leb_gt _ _)), (proj2 (Z.ltb_ge _ _)) by lia.
  cbn [orb]. unfold u16. by rewrite Z.mod_small by lia.
Qed.

Lemma private_key_reads k p : section p = SECTION_INTERFACE -> is_bytes k -> length k = 32%nat ->
  length (private_key (p_cfg p)) = 32%nat ->
  line_reads (entry "PrivateKey" (sodium_bin2base64 k)) p (set_cfg (set_private_key k (p_cfg p)) p).
Proof.
  intros Hs Hb Hl Hp. assert (word (sodium_bin2base64 k)) as Hw
    by (split; [by apply encoded_nonempty|by apply bin2base64_graphic]).
  interface_entry Hs. by rewrite parse_key_encoded by (done || (cbn; congruence)).
Qed.

(** The parser after the [Interface] section. *)
Definition interface_parsed (s : setup) : parser := {|
  p_cfg := {| name := s_name s; tun_name := s_device s; tun_address := address_text (s_address s);
    tun_netmask := netmask_text (s_prefix s); listen_port := s_port s; has_private_key := true;
    private_key := s_private_key s; peer_count := 0; peers := replicate CONFIG_MAX_PEERS zero_peer |};
  section := SECTION_INTERFACE; cur := None; have_address := true; have_endpoint := false;
  have_pubkey := false; have_role := false; have_allowed := false; lineno := 0 |}.

Lemma interface_reads s : setup_ok s -> reads (interface_lines s) parser_init (interface_parsed s).
Proof.
  intros (Hn & Hnl & Hd & Hdl & Ha & Hp & Hpt & Hkl & Hkb & _).
  eapply reads_cons; [by apply interface_header_reads|].
  eapply reads_cons; [by apply name_reads|]. eapply reads_cons; [by apply device_reads|].
  eapply reads_cons; [by apply address_reads|]. eapply reads_cons; [by apply port_reads|].
  eapply reads_cons; [by apply private_key_reads|]. apply reads_nil.
Qed.

(** *** The [Peer] sections *)

(** The configuration once the peers [qs] have been read. *)
Definition with_peers (qs : list config_peer_t) (c : edgarvpn_config_t) : edgarvpn_config_t :=
  set_peers (length qs) (qs ++ replicate (CONFIG_MAX_PEERS - length qs) zero_peer) c.

(** The parser inside a section, after the peers [qs] and what [q] says. *)
Definition in_peer (c : edgarvpn_config_t) qs q endpoint pubkey role allowed : parser := {|
  p_cfg := with_peers (qs ++ [q]) c; section := SECTION_PEER; cur := Some (length qs);
  have_address := true; have_endpoint := endpoint; have_pubkey := pubkey; have_role := role;
  have_allowed := allowed; lineno := 0 |}.

Ltac peer_entry :=
  apply entry_reads; [apply (bool_decide_unpack _); by vm_compute|done|];
  intros n; change (keyed (set_lineno n (in_peer ?c ?qs ?q ?e ?k ?r ?a)))
    with (peer_key_value (set_lineno n (in_peer c qs q e k r a))); unfold peer_key_value; compare_strings.

(** The parser between two sections. *)
Definition peers_parsed (c : edgarvpn_config_t) (qs : list config_peer_t) (p : parser) : Prop :=
  p_cfg p = with_peers qs c /\ have_address p = true /\ peer_incomplete p = false.

Lemma room_for_peer qs q : (length qs < CONFIG_MAX_PEERS)%nat ->
  <[length qs := q]> (qs ++ replicate (CONFIG_MAX_PEERS - length qs) zero_peer) =
  (qs ++ [q]) ++ replicate (CONFIG_MAX_PEERS - length (qs ++ [q])) zero_peer.
Proof.
  intros H. replace (length qs) with (length qs + 0)%nat at 1 by lia. rewrite insert_app_r, length_app. cbn [length].
  replace (CONFIG_MAX_PEERS - length qs)%nat with (S (CONFIG_MAX_PEERS - (length qs + 1))) by lia.
  by rewrite <- app_assoc.
Qed.

Lemma peer_header_reads c qs p :
  peers_parsed c qs p -> (length qs < CONFIG_MAX_PEERS)%nat ->
  line_reads (str "[Peer]") p (in_peer c qs zero_peer false false false false).
Proof.
  intros (Hc & Ha & Hi) Hl n Hn.
  rewrite (header_line _ _ (tail (str "[Peer]"))); [|by vm_compute|exact (proj2 Hn)].
  unfold section_header. change (strchr_split _ 93) with (Some (str "[Peer", @nil Z)). cbv beta iota zeta.
  change (peer_incomplete (set_lineno _ _)) with (peer_incomplete p). rewrite Hi.
  change (drop 1 (str "[Peer")) with (str "Peer"). compare_strings.
  cbn [p_cfg set_lineno have_address lineno]. rewrite Hc, Ha. cbn [with_peers peer_count peers set_peers].
  rewrite (proj2 (Nat.leb_gt _ _)) by done.
  destruct (lookup_lt_is_Some_2 (qs ++ replicate (CONFIG_MAX_PEERS - length qs) zero_peer) (length qs)) as [q0 ->].
  { rewrite length_app, length_replicate. lia. }
  cbn. rewrite room_for_peer by done. unfold in_peer, with_peers, set_lineno, set_peers. cbn.
  by rewrite length_app, Nat.add_1_r.
Qed.

Lemma update_in_peer f c qs q e k r a n :
  update_cur f (set_lineno n (in_peer c qs q e k r a)) = Some (set_lineno n (in_peer c qs (f q) e k r a)).
Proof.
  unfold update_cur. cbn. rewrite <- app_assoc, lookup_app_r, Nat.sub_diag by lia. cbn.
  replace (length qs) with (length qs + 0)%nat at 1 by lia. rewrite insert_app_r. cbn.
  unfold in_peer, with_peers, set_cfg, set_lineno, set_peers. cbn. by rewrite <- app_assoc, !length_app.
Qed.

Lemma endpoint_reads c qs q h pt k r a :
  word h -> (length (endpoint_text h pt) < CONFIG_MAX_HOST)%nat -> 0 < pt <= 65535 ->
  line_reads (entry "Endpoint" (endpoint_text h pt)) (in_peer c qs q false k r a)
    (in_peer c qs (set_endpoint h pt q) true k r a).
Proof.
  intros [Hne Hg] Hl Hp. assert (word (endpoint_text h pt)) as Hw.
  { split; [by destruct h|]. apply Forall_app. split; [done|]. constructor; [unfold graphic; lia|].
    apply dec_graphic. lia. }
  peer_entry. rewrite parse_endpoint by done. cbn [or_fail mbind R_bind mret R_ret].
  by rewrite update_in_peer.
Qed.

Lemma public_key_reads c qs q v e r a :
  is_bytes v -> length v = 32%nat -> length (public_key q) = 32%nat ->
  line_reads (entry "PublicKey" (sodium_bin2base64 v)) (in_peer c qs q e false r a)
    (in_peer c qs (set_public_key v q) e true r a).
Proof.
  intros Hb Hl Hq. assert (word (sodium_bin2base64 v)) as Hw
    by (split; [by apply encoded_nonempty|by apply bin2base64_graphic]).
  peer_entry. cbn [cur in_peer set_lineno lift_R mbind R_bind mret R_ret p_cfg with_peers peers set_peers].
  rewrite <- app_assoc, lookup_app_r, Nat.sub_diag by lia. cbn [app lookup list_lookup lift_R mbind R_bind mret R_ret].
  rewrite parse_key_encoded by (done || congruence). cbn [or_fail mbind R_bind mret R_ret].
  by rewrite update_in_peer.
Qed.

Lemma role_reads c qs q v e k a :
  line_reads (entry "Role" (role_text v)) (in_peer c qs q e k false a) (in_peer c qs (set_peer_role v q) e k true a).
Proof.
  assert (word (role_text v)) as Hw by (destruct v; apply (bool_decide_unpack _); by vm_compute).
  peer_entry. destruct v; cbn [role_text]; compare_strings; by rewrite update_in_peer.
Qed.

Lemma allowed_reads c qs q x prefix e k r :
  is_u32 x -> 0 <= prefix <= 32 ->
  line_reads (entry "AllowedIPs" (range_text x prefix)) (in_peer c qs q e k r false)
    (in_peer c qs (set_allowed x prefix q) e k r true).
Proof.
  intros Ha Hp. assert (word (range_text x prefix)) as Hw by (split; apply range_graphic; lia).
  peer_entry. rewrite parse_ip_range by done. cbn [or_fail mbind R_bind mret R_ret].
  by rewrite update_in_peer.
Qed.

Lemma peer_reads c qs q p :
  peers_parsed c qs p -> peer_ok q -> (length qs < CONFIG_MAX_PEERS)%nat ->
  reads (peer_lines q) p (in_peer c qs q true true true true).
Proof.
  intros Hp (Hh & Hhl & Hpt & Hkl & Hkb & Ha & Hpre) Hl.
  eapply reads_cons; [by apply peer_header_reads|].
  eapply reads_cons; [by apply endpoint_reads|]. eapply reads_cons; [by apply public_key_reads|].
  eapply reads_cons; [by apply role_reads|]. eapply reads_cons; [by apply allowed_reads|].
  destruct q. apply reads_nil.
Qed.

Lemma peers_read c rest : forall qs p,
  peers_parsed c qs p -> Forall peer_ok rest -> (length (qs ++ rest) <= CONFIG_MAX_PEERS)%nat ->
  exists p', reads (concat (map peer_lines rest)) p p' /\ peers_parsed c (qs ++ rest) p'.
Proof.
  induction rest as [|q rest IH]; intros qs p Hp Hok Hl; cbn [map concat].
  { rewrite app_nil_r. exists p. split; [apply reads_nil|done]. }
  apply Forall_cons in Hok as [Hq Hok]. replace (qs ++ q :: rest) with ((qs ++ [q]) ++ rest) in * by (by rewrite <- app_assoc).
  destruct (IH (qs ++ [q]) (in_peer c qs q true true true true)) as (p' & Hr & Hp'); [done..|].
  exists p'. split; [|done]. eapply reads_app; [|done]. apply peer_reads; [done|done|].
  rewrite !length_app in Hl. cbn in Hl. lia.
Qed.

Lemma setup_reads s : setup_ok s -> exists p,
  reads (setup_lines s) parser_init p /\ config_finish p = Some (inr (loaded s)).
Proof.
  intros Hs. pose proof (interface_reads s Hs) as Hi. destruct Hs as (_ & _ & [Hd _] & _ & _ & _ & _ & _ & _ & Hl & Hok).
  destruct (peers_read (p_cfg (interface_parsed s)) (s_peers s) [] (interface_parsed s)) as (p & Hr & Hc & Ha & Hp); [done..|].
  exists p. split; [by eapply reads_app|].
  unfold config_finish. rewrite Hp, Ha, Hc. cbn. rewrite andb_false_r. unfold loaded. by destruct (s_device s).
Qed.

(** C33. A configuration file in the documented format is read back as the
    values it was written from: for every interface and at most eight peers
    within the documented ranges, whatever comments and blank lines stand
    between the entries, [config_load] succeeds and its configuration is that
    interface and those peers, in the order of the file, with the network mask
    of the prefix and the remaining slots zero. *)
Theorem documented_file_loads s ls :
  setup_ok s -> Forall line_ok ls -> filter (fun l => noise l = false) ls = setup_lines s -> zlen ls < INT_MAX ->
  config_load (Some (file_text ls)) = Some (inr (loaded s)).
Proof.
  intros Hs Hok Hf Hl. destruct (setup_reads s Hs) as (p & Hr & Hfin). unfold config_load.
  rewrite loop_lines by (done || lia). change parser_init with (set_lineno 0 parser_init).
  rewrite (reads_lines _ _ _ _ 0 Hr Hf) by lia. exact Hfin.
Qed.
End Text.

(** A hub with two peers, one of them behind an IPv6 literal, and the comments
    an operator leaves in the file. *)
Definition sample_setup : setup := {|
  s_name := str "hub"; s_device := str "edgar1"; s_address := htonl 168296449; s_prefix := 24;
  s_port := 51820; s_private_key := replicate 32 7;
  s_peers := [
    {| host := str "vpn.example.org"; port := 51821; public_key := replicate 32 9;
       peer_role := CRYPTO_ROLE_INITIATOR; allowed_address := htonl 168296459; allowed_prefix := 32 |};
    {| host := str "2001:db8::1"; port := 65535; public_key := replicate 32 11;
       peer_role := CRYPTO_ROLE_RESPONDER; allowed_address := 0; allowed_prefix := 0 |}] |}.

Definition sample_lines : list bytes :=
  [str "# the hub"; []] ++ take 8 (setup_lines sample_setup) ++ [str "   ; office"; str "   "] ++
  drop 8 (setup_lines sample_setup) ++ [[]].

Lemma documented_file_loads_witness :
  setup_ok sample_setup /\ config_load (Some (file_text sample_lines)) = Some (inr (loaded sample_setup)).
Proof.
  split; [apply (bool_decide_unpack _); by vm_compute|].
  apply documented_file_loads; [apply (bool_decide_unpack _); by vm_compute..|by vm_compute|by vm_compute].
Defined.
