(* ===== verification/Routing.v ===== *)
(** * Routing (src/routing.c)

    Addresses are network-order words, as [struct in_addr] holds them. *)

From S2P Require Import Prelude Crypto Libc Config ConfigFacts.

(** ** The code *)

(** [memcpy(&dest_out->s_addr, packet + 16, 4)] after the two guards; [None]
    inside is the return value -1. *)
Definition routing_parse_ipv4_dest (packet : bytes) : option (option Z) :=
  if (length packet <? 20)%nat then Some None
  else
    b0 ← packet !! 0%nat;
    if negb (Z.shiftr b0 4 =? 4) then Some None
    else
      let src := take 4 (drop 16 packet) in
      if decide (length src = 4%nat) then Some (Some (le_value src)) else None.

Definition routing_matches (addr network prefix : Z) : option bool :=
  mask_bits ← prefix_mask prefix;
  let mask := htonl mask_bits in
  Some (Z.land addr mask =? Z.land network mask).

(** [for (int i = 0; i < cfg->peer_count; i++)] from index [i] on, over the
    [n] peers left. *)
Fixpoint find_peer_from (cfg : edgarvpn_config_t) (dest : Z) (i n : nat) : option Z :=
  match n with
  | O => Some (-1)
  | S n =>
      q ← peers cfg !! i;
      m ← routing_matches dest (allowed_address q) (allowed_prefix q);
      if (m : bool) then Some (Z.of_nat i) else find_peer_from cfg dest (S i) n
  end.

Definition routing_find_peer_for_dest (cfg : edgarvpn_config_t) (dest : Z) : option Z :=
  find_peer_from cfg dest 0 (peer_count cfg).

(** ** Specification: an address is in a range when its leading bits agree. *)
Definition in_range (addr network prefix : Z) : Prop :=
  htonl addr / 2 ^ (32 - prefix) = htonl network / 2 ^ (32 - prefix).

#[global] Instance in_range_dec a n p : Decision (in_range a n p).
Proof. unfold in_range; apply _. Defined.

(** Masking with a netmask clears the host bits. *)
Lemma land_netmask x prefix :
  is_u32 x -> 0 <= prefix <= 32 ->
  Z.land x (netmask prefix) = x / 2 ^ (32 - prefix) * 2 ^ (32 - prefix).
Proof.
  intros Hx Hp. set (k := 32 - prefix). rewrite <- Z.shiftl_mul_pow2, <- Z.shiftr_div_pow2 by lia.
  rewrite netmask_shift by lia. fold k.
  apply Z.bits_inj'. intros i Hi. rewrite Z.land_spec.
  destruct (Z_lt_le_dec i k).
  - rewrite !Z.shiftl_spec_low by lia. apply andb_false_r.
  - rewrite !Z.shiftl_spec_high, Z.shiftr_spec by lia. replace (i - k + k) with i by lia.
    destruct (Z_lt_le_dec (i - k) prefix).
    + rewrite Z.ones_spec_low by lia. apply andb_true_r.
    + rewrite (testbit_above x 32) by (unfold is_u32 in Hx; lia). done.
Qed.

Lemma routing_matches_eq addr network prefix :
  is_u32 addr -> is_u32 network -> 0 <= prefix <= 32 ->
  routing_matches addr network prefix = Some (bool_decide (in_range addr network prefix)).
Proof.
  intros Ha Hn Hp. unfold routing_matches. rewrite prefix_mask_eq by lia. cbn [mbind option_bind]. f_equal.
  assert (forall x, is_u32 x -> Z.land x (htonl (netmask prefix)) =
    htonl (htonl x / 2 ^ (32 - prefix) * 2 ^ (32 - prefix))) as F.
  { intros x Hx. rewrite <- land_netmask by (apply htonl_range || lia).
    by rewrite htonl_land, htonl_htonl by done. }
  rewrite !F by done.
  assert (forall x, is_u32 x -> is_u32 (x / 2 ^ (32 - prefix) * 2 ^ (32 - prefix))) as G.
  { intros x Hx. unfold is_u32 in *. pose proof (Z.pow_pos_nonneg 2 (32 - prefix)).
    pose proof (Z.div_pos x (2 ^ (32 - prefix))). pose proof (Z.mul_div_le x (2 ^ (32 - prefix))). nia. }
  pose proof (Z.pow_pos_nonneg 2 (32 - prefix)).
  unfold in_range. destruct (Z.eqb_spec (htonl (htonl addr / 2 ^ (32 - prefix) * 2 ^ (32 - prefix)))
    (htonl (htonl network / 2 ^ (32 - prefix) * 2 ^ (32 - prefix)))) as [E|E].
  - apply htonl_inj in E; [|apply G, htonl_range..]. apply Z.mul_cancel_r in E; [|lia].
    by rewrite bool_decide_true.
  - rewrite bool_decide_false; [done|]. intros E'. by rewrite E' in E.
Qed.

(** The search returns the first peer whose range covers the destination. *)
Lemma find_peer_from_spec cfg dest n i :
  is_u32 dest -> (i + n <= length (peers cfg))%nat ->
  (forall j q, (i <= j < i + n)%nat -> peers cfg !! j = Some q -> allowed_ok q) ->
  exists r, find_peer_from cfg dest i n = Some r /\
    let covers j := exists q, peers cfg !! j = Some q /\
                      in_range dest (allowed_address q) (allowed_prefix q) in
    (r = -1 /\ (forall j, (i <= j < i + n)%nat -> ~ covers j)) \/
    (exists k, r = Z.of_nat k /\ (i <= k < i + n)%nat /\ covers k /\
       forall j, (i <= j < k)%nat -> ~ covers j).
Proof.
  intros Hd. revert i. induction n as [|n IH]; intros i Hn Hok; cbn [find_peer_from].
  { exists (-1). split; [done|]. left. split; [done|]. intros; lia. }
  destruct (lookup_lt_is_Some_2 (peers cfg) i ltac:(lia)) as [q Hq]. rewrite Hq. cbn [mbind option_bind].
  destruct (Hok i q ltac:(lia) Hq) as [Ha Hp]. rewrite routing_matches_eq by done. cbn [mbind option_bind].
  case_bool_decide as Hr.
  { exists (Z.of_nat i). split; [done|]. right. exists i. split; [done|]. split; [lia|].
    split; [by exists q|]. intros; lia. }
  destruct (IH (S i)) as (r & E & H); [lia|intros; eapply Hok; [|done]; lia|].
  exists r. split; [done|]. cbv zeta in *.
  assert (~ exists q', peers cfg !! i = Some q' /\ in_range dest (allowed_address q') (allowed_prefix q')) as Hi.
  { intros (q' & Hq' & ?). by simplify_eq. }
  destruct H as [[-> H]|(k & -> & Hk & Hc & H)].
  - left. split; [done|]. intros j Hj. destruct (decide (j = i)) as [->|]; [done|]. apply H. lia.
  - right. exists k. split; [done|]. split; [lia|]. split; [done|].
    intros j Hj. destruct (decide (j = i)) as [->|]; [done|]. apply H. lia.
Qed.

Lemma routing_find_peer_spec c dest :
  config_wf c -> is_u32 dest ->
  exists r, routing_find_peer_for_dest c dest = Some r /\
    let covers j := exists q, peers c !! j = Some q /\
                      in_range dest (allowed_address q) (allowed_prefix q) in
    (r = -1 /\ (forall j, (j < peer_count c)%nat -> ~ covers j)) \/
    (exists k, r = Z.of_nat k /\ (k < peer_count c)%nat /\ covers k /\
       forall j, (j < k)%nat -> ~ covers j).
Proof.
  intros W Hd. pose proof (wf_fields _ W) as F.
  destruct (find_peer_from_spec c dest (peer_count c) 0 Hd) as (r & E & H).
  - rewrite (fields_peers _ F). apply (fields_count _ F).
  - intros j q Hj Hq. eapply peer_ok_allowed, (wf_peers _ W); [|done]. lia.
  - exists r. split; [done|]. cbv zeta in *. destruct H as [[-> H]|(k & -> & Hk & Hc & H)].
    + left. split; [done|]. intros j Hj. apply H. lia.
    + right. exists k. split; [done|]. split; [lia|]. split; [done|]. intros j Hj. apply H. lia.
Qed.

(** The leading bits, one by one. *)
Lemma in_range_bits addr network prefix :
  is_u32 addr -> is_u32 network -> 0 <= prefix <= 32 ->
  in_range addr network prefix <->
  forall i, 32 - prefix <= i < 32 -> Z.testbit (htonl addr) i = Z.testbit (htonl network) i.
Proof.
  intros Ha Hn Hp. unfold in_range. rewrite <- !Z.shiftr_div_pow2 by lia. split.
  - intros E i Hi. apply (f_equal (fun x => Z.testbit x (i - (32 - prefix)))) in E.
    rewrite !Z.shiftr_spec in E by lia. by replace (i - (32 - prefix) + (32 - prefix)) with i in E by lia.
  - intros H. apply Z.bits_inj'. intros i Hi. rewrite !Z.shiftr_spec by lia.
    destruct (Z_lt_le_dec (i + (32 - prefix)) 32); [apply H; lia|].
    pose proof (htonl_range addr). pose proof (htonl_range network). unfold is_u32 in *.
    by rewrite !(testbit_above _ 32) by lia.
Qed.
