(* ===== verification/ConfigSpec.v ===== *)
(** * What src/config.c and src/routing.c guarantee

    Every file is parsed or rejected without undefined behaviour, what is
    accepted is complete and in range, and the routing table built from it
    sends a destination to the first range that contains it. *)

From Stdlib Require Import String.
From S2P Require Import Prelude Crypto Toy Libc Config ConfigFacts ConfigGiven Routing.
Open Scope list_scope.

(** ** Sample files *)
Definition sample_config : edgarvpn_config_t :=
  Eval vm_compute in
  match config_load (Some sample_file) with Some (inr c) => c | _ => config_init end.

(** A comment of 511 bytes followed, on the same line, by a key. *)
Definition long_comment_file : bytes :=
  lines ["[Interface]"; "Address = 10.8.0.12/24"]%string ++
  replicate 511 35 ++ str "ListenPort = 7" ++ [10].

Section Claims.
  Context `{SO : Sodium} {SL : SodiumLaws}.

(** C32. [config_load] returns for every file: whatever its bytes (NUL bytes
    and over-long lines included), a file of less than 2 GiB is either parsed
    or rejected with one of the messages, within one iteration per byte of the
    file, and no [strcpy] overflows its array, no shift is undefined and no
    peer is accessed outside the array of 8 or through a null [cur]. *)
Theorem config_load_returns f :
  zlen f < INT_MAX -> exists r, config_load (Some f) = Some r.
Proof.
  apply config_load_total.
Qed.

(** C31. A configuration that [config_load] accepts is complete, in range and
    what the file says.  In range: at most 8 peers, each with a non-empty host,
    a port in 1..65535, a 32-byte public key and an AllowedIPs prefix of at
    most 32; a non-empty device name that fits an interface name, an address
    that parses with the netmask of some prefix, a listen port in 1..65535.
    Complete: there is a peer for each [Peer] section, in their order, and for
    each of Endpoint, PublicKey, Role and AllowedIPs that section has an entry,
    the last of which says what the peer holds; [Interface] has an Address,
    and a PrivateKey whenever there is a peer, which say what the
    configuration holds, while Name, DeviceName and ListenPort are what is
    given or the defaults.  A file in which a [Peer] section lacks one of its
    four keys, or [Interface] the Address, or the PrivateKey when there is a
    peer, is rejected. *)
Theorem config_load_well_formed f :
  zlen f < INT_MAX ->
  let g := text_of f in
  (forall c, config_load (Some f) = Some (inr c) ->
     config_wf c /\ peer_count c = headers g /\
     (forall i q k, (i < peer_count c)%nat -> peers c !! i = Some q ->
        exists v, given g (InPeer i) (key_name k) = Some v /\ vouches k v q) /\
     address_given g c /\ ((0 < peer_count c)%nat -> private_key_given g c) /\
     exists device, optional_fields g (set_tun_name device c) /\
       tun_name c = match device with [] => CONFIG_DEFAULT_DEVICE | _ => device end) /\
  ((exists i k, (i < headers g)%nat /\ given g (InPeer i) (key_name k) = None) \/
   given g InInterface (str "Address") = None \/
   ((0 < headers g)%nat /\ given g InInterface (str "PrivateKey") = None) ->
   exists x, config_load (Some f) = Some (inl x)).
Proof.
  intros Hf g.
  assert (forall c, config_load (Some f) = Some (inr c) ->
    config_wf c /\ peer_count c = headers g /\
    (forall i q k, (i < peer_count c)%nat -> peers c !! i = Some q ->
       exists v, given g (InPeer i) (key_name k) = Some v /\ vouches k v q) /\
    address_given g c /\ ((0 < peer_count c)%nat -> private_key_given g c) /\
    exists device, optional_fields g (set_tun_name device c) /\
      tun_name c = match device with [] => CONFIG_DEFAULT_DEVICE | _ => device end) as Hacc.
  { intros c Hl. pose proof (config_load_wf f c Hf Hl) as Hwf.
    destruct (config_load_tells f c Hf Hl) as (Hn & Hp & Ha & Hk & Ho).
    do 4 (split; [done|]). split; [|done]. intros Hlt. by apply Hk, (wf_has_key _ Hwf). }
  split; [done|]. intros Hmiss. destruct (config_load_total f Hf) as [[x|c] Hl]; [by exists x|exfalso].
  destruct (Hacc c Hl) as (Hwf & Hn & Hp & (a & Ha & _) & Hk & _).
  destruct Hmiss as [(i & k & Hi & Hg)|[Hg|[Hlt Hg]]].
  - rewrite <- Hn in Hi. pose proof (wf_fields _ Hwf) as Hfl.
    destruct (lookup_lt_is_Some_2 (peers c) i) as [q Hq].
    { rewrite (fields_peers _ Hfl). pose proof (fields_count _ Hfl). lia. }
    destruct (Hp i q k Hi Hq) as (v & Hv & _). congruence.
  - congruence.
  - destruct (Hk ltac:(lia)) as (v & Hv & _). congruence.
Qed.

(** [parse_cidr]: when it accepts "a.b.c.d/prefix", the address is the
    text before the slash and parses, and the netmask it prints is dotted
    decimal for the word whose leading [prefix] bits are set, in network byte
    order: reading it back gives that word. *)
Theorem parse_cidr_netmask cidr addr mask :
  parse_cidr cidr INET_ADDRSTRLEN INET_ADDRSTRLEN = Some (Some (addr, mask)) ->
  exists prefix rest,
    cidr = addr ++ str "/" ++ rest /\ strtol_all rest = Some prefix /\ 0 <= prefix <= 32 /\
    is_Some (inet_pton addr) /\
    exists m, inet_pton mask = Some m /\
      forall i, 0 <= i < 32 -> Z.testbit (htonl m) i = bool_decide (32 - prefix <= i).
Proof.
  intros H. apply parse_cidr_inv in H as (_ & Ha & prefix & rest & Hp & -> & Hr & ->).
  exists prefix, rest. split; [done|]. split; [done|]. split; [done|]. split; [done|].
  pose proof (netmask_u32 prefix Hp) as Hu.
  exists (htonl (netmask prefix)). split; [by apply inet_pton_ntop, htonl_range|].
  intros i Hi. rewrite htonl_htonl by done. by apply netmask_testbit.
Qed.

(** C35. Matching a CIDR range, for every prefix the parser accepts: two
    addresses match exactly when their leading [prefix] bits, read in network
    order, agree; prefix 0 matches everything, and the shift is never by 32. *)
Theorem routing_matches_correct addr network prefix :
  is_u32 addr -> is_u32 network -> 0 <= prefix <= 32 ->
  exists b, routing_matches addr network prefix = Some b /\
    (b = true <-> forall i, 32 - prefix <= i < 32 ->
       Z.testbit (htonl addr) i = Z.testbit (htonl network) i).
Proof.
  intros Ha Hn Hp. exists (bool_decide (in_range addr network prefix)).
  split; [by apply routing_matches_eq|]. rewrite bool_decide_eq_true.
  by apply in_range_bits.
Qed.

(** C34. Routing over a configuration that was loaded: [config_load] accepts
    the file, then for every destination the search returns the index of the
    first peer whose AllowedIPs contains it, or -1 when none does, without
    leaving the array. *)
Theorem routing_first_match f c dest :
  zlen f < INT_MAX -> config_load (Some f) = Some (inr c) -> is_u32 dest ->
  exists r, routing_find_peer_for_dest c dest = Some r /\
    let covers j := exists q, peers c !! j = Some q /\
                      in_range dest (allowed_address q) (allowed_prefix q) in
    (r = -1 /\ (forall j, (j < peer_count c)%nat -> ~ covers j)) \/
    (exists k, r = Z.of_nat k /\ (k < peer_count c)%nat /\ covers k /\
       forall j, (j < k)%nat -> ~ covers j).
Proof.
  intros Hf Hl Hd.
  apply routing_find_peer_spec; [by eapply config_load_wf|done].
Qed.

(** The destination of a packet: a buffer shorter than 20 bytes or whose
    first nibble is not 4 is refused, and any other yields bytes 16 to 19 as
    they stand in the header; no byte outside the packet is read. *)
Theorem routing_parse_ipv4_dest_spec packet :
  routing_parse_ipv4_dest packet =
    Some (if decide (20 <= zlen packet /\ nth 0 packet 0 / 16 = 4)
          then Some (le_value (take 4 (drop 16 packet))) else None).
Proof.
  unfold routing_parse_ipv4_dest.
  destruct (Nat.ltb_spec (length packet) 20). { rewrite decide_False; [done|lia]. }
  destruct packet as [|b0 packet]; [cbn in *; lia|].
  cbn [lookup list_lookup mbind option_bind nth].
  rewrite Z.shiftr_div_pow2 by lia. change (2 ^ 4) with 16.
  destruct (Z.eqb_spec (b0 / 16) 4); cbn [negb].
  - rewrite (decide_True (P := _ /\ _)) by lia. rewrite decide_True; [done|].
    rewrite length_take, length_drop. lia.
  - rewrite decide_False; [done|]. tauto.
Qed.

(** C40. A line longer than the buffer is read in pieces, and each piece is
    parsed as a line of its own.  So after 511 bytes of a line that starts with
    '#' or ';' what remains of it is not a comment: wherever the line stands,
    and whatever follows, the file is read exactly as one in which the comment
    ends there and the remainder is a line of its own. *)
Theorem long_comment_is_parsed before x comment rest :
  whole_lines before -> (x = 35 \/ x = 59) ->
  length (x :: comment) = (CONFIG_MAX_LINE - 1)%nat -> Forall (fun b => b <> 10) comment ->
  config_load (Some (before ++ (x :: comment) ++ rest)) = config_load (Some (before ++ [35; 10] ++ rest)).
Proof.
  intros Hb Hx Hl Hc. unfold config_load. rewrite !config_loop_app by done.
  destruct (config_loop _ before _) as [[e|p]|]; try done. cbn [mbind R_bind].
  rewrite config_loop_full, config_loop_step; [|done|constructor; [by destruct Hx as [-> | ->]|done]].
  change (fgets CONFIG_MAX_LINE ([35; 10] ++ rest)) with (Some ([35; 10], rest)). cbv beta iota.
  rewrite !comment_line by auto. destruct (INT_MAX <=? lineno p); [done|]. cbn [mbind R_bind mret R_ret].
  by rewrite (config_loop_fuel (length ([35; 10] ++ rest)) (S (length rest)) rest) by (cbn [app length]; lia).
Qed.
End Claims.

(** ** Witnesses *)
Lemma config_load_returns_witness :
  zlen sample_file < INT_MAX /\ exists r, config_load (Some sample_file) = Some r.
Proof. split; [by vm_compute|]. apply config_load_returns. by vm_compute. Defined.

(** The sample is accepted and its second peer has what its section says; it
    is rejected once the Role of its first peer is left out. *)
Definition roleless_file : bytes := lines [
  "[Interface]";
  "Address = 10.8.0.12/24";
  "PrivateKey = WH2RvdCDP2OfJ0K2WiFchwwi7XndB4uky9cYmQCAxEc=";
  "[Peer]";
  "Endpoint = peer1:51820";
  "PublicKey = WH2RvdCDP2OfJ0K2WiFchwwi7XndB4uky9cYmQCAxEc=";
  "AllowedIPs = 10.8.0.11/32"]%string.

Lemma config_load_well_formed_witness :
  (config_load (Some sample_file) = Some (inr sample_config) /\ config_wf sample_config /\
   exists q, peers sample_config !! 1%nat = Some q /\ host q = str "peer3" /\ port q = 51821 /\
     exists v, given (text_of sample_file) (InPeer 1) (str "Endpoint") = Some v /\ vouches KEndpoint v q) /\
  exists x, config_load (Some roleless_file) = Some (inl x).
Proof.
  assert (config_load (Some sample_file) = Some (inr sample_config)) as El by (by vm_compute).
  split; [split; [exact El|]|].
  - destruct (config_load_well_formed sample_file ltac:(by vm_compute)) as [H _].
    destruct (H _ El) as (Hwf & _ & Hp & _). split; [exact Hwf|].
    eexists. split; [reflexivity|]. split; [by vm_compute|]. split; [by vm_compute|].
    apply (Hp 1%nat _ KEndpoint); [apply Nat.ltb_lt; by vm_compute|reflexivity].
  - apply (config_load_well_formed roleless_file ltac:(by vm_compute)).
    left. exists 0%nat, KRole. split; [apply Nat.ltb_lt; by vm_compute|by vm_compute].
Defined.

Lemma parse_cidr_netmask_witness :
  parse_cidr (str "10.8.0.12/20") INET_ADDRSTRLEN INET_ADDRSTRLEN =
    Some (Some (str "10.8.0.12", str "255.255.240.0")) /\
  exists prefix rest,
    str "10.8.0.12/20" = str "10.8.0.12" ++ str "/" ++ rest /\ strtol_all rest = Some prefix /\
    0 <= prefix <= 32 /\ is_Some (inet_pton (str "10.8.0.12")) /\
    exists m, inet_pton (str "255.255.240.0") = Some m /\
      forall i, 0 <= i < 32 -> Z.testbit (htonl m) i = bool_decide (32 - prefix <= i).
Proof. split; [by vm_compute|]. apply parse_cidr_netmask. by vm_compute. Defined.

Lemma routing_matches_correct_witness :
  exists b, routing_matches (htonl 168296460) (htonl 168296448) 24 = Some b /\
    (b = true <-> forall i, 32 - 24 <= i < 32 ->
       Z.testbit (htonl (htonl 168296460)) i = Z.testbit (htonl (htonl 168296448)) i).
Proof. apply routing_matches_correct; [apply htonl_range..|lia]. Defined.

(** 10.8.0.11 is in both ranges of the sample and goes to the first. *)
Lemma routing_first_match_witness :
  routing_find_peer_for_dest sample_config (htonl 168296459) = Some 0 /\
  routing_find_peer_for_dest sample_config (htonl 168296460) = Some 1 /\
  exists r, routing_find_peer_for_dest sample_config (htonl 168296459) = Some r /\
    let covers j := exists q, peers sample_config !! j = Some q /\
                      in_range (htonl 168296459) (allowed_address q) (allowed_prefix q) in
    (r = -1 /\ (forall j, (j < peer_count sample_config)%nat -> ~ covers j)) \/
    (exists k, r = Z.of_nat k /\ (k < peer_count sample_config)%nat /\ covers k /\
       forall j, (j < k)%nat -> ~ covers j).
Proof.
  split; [by vm_compute|]. split; [by vm_compute|].
  apply (routing_first_match sample_file); [by vm_compute..|apply htonl_range].
Defined.

(** The end of a comment sets the listen port. *)
Lemma long_comment_is_parsed_witness :
  config_load (Some long_comment_file) =
    config_load (Some (lines ["[Interface]"; "Address = 10.8.0.12/24"; "#"; "ListenPort = 7"]%string)) /\
  exists c, config_load (Some long_comment_file) = Some (inr c) /\ listen_port c = 7.
Proof.
  split; [|eexists; split; by vm_compute].
  exact (long_comment_is_parsed (lines ["[Interface]"; "Address = 10.8.0.12/24"]%string) 35 (replicate 510 35)
    (str "ListenPort = 7" ++ [10]) ltac:(apply (bool_decide_unpack _); by vm_compute) ltac:(by left)
    ltac:(by vm_compute) ltac:(apply (bool_decide_unpack _); by vm_compute)).
Defined.
