(* ===== verification/Log.v ===== *)
(** * Logging (src/log.c)

    The three static variables are [w_log] of the world; a line printed is an
    [EvPrint] of its trace.  A [log_*] call is given the text its format
    produces, before [vsnprintf] cuts it. *)

From Stdlib Require Import String.
From S2P Require Import Prelude World Libc.
Open Scope list_scope.

(** ** gmtime_r and strftime *)

(** Days since 1970-01-01 to year, month and day in the proleptic Gregorian
    calendar, by 400-year eras that start on 1 March. *)
Definition civil (days : Z) : Z * Z * Z :=
  let z := days + 719468 in
  let era := z / 146097 in
  let doe := z mod 146097 in
  let yoe := (doe - doe / 1460 + doe / 36524 - doe / 146096) / 365 in
  let doy := doe - (365 * yoe + yoe / 4 - yoe / 100) in
  let mp := (5 * doy + 2) / 153 in
  let d := doy - (153 * mp + 2) / 5 + 1 in
  let m := if mp <? 10 then mp + 3 else mp - 9 in
  (yoe + era * 400 + (if m <=? 2 then 1 else 0), m, d).

(** [%02d] of a number below 100. *)
Definition two (n : Z) : bytes := [48 + n / 10; 48 + n mod 10].

Definition sdec (n : Z) : bytes := if n <? 0 then 45 :: dec (- n) else dec n.

(** [strftime(buf, len, "%Y-%m-%dT%H:%M:%SZ", gmtime(t))].  Undefined when the
    year does not fit [tm_year] ([gmtime_r] fails and leaves the struct
    unset) or the text does not fit the buffer. *)
Definition utc_text (t : Z) (len : nat) : option bytes :=
  let '(y, m, d) := civil (t / 86400) in
  let s := t mod 86400 in
  if (y - 1900 <? - 2 ^ 31) || (2 ^ 31 <=? y - 1900) then None
  else
    let text := sdec y ++ str "-" ++ two m ++ str "-" ++ two d ++ str "T" ++
                two (s / 3600) ++ str ":" ++ two (s / 60 mod 60) ++ str ":" ++ two (s mod 60) ++ str "Z" in
    if decide (length text < len)%nat then Some text else None.

(** ** The code *)
Definition level_number (l : log_level_t) : Z :=
  match l with
  | LOG_LEVEL_DEBUG => 0 | LOG_LEVEL_INFO => 1 | LOG_LEVEL_WARN => 2 | LOG_LEVEL_ERROR => 3
  end.

Definition level_name (l : log_level_t) : bytes :=
  match l with
  | LOG_LEVEL_DEBUG => str "DEBUG"
  | LOG_LEVEL_INFO => str "INFO"
  | LOG_LEVEL_WARN => str "WARN"
  | LOG_LEVEL_ERROR => str "ERROR"
  end.

(** The effect of LOG_LEVEL and LOG_FORMAT on the two settings. *)
Definition level_of_env (v : option bytes) : log_level_t :=
  match v with
  | None => LOG_LEVEL_INFO
  | Some v =>
      if strcaseeq v (str "debug") then LOG_LEVEL_DEBUG
      else if strcaseeq v (str "info") then LOG_LEVEL_INFO
      else if strcaseeq v (str "warn") then LOG_LEVEL_WARN
      else if strcaseeq v (str "error") then LOG_LEVEL_ERROR
      else LOG_LEVEL_INFO
  end.

Definition format_of_env (v : option bytes) : log_format_t :=
  match v with
  | Some v => if strcaseeq v (str "json") then LOG_FORMAT_JSON else LOG_FORMAT_TEXT
  | None => LOG_FORMAT_TEXT
  end.

Definition hex_digit (n : Z) : Z := if n <? 10 then 48 + n else 87 + n.

(** One character of [write_json_escaped]; [%04x] of a byte. *)
Definition json_char (c : Z) : bytes :=
  if c =? 34 then [92; 34]
  else if c =? 92 then [92; 92]
  else if c =? 10 then [92; 110]
  else if c =? 13 then [92; 114]
  else if c =? 9 then [92; 116]
  else if c <? 32 then [92; 117; 48; 48; hex_digit (c / 16); hex_digit (c mod 16)]
  else [c].

Definition write_json_escaped (text : bytes) : bytes := concat (map json_char text).

(** The double quote, which a string literal cannot hold. *)
Definition q : bytes := [34].

Definition json_line (timestamp level component message : bytes) : bytes :=
  str "{" ++ q ++ str "time" ++ q ++ str ":" ++ q ++ timestamp ++ q ++
  str "," ++ q ++ str "level" ++ q ++ str ":" ++ q ++ level ++ q ++
  str "," ++ q ++ str "component" ++ q ++ str ":" ++ q ++ write_json_escaped component ++ q ++
  str "," ++ q ++ str "message" ++ q ++ str ":" ++ q ++ write_json_escaped message ++ q ++
  str "}" ++ [10].

(** [%-5s]. *)
Definition pad5 (s : bytes) : bytes := s ++ replicate (5 - length s) 32.

Definition text_line (timestamp level component message : bytes) : bytes :=
  timestamp ++ str " " ++ pad5 level ++ str " [" ++ component ++ str "] " ++ message ++ [10].

Definition stream_of (level : log_level_t) : stream :=
  if level_number LOG_LEVEL_WARN <=? level_number level then Stderr else Stdout.

Definition line_of (format : log_format_t) (timestamp : bytes) (level : log_level_t)
    (component message : bytes) : bytes :=
  match format with
  | LOG_FORMAT_JSON => json_line timestamp (level_name level) component message
  | LOG_FORMAT_TEXT => text_line timestamp (level_name level) component message
  end.

(** [char message[1024]] *)
Definition LOG_MESSAGE_SIZE : nat := 1024.

Section Code.
  Context `{EV : Env}.

Definition log_init : M unit :=
  level_env ← ask (fun n => env_getenv n (str "LOG_LEVEL"));
  format_env ← ask (fun n => env_getenv n (str "LOG_FORMAT"));
  set_log {| g_level := level_of_env level_env; g_format := format_of_env format_env;
             g_initialized := true |}.

Definition ensure_initialized : M unit :=
  l ← get_log;
  if g_initialized l then mret tt else log_init.

Definition log_level_enabled (level : log_level_t) : M bool :=
  _ ← ensure_initialized;
  l ← get_log;
  mret (level_number (g_level l) <=? level_number level).

Definition format_timestamp (len : nat) : M bytes :=
  tv_sec ← ask env_realtime;
  lift (utc_text tv_sec len).

Definition emit (level : log_level_t) (component message : bytes) : M unit :=
  timestamp ← format_timestamp 32;
  l ← get_log;
  emit_event (EvPrint (stream_of level) (line_of (g_format l) timestamp level component message)).

(** [vsnprintf] keeps at most 1023 bytes of the text. *)
Definition log_at (level : log_level_t) (component text : bytes) : M unit :=
  enabled ← log_level_enabled level;
  if (enabled : bool) then emit level component (take (LOG_MESSAGE_SIZE - 1) text) else mret tt.

Definition log_debug := log_at LOG_LEVEL_DEBUG.
Definition log_info := log_at LOG_LEVEL_INFO.
Definition log_warn := log_at LOG_LEVEL_WARN.
Definition log_error := log_at LOG_LEVEL_ERROR.
End Code.

(** A sane wall clock: not before 1970, and before March of the year 9600. *)
Class ClockLaws `{Env} := {
  env_realtime_range n : 0 <= env_realtime n < 240784704000
}.

(** ** Facts *)

(** [lia] with division and remainder by constants. *)
Ltac dlia := Z.to_euclidean_division_equations; lia.

Lemma civil_range days :
  0 <= days < 2786860 ->
  let '(y, m, d) := civil days in 1600 <= y <= 9600 /\ 1 <= m <= 12 /\ 1 <= d <= 31.
Proof.
  intros H. unfold civil. cbv zeta.
  set (z := days + 719468). set (doe := z mod 146097). set (era := z / 146097).
  assert (z = 146097 * era + doe /\ 0 <= doe < 146097) as [Hz Hdoe].
  { unfold era, doe. pose proof (Z.div_mod z 146097). pose proof (Z.mod_pos_bound z 146097). lia. }
  assert (4 <= era <= 23) by lia. clearbody z doe era.
  set (yoe := (doe - doe / 1460 + doe / 36524 - doe / 146096) / 365).
  assert (0 <= yoe <= 399 /\ 0 <= doe - (365 * yoe + yoe / 4 - yoe / 100) <= 365) as [Hy Hd].
  { unfold yoe. Z.to_euclidean_division_equations. nia. }
  set (doy := doe - (365 * yoe + yoe / 4 - yoe / 100)) in *. clearbody doy.
  set (mp := (5 * doy + 2) / 153).
  assert (0 <= mp <= 11 /\ 0 <= doy - (153 * mp + 2) / 5 <= 30) as [Hm Hdd].
  { unfold mp. dlia. }
  clearbody mp. split; [case_match; lia|]. split; [|lia]. destruct (Z.ltb_spec mp 10); lia.
Qed.

(** A year of four digits. *)
Lemma dec_four n : 1000 <= n < 10000 ->
  dec n = [48 + n / 1000; 48 + n / 100 mod 10; 48 + n / 10 mod 10; 48 + n mod 10].
Proof.
  intros H. unfold dec.
  do 3 (rewrite dec_digits_S; case_match; reflect_bools; [dlia|]).
  rewrite dec_digits_S. case_match; reflect_bools; [|dlia].
  rewrite !Z.div_div by lia. change (10 * 10 * 10) with 1000. change (10 * 10) with 100.
  by rewrite (Z.mod_small (n / 1000)) by dlia.
Qed.

(** The timestamp fits its buffer: 20 printable characters, without a
    double quote or a backslash. *)
Definition plain_char (c : Z) : bool := (32 <=? c) && negb (c =? 34) && negb (c =? 92) && (c <? 127).

Lemma utc_text_ok t :
  0 <= t < 240784704000 ->
  exists ts, utc_text t 32 = Some ts /\ length ts = 20%nat /\ forallb plain_char ts = true.
Proof.
  intros H. unfold utc_text. pose proof (civil_range (t / 86400) ltac:(dlia)) as C.
  destruct (civil (t / 86400)) as [[y m] d]. destruct C as (Hy & Hm & Hd).
  pose proof (Z.mod_pos_bound t 86400 ltac:(lia)).
  destruct (Z.ltb_spec (y - 1900) (- 2 ^ 31)); [lia|]. destruct (Z.leb_spec (2 ^ 31) (y - 1900)); [lia|].
  cbn [orb]. unfold sdec. destruct (Z.ltb_spec y 0); [lia|]. rewrite dec_four by lia.
  rewrite decide_True by (cbn; lia). eexists. split; [reflexivity|]. split; [reflexivity|].
  unfold two. cbn -[Z.add Z.div Z.modulo]. rewrite !andb_true_iff.
  repeat match goal with |- _ /\ _ => split end; try done.
  all: unfold plain_char; rewrite !andb_true_iff, !negb_true_iff, !Z.eqb_neq, Z.leb_le, Z.ltb_lt; dlia.
Qed.

#[global] Arguments utc_text : simpl never.
#[global] Arguments line_of : simpl never.
#[global] Arguments stream_of : simpl never.

Section Effects.
  Context `{EV : Env} {CL : ClockLaws}.

(** The world once [ensure_initialized] has run. *)
Definition log_ready (w : world) : world :=
  if g_initialized (w_log w) then w
  else {| w_calls := S (S (w_calls w)); w_errno := w_errno w;
          w_log := {| g_level := level_of_env (env_getenv (w_calls w) (str "LOG_LEVEL"));
                      g_format := format_of_env (env_getenv (S (w_calls w)) (str "LOG_FORMAT"));
                      g_initialized := true |};
          w_trace := w_trace w |}.

#[local] Arguments log_ready : simpl never.

Lemma ensure_initialized_eq w : ensure_initialized w = Some (tt, log_ready w).
Proof. unfold ensure_initialized, log_ready. rewrite M_bind_eq. cbn [get_log mbind option_bind]. by destruct (g_initialized _). Qed.

Definition enabled (w : world) (level : log_level_t) : bool :=
  level_number (g_level (w_log (log_ready w))) <=? level_number level.

(** Only lines are printed, and [errno] is kept. *)
Definition quiet (w w' : world) : Prop :=
  w_errno w' = w_errno w /\
  exists lines, w_trace w' = w_trace w ++ map (fun l => EvPrint l.1 l.2) lines.

Lemma log_at_eq level component text w :
  exists timestamp w',
    log_at level component text w = Some (tt, w') /\
    length timestamp = 20%nat /\ forallb plain_char timestamp = true /\
    w_errno w' = w_errno w /\ w_log w' = w_log (log_ready w) /\
    w_trace w' = w_trace w ++
      if enabled w level
      then [EvPrint (stream_of level)
              (line_of (g_format (w_log (log_ready w))) timestamp level component
                 (take (LOG_MESSAGE_SIZE - 1) text))]
      else [].
Proof.
  assert (w_trace (log_ready w) = w_trace w /\ w_errno (log_ready w) = w_errno w) as [Et Ee].
  { unfold log_ready. by case_match. }
  destruct (utc_text_ok (env_realtime (w_calls (log_ready w)))) as (ts & Ets & Hl & Hp).
  { apply env_realtime_range. }
  exists ts. unfold log_at, log_level_enabled, enabled.
  unfold emit, format_timestamp. run_M. rewrite ensure_initialized_eq.
  destruct (_ <=? _).
  - rewrite Ets. eexists. split; [reflexivity|]. cbn. by rewrite Et, Ee.
  - eexists. split; [reflexivity|]. by rewrite Et, Ee, app_nil_r.
Qed.

Lemma log_at_quiet level component text w :
  exists w', log_at level component text w = Some (tt, w') /\ quiet w w'.
Proof.
  destruct (log_at_eq level component text w) as (ts & w' & E & _ & _ & Ee & _ & Et).
  exists w'. split; [done|]. split; [done|]. destruct (enabled w level).
  - by exists [(stream_of level,
      line_of (g_format (w_log (log_ready w))) ts level component (take (LOG_MESSAGE_SIZE - 1) text))].
  - by exists [].
Qed.

Lemma quiet_refl w : quiet w w.
Proof. split; [done|]. exists []. by rewrite app_nil_r. Qed.

Lemma quiet_trans w1 w2 w3 : quiet w1 w2 -> quiet w2 w3 -> quiet w1 w3.
Proof.
  intros [E1 [l1 H1]] [E2 [l2 H2]]. split; [congruence|]. exists (l1 ++ l2).
  by rewrite H2, H1, map_app, app_assoc.
Qed.
End Effects.

(** ** JSON strings *)
Definition hex_value (c : Z) : option Z :=
  if (48 <=? c) && (c <=? 57) then Some (c - 48)
  else if (97 <=? c) && (c <=? 102) then Some (c - 87)
  else None.

(** The contents of a JSON string (RFC 8259), for the escapes in use: a raw
    double quote or control character is an error. *)
Fixpoint json_unescape (s : bytes) : option bytes :=
  match s with
  | [] => Some []
  | c :: r =>
      if (c <? 32) || (c =? 34) then None
      else if negb (c =? 92) then t ← json_unescape r; Some (c :: t)
      else match r with
      | e :: r =>
          if (e =? 34) || (e =? 92) then t ← json_unescape r; Some (e :: t)
          else if e =? 110 then t ← json_unescape r; Some (10 :: t)
          else if e =? 114 then t ← json_unescape r; Some (13 :: t)
          else if e =? 116 then t ← json_unescape r; Some (9 :: t)
          else if negb (e =? 117) then None
          else match r with
          | a :: b :: x :: y :: r =>
              if negb ((a =? 48) && (b =? 48)) then None else
              h ← hex_value x;
              l ← hex_value y;
              t ← json_unescape r;
              Some (16 * h + l :: t)
          | _ => None
          end
      | [] => None
      end
  end.

Lemma hex_value_digit n : 0 <= n < 16 -> hex_value (hex_digit n) = Some n.
Proof.
  intros H. unfold hex_value, hex_digit.
  destruct (Z.ltb_spec n 10).
  - destruct (Z.leb_spec 48 (48 + n)); [|lia]. destruct (Z.leb_spec (48 + n) 57); [|lia]. cbn. f_equal. lia.
  - destruct (Z.leb_spec (87 + n) 57); [lia|]. rewrite andb_false_r.
    destruct (Z.leb_spec 97 (87 + n)); [|lia]. destruct (Z.leb_spec (87 + n) 102); [|lia]. cbn. f_equal. lia.
Qed.

Lemma json_char_unescape c s :
  is_byte c -> json_unescape (json_char c ++ s) = t ← json_unescape s; Some (c :: t).
Proof.
  intros Hc. unfold is_byte in Hc. unfold json_char.
  destruct (Z.eqb_spec c 34) as [->|]; [done|]. destruct (Z.eqb_spec c 92) as [->|]; [done|].
  destruct (Z.eqb_spec c 10) as [->|]; [done|]. destruct (Z.eqb_spec c 13) as [->|]; [done|].
  destruct (Z.eqb_spec c 9) as [->|]; [done|].
  destruct (Z.ltb_spec c 32).
  - cbn -[Z.div Z.modulo hex_digit hex_value]. rewrite !hex_value_digit by dlia.
    cbn -[Z.div Z.modulo Z.mul]. by replace (16 * (c / 16) + c mod 16) with c by dlia.
  - cbn [app json_unescape]. destruct (Z.ltb_spec c 32); [lia|]. destruct (Z.eqb_spec c 34); [done|].
    by destruct (Z.eqb_spec c 92).
Qed.

Lemma json_escaped_unescape text :
  is_bytes text -> json_unescape (write_json_escaped text) = Some text.
Proof.
  unfold write_json_escaped. induction 1 as [|c text Hc Ht IH]; [done|]. cbn [map concat].
  by rewrite json_char_unescape, IH.
Qed.

(** Nothing that escapes is a control character. *)
Lemma json_escaped_printable text :
  is_bytes text -> Forall (fun c => 32 <= c) (write_json_escaped text).
Proof.
  intros Ht. apply Forall_concat, Forall_map. eapply Forall_impl; [exact Ht|]. unfold is_byte. intros c Hc.
  unfold json_char, hex_digit. repeat case_match; reflect_bools; repeat constructor; try lia; dlia.
Qed.
