(* ===== verification/Net.v ===== *)
(** * The UDP socket and the TUN device (src/udp.c, src/tun.c)

    Descriptors are the numbers the kernel hands out; every one obtained or
    closed is an event of the trace, as are the requests made on them. *)

From Stdlib Require Import String.
From S2P Require Import Prelude World Libc Config.
Open Scope list_scope.

Definition AF_INET : Z := 2.
Definition INADDR_ANY : Z := 0.
Definition IFF_TUN : Z := 1.
Definition IFF_NO_PI : Z := 4096.
Definition IFF_UP : Z := 1.
Definition IFF_RUNNING : Z := 64.
Definition EINTR : Z := 4.
Definition EINVAL : Z := 22.

Record udp_socket_t := { u_fd : Z }.
Record tun_device_t := { t_fd : Z; t_name : bytes }.

Definition zero_addr : sockaddr_in := {| sin_family := 0; sin_addr := 0; sin_port := 0 |}.

(** [ifr.ifr_flags] read from the union: the first two bytes of an address are
    its family. *)
Definition read_flags (u : ifr_ifru) : Z :=
  match u with
  | ifr_flags f => f
  | ifr_addr a => sin_family a
  end.

(** [strncpy(dst, src, IFNAMSIZ - 1)] into an array of [IFNAMSIZ] zeros. *)
Definition strncpy_name (src : bytes) : bytes := take (IFNAMSIZ - 1) (c_string src).

Section Net.
  Context `{EV : Env}.

(** ** System calls *)

(** [open] or [socket]. *)
Definition sys_open (f : nat -> Z) : M Z :=
  fd ← syscall f;
  if fd <? 0 then mret fd else _ ← emit_event (EvOpen fd); mret fd.

Definition sys_close (fd : Z) : M unit :=
  _ ← emit_event (EvClose fd);
  e ← ask env_close;
  match e with
  | Some e => set_errno e
  | None => mret tt
  end.

Definition sys_ioctl (fd : Z) (request : ioctl_request) (ifr : ifreq) : M (Z * ifreq) :=
  '(rc, ifr') ← ask (fun n => env_ioctl n request ifr);
  _ ← emit_event (EvIoctl fd request ifr rc);
  if rc <? 0 then e ← ask env_errno; _ ← set_errno e; mret (rc, ifr') else mret (rc, ifr').

Definition sys_bind (fd : Z) (addr : sockaddr_in) : M Z :=
  rc ← syscall env_bind;
  _ ← emit_event (EvBind fd addr rc);
  mret rc.

(** [int saved_errno = errno; close(fd); errno = saved_errno]. *)
Definition close_keeping_errno (fd : Z) : M unit :=
  saved_errno ← get_errno;
  _ ← sys_close fd;
  set_errno saved_errno.

(** ** udp.c *)
Definition udp_bind (port : Z) : M (Z * udp_socket_t) :=
  fd ← sys_open env_socket;
  if fd <? 0 then mret (-1, {| u_fd := -1 |})
  else
    let addr := {| sin_family := AF_INET; sin_addr := htonl INADDR_ANY; sin_port := htons port |} in
    rc ← sys_bind fd addr;
    if rc <? 0 then _ ← close_keeping_errno fd; mret (-1, {| u_fd := -1 |})
    else mret (0, {| u_fd := fd |}).

Definition udp_resolve (addr_out : sockaddr_in) (host : bytes) (port : Z) : M (Z * sockaddr_in) :=
  r ← ask (fun n => env_getaddrinfo n host);
  match r with
  | None => mret (-1, addr_out)
  | Some a => mret (0, {| sin_family := sin_family a; sin_addr := sin_addr a; sin_port := htons port |})
  end.

Definition udp_send (sock : udp_socket_t) (buf : bytes) (dest : sockaddr_in) : M Z :=
  rc ← syscall env_sendto;
  _ ← emit_event (EvSend (u_fd sock) dest buf rc);
  mret rc.

(** A call that fills a buffer: the kernel stores at most its capacity, the
    bytes after those stay. *)
Definition fill (buf data : bytes) : Z * bytes :=
  let stored := take (length buf) data in
  (zlen stored, stored ++ drop (length stored) buf).

(** [recvfrom]: the return value, the buffer, and the source of the datagram. *)
Definition udp_recv (sock : udp_socket_t) (buf : bytes) (from_out : sockaddr_in) :
    M (Z * bytes * sockaddr_in) :=
  r ← ask env_recvfrom;
  match r with
  | None => e ← ask env_errno; _ ← set_errno e; mret (-1, buf, from_out)
  | Some (datagram, from) => let '(n, buf) := fill buf datagram in mret (n, buf, from)
  end.

Definition udp_close (sock : udp_socket_t) : M udp_socket_t :=
  if 0 <=? u_fd sock then _ ← sys_close (u_fd sock); mret {| u_fd := -1 |} else mret sock.

(** ** tun.c *)
Definition tun_open (name_hint : bytes) : M (Z * tun_device_t) :=
  fd ← sys_open env_open;
  if fd <? 0 then mret (-1, {| t_fd := -1; t_name := [] |})
  else
    let name := match name_hint with [] => [] | _ => strncpy_name name_hint end in
    let ifr := {| ifr_name := name; ifr_u := ifr_flags (Z.lor IFF_TUN IFF_NO_PI) |} in
    '(rc, ifr) ← sys_ioctl fd TUNSETIFF ifr;
    if rc <? 0 then _ ← close_keeping_errno fd; mret (-1, {| t_fd := -1; t_name := [] |})
    else mret (0, {| t_fd := fd; t_name := strncpy_name (ifr_name ifr) |}).

(** [None] is the return value -1, with EINVAL in [errno]. *)
Definition set_ifreq_ipv4 (text : bytes) : M (option sockaddr_in) :=
  match inet_pton text with
  | None => _ ← set_errno EINVAL; mret None
  | Some a => mret (Some {| sin_family := AF_INET; sin_addr := a; sin_port := 0 |})
  end.

(** The end of every error branch of [tun_configure]. *)
Definition configure_failed (sock : Z) : M Z := _ ← close_keeping_errno sock; mret (-1).

Definition tun_configure (dev : tun_device_t) (ipv4_address netmask : bytes) : M Z :=
  sock ← sys_open env_socket;
  if sock <? 0 then mret (-1)
  else
    let name := strncpy_name (t_name dev) in
    a ← set_ifreq_ipv4 ipv4_address;
    match a with
    | None => configure_failed sock
    | Some a =>
      '(rc, ifr) ← sys_ioctl sock SIOCSIFADDR {| ifr_name := name; ifr_u := ifr_addr a |};
      if rc <? 0 then configure_failed sock else
      m ← set_ifreq_ipv4 netmask;
      match m with
      | None => configure_failed sock
      | Some m =>
        '(rc, ifr) ← sys_ioctl sock SIOCSIFNETMASK {| ifr_name := ifr_name ifr; ifr_u := ifr_addr m |};
        if rc <? 0 then configure_failed sock else
        '(rc, ifr) ← sys_ioctl sock SIOCGIFFLAGS ifr;
        if rc <? 0 then configure_failed sock else
        let flags := Z.lor (read_flags (ifr_u ifr)) (Z.lor IFF_UP IFF_RUNNING) in
        '(rc, ifr) ← sys_ioctl sock SIOCSIFFLAGS {| ifr_name := ifr_name ifr; ifr_u := ifr_flags flags |};
        if rc <? 0 then configure_failed sock else
        _ ← sys_close sock;
        mret 0
      end
    end.

Definition tun_read (dev : tun_device_t) (buf : bytes) : M (Z * bytes) :=
  r ← ask env_tun_read;
  match r with
  | None => e ← ask env_errno; _ ← set_errno e; mret (-1, buf)
  | Some packet => mret (fill buf packet)
  end.

Definition tun_write (dev : tun_device_t) (buf : bytes) : M Z :=
  rc ← syscall env_tun_write;
  _ ← emit_event (EvTunWrite (t_fd dev) buf rc);
  mret rc.

Definition tun_close (dev : tun_device_t) : M tun_device_t :=
  if 0 <=? t_fd dev then _ ← sys_close (t_fd dev); mret {| t_fd := -1; t_name := t_name dev |}
  else mret dev.
End Net.
