(* ===== verification/ConfigFile.v ===== *)
(** * The configuration file as a descriptor (src/config.c)

    [config_load] opens the file, reads it line by line and closes it, on its
    way out of the loop or after it.  The lines are parsed in Config.v, whose
    [config_exit] says of each error return whether [fclose] precedes it; here
    the parser meets the outside, and every path that opened the file is shown
    to close it, once. *)

From Stdlib Require Import String.
From S2P Require Import Prelude World Crypto Libc Config ConfigFacts Net.
Open Scope list_scope.

Section Load.
  Context `{SO : Sodium} `{EV : Env}.

(** [fopen(path, "r")]: the descriptor behind the stream and what the file
    holds; a failure sets [errno]. *)
Definition sys_fopen (path : bytes) : M (option (Z * bytes)) :=
  file ← ask (fun n => env_fopen n path);
  match file with
  | None => e ← ask env_errno; _ ← set_errno e; mret None
  | Some (fd, f) => _ ← emit_event (EvOpen fd); mret (Some (fd, f))
  end.

(** [fclose(f)]: it closes the descriptor; its result is ignored. *)
Definition sys_fclose (fd : Z) : M unit := sys_close fd.

(** [fprintf(stderr, ...)]. *)
Definition config_report (path : bytes) (e : config_error) : M unit :=
  errno ← get_errno;
  emit_event (EvPrint Stderr (config_error_text path (env_strerror errno) e)).

(** [return -1], with the message and the [fclose] that precede it. *)
Definition config_return (path : bytes) (fd : Z) (x : config_exit) : M (option edgarvpn_config_t) :=
  _ ← config_report path (reported x);
  _ ← (if closes x then sys_fclose fd else mret tt);
  mret None.

(** The whole of [config_load]; [None] is the return value -1. *)
Definition config_load_file (path : bytes) : M (option edgarvpn_config_t) :=
  file ← sys_fopen path;
  match file with
  | None => _ ← config_report path CannotOpen; mret None
  | Some (fd, f) =>
      r ← lift (config_loop (S (length f)) f parser_init);
      match r with
      | inl x => config_return path fd x
      | inr p =>
          _ ← sys_fclose fd;
          r ← lift (config_finish p);
          match r with
          | inl x => config_return path fd x
          | inr c => mret (Some c)
          end
      end
  end.

(** ** Which returns close the file *)

(** Every failure of [r] carries the flag [b]. *)
Definition exits {A} (b : bool) (r : R A) : Prop :=
  match r with
  | Some (inl x) => closes x = b
  | _ => True
  end.

Lemma exits_bind {A B} b (m : R A) (k : A -> R B) :
  exits b m -> (forall a, exits b (k a)) -> exits b (a ← m; k a).
Proof. intros Hm Hk. by destruct m as [[x|a]|]; [|apply Hk|]. Qed.

Lemma exits_or_fail {A} (m : option (option A)) e : exits true (or_fail m e).
Proof. by destruct m as [[a|]|]. Qed.

Lemma exits_lift {A} b (m : option A) : exits b (lift_R m).
Proof. by destruct m. Qed.

Lemma config_line_exits p line : exits true (config_line p line).
Proof.
  unfold config_line, section_header, key_value, interface_key, peer_key_value.
  repeat (case_match || (apply exits_bind; [apply exits_or_fail || apply exits_lift|intros ?]) || done).
Qed.

(** Inside the loop each error return closes the file, after it none does. *)
Lemma config_loop_exits fuel f p : exits true (config_loop fuel f p).
Proof.
  revert f p. induction fuel as [|fuel IH]; intros f p; cbn [config_loop]; [done|].
  destruct (fgets _ _) as [[line rest]|]; [|done]. apply exits_bind; [apply config_line_exits|auto].
Qed.

Lemma config_finish_exits p : exits false (config_finish p).
Proof. unfold config_finish. by repeat case_match. Qed.
End Load.

(** ** What the function does to the outside *)
Section File.
  Context `{SO : Sodium} {SL : SodiumLaws} `{EV : Env}.

(** The descriptors of a call that finds [file], and the configuration it
    returns: the file is opened and closed once, whatever it holds. *)
Definition file_events (file : option (Z * bytes)) : list io_event :=
  match file with Some (fd, _) => [EvOpen fd; EvClose fd] | None => [] end.

Definition file_result (file : option (Z * bytes)) : option edgarvpn_config_t :=
  match config_load (snd <$> file) with Some (inr c) => Some c | _ => None end.

Lemma wp_config_report path e (Q : unit -> world -> Prop) w :
  (forall w', wire w' = wire w -> Q tt w') -> wp (config_report path e) Q w.
Proof.
  intros H. unfold config_report. apply wp_bind, wp_get_errno, wp_emit. intros w1 E1 _. apply H.
  by rewrite E1, app_nil_r.
Qed.

Lemma wp_fclose fd (Q : unit -> world -> Prop) w :
  (forall w', wire w' = wire w ++ [EvClose fd] -> Q tt w') -> wp (sys_fclose fd) Q w.
Proof.
  intros H. unfold sys_fclose, sys_close. apply wp_bind, wp_emit. intros w1 E1 _.
  apply wp_bind, wp_ask. intros w2 E2 _. destruct (env_close _).
  - apply wp_set_errno. intros w3 E3 _. apply H. by rewrite E3, E2, E1.
  - apply wp_ret, H. by rewrite E2, E1.
Qed.

Lemma wp_config_return path fd x (Q : option edgarvpn_config_t -> world -> Prop) w :
  (forall w', wire w' = wire w ++ (if closes x then [EvClose fd] else []) -> Q None w') ->
  wp (config_return path fd x) Q w.
Proof.
  intros H. unfold config_return. apply wp_bind, wp_config_report. intros w1 E1. apply wp_bind.
  destruct (closes x).
  - apply wp_fclose. intros w2 E2. apply wp_ret, H. by rewrite E2, E1.
  - apply wp_ret, wp_ret, H. by rewrite E1, app_nil_r.
Qed.

Lemma wp_fopen path (Q : option (Z * bytes) -> world -> Prop) w :
  (forall w', wire w' = wire w ++ match env_fopen (w_calls w) path with
      | Some (fd, _) => [EvOpen fd] | None => [] end -> Q (env_fopen (w_calls w) path) w') ->
  wp (sys_fopen path) Q w.
Proof.
  intros H. unfold sys_fopen. apply wp_bind, wp_ask. intros w1 E1 _.
  destruct (env_fopen _ _) as [[fd f]|].
  - apply wp_bind, wp_emit. intros w2 E2 _. apply wp_ret, H. by rewrite E2, E1.
  - apply wp_bind, wp_ask. intros w2 E2 _. apply wp_bind, wp_set_errno. intros w3 E3 _. apply wp_ret, H.
    by rewrite E3, E2, E1, app_nil_r.
Qed.

(** [config_load] always returns; the configuration is what the contents of
    the file say, and the descriptor is opened and closed exactly once. *)
Lemma config_load_file_wp path (Q : option edgarvpn_config_t -> world -> Prop) w :
  let file := env_fopen (w_calls w) path in
  (forall fd f, file = Some (fd, f) -> zlen f < INT_MAX) ->
  (forall w', wire w' = wire w ++ file_events file -> Q (file_result file) w') ->
  wp (config_load_file path) Q w.
Proof.
  intros file Hsz H. unfold config_load_file. apply wp_bind, wp_fopen. fold file. intros w1 E1.
  destruct file as [[fd f]|].
  2:{ apply wp_bind, wp_config_report. intros w2 E2. apply wp_ret, H. by rewrite E2, E1. }
  pose proof (config_load_total f (Hsz fd f eq_refl)) as [r Er].
  unfold file_result in H. cbn [fmap option_fmap option_map snd] in H. rewrite Er in H.
  unfold config_load in Er. pose proof (config_loop_exits (S (length f)) f parser_init) as Hx.
  destruct (config_loop _ _ _) as [[x|p]|]; [| |done]; apply wp_bind; (eapply wp_lift; [reflexivity|]).
  { injection Er as <-. apply wp_config_return. intros w2 E2. apply H. cbn in Hx.
    by rewrite E2, E1, Hx, <- app_assoc. }
  apply wp_bind, wp_fclose. intros w2 E2. apply wp_bind. cbn [mbind R_bind] in Er.
  eapply wp_lift; [exact Er|]. pose proof (config_finish_exits p) as Hf. rewrite Er in Hf.
  destruct r as [x|c]; [apply wp_config_return; intros w3 E3; rewrite Hf, app_nil_r in E3|apply wp_ret]; apply H;
    by rewrite ?E3, E2, E1, <- app_assoc.
Qed.
End File.
