(* ===== verification/Daemon.v ===== *)
(** * The daemon (src/main.c)

    The runtime state of [main], one definition per function, per branch of
    the poll loop and per phase of [main].  [peers] holds the [peer_count]
    entries of the array that the code uses; an index outside it is undefined
    behaviour.  The environment says at which call a signal arrives; what the
    handler has made of the static [g_running] by then is a function of those
    signals. *)

From Stdlib Require Import String.
From S2P Require Import Prelude World Crypto Session Libc Config Routing Log Net ConfigFile.
Open Scope list_scope.

(** ** Constants *)
Definition DEFAULT_CONFIG_PATH : bytes := str "/etc/edgarvpn/edgarvpn.conf".
Definition MAX_PACKET_SIZE : nat := 2048.
Definition SEALED_BUF_SIZE : nat := SESSION_DATA_OVERHEAD + MAX_PACKET_SIZE.
Definition POLL_TIMEOUT_MS : Z := 1000.
Definition KEEPALIVE_INTERVAL_MS : Z := 5000.
Definition SESSION_TIMEOUT_MS : Z := 15000.
Definition KEY_ROTATION_INTERVAL_MS : Z := 45000.
Definition STATS_INTERVAL_MS : Z := 30000.

(** ** State *)

(** The seven [stat_*] counters. *)
Record peer_stats := {
  stat_packets_tx : Z;
  stat_bytes_tx : Z;
  stat_packets_rx : Z;
  stat_bytes_rx : Z;
  stat_handshakes : Z;
  stat_auth_failures : Z;
  stat_drops : Z
}.

Record peer_session_t := {
  config : config_peer_t;
  addr_resolved : bool;
  addr : sockaddr_in;
  session : session_t;
  last_rx_activity_ms : Z;
  last_tx_activity_ms : Z;
  last_handshake_completed_ms : Z;
  stats : peer_stats
}.

(** The variables of [main] that live through the loop. *)
Record daemon := {
  cfg : edgarvpn_config_t;
  tun : tun_device_t;
  udp : udp_socket_t;
  d_peers : list peer_session_t;
  cipher_buf : bytes;
  plain_buf : bytes;
  last_stats_ms : Z
}.

Definition set_addr a ps := {| config := config ps; addr_resolved := true; addr := a;
  session := session ps; last_rx_activity_ms := last_rx_activity_ms ps;
  last_tx_activity_ms := last_tx_activity_ms ps;
  last_handshake_completed_ms := last_handshake_completed_ms ps; stats := stats ps |}.
Definition set_session s ps := {| config := config ps; addr_resolved := addr_resolved ps;
  addr := addr ps; session := s; last_rx_activity_ms := last_rx_activity_ms ps;
  last_tx_activity_ms := last_tx_activity_ms ps;
  last_handshake_completed_ms := last_handshake_completed_ms ps; stats := stats ps |}.
Definition set_last_rx t ps := {| config := config ps; addr_resolved := addr_resolved ps;
  addr := addr ps; session := session ps; last_rx_activity_ms := t;
  last_tx_activity_ms := last_tx_activity_ms ps;
  last_handshake_completed_ms := last_handshake_completed_ms ps; stats := stats ps |}.
Definition set_last_tx t ps := {| config := config ps; addr_resolved := addr_resolved ps;
  addr := addr ps; session := session ps; last_rx_activity_ms := last_rx_activity_ms ps;
  last_tx_activity_ms := t;
  last_handshake_completed_ms := last_handshake_completed_ms ps; stats := stats ps |}.
Definition set_last_handshake t ps := {| config := config ps; addr_resolved := addr_resolved ps;
  addr := addr ps; session := session ps; last_rx_activity_ms := last_rx_activity_ms ps;
  last_tx_activity_ms := last_tx_activity_ms ps;
  last_handshake_completed_ms := t; stats := stats ps |}.
Definition set_stats f ps := {| config := config ps; addr_resolved := addr_resolved ps;
  addr := addr ps; session := session ps; last_rx_activity_ms := last_rx_activity_ms ps;
  last_tx_activity_ms := last_tx_activity_ms ps;
  last_handshake_completed_ms := last_handshake_completed_ms ps; stats := f (stats ps) |}.

(** The increments of the counters, in 64 bits. *)
Definition count_tx n st := {| stat_packets_tx := u64 (stat_packets_tx st + 1);
  stat_bytes_tx := u64 (stat_bytes_tx st + n); stat_packets_rx := stat_packets_rx st;
  stat_bytes_rx := stat_bytes_rx st; stat_handshakes := stat_handshakes st;
  stat_auth_failures := stat_auth_failures st; stat_drops := stat_drops st |}.
Definition count_rx n st := {| stat_packets_tx := stat_packets_tx st;
  stat_bytes_tx := stat_bytes_tx st; stat_packets_rx := u64 (stat_packets_rx st + 1);
  stat_bytes_rx := u64 (stat_bytes_rx st + n); stat_handshakes := stat_handshakes st;
  stat_auth_failures := stat_auth_failures st; stat_drops := stat_drops st |}.
Definition count_handshake st := {| stat_packets_tx := stat_packets_tx st;
  stat_bytes_tx := stat_bytes_tx st; stat_packets_rx := stat_packets_rx st;
  stat_bytes_rx := stat_bytes_rx st; stat_handshakes := u64 (stat_handshakes st + 1);
  stat_auth_failures := stat_auth_failures st; stat_drops := stat_drops st |}.
Definition count_auth_failure st := {| stat_packets_tx := stat_packets_tx st;
  stat_bytes_tx := stat_bytes_tx st; stat_packets_rx := stat_packets_rx st;
  stat_bytes_rx := stat_bytes_rx st; stat_handshakes := stat_handshakes st;
  stat_auth_failures := u64 (stat_auth_failures st + 1); stat_drops := stat_drops st |}.
Definition count_drop st := {| stat_packets_tx := stat_packets_tx st;
  stat_bytes_tx := stat_bytes_tx st; stat_packets_rx := stat_packets_rx st;
  stat_bytes_rx := stat_bytes_rx st; stat_handshakes := stat_handshakes st;
  stat_auth_failures := stat_auth_failures st; stat_drops := u64 (stat_drops st + 1) |}.

Definition zero_stats : peer_stats := {| stat_packets_tx := 0; stat_bytes_tx := 0;
  stat_packets_rx := 0; stat_bytes_rx := 0; stat_handshakes := 0; stat_auth_failures := 0;
  stat_drops := 0 |}.

(** [memset(peers, 0, sizeof(peers))] and [peers[i].config = &cfg.peers[i]]. *)
Definition new_peer (c : config_peer_t) : peer_session_t := {|
  config := c; addr_resolved := false; addr := zero_addr;
  session := zero_session CRYPTO_ROLE_INITIATOR; last_rx_activity_ms := 0;
  last_tx_activity_ms := 0; last_handshake_completed_ms := 0; stats := zero_stats |}.

Definition set_peer i ps d := {| cfg := cfg d; tun := tun d; udp := udp d;
  d_peers := <[i := ps]> (d_peers d); cipher_buf := cipher_buf d; plain_buf := plain_buf d;
  last_stats_ms := last_stats_ms d |}.
Definition set_all_peers l d := {| cfg := cfg d; tun := tun d; udp := udp d;
  d_peers := l; cipher_buf := cipher_buf d; plain_buf := plain_buf d;
  last_stats_ms := last_stats_ms d |}.
Definition set_cipher b d := {| cfg := cfg d; tun := tun d; udp := udp d;
  d_peers := d_peers d; cipher_buf := b; plain_buf := plain_buf d;
  last_stats_ms := last_stats_ms d |}.
Definition set_plain b d := {| cfg := cfg d; tun := tun d; udp := udp d;
  d_peers := d_peers d; cipher_buf := cipher_buf d; plain_buf := b;
  last_stats_ms := last_stats_ms d |}.
Definition set_stats_time t d := {| cfg := cfg d; tun := tun d; udp := udp d;
  d_peers := d_peers d; cipher_buf := cipher_buf d; plain_buf := plain_buf d;
  last_stats_ms := t |}.

Definition established (ps : peer_session_t) : bool :=
  bool_decide (state (session ps) = SESSION_STATE_ESTABLISHED).
Definition is_initiator (ps : peer_session_t) : bool :=
  bool_decide (peer_role (config ps) = CRYPTO_ROLE_INITIATOR).
Definition is_responder (ps : peer_session_t) : bool :=
  bool_decide (peer_role (config ps) = CRYPTO_ROLE_RESPONDER).

Definition quoted (s : bytes) : bytes := str "'" ++ s ++ str "'".

(** ** Functions *)

Fixpoint find_peer_by_addr (peers : list peer_session_t) (from : sockaddr_in) : option nat :=
  match peers with
  | [] => None
  | ps :: rest =>
      if addr_resolved ps && (sin_addr (addr ps) =? sin_addr from) &&
         (sin_port (addr ps) =? sin_port from)
      then Some 0%nat
      else S <$> find_peer_by_addr rest from
  end.

(** The signal handler: what it leaves in [g_running]. *)
Definition handle_shutdown (signum : Z) (g_running : Z) : Z := 0.

Definition EMPTY_PAYLOAD : bytes := [0].

Section Daemon.
  Context `{SO : Sodium} `{EV : Env}.

(** [sigaction] for SIGINT and SIGTERM: from this call on [handle_shutdown]
    runs whenever one of them is delivered. *)
Definition install_handlers : M nat := fun w => Some (w_calls w, w).

(** The signals delivered at the calls from [installed] to [now]. *)
Definition delivered (installed now : nat) : list Z :=
  concat (map env_signals (seq installed (now - installed))).

(** A read of [static volatile sig_atomic_t g_running = 1]. *)
Definition g_running (installed : nat) : M Z := fun w =>
  Some (foldl (fun g signum => handle_shutdown signum g) 1 (delivered installed (w_calls w)), w).

Definition monotonic_ms : M Z :=
  '(tv_sec, tv_nsec) ← ask env_monotonic;
  mret (u64 (u64 tv_sec * 1000 + u64 (Z.quot tv_nsec 1000000))).

(** Lines 138-147: a fresh attempt towards a known address. *)
Definition start_attempt (ps : peer_session_t) (local_name : bytes) (udp : udp_socket_t)
    (buf : bytes) (now : Z) : M (peer_session_t * bytes) :=
  s ← session_start_handshake (session ps);
  let ps := set_last_tx now (set_last_rx now (set_session s ps)) in
  '(init_len, s, buf) ← lift (session_build_init (session ps) buf);
  let ps := set_session s ps in
  failed ← (if init_len <? 0 then mret true
            else rc ← udp_send udp (take (Z.to_nat init_len) buf) (addr ps); mret (rc <? 0));
  if (failed : bool) then
    _ ← log_error local_name (str "failed to send handshake init to " ++ quoted (host (config ps)));
    mret (ps, buf)
  else
    _ ← log_info local_name (str "sent handshake init to " ++ quoted (host (config ps)) ++
                             str ", awaiting response");
    mret (ps, buf).

Definition initiate_handshake (ps : peer_session_t) (local_name : bytes) (udp : udp_socket_t)
    (buf : bytes) (now : Z) : M (peer_session_t * bytes) :=
  if addr_resolved ps then start_attempt ps local_name udp buf now
  else
    let ps := set_last_rx now ps in
    '(rc, a) ← udp_resolve (addr ps) (host (config ps)) (port (config ps));
    if negb (rc =? 0) then
      _ ← log_warn local_name (quoted (host (config ps)) ++
                               str " not resolvable yet, will keep retrying");
      mret (ps, buf)
    else start_attempt (set_addr a ps) local_name udp buf now.

(** The loop from index [i] on: the peers with their sessions as the attempts
    left them, the response buffer, and the peer that accepted with the length
    of its response. *)
Fixpoint find_responder_for_init (peers : list peer_session_t) (inp out : bytes) (i : nat) :
    M (list peer_session_t * bytes * option (nat * Z)) :=
  match peers with
  | [] => mret ([], out, None)
  | ps :: rest =>
      if negb (is_responder ps) then
        '(rest, out, r) ← find_responder_for_init rest inp out (S i);
        mret (ps :: rest, out, r)
      else
        '(response_len, s, out) ← session_handle_init (session ps) inp out;
        let ps := set_session s ps in
        if 0 <=? response_len then mret (ps :: rest, out, Some (i, response_len))
        else
          '(rest, out, r) ← find_responder_for_init rest inp out (S i);
          mret (ps :: rest, out, r)
  end.

Definition stats_text (ps : peer_session_t) : bytes :=
  let st := stats ps in
  str "stats peer=" ++ host (config ps) ++
  str " established=" ++ (if established ps then str "yes" else str "no") ++
  str " tx_packets=" ++ dec (stat_packets_tx st) ++ str " tx_bytes=" ++ dec (stat_bytes_tx st) ++
  str " rx_packets=" ++ dec (stat_packets_rx st) ++ str " rx_bytes=" ++ dec (stat_bytes_rx st) ++
  str " handshakes=" ++ dec (stat_handshakes st) ++
  str " auth_failures=" ++ dec (stat_auth_failures st) ++ str " drops=" ++ dec (stat_drops st).

Fixpoint log_stats (local_name : bytes) (peers : list peer_session_t) : M unit :=
  match peers with
  | [] => mret tt
  | ps :: rest => _ ← log_info local_name (stats_text ps); log_stats local_name rest
  end.

(** ** The poll loop: a packet from the TUN device *)

(** [idx] of lines 333-335. *)
Definition route (c : edgarvpn_config_t) (packet : bytes) : option Z :=
  dest ← routing_parse_ipv4_dest packet;
  match dest with
  | None => Some (-1)
  | Some dest => routing_find_peer_for_dest c dest
  end.

(** A packet of [n] bytes in [plain_buf], with at least one peer. *)
Definition forward_packet (d : daemon) (n : Z) : M daemon :=
  let me := name (cfg d) in
  let packet := take (Z.to_nat n) (plain_buf d) in
  idx ← lift (route (cfg d) packet);
  if idx <? 0 then
    _ ← log_debug me (str "no route for a " ++ dec n ++ str "-byte outbound packet, dropping");
    mret d
  else
    ps ← lift (d_peers d !! Z.to_nat idx);
    let h := quoted (host (config ps)) in
    if negb (established ps) then
      _ ← log_debug me (str "session with " ++ h ++ str " not established yet, dropping " ++
                        dec n ++ str "-byte packet");
      mret (set_peer (Z.to_nat idx) (set_stats count_drop ps) d)
    else
      '(sealed_len, s, buf) ← lift (session_seal_data (session ps) packet (cipher_buf d));
      let ps := set_session s ps in
      let d := set_cipher buf (set_peer (Z.to_nat idx) ps d) in
      if sealed_len <? 0 then
        _ ← log_error me (str "failed to encrypt a " ++ dec n ++ str "-byte packet for " ++ h);
        mret d
      else
        rc ← udp_send (udp d) (take (Z.to_nat sealed_len) buf) (addr ps);
        if rc <? 0 then
          e ← get_errno;
          _ ← log_warn me (str "udp_send to " ++ h ++ str " error: " ++ env_strerror e);
          mret d
        else
          t ← monotonic_ms;
          let ps := set_stats (count_tx sealed_len) (set_last_tx t ps) in
          _ ← log_debug me (str "tun -> udp (" ++ host (config ps) ++ str "): " ++ dec n ++
                            str " bytes (sealed to " ++ dec sealed_len ++ str ")");
          mret (set_peer (Z.to_nat idx) ps d).

Definition tun_ready (d : daemon) : M daemon :=
  let me := name (cfg d) in
  '(n, buf) ← tun_read (tun d) (plain_buf d);
  let d := set_plain buf d in
  if n <? 0 then
    e ← get_errno;
    if negb (e =? EINTR) then
      _ ← log_warn me (str "tun_read error: " ++ env_strerror e); mret d
    else mret d
  else if (peer_count (cfg d) =? 0)%nat then
    _ ← log_info me (str "captured packet: " ++ dec n ++ str " bytes"); mret d
  else forward_packet d n.

(** ** The poll loop: a datagram from the UDP socket *)

(** [inet_ntop] into INET_ADDRSTRLEN bytes, and the port. *)
Definition from_text (from : sockaddr_in) : option bytes :=
  ip ← inet_ntop (sin_addr from) INET_ADDRSTRLEN;
  Some (ip ++ str ":" ++ dec (htons (sin_port from))).

(** [unsigned char response[SESSION_HANDSHAKE_MSG_LEN]]: its contents before
    it is written are not read. *)
Definition response_buf : bytes := replicate SESSION_HANDSHAKE_MSG_LEN 0.

(** Lines 376-404: an init from an address no peer is known by. *)
Definition unknown_init (d : daemon) (inp : bytes) (from : sockaddr_in) : M daemon :=
  let me := name (cfg d) in
  '(peers, response, matched) ← find_responder_for_init (d_peers d) inp response_buf 0;
  let d := set_all_peers peers d in
  match matched with
  | None =>
      who ← lift (from_text from);
      _ ← log_warn me (str "handshake init from " ++ who ++
            str " did not authenticate against any configured peer, dropping");
      mret d
  | Some (i, response_len) =>
      ps ← lift (peers !! i);
      rc ← udp_send (udp d) (take (Z.to_nat response_len) response) from;
      if rc <? 0 then
        e ← get_errno;
        _ ← log_error me (str "failed to send handshake response to " ++
              quoted (host (config ps)) ++ str ": " ++ env_strerror e);
        mret d
      else
        t ← monotonic_ms;
        let ps := set_stats count_handshake
                    (set_last_handshake t (set_last_tx t (set_last_rx t (set_addr from ps)))) in
        who ← lift (from_text from);
        _ ← log_info me (str "handshake complete with " ++ quoted (host (config ps)) ++
              str " (learned endpoint " ++ who ++ str "), session established");
        mret (set_peer i ps d)
  end.

(** Lines 405-409. *)
Definition unknown_source (d : daemon) (from : sockaddr_in) : M daemon :=
  who ← lift (from_text from);
  _ ← log_warn (name (cfg d)) (str "received a datagram from unrecognized " ++ who ++ str ", dropping");
  mret d.

(** Lines 410-432: an init from the responder's known peer. *)
Definition known_init (d : daemon) (i : nat) (ps : peer_session_t) (inp : bytes) : M daemon :=
  let me := name (cfg d) in
  let h := quoted (host (config ps)) in
  '(response_len, s, response) ← session_handle_init (session ps) inp response_buf;
  let ps := set_session s ps in
  if response_len <? 0 then
    _ ← log_warn me (str "rejected a malformed, unauthenticated, or stale handshake init from " ++ h);
    mret (set_peer i (set_stats count_auth_failure ps) d)
  else
    rc ← udp_send (udp d) (take (Z.to_nat response_len) response) (addr ps);
    if rc <? 0 then
      e ← get_errno;
      _ ← log_error me (str "failed to send handshake response to " ++ h ++ str ": " ++ env_strerror e);
      mret (set_peer i ps d)
    else
      t ← monotonic_ms;
      let ps := set_stats count_handshake
                  (set_last_handshake t (set_last_tx t (set_last_rx t ps))) in
      _ ← log_info me (str "handshake complete with " ++ h ++ str ", session established");
      mret (set_peer i ps d).

(** Lines 433-445: a response from the initiator's peer. *)
Definition known_response (d : daemon) (i : nat) (ps : peer_session_t) (inp : bytes) : M daemon :=
  let me := name (cfg d) in
  let h := quoted (host (config ps)) in
  '(rc, s) ← lift (session_handle_response (session ps) inp);
  let ps := set_session s ps in
  if rc <? 0 then
    _ ← log_warn me (str "rejected a malformed, unauthenticated, or stale handshake response from " ++ h);
    mret (set_peer i (set_stats count_auth_failure ps) d)
  else
    t ← monotonic_ms;
    let ps := set_stats count_handshake (set_last_handshake t (set_last_rx t ps)) in
    _ ← log_info me (str "handshake complete with " ++ h ++ str ", session established");
    mret (set_peer i ps d).

(** Lines 446-466: data from a known peer; [n] is the size of the datagram. *)
Definition known_data (d : daemon) (i : nat) (ps : peer_session_t) (inp : bytes) (n : Z) : M daemon :=
  let me := name (cfg d) in
  let h := quoted (host (config ps)) in
  '(opened_len, s, buf) ← lift (session_open_data (session ps) inp (plain_buf d));
  let ps := set_session s ps in
  let d := set_plain buf d in
  if opened_len <? 0 then
    _ ← log_warn me (str "dropping a data packet from " ++ h ++
          str " (not established, failed authentication, or replayed)");
    mret (set_peer i (set_stats count_drop (set_stats count_auth_failure ps)) d)
  else if opened_len =? 0 then
    t ← monotonic_ms;
    _ ← log_debug me (str "received keepalive from " ++ h);
    mret (set_peer i (set_last_rx t ps) d)
  else
    rc ← tun_write (tun d) (take (Z.to_nat opened_len) buf);
    if rc <? 0 then
      e ← get_errno;
      _ ← log_error me (str "tun_write error: " ++ env_strerror e);
      mret (set_peer i ps d)
    else
      t ← monotonic_ms;
      let ps := set_stats (count_rx n) (set_last_rx t ps) in
      _ ← log_debug me (str "udp -> tun (" ++ host (config ps) ++ str "): " ++ dec opened_len ++
            str " bytes (opened from " ++ dec n ++ str ")");
      mret (set_peer i ps d).

(** Lines 467-472. *)
Definition unexpected (d : daemon) (i : nat) (ps : peer_session_t) (type : Z) : M daemon :=
  _ ← log_warn (name (cfg d)) (str "dropping unexpected message (type " ++ dec type ++
        str ") from " ++ quoted (host (config ps)) ++ str " for its role/state");
  mret (set_peer i (set_stats count_drop ps) d).

(** Lines 374-473: a datagram of [n >= 1] bytes, with at least one peer. *)
Definition handle_datagram (d : daemon) (n : Z) (from : sockaddr_in) : M daemon :=
  let inp := take (Z.to_nat n) (cipher_buf d) in
  type ← lift (cipher_buf d !! 0%nat);
  match find_peer_by_addr (d_peers d) from with
  | None =>
      if type =? SESSION_MSG_HANDSHAKE_INIT then unknown_init d inp from else unknown_source d from
  | Some i =>
      ps ← lift (d_peers d !! i);
      if (type =? SESSION_MSG_HANDSHAKE_INIT) && is_responder ps then known_init d i ps inp
      else if (type =? SESSION_MSG_HANDSHAKE_RESPONSE) && is_initiator ps then known_response d i ps inp
      else if type =? SESSION_MSG_DATA then known_data d i ps inp n
      else unexpected d i ps type
  end.

Definition udp_ready (d : daemon) : M daemon :=
  let me := name (cfg d) in
  '(n, buf, from) ← udp_recv (udp d) (cipher_buf d) zero_addr;
  let d := set_cipher buf d in
  if n <? 0 then
    e ← get_errno;
    if negb (e =? EINTR) then
      _ ← log_warn me (str "udp_recv error: " ++ env_strerror e); mret d
    else mret d
  else if (peer_count (cfg d) =? 0)%nat || (n <? 1) then
    _ ← log_debug me (str "received " ++ dec n ++ str " bytes on UDP with no session, dropping");
    mret d
  else handle_datagram d n from.

(** ** The poll loop: timers *)

(** Lines 482-498. *)
Definition keepalive (me : bytes) (udp : udp_socket_t) (now : Z) (ps : peer_session_t) (buf : bytes) :
    M (peer_session_t * bytes) :=
  let h := quoted (host (config ps)) in
  if addr_resolved ps && established ps &&
     (KEEPALIVE_INTERVAL_MS <=? u64 (now - last_tx_activity_ms ps)) then
    '(sealed_len, s, buf) ← lift (session_seal_data (session ps) (take 0 EMPTY_PAYLOAD) buf);
    let ps := set_session s ps in
    ps ← (if sealed_len <? 0 then
            _ ← log_error me (str "failed to build keepalive for " ++ h); mret ps
          else
            rc ← udp_send udp (take (Z.to_nat sealed_len) buf) (addr ps);
            if rc <? 0 then
              e ← get_errno;
              _ ← log_warn me (str "failed to send keepalive to " ++ h ++ str ": " ++ env_strerror e);
              mret ps
            else
              _ ← log_debug me (str "sent keepalive to " ++ h);
              mret (set_stats (count_tx sealed_len) ps));
    mret (set_last_tx now ps, buf)
  else mret (ps, buf).

(** Lines 500-519. *)
Definition rehandshake (me : bytes) (udp : udp_socket_t) (now : Z) (ps : peer_session_t) (buf : bytes) :
    M (peer_session_t * bytes) :=
  let h := quoted (host (config ps)) in
  if is_initiator ps && (SESSION_TIMEOUT_MS <=? u64 (now - last_rx_activity_ms ps)) then
    _ ← (if addr_resolved ps
         then log_warn me (str "heard nothing from " ++ h ++ str " in " ++
                dec (u32 (now - last_rx_activity_ms ps)) ++ str "ms, re-handshaking")
         else mret tt);
    initiate_handshake ps me udp buf now
  else if is_initiator ps && established ps &&
          (KEY_ROTATION_INTERVAL_MS <=? u64 (now - last_handshake_completed_ms ps)) then
    _ ← log_info me (str "rotating session keys with " ++ h ++ str " after " ++
          dec (u32 (now - last_handshake_completed_ms ps)) ++ str "ms");
    initiate_handshake ps me udp buf now
  else mret (ps, buf).

Definition peer_timers (me : bytes) (udp : udp_socket_t) (now : Z) (ps : peer_session_t) (buf : bytes) :
    M (peer_session_t * bytes) :=
  '(ps, buf) ← keepalive me udp now ps buf;
  rehandshake me udp now ps buf.

(** [for (int i = 0; i < cfg.peer_count; i++)]. *)
Fixpoint all_timers (me : bytes) (udp : udp_socket_t) (now : Z) (peers : list peer_session_t)
    (buf : bytes) : M (list peer_session_t * bytes) :=
  match peers with
  | [] => mret ([], buf)
  | ps :: rest =>
      '(ps, buf) ← peer_timers me udp now ps buf;
      '(rest, buf) ← all_timers me udp now rest buf;
      mret (ps :: rest, buf)
  end.

Definition timers (d : daemon) : M daemon :=
  if (0 <? peer_count (cfg d))%nat then
    now ← monotonic_ms;
    '(peers, buf) ← all_timers (name (cfg d)) (udp d) now (d_peers d) (cipher_buf d);
    let d := set_cipher buf (set_all_peers peers d) in
    if STATS_INTERVAL_MS <=? u64 (now - last_stats_ms d) then
      _ ← log_stats (name (cfg d)) (d_peers d);
      mret (set_stats_time now d)
    else mret d
  else mret d.

(** ** The poll loop *)

(** The body: [false] when it breaks out. *)
Definition iteration (d : daemon) : M (bool * daemon) :=
  '(ready, tun_in, udp_in) ← ask env_poll;
  if ready <? 0 then
    e ← ask env_errno;
    _ ← set_errno e;
    if e =? EINTR then mret (true, d)
    else
      _ ← log_error (name (cfg d)) (str "poll error: " ++ env_strerror e);
      mret (false, d)
  else
    d ← (if (0 <? ready) && tun_in then tun_ready d else mret d);
    d ← (if (0 <? ready) && udp_in then udp_ready d else mret d);
    d ← timers d;
    mret (true, d).

(** At most [fuel] iterations; the flag says whether the loop has ended. *)
Fixpoint main_loop (fuel installed : nat) (d : daemon) : M (bool * daemon) :=
  match fuel with
  | O => mret (false, d)
  | S fuel =>
      running ← g_running installed;
      if negb (running =? 0) then
        '(go_on, d) ← iteration d;
        if (go_on : bool) then main_loop fuel installed d else mret (true, d)
      else mret (true, d)
  end.

Definition shutdown (d : daemon) : M unit :=
  _ ← log_info (name (cfg d)) (str "shutting down");
  _ ← udp_close (udp d);
  _ ← tun_close (tun d);
  mret tt.

(** ** Start-up *)

(** Lines 272-294, for the peers of the configuration not yet set up; [None]
    is the early return 1. *)
Fixpoint start_peers (c : edgarvpn_config_t) (tun : tun_device_t) (udp : udp_socket_t) (local_pk : bytes)
    (todo : list config_peer_t) (buf : bytes) : M (option (list peer_session_t * bytes)) :=
  match todo with
  | [] => mret (Some ([], buf))
  | q :: todo =>
      '(rc, s) ← session_init (peer_role q) local_pk (private_key c) (public_key q);
      let ps := set_session s (new_peer q) in
      if negb (rc =? 0) then
        _ ← log_error (name c) (str "failed to initialize session with " ++ quoted (host q) ++
              str " (its PublicKey may be invalid)");
        _ ← udp_close udp;
        _ ← tun_close tun;
        mret None
      else
        t ← monotonic_ms;
        let ps := set_last_rx t ps in
        '(ps, buf) ←
          (if bool_decide (peer_role q = CRYPTO_ROLE_INITIATOR) then
             now ← monotonic_ms;
             initiate_handshake ps (name c) udp buf now
           else
             _ ← log_info (name c) (str "awaiting handshake init from " ++ quoted (host q));
             mret (ps, buf));
        r ← start_peers c tun udp local_pk todo buf;
        match r with
        | None => mret None
        | Some (rest, buf) => mret (Some (ps :: rest, buf))
        end
  end.

Definition up_text (c : edgarvpn_config_t) (tun : tun_device_t) : bytes :=
  str "up: interface " ++ quoted (t_name tun) ++ str " (" ++ tun_address c ++ str "/" ++
  tun_netmask c ++ str "), UDP :" ++ dec (listen_port c) ++ str ", ".

(** Lines 256-302 and 304-311, once the TUN device is up. *)
Definition start_network (c : edgarvpn_config_t) (tun : tun_device_t) (cipher0 plain0 : bytes) :
    M (option daemon) :=
  '(rc, udp) ← udp_bind (listen_port c);
  if negb (rc =? 0) then
    e ← get_errno;
    _ ← log_error (name c) (str "failed to bind UDP port " ++ dec (listen_port c) ++ str ": " ++
          env_strerror e);
    _ ← tun_close tun;
    mret None
  else
    r ← (if (0 <? peer_count c)%nat then
           let local_pk := crypto_derive_public_key (private_key c) in
           r ← start_peers c tun udp local_pk (take (peer_count c) (peers c)) cipher0;
           match r with
           | None => mret None
           | Some r =>
               _ ← log_info (name c) (up_text c tun ++ dec (Z.of_nat (peer_count c)) ++
                     str " peer(s) configured");
               mret (Some r)
           end
         else
           _ ← log_info (name c) (up_text c tun ++ str "no peers configured (capture-only)");
           mret (Some ([], cipher0)));
    match r with
    | None => mret None
    | Some (ps, buf) =>
        t ← monotonic_ms;
        mret (Some {| cfg := c; tun := tun; udp := udp; d_peers := ps; cipher_buf := buf;
                      plain_buf := plain0; last_stats_ms := t |})
    end.

(** [main] from the check of the crypto library up to the loop; [None] is the
    exit status 1.  [cipher0] and [plain0] are what the stack holds where the
    two buffers are. *)
Definition start (cipher0 plain0 : bytes) : M (option daemon) :=
  if negb (crypto_init =? 0) then
    _ ← log_error (str "edgarvpn") (str "failed to initialize crypto library");
    mret None
  else
    path ← ask (fun n => env_getenv n (str "CONFIG_FILE"));
    let config_path := match path with None | Some [] => DEFAULT_CONFIG_PATH | Some p => p end in
    loaded ← config_load_file config_path;
    match loaded with
    | None => mret None
    | Some c =>
        '(rc, tun) ← tun_open (tun_name c);
        if negb (rc =? 0) then
          e ← get_errno;
          _ ← log_error (name c) (str "failed to open TUN device " ++ quoted (tun_name c) ++
                str ": " ++ env_strerror e);
          mret None
        else
          rc ← tun_configure tun (tun_address c) (tun_netmask c);
          if negb (rc =? 0) then
            e ← get_errno;
            _ ← log_error (name c) (str "failed to configure TUN device " ++ quoted (t_name tun) ++
                  str ": " ++ env_strerror e);
            _ ← tun_close tun;
            mret None
          else start_network c tun cipher0 plain0
    end.

(** The whole program: the exit status, or [None] while it is still in the
    loop after [fuel] iterations. *)
Definition main (fuel : nat) (cipher0 plain0 : bytes) : M (option Z) :=
  _ ← log_init;
  installed ← install_handlers;
  d ← start cipher0 plain0;
  match d with
  | None => mret (Some 1)
  | Some d =>
      '(ended, d) ← main_loop fuel installed d;
      if (ended : bool) then _ ← shutdown d; mret (Some 0) else mret None
  end.
End Daemon.
