(* ===== verification/DaemonFacts.v ===== *)
(** * Facts about the daemon

    The invariant of the runtime state, and what each function and branch of
    src/main.c does to it and puts on the wire. *)

From Stdlib Require Import String.
From S2P Require Import Prelude World Crypto Session Replay SessionFacts SessionRuns Libc Config.
From S2P Require Import ConfigFacts Routing Log Net Daemon.
Open Scope list_scope.

(** What the kernel hands over is a sequence of bytes, and the configuration
    file is smaller than 2 GiB. *)
Class IoLaws `{Env} := {
  env_recvfrom_bytes n data from : env_recvfrom n = Some (data, from) -> is_bytes data;
  env_tun_read_bytes n packet : env_tun_read n = Some packet -> is_bytes packet;
  env_fopen_size n path fd f : env_fopen n path = Some (fd, f) -> zlen f < INT_MAX
}.

(** ** The invariant *)
Record peer_inv `{Sodium} (ps : peer_session_t) : Prop := {
  pi_wf : session_wf (session ps);
  pi_window : exists accepted, window_rep (session ps) accepted;
  pi_role : role (session ps) = peer_role (config ps);
  (** an initiator's session is established only with a peer it can reach *)
  pi_known : peer_role (config ps) = CRYPTO_ROLE_INITIATOR ->
             state (session ps) = SESSION_STATE_ESTABLISHED -> addr_resolved ps = true;
  (** a pending session's ephemeral pair is one that the generator made *)
  pi_eph : state (session ps) = SESSION_STATE_HANDSHAKE_PENDING -> eph_honest (session ps)
}.

Record daemon_inv `{Sodium} (d : daemon) : Prop := {
  di_config : config_wf (cfg d);
  di_count : length (d_peers d) = peer_count (cfg d);
  di_peers : Forall peer_inv (d_peers d);
  di_configs : forall i ps, d_peers d !! i = Some ps -> peers (cfg d) !! i = Some (config ps);
  di_cipher : length (cipher_buf d) = SEALED_BUF_SIZE;
  di_plain : length (plain_buf d) = MAX_PACKET_SIZE
}.

(** ** The session operations keep the peer's invariant *)

(** Everything but the session and the bookkeeping of [main] is the same. *)
Definition same_peer (ps ps' : peer_session_t) : Prop :=
  config ps' = config ps /\ addr_resolved ps' = addr_resolved ps /\ addr ps' = addr ps.

Lemma same_peer_refl ps : same_peer ps ps.
Proof. done. Qed.

Lemma peer_inv_bookkeeping `{Sodium} ps ps' :
  peer_inv ps -> session ps' = session ps -> config ps' = config ps ->
  (addr_resolved ps = true -> addr_resolved ps' = true) -> peer_inv ps'.
Proof. intros [Hw Hr Hro Hk He] Es Ec Ha. split; rewrite ?Es, ?Ec; auto. Qed.

Section SessionSteps.
  Context `{SO : Sodium} {SL : SodiumLaws} `{EV : Env} {EL : EnvLaws}.

Lemma peer_inv_restarted ps n ps' :
  peer_inv ps -> session ps' = restarted (env_keypair n) (session ps) ->
  config ps' = config ps -> peer_inv ps'.
Proof.
  intros [Hw Hr Hro Hk He] Es Ec. split; rewrite ?Es, ?Ec.
  - by apply restarted_wf.
  - exists []. apply window_rep_reset.
  - done.
  - done.
  - intros _. apply restarted_honest.
Qed.

(** A change of the session that touches neither the window, the role nor the
    state. *)
Lemma peer_inv_session ps s :
  peer_inv ps -> session_wf s -> (exists accepted, window_rep s accepted) ->
  role s = role (session ps) -> (state s = state (session ps) \/ addr_resolved ps = true \/
    peer_role (config ps) = CRYPTO_ROLE_RESPONDER) ->
  (state s = SESSION_STATE_HANDSHAKE_PENDING -> state (session ps) = SESSION_STATE_HANDSHAKE_PENDING /\
     local_eph_pk s = local_eph_pk (session ps) /\ local_eph_sk s = local_eph_sk (session ps)) ->
  peer_inv (set_session s ps).
Proof.
  intros [Hw Hr Hro Hk He] ? ? Er Es Hp. split; try done; cbn.
  - by rewrite Er.
  - intros Hi Hst. destruct Es as [Es|[?|Es]]; [|done|congruence]. rewrite Es in Hst. auto.
  - intros (Hst & Epk & Esk)%Hp. unfold eph_honest in *. rewrite Epk, Esk. auto.
Qed.

Lemma build_init_inv ps buf :
  peer_inv ps -> (SESSION_HANDSHAKE_MSG_LEN <= length buf)%nat ->
  peer_role (config ps) = CRYPTO_ROLE_INITIATOR -> state (session ps) = SESSION_STATE_HANDSHAKE_PENDING ->
  exists s buf',
    session_build_init (session ps) buf = Some (57, s, buf') /\ length buf' = length buf /\
    peer_inv (set_session s ps) /\ state s = SESSION_STATE_HANDSHAKE_PENDING /\
    take 57 buf' = message SESSION_MSG_HANDSHAKE_INIT (tx (static_keys (session ps)))
                     (handshake_counter (session ps)) (local_eph_pk (session ps)).
Proof.
  intros Hi Hb Hr Hs. pose proof (pi_wf _ Hi) as Hw.
  pose proof (wf_eph_pk _ Hw) as Hpk. unfold CRYPTO_PUBLIC_KEY_BYTES in Hpk.
  assert (SESSION_HANDSHAKE_MSG_LEN = 57%nat) as E57 by done.
  destruct (build_init_eq (session ps) buf Hw) as [[_ E]|[H _]].
  - eexists _, _. split; [exact E|]. rewrite length_app, message_length, length_drop, Hpk.
    split; [lia|]. split; [|split; [done|]].
    + apply peer_inv_session; try done; [|by destruct (pi_window _ Hi) as [acc ?]; exists acc|by left].
      destruct Hw; split; try done. cbn. apply u64_range.
    + rewrite take_app_length'; [done|]. rewrite message_length, Hpk. done.
  - destruct H. split; [by rewrite (pi_role _ Hi)|]. done.
Qed.

(** Sealing: what is sent, and the counter that moves. *)
Lemma seal_inv_step ps p buf :
  peer_inv ps -> state (session ps) = SESSION_STATE_ESTABLISHED ->
  (length p + 25 <= length buf)%nat -> zlen buf < 2 ^ 64 ->
  exists s buf',
    session_seal_data (session ps) p buf = Some (zlen p + 25, s, buf') /\
    length buf' = length buf /\ peer_inv (set_session s ps) /\
    s = set_tx_counter (u64 (tx_counter (session ps) + 1)) (session ps) /\
    take (Z.to_nat (zlen p + 25)) buf' =
      message SESSION_MSG_DATA (tx (data_keys (session ps))) (tx_counter (session ps)) p.
Proof.
  intros Hi Hs Hb Hlen. destruct (seal_data_eq (session ps) p buf) as [[_ E]|[H _]]; [lia| |].
  - eexists _, _. split; [exact E|]. rewrite length_app, message_length, length_drop.
    split; [lia|]. split; [|split; [done|]].
    + apply peer_inv_session; try done; [|by destruct (pi_window _ Hi) as [acc ?]; exists acc|by left].
      destruct (pi_wf _ Hi); split; try done. cbn. apply u64_range.
    + rewrite take_app_length'; [done|]. rewrite message_length. lia.
  - by destruct H.
Qed.
End SessionSteps.

(** ** Weakest preconditions of the calls *)
Section Calls.
  Context `{SO : Sodium} {SL : SodiumLaws} `{EV : Env} {EL : EnvLaws} {CL : ClockLaws} {IL : IoLaws}.

Lemma quiet_wire w w' : quiet w w' -> wire w' = wire w /\ w_errno w' = w_errno w.
Proof.
  intros [E [l H]]. split; [|done]. unfold wire. rewrite H, filter_app.
  replace (filter is_wire (map (fun l => EvPrint l.1 l.2) l)) with (@nil io_event); [by rewrite app_nil_r|].
  clear. induction l as [|x l IH]; [done|]. cbn. done.
Qed.

Lemma wp_log level component text Q w :
  (forall w', wire w' = wire w -> Q tt w') -> wp (log_at level component text) Q w.
Proof.
  intros H. destruct (log_at_quiet level component text w) as (w' & E & [Hw _]%quiet_wire).
  unfold wp. rewrite E. by apply H.
Qed.

(** The monotonic clock in milliseconds, read in [w]. *)
Definition clock_ms (w : world) : Z :=
  u64 (u64 (env_monotonic (w_calls w)).1 * 1000 + u64 (Z.quot (env_monotonic (w_calls w)).2 1000000)).

Lemma wp_clock Q w : (forall w', wire w' = wire w -> Q (clock_ms w) w') -> wp monotonic_ms Q w.
Proof.
  intros H. unfold monotonic_ms. apply wp_bind, wp_ask. intros w' E _. unfold clock_ms in H.
  destruct (env_monotonic _). by apply wp_ret, H.
Qed.

Lemma wp_monotonic Q w : (forall t w', wire w' = wire w -> Q t w') -> wp monotonic_ms Q w.
Proof. intros H. apply wp_clock. auto. Qed.

Lemma wp_send sock data dest Q w :
  (forall rc w', wire w' = wire w ++ [EvSend (u_fd sock) dest data rc] -> Q rc w') ->
  wp (udp_send sock data dest) Q w.
Proof.
  intros H. unfold udp_send. apply wp_bind, wp_syscall. intros rc w1 E1.
  apply wp_bind, wp_emit. intros w2 E2 _. apply wp_ret, H. by rewrite E2, E1.
Qed.

Lemma wp_tun_write dev data Q w :
  (forall rc w', wire w' = wire w ++ [EvTunWrite (t_fd dev) data rc] -> Q rc w') ->
  wp (tun_write dev data) Q w.
Proof.
  intros H. unfold tun_write. apply wp_bind, wp_syscall. intros rc w1 E1.
  apply wp_bind, wp_emit. intros w2 E2 _. apply wp_ret, H. by rewrite E2, E1.
Qed.

Lemma wp_resolve a h p Q w :
  (forall w', wire w' = wire w -> Q (-1, a) w') ->
  (forall a' w', wire w' = wire w -> Q (0, a') w') -> wp (udp_resolve a h p) Q w.
Proof.
  intros H1 H2. unfold udp_resolve. apply wp_bind, wp_ask. intros w' E _.
  destruct (env_getaddrinfo _ _); by apply wp_ret; auto.
Qed.

Lemma wp_start_handshake s Q w :
  (forall n w', wire w' = wire w -> Q (restarted (env_keypair n) s) w') ->
  wp (session_start_handshake s) Q w.
Proof. intros H. unfold wp. rewrite start_handshake_eq. by apply H. Qed.

Lemma wp_handle_init s inp out Q w :
  session_wf s -> is_bytes inp -> zlen inp < 2 ^ 64 ->
  (forall w', wire w' = wire w ->
     ((57 <= length out)%nat -> forall c p, ~ acceptable_init s inp c p) -> Q (-1, s, out) w') ->
  (forall s' keys w' c p, wire w' = wire w -> acceptable_init s inp c p -> keys_wf keys ->
     (s' = s \/ exists n, s' = restarted (env_keypair n) s) ->
     Q (-1, set_data_keys keys s', out) w') ->
  (forall s' keys c p w', wire w' = wire w -> acceptable_init s inp c p -> keys_wf keys ->
     (s' = s /\ state s = SESSION_STATE_HANDSHAKE_PENDING \/
      exists n, s' = restarted (env_keypair n) s) ->
     crypto_derive_session_keys CRYPTO_ROLE_RESPONDER (local_eph_pk s') (local_eph_sk s') p
       (data_keys s') = (0, keys) ->
     Q (57, responder_established keys c s',
        message SESSION_MSG_HANDSHAKE_RESPONSE (tx (static_keys s)) c (local_eph_pk s') ++ drop 57 out) w') ->
  wp (session_handle_init s inp out) Q w.
Proof.
  intros Hw Hb Hl H1 H2 H3.
  destruct (handle_init_cases s inp out w Hw Hb Hl) as [[E Hn]|(_ & c & p & Ha & H)].
  { unfold wp. rewrite E. by apply H1. }
  destruct (responder_attempt s w) as [s1 w1] eqn:Ea.
  assert (wire w1 = wire w /\ (s1 = s /\ state s = SESSION_STATE_HANDSHAKE_PENDING \/
    exists n, s1 = restarted (env_keypair n) s)) as [Ew Es].
  { unfold responder_attempt in Ea. case_decide; simplify_eq; [by eauto|].
    split; [done|]. left. split; [done|]. by destruct (state s1). }
  pose proof (derive_wf CRYPTO_ROLE_RESPONDER (local_eph_pk s1) (local_eph_sk s1) p (data_keys s1)) as Hk.
  destruct (crypto_derive_session_keys _ _ _ _ _) as [rc keys] eqn:Ek.
  assert (keys_wf keys) by (apply Hk; destruct Es as [[-> _]|[n ->]]; apply (wf_data _ Hw)).
  unfold wp. destruct H as [[_ E]|[-> E]]; rewrite E; [eapply H2|eapply H3]; eauto.
  destruct Es as [[-> _]|?]; auto.
Qed.

(** ** Handshake attempts and timers *)

(** What [initiate_handshake] does: it stamps the attempt, and either the name
    does not resolve or a new attempt starts and one init goes to the peer. *)
Definition attempt_spec (now fd : Z) (ps ps' : peer_session_t) (events : list io_event) : Prop :=
  config ps' = config ps /\ stats ps' = stats ps /\ last_rx_activity_ms ps' = now /\
  last_handshake_completed_ms ps' = last_handshake_completed_ms ps /\
  ((addr_resolved ps = false /\ ps' = set_last_rx now ps /\ events = []) \/
   (addr_resolved ps' = true /\ (addr_resolved ps = true -> addr ps' = addr ps) /\
    last_tx_activity_ms ps' = now /\
    state (session ps') = SESSION_STATE_HANDSHAKE_PENDING /\
    exists n rc,
      session ps' = set_handshake_counters (u64 (handshake_counter (session ps) + 1))
        (handshake_counter (session ps)) (restarted (env_keypair n) (session ps)) /\
      events = [EvSend fd (addr ps')
        (message SESSION_MSG_HANDSHAKE_INIT (tx (static_keys (session ps)))
           (handshake_counter (session ps)) (env_keypair n).1) rc])).

(** The postcondition, for a call on [ps] in [w]. *)
Definition attempt_post (ps : peer_session_t) (sock : udp_socket_t) (buf : bytes) (now : Z) (w : world)
    (r : peer_session_t * bytes) (w' : world) : Prop :=
  length r.2 = length buf /\ peer_inv r.1 /\
  exists events, wire w' = wire w ++ events /\ attempt_spec now (u_fd sock) ps r.1 events.

Lemma start_attempt_wp ps ps1 me sock buf now w w1 :
  peer_inv ps1 -> peer_role (config ps) = CRYPTO_ROLE_INITIATOR ->
  (SESSION_HANDSHAKE_MSG_LEN <= length buf)%nat ->
  config ps1 = config ps -> stats ps1 = stats ps -> session ps1 = session ps ->
  last_handshake_completed_ms ps1 = last_handshake_completed_ms ps ->
  addr_resolved ps1 = true -> (addr_resolved ps = true -> addr ps1 = addr ps) -> wire w1 = wire w ->
  wp (start_attempt ps1 me sock buf now) (attempt_post ps sock buf now w) w1.
Proof.
  intros Hi1 Hr Hb Ec Est Es Eh Ea Eaddr Ew. unfold start_attempt, attempt_post.
  apply wp_bind, wp_start_handshake. intros n w2 E2.
  set (ps2 := set_last_tx now (set_last_rx now (set_session (restarted (env_keypair n) (session ps1)) ps1))).
  assert (peer_inv ps2) as Hi2 by (by apply (peer_inv_restarted ps1 n)).
  destruct (build_init_inv ps2 buf Hi2 Hb) as (s & buf' & E & Hl & Hi3 & Hst & Em);
    [cbn; congruence|done|].
  apply wp_bind. eapply wp_lift; [exact E|]. cbv beta iota zeta.
  apply wp_bind. cbn [Z.ltb Z.compare]. apply wp_bind, wp_send. intros rc w3 E3. apply wp_ret.
  set (events := [EvSend (u_fd sock) (addr (set_session s ps2))
    (message SESSION_MSG_HANDSHAKE_INIT (tx (static_keys (session ps)))
       (handshake_counter (session ps)) (env_keypair n).1) rc]).
  assert (wire w3 = wire w ++ events) as E3'.
  { rewrite E3, E2, Ew. change (Z.to_nat 57) with 57%nat. rewrite Em. unfold events. cbn. by rewrite Es. }
  assert (s = set_handshake_counters (u64 (handshake_counter (session ps) + 1))
    (handshake_counter (session ps)) (restarted (env_keypair n) (session ps))) as Ek.
  { destruct (build_init_eq (session ps2) buf (pi_wf _ Hi2)) as [[_ E']|[_ E']];
      rewrite E' in E; simplify_eq. cbn. by rewrite Es. }
  assert (attempt_spec now (u_fd sock) ps (set_session s ps2) events) as Sp.
  { split; [done|]. split; [done|]. split; [done|]. split; [done|]. right.
    split; [done|]. split; [done|]. split; [done|]. split; [done|]. by exists n, rc. }
  destruct (rc <? 0); apply wp_bind, wp_log; intros w4 E4; apply wp_ret; cbn [fst snd];
    (split; [done|]); (split; [done|]); exists events; (split; [congruence|exact Sp]).
Qed.

Lemma initiate_handshake_wp ps me sock buf now w :
  peer_inv ps -> peer_role (config ps) = CRYPTO_ROLE_INITIATOR ->
  (SESSION_HANDSHAKE_MSG_LEN <= length buf)%nat ->
  wp (initiate_handshake ps me sock buf now) (attempt_post ps sock buf now w) w.
Proof.
  intros Hi Hr Hb. unfold initiate_handshake.
  destruct (addr_resolved ps) eqn:Ea; [by apply start_attempt_wp|].
  apply wp_bind, wp_resolve.
  - intros w1 E1. apply wp_bind, wp_log. intros w2 E2. apply wp_ret.
    split; [done|]. split; [by apply (peer_inv_bookkeeping ps)|].
    exists []. rewrite app_nil_r. split; [congruence|].
    split; [done|]. split; [done|]. split; [done|]. split; [done|]. by left.
  - intros a w1 E1. apply start_attempt_wp; try done; [|by rewrite Ea].
    by apply (peer_inv_bookkeeping ps).
Qed.

(** When the timers act. *)
Definition keepalive_due (now : Z) (ps : peer_session_t) : bool :=
  addr_resolved ps && established ps && (KEEPALIVE_INTERVAL_MS <=? u64 (now - last_tx_activity_ms ps)).

Definition rehandshake_due (now : Z) (ps : peer_session_t) : bool :=
  is_initiator ps &&
  ((SESSION_TIMEOUT_MS <=? u64 (now - last_rx_activity_ms ps)) ||
   (established ps && (KEY_ROTATION_INTERVAL_MS <=? u64 (now - last_handshake_completed_ms ps)))).

(** A keepalive is one empty data message to the peer's address. *)
Definition keepalive_spec (now fd : Z) (ps ps' : peer_session_t) (events : list io_event) : Prop :=
  if keepalive_due now ps then
    same_peer ps ps' /\ last_tx_activity_ms ps' = now /\
    last_rx_activity_ms ps' = last_rx_activity_ms ps /\
    last_handshake_completed_ms ps' = last_handshake_completed_ms ps /\
    session ps' = set_tx_counter (u64 (tx_counter (session ps) + 1)) (session ps) /\
    exists rc, events = [EvSend fd (addr ps)
      (message SESSION_MSG_DATA (tx (data_keys (session ps))) (tx_counter (session ps)) []) rc]
  else ps' = ps /\ events = [].

Lemma keepalive_wp ps me sock buf now w :
  peer_inv ps -> (SESSION_DATA_OVERHEAD <= length buf)%nat -> zlen buf < 2 ^ 64 ->
  wp (keepalive me sock now ps buf) (fun r w' =>
    length r.2 = length buf /\ peer_inv r.1 /\
    exists events, wire w' = wire w ++ events /\ keepalive_spec now (u_fd sock) ps r.1 events) w.
Proof.
  intros Hi Hb Hl. unfold keepalive, keepalive_spec. fold (keepalive_due now ps).
  destruct (keepalive_due now ps) eqn:Ed.
  2:{ apply wp_ret. split; [done|]. split; [done|]. exists []. by rewrite app_nil_r. }
  unfold keepalive_due, established in Ed. reflect_bools.
  destruct (seal_inv_step ps [] buf Hi) as (s & buf' & E & Hl' & Hi' & Es & Em);
    [done|by cbn; cbn in Hb|done|].
  apply wp_bind. eapply wp_lift; [exact E|]. cbv beta iota zeta.
  cbn [length Z.of_nat Z.add Z.ltb Z.compare Z.to_nat] in *.
  apply wp_bind, wp_bind, wp_send. intros rc w2 E2. rewrite Em in E2. cbn [set_session addr] in E2.
  assert (forall ps' w', wire w' = wire w2 -> session ps' = s -> same_peer ps ps' ->
    last_rx_activity_ms ps' = last_rx_activity_ms ps ->
    last_handshake_completed_ms ps' = last_handshake_completed_ms ps ->
    wp (mret (set_last_tx now ps', buf')) (fun r w' => length r.2 = length buf /\ peer_inv r.1 /\
      exists events, wire w' = wire w ++ events /\
        same_peer ps r.1 /\ last_tx_activity_ms r.1 = now /\
        last_rx_activity_ms r.1 = last_rx_activity_ms ps /\
        last_handshake_completed_ms r.1 = last_handshake_completed_ms ps /\
        session r.1 = set_tx_counter (u64 (tx_counter (session ps) + 1)) (session ps) /\
        exists rc, events = [EvSend (u_fd sock) (addr ps)
          (message SESSION_MSG_DATA (tx (data_keys (session ps))) (tx_counter (session ps)) []) rc]) w')
    as Fin.
  { intros ps' w' Ew Esn Hsame E3 E4. apply wp_ret. cbn [fst snd].
    split; [done|]. split.
    { destruct Hsame as (? & ? & ?). apply (peer_inv_bookkeeping (set_session s ps)); try done.
      cbn. congruence. }
    eexists. split; [rewrite Ew, E2; reflexivity|]. cbn. rewrite Esn. by eauto 10. }
  destruct (rc <? 0).
  - apply wp_bind, wp_get_errno. apply wp_bind, wp_log. intros w3 E3. by apply wp_ret, Fin.
  - apply wp_bind, wp_log. intros w3 E3. by apply wp_ret, Fin.
Qed.

Lemma rehandshake_wp ps me sock buf now w :
  peer_inv ps -> (SESSION_HANDSHAKE_MSG_LEN <= length buf)%nat ->
  wp (rehandshake me sock now ps buf) (fun r w' =>
    length r.2 = length buf /\ peer_inv r.1 /\
    exists events, wire w' = wire w ++ events /\
      if rehandshake_due now ps then attempt_spec now (u_fd sock) ps r.1 events
      else r.1 = ps /\ events = []) w.
Proof.
  intros Hi Hb. unfold rehandshake, rehandshake_due.
  destruct (is_initiator ps) eqn:Ei; cbn [andb].
  2:{ apply wp_ret. split; [done|]. split; [done|]. exists []. by rewrite app_nil_r. }
  unfold is_initiator in Ei. reflect_bools.
  assert (forall w1, wire w1 = wire w -> wp (initiate_handshake ps me sock buf now) (fun r w' =>
    length r.2 = length buf /\ peer_inv r.1 /\ exists events, wire w' = wire w ++ events /\
      attempt_spec now (u_fd sock) ps r.1 events) w1) as Att.
  { intros w1 E1. eapply wp_mono; [by apply initiate_handshake_wp|].
    intros r w' (? & ? & ev & ? & ?). split; [done|]. split; [done|]. exists ev. split; [congruence|done]. }
  destruct (SESSION_TIMEOUT_MS <=? _); cbn [orb].
  { apply wp_bind. destruct (addr_resolved ps); [apply wp_log|apply wp_ret]; auto. }
  destruct (established ps && _).
  { apply wp_bind, wp_log. intros w1 E1. by apply Att. }
  apply wp_ret. split; [done|]. split; [done|]. exists []. by rewrite app_nil_r.
Qed.

(** One pass of the timers over a peer: a keepalive if due, then a handshake
    attempt if due. *)
Definition peer_tick (now fd : Z) (ps ps' : peer_session_t) (events : list io_event) : Prop :=
  exists ps1 ka hs,
    events = ka ++ hs /\ keepalive_spec now fd ps ps1 ka /\
    if rehandshake_due now ps1 then attempt_spec now fd ps1 ps' hs else ps' = ps1 /\ hs = [].

Lemma peer_timers_wp ps me sock buf now w :
  peer_inv ps -> (SESSION_HANDSHAKE_MSG_LEN <= length buf)%nat -> zlen buf < 2 ^ 64 ->
  wp (peer_timers me sock now ps buf) (fun r w' =>
    length r.2 = length buf /\ peer_inv r.1 /\
    exists events, wire w' = wire w ++ events /\ peer_tick now (u_fd sock) ps r.1 events) w.
Proof.
  intros Hi Hb Hl. unfold peer_timers. apply wp_bind.
  eapply wp_mono; [apply keepalive_wp; [done| |done]|].
  { etrans; [|exact Hb]. unfold SESSION_HANDSHAKE_MSG_LEN, SESSION_DATA_OVERHEAD. lia. }
  intros [ps1 buf1] w1 (Hb1 & Hi1 & ka & E1 & S1). cbn [fst snd] in *.
  eapply wp_mono; [apply rehandshake_wp; [done|lia]|].
  intros [ps2 buf2] w2 (Hb2 & Hi2 & hs & E2 & S2). cbn [fst snd] in *.
  split; [lia|]. split; [done|]. exists (ka ++ hs). split; [by rewrite E2, E1, app_assoc|].
  by exists ps1, ka, hs.
Qed.

Lemma all_timers_wp peers me sock buf now w :
  Forall peer_inv peers -> (SESSION_HANDSHAKE_MSG_LEN <= length buf)%nat -> zlen buf < 2 ^ 64 ->
  wp (all_timers me sock now peers buf) (fun r w' =>
    length r.2 = length buf /\ Forall peer_inv r.1 /\
    exists ticks, r.1 = map fst ticks /\ wire w' = wire w ++ concat (map snd ticks) /\
      Forall2 (fun ps t => peer_tick now (u_fd sock) ps t.1 t.2) peers ticks) w.
Proof.
  intros Hall. revert buf w. induction Hall as [|ps rest Hi Hrest IH]; intros buf w Hb Hl; cbn [all_timers].
  { apply wp_ret. split; [done|]. split; [constructor|]. exists []. by rewrite app_nil_r. }
  apply wp_bind. eapply wp_mono; [by apply peer_timers_wp|].
  intros [ps1 buf1] w1 (Hb1 & Hi1 & ev & E1 & S1). cbn [fst snd] in *.
  apply wp_bind. eapply wp_mono; [apply IH; lia|].
  intros [rest1 buf2] w2 (Hb2 & Hi2 & ticks & Er & E2 & S2). cbn [fst snd] in *. subst rest1.
  apply wp_ret. cbn [fst snd]. split; [lia|]. split; [by constructor|].
  exists ((ps1, ev) :: ticks). split; [done|]. split; [|by constructor].
  cbn. by rewrite E2, E1, app_assoc.
Qed.

Lemma log_stats_wp me peers Q w :
  (forall w', wire w' = wire w -> Q tt w') -> wp (log_stats me peers) Q w.
Proof.
  revert w. induction peers as [|ps peers IH]; intros w H; cbn [log_stats]; [by apply H|].
  apply wp_bind, wp_log. intros w1 E1. apply IH. intros w2 E2. apply H. congruence.
Qed.

(** The deadlines that hold once the timers have run. *)
Definition deadlines (now : Z) (ps : peer_session_t) : Prop :=
  (addr_resolved ps = true -> established ps = true ->
     u64 (now - last_tx_activity_ms ps) < KEEPALIVE_INTERVAL_MS) /\
  (is_initiator ps = true -> u64 (now - last_rx_activity_ms ps) < SESSION_TIMEOUT_MS) /\
  (is_initiator ps = true -> established ps = true ->
     u64 (now - last_handshake_completed_ms ps) < KEY_ROTATION_INTERVAL_MS).

Lemma u64_now now : u64 (now - now) = 0.
Proof. by rewrite Z.sub_diag. Qed.

Lemma peer_tick_deadlines now fd ps ps' events :
  peer_inv ps -> peer_tick now fd ps ps' events -> deadlines now ps'.
Proof.
  intros Hi (ps1 & ka & hs & -> & Hka & Hhs).
  assert (addr_resolved ps1 = true -> established ps1 = true ->
     u64 (now - last_tx_activity_ms ps1) < KEEPALIVE_INTERVAL_MS) as Htx.
  { unfold keepalive_spec in Hka. destruct (keepalive_due now ps) eqn:Ed.
    - destruct Hka as (_ & -> & _). by rewrite u64_now.
    - destruct Hka as [-> _]. intros Ha He. unfold keepalive_due in Ed. rewrite Ha, He in Ed.
      cbn [andb] in Ed. by reflect_bools. }
  assert (addr_resolved ps1 = false -> is_initiator ps1 = true -> established ps1 = false) as Hun.
  { assert (config ps1 = config ps /\ addr_resolved ps1 = addr_resolved ps /\
      state (session ps1) = state (session ps)) as (Ec & Ea & Es).
    { unfold keepalive_spec in Hka. destruct (keepalive_due now ps).
      - destruct Hka as ((? & ? & ?) & _ & _ & _ & -> & _). done.
      - by destruct Hka as [-> _]. }
    intros Ha Hin. unfold is_initiator, established in *. rewrite Ec in Hin. rewrite Es.
    apply bool_decide_eq_true in Hin. apply bool_decide_eq_false. intros Hst.
    pose proof (pi_known _ Hi Hin Hst). congruence. }
  clear Hka Hi. unfold deadlines, rehandshake_due in *.
  destruct (is_initiator ps1) eqn:Ei; cbn [andb] in Hhs.
  2:{ destruct Hhs as [-> _]. rewrite Ei. split; [exact Htx|]. by split. }
  destruct ((_ <=? _) || _) eqn:Ed.
  - destruct Hhs as (Ec & _ & Erx & Ehs & Hor). rewrite Erx, u64_now.
    assert (is_initiator ps' = true) as Ei' by (unfold is_initiator; by rewrite Ec).
    rewrite Ei'. destruct Hor as [(Ha & -> & _)|(Ha & _ & Etx & Est & _)].
    + cbn. unfold established in *. cbn. split; [by rewrite Ha|]. split; [done|].
      intros _ He. specialize (Hun Ha eq_refl). congruence.
    + assert (established ps' = false) as -> by (unfold established; rewrite Est; done). done.
  - destruct Hhs as [-> _]. rewrite Ei. apply orb_false_iff in Ed as [E1 E2].
    split; [done|]. split; [by reflect_bools|]. intros _ He. rewrite He in E2. cbn [andb] in E2. by reflect_bools.
Qed.

(** The timers of the whole daemon. *)
Lemma peer_tick_config now fd ps ps' events : peer_tick now fd ps ps' events -> config ps' = config ps.
Proof.
  intros (ps1 & ka & hs & _ & Hka & Hhs).
  assert (config ps1 = config ps) as <-.
  { unfold keepalive_spec in Hka.
    destruct (keepalive_due now ps); [by destruct Hka as ((? & _) & _)|by destruct Hka as [-> _]]. }
  destruct (rehandshake_due now ps1); [by destruct Hhs as (? & _)|by destruct Hhs as [-> _]].
Qed.

Definition same_daemon (d d' : daemon) : Prop := cfg d' = cfg d /\ tun d' = tun d /\ udp d' = udp d.

Lemma same_daemon_trans d1 d2 d3 : same_daemon d1 d2 -> same_daemon d2 d3 -> same_daemon d1 d3.
Proof. unfold same_daemon. intros (? & ? & ?) (? & ? & ?). repeat split; congruence. Qed.

Lemma timers_wp d w :
  daemon_inv d ->
  wp (timers d) (fun d' w' =>
    daemon_inv d' /\ same_daemon d d' /\ plain_buf d' = plain_buf d /\
    exists ticks, d_peers d' = map fst ticks /\ wire w' = wire w ++ concat (map snd ticks) /\
      Forall2 (fun ps t => peer_tick (clock_ms w) (u_fd (udp d)) ps t.1 t.2) (d_peers d) ticks) w.
Proof.
  intros Hd. unfold timers. destruct (Nat.ltb_spec 0 (peer_count (cfg d))) as [Hn|Hn].
  2:{ apply wp_ret. split; [done|]. split; [done|]. split; [done|]. exists [].
      pose proof (di_count _ Hd) as Hc. destruct (d_peers d) eqn:E; [|cbn in Hc; lia].
      split; [done|]. by rewrite app_nil_r. }
  apply wp_bind, wp_clock. intros w1 E1. apply wp_bind.
  pose proof (di_cipher _ Hd) as Hc.
  eapply wp_mono; [apply all_timers_wp; [apply (di_peers _ Hd)|rewrite Hc; by apply Nat.leb_le|by rewrite Hc]|].
  intros [l buf] w2 (Hb & Hl & ticks & El & E2 & S2). cbn [fst snd] in *. subst l.
  set (d1 := set_cipher buf (set_all_peers (map fst ticks) d)).
  assert (daemon_inv d1) as Hd1.
  { destruct Hd as [H1 H2 H3 H4 H5 H6]. split; cbn [d1 set_cipher set_all_peers cfg d_peers cipher_buf plain_buf]; try done; [| |congruence].
    - rewrite length_map. by rewrite <- (Forall2_length _ _ _ S2).
    - intros i ps Hps. rewrite list_lookup_fmap in Hps. apply fmap_Some in Hps as ([ps' ev] & Ht & ->).
      apply (Forall2_lookup_r _ _ _ _ _ S2) in Ht as (ps0 & Hp0 & Htick). cbn in *.
      rewrite (peer_tick_config _ _ _ _ _ Htick). by apply H4. }
  assert (forall t w', wire w' = wire w2 -> daemon_inv (set_stats_time t d1) /\
    same_daemon d (set_stats_time t d1) /\ plain_buf (set_stats_time t d1) = plain_buf d /\
    exists ticks, d_peers (set_stats_time t d1) = map fst ticks /\ wire w' = wire w ++ concat (map snd ticks) /\
      Forall2 (fun ps t => peer_tick (clock_ms w) (u_fd (udp d)) ps t.1 t.2) (d_peers d) ticks) as Fin.
  { intros t w' Ew. split; [by destruct Hd1|]. split; [done|]. split; [done|].
    exists ticks. split; [done|]. split; [congruence|done]. }
  cbv zeta. fold d1. destruct (_ <=? _).
  - apply wp_bind, log_stats_wp. intros w3 E3. by apply wp_ret, Fin.
  - apply wp_ret. change d1 with (set_stats_time (last_stats_ms d) d1). by apply Fin.
Qed.

(** ** A packet from the TUN device *)

(** A routed packet goes, sealed, to the address of its peer if the session is
    established; everything else is dropped silently. *)
Definition forward_spec (d : daemon) (packet : bytes) (d' : daemon) (events : list io_event) : Prop :=
  exists r, route (cfg d) packet = Some r /\
  if r <? 0 then d_peers d' = d_peers d /\ events = []
  else exists ps ps',
    d_peers d !! Z.to_nat r = Some ps /\ d_peers d' = <[Z.to_nat r := ps']> (d_peers d) /\
    same_peer ps ps' /\
    if established ps then
      session ps' = set_tx_counter (u64 (tx_counter (session ps) + 1)) (session ps) /\
      exists rc, events = [EvSend (u_fd (udp d)) (addr ps)
        (message SESSION_MSG_DATA (tx (data_keys (session ps))) (tx_counter (session ps)) packet) rc]
    else session ps' = session ps /\ events = [].

(** Replacing one peer keeps the invariant. *)
Lemma set_peer_inv d i ps ps' :
  daemon_inv d -> d_peers d !! i = Some ps -> peer_inv ps' -> config ps' = config ps ->
  daemon_inv (set_peer i ps' d).
Proof.
  intros [H1 H2 H3 H4 H5 H6] Hi Hp Hc. split; cbn [set_peer cfg d_peers cipher_buf plain_buf]; try done.
  - by rewrite length_insert.
  - by apply Forall_insert.
  - intros j q Hq. apply list_lookup_insert_Some in Hq as [(<- & <- & _)|[_ Hq]]; [|by apply H4].
    rewrite Hc. by apply H4.
Qed.

Lemma set_cipher_inv d b : daemon_inv d -> length b = SEALED_BUF_SIZE -> daemon_inv (set_cipher b d).
Proof. by intros []. Qed.
Lemma set_plain_inv d b : daemon_inv d -> length b = MAX_PACKET_SIZE -> daemon_inv (set_plain b d).
Proof. by intros []. Qed.

Lemma route_total d packet :
  daemon_inv d -> is_bytes packet ->
  exists r, route (cfg d) packet = Some r /\ (0 <= r -> (Z.to_nat r < length (d_peers d))%nat).
Proof.
  intros Hd Hb. unfold route, routing_parse_ipv4_dest.
  destruct (Nat.ltb_spec (length packet) 20); [by exists (-1)|].
  destruct packet as [|b0 packet]; [cbn in *; lia|]. cbn [lookup list_lookup mbind option_bind].
  destruct (negb _); [by exists (-1)|].
  assert (length (take 4 (drop 16 (b0 :: packet))) = 4%nat) as L by (rewrite length_take, length_drop; lia).
  rewrite decide_True by done. cbn [mbind option_bind].
  destruct (routing_find_peer_spec (cfg d) (le_value (take 4 (drop 16 (b0 :: packet)))))
    as (r & E & H').
  - apply (di_config _ Hd).
  - pose proof (le_value_bounds (take 4 (drop 16 (b0 :: packet)))) as Hv. rewrite L in Hv.
    apply Hv. by apply Forall_take, Forall_drop.
  - exists r. split; [done|]. intros Hr. rewrite (di_count _ Hd).
    destruct H' as [[-> _]|(k & -> & Hk & _)]; [lia|]. by rewrite Nat2Z.id.
Qed.

Lemma take_fill (buf data : bytes) :
  take (Z.to_nat (zlen (take (length buf) data))) (take (length buf) data ++
    drop (length (take (length buf) data)) buf) = take (length buf) data.
Proof. rewrite Nat2Z.id. by rewrite take_app_length. Qed.

Lemma fill_length (buf data : bytes) :
  length (take (length buf) data ++ drop (length (take (length buf) data)) buf) = length buf.
Proof. rewrite length_app, length_drop, length_take. lia. Qed.

(** The state after a sealed packet went out, whatever bookkeeping follows. *)
Lemma forward_sent d r ps ps' s buf packet rc w w' :
  daemon_inv d -> 0 <= r -> route (cfg d) packet = Some r -> d_peers d !! Z.to_nat r = Some ps ->
  established ps = true -> peer_inv (set_session s ps) -> length buf = length (cipher_buf d) ->
  s = set_tx_counter (u64 (tx_counter (session ps) + 1)) (session ps) ->
  session ps' = s -> same_peer ps ps' ->
  wire w' = wire w ++ [EvSend (u_fd (udp d)) (addr ps)
    (message SESSION_MSG_DATA (tx (data_keys (session ps))) (tx_counter (session ps)) packet) rc] ->
  let d' := set_peer (Z.to_nat r) ps' (set_cipher buf (set_peer (Z.to_nat r) (set_session s ps) d)) in
  daemon_inv d' /\ same_daemon d d' /\
  exists events, wire w' = wire w ++ events /\ forward_spec d packet d' events.
Proof.
  intros Hd Hr Er Hps Ee His Hl Es Esn (Hc & Ha & Had) Ew d'.
  pose proof (lookup_lt_Some _ _ _ Hps) as Hlt.
  split.
  { eapply (set_peer_inv _ _ (set_session s ps)); [|cbn; by apply list_lookup_insert_eq| |done].
    - apply set_cipher_inv; [by eapply set_peer_inv|]. rewrite Hl. apply (di_cipher _ Hd).
    - apply (peer_inv_bookkeeping (set_session s ps)); try done. cbn. congruence. }
  split; [done|]. eexists. split; [exact Ew|]. exists r. split; [done|].
  destruct (Z.ltb_spec r 0); [lia|]. exists ps, ps'. split; [done|].
  split; [cbn; by rewrite list_insert_insert_eq|]. split; [done|]. rewrite Ee, Esn. by eauto.
Qed.

Lemma forward_packet_wp d packet n w :
  daemon_inv d -> is_bytes packet -> (length packet <= MAX_PACKET_SIZE)%nat ->
  take (Z.to_nat n) (plain_buf d) = packet ->
  wp (forward_packet d n) (fun d' w' =>
    daemon_inv d' /\ same_daemon d d' /\
    exists events, wire w' = wire w ++ events /\ forward_spec d packet d' events) w.
Proof.
  intros Hd Hb Hl Ht. unfold forward_packet. rewrite Ht.
  destruct (route_total d packet Hd Hb) as (r & Er & Hr).
  apply wp_bind. eapply wp_lift; [exact Er|]. destruct (Z.ltb_spec r 0).
  { apply wp_bind, wp_log. intros w1 E1. apply wp_ret. split; [done|]. split; [done|].
    exists []. split; [by rewrite app_nil_r|]. exists r. split; [done|].
    by destruct (Z.ltb_spec r 0); [|lia]. }
  destruct (lookup_lt_is_Some_2 _ _ (Hr ltac:(lia))) as [ps Hps].
  apply wp_bind. eapply wp_lift; [exact Hps|]. cbv zeta.
  pose proof (Forall_lookup_1 _ _ _ _ (di_peers _ Hd) Hps) as Hi.
  destruct (established ps) eqn:Ee; cbn [negb].
  2:{ apply wp_bind, wp_log. intros w1 E1. apply wp_ret.
      split; [by eapply set_peer_inv; [done|done|eapply peer_inv_bookkeeping|]|]. split; [done|].
      exists []. split; [by rewrite app_nil_r|]. exists r. split; [done|].
      destruct (Z.ltb_spec r 0); [lia|]. eexists ps, _. split; [done|]. split; [done|].
      split; [done|]. by rewrite Ee. }
  destruct (seal_inv_step ps packet (cipher_buf d) Hi) as (s & buf & E & Hlb & His & Es & Em).
  { unfold established in Ee. by reflect_bools. }
  { rewrite (di_cipher _ Hd). unfold SEALED_BUF_SIZE, SESSION_DATA_OVERHEAD, CRYPTO_PACKET_OVERHEAD,
      CRYPTO_COUNTER_BYTES, CRYPTO_TAG_BYTES. lia. }
  { by rewrite (di_cipher _ Hd). }
  apply wp_bind. eapply wp_lift; [exact E|]. cbv beta iota.
  destruct (Z.ltb_spec (zlen packet + 25) 0); [lia|].
  apply wp_bind, wp_send. intros rc w2 E2. rewrite Em in E2. cbn [set_session addr set_cipher set_peer udp] in E2.
  destruct (rc <? 0).
  - apply wp_bind, wp_get_errno. apply wp_bind, wp_log. intros w3 E3. apply wp_ret. rewrite <- E3 in E2.
    pose proof (forward_sent d r ps (set_session s ps) s buf packet rc w w3) as F. cbv zeta in F.
    unfold set_peer at 1 3 5 in F. cbn [d_peers set_cipher set_peer] in F.
    rewrite list_insert_insert_eq in F. by apply F.
  - apply wp_bind, wp_monotonic. intros t w3 E3. apply wp_bind, wp_log. intros w4 E4. apply wp_ret.
    rewrite <- E3, <- E4 in E2. by eapply forward_sent.
Qed.

Lemma tun_ready_wp d w :
  daemon_inv d ->
  wp (tun_ready d) (fun d' w' =>
    daemon_inv d' /\ same_daemon d d' /\
    exists events, wire w' = wire w ++ events /\
      match env_tun_read (w_calls w) with
      | Some data =>
          if decide (peer_count (cfg d) = 0%nat) then d_peers d' = d_peers d /\ events = []
          else forward_spec d (take MAX_PACKET_SIZE data) d' events
      | None => d_peers d' = d_peers d /\ events = []
      end) w.
Proof.
  intros Hd. unfold tun_ready, tun_read. apply wp_bind, wp_bind, wp_ask. intros w1 E1 _.
  destruct (env_tun_read (w_calls w)) as [data|] eqn:Er.
  2:{ apply wp_bind, wp_ask. intros w2 E2 _. apply wp_bind, wp_set_errno. intros w3 E3 _.
      apply wp_ret. cbv zeta. cbn [Z.ltb Z.compare]. apply wp_bind, wp_get_errno.
      assert (set_plain (plain_buf d) d = d) as -> by (by destruct d).
      assert (forall w', wire w' = wire w3 -> wp (mret d) (fun d' w' => daemon_inv d' /\ same_daemon d d' /\
        exists events, wire w' = wire w ++ events /\ d_peers d' = d_peers d /\ events = []) w') as Fin.
      { intros w' Ew. apply wp_ret. split; [done|]. split; [done|]. exists []. rewrite app_nil_r.
        split; [congruence|done]. }
      destruct (negb _); [apply wp_bind, wp_log; auto|auto]. }
  apply wp_ret. unfold fill. cbv beta iota zeta.
  set (buf := take (length (plain_buf d)) data ++ _).
  assert (daemon_inv (set_plain buf d)) as Hd1.
  { apply set_plain_inv; [done|]. unfold buf. rewrite fill_length. apply (di_plain _ Hd). }
  destruct (Z.ltb_spec (zlen (take (length (plain_buf d)) data)) 0); [lia|].
  cbn [set_plain cfg]. destruct (Nat.eqb_spec (peer_count (cfg d)) 0) as [E0|E0].
  { apply wp_bind, wp_log. intros w2 E2. apply wp_ret. split; [done|]. split; [done|].
    exists []. rewrite app_nil_r, decide_True by done. split; [congruence|done]. }
  eapply wp_mono; [apply (forward_packet_wp _ (take MAX_PACKET_SIZE data)); [exact Hd1| | |]|].
  - apply Forall_take. by eapply env_tun_read_bytes.
  - rewrite length_take. lia.
  - unfold buf. cbn [set_plain plain_buf]. rewrite take_fill. by rewrite (di_plain _ Hd).
  - intros d' w' (H1 & H2 & ev & Ew & Hf). split; [done|]. split; [done|].
    exists ev. rewrite decide_False by done. split; [congruence|done].
Qed.
End Calls.
