(* ===== verification/DaemonInput.v ===== *)
(** * Datagrams

    What the daemon does with each datagram the socket delivers, message type
    by message type. *)

From Stdlib Require Import String.
From S2P Require Import Prelude World Crypto Session Replay SessionFacts SessionRuns Libc Config.
From S2P Require Import ConfigFacts Routing Log Net Daemon DaemonFacts.
Open Scope list_scope.

Section Input.
  Context `{SO : Sodium} {SL : SodiumLaws} `{EV : Env} {EL : EnvLaws} {CL : ClockLaws} {IL : IoLaws}.

(** ** Sessions after a handshake message *)
Lemma peer_inv_data_keys ps s keys :
  peer_inv ps -> keys_wf keys -> (s = session ps \/ exists n, s = restarted (env_keypair n) (session ps)) ->
  peer_inv (set_session (set_data_keys keys s) ps).
Proof.
  intros Hi Hk Hs.
  assert (session_wf s /\ (exists acc, window_rep s acc) /\ role s = role (session ps) /\
    (state s = state (session ps) \/ state s = SESSION_STATE_HANDSHAKE_PENDING)) as (Hw & [acc Hr] & Ero & Est).
  { destruct Hs as [->|[n ->]].
    - split; [apply (pi_wf _ Hi)|]. split; [apply (pi_window _ Hi)|]. auto.
    - split; [apply restarted_wf, (pi_wf _ Hi)|]. split; [eexists; apply window_rep_reset|]. auto. }
  split; cbn.
  - destruct Hw; by split.
  - by exists acc.
  - rewrite Ero. apply (pi_role _ Hi).
  - intros Hro E. destruct Est as [Est|Est]; [|congruence]. apply (pi_known _ Hi); congruence.
  - intros E. destruct Hs as [->|[n ->]]; [by apply (pi_eph _ Hi)|apply (restarted_honest n)].
Qed.

Lemma peer_inv_responder ps s keys c :
  peer_inv ps -> keys_wf keys -> is_u64 c ->
  peer_role (config ps) = CRYPTO_ROLE_RESPONDER ->
  (s = session ps \/ exists n, s = restarted (env_keypair n) (session ps)) ->
  peer_inv (set_session (responder_established keys c s) ps).
Proof.
  intros Hi Hk Hc Hro Hs. pose proof (peer_inv_data_keys ps s keys Hi Hk Hs) as [Hw [acc Hr] Hrole _ _].
  split; cbn in *.
  - destruct Hw as [H1 H2 H3 H4 H5 H6 H7 H8 H9 H10 H11]. split; try done. cbn in *.
    unfold crypto_wipe. by rewrite length_replicate.
  - by exists acc.
  - done.
  - congruence.
  - done.
Qed.

(** ** Trying the responders *)

(** Only the sessions change. *)
Definition only_session (ps ps' : peer_session_t) : Prop := ps' = set_session (session ps') ps.

(** What trying an init on a peer may do to it. *)
Definition tried (inp : bytes) (ps ps' : peer_session_t) : Prop :=
  only_session ps ps' /\
  (state (session ps') = SESSION_STATE_ESTABLISHED ->
   state (session ps) = SESSION_STATE_ESTABLISHED \/ exists c p, acceptable_init (session ps) inp c p).

Lemma tried_refl inp ps : tried inp ps ps.
Proof. split; [by destruct ps|auto]. Qed.

(** The peer [ps] accepted the init [inp] and answered with [response]. *)
Definition accepted_init (ps ps' : peer_session_t) (inp response : bytes) : Prop :=
  exists c p s keys,
    acceptable_init (session ps) inp c p /\ session ps' = responder_established keys c s /\
    (s = session ps /\ state (session ps) = SESSION_STATE_HANDSHAKE_PENDING \/
     exists n, s = restarted (env_keypair n) (session ps)) /\
    response = message SESSION_MSG_HANDSHAKE_RESPONSE (tx (static_keys (session ps))) c (local_eph_pk s).

Lemma acceptable_init_role ps inp c p :
  peer_inv ps -> acceptable_init (session ps) inp c p -> peer_role (config ps) = CRYPTO_ROLE_RESPONDER.
Proof. intros Hi (Hr & _). by rewrite <- (pi_role _ Hi). Qed.

(** One attempt, for a buffer of the handshake size. *)
Lemma handle_init_peer_wp ps inp out w (Q : Z * session_t * bytes -> world -> Prop) :
  peer_inv ps -> is_bytes inp -> zlen inp < 2 ^ 64 -> length out = SESSION_HANDSHAKE_MSG_LEN ->
  (forall s w', wire w' = wire w -> peer_inv (set_session s ps) ->
     (state s = SESSION_STATE_ESTABLISHED -> state (session ps) = SESSION_STATE_ESTABLISHED) ->
     Q (-1, s, out) w') ->
  (forall s response w', wire w' = wire w -> peer_inv (set_session s ps) ->
     length response = SESSION_HANDSHAKE_MSG_LEN ->
     accepted_init ps (set_session s ps) inp response -> Q (57, s, response) w') ->
  wp (session_handle_init (session ps) inp out) Q w.
Proof.
  intros Hi Hb Hl Ho HQ1 HQ2. apply wp_handle_init; try done; [apply (pi_wf _ Hi)| | |].
  - intros w' Ew _. apply HQ1; [done| |done]. by apply (peer_inv_bookkeeping ps).
  - intros s keys w' c p Ew Ha Hk Hs. apply HQ1; [done|by apply peer_inv_data_keys|].
    by destruct Hs as [->|[n ->]].
  - intros s keys c p w' Ew Ha Hk Hs Hd. pose proof (acceptable_init_role _ _ _ _ Hi Ha) as Hro.
    assert (s = session ps \/ exists n, s = restarted (env_keypair n) (session ps)) as Hs'
      by (destruct Hs as [[? _]|?]; auto).
    rewrite (drop_ge out), app_nil_r by (rewrite Ho; by apply Nat.leb_le).
    assert (length (local_eph_pk s) = CRYPTO_PUBLIC_KEY_BYTES) as Lpk.
    { destruct Hs' as [->|[n ->]]; [apply (pi_wf _ Hi)|apply restarted_wf, (pi_wf _ Hi)]. }
    apply HQ2; [done| | |].
    + apply peer_inv_responder; try done. by destruct Ha as (_ & _ & _ & ? & _).
    + rewrite message_length, Lpk. done.
    + by exists c, p, s, keys.
Qed.

Lemma find_responder_wp l inp out i w :
  Forall peer_inv l -> is_bytes inp -> zlen inp < 2 ^ 64 -> length out = SESSION_HANDSHAKE_MSG_LEN ->
  wp (find_responder_for_init l inp out i) (fun r w' =>
    let '(l', out', matched) := r in
    wire w' = wire w /\ Forall peer_inv l' /\ Forall2 (tried inp) l l' /\
    match matched with
    | None => True
    | Some (k, len) =>
        len = 57 /\ (i <= k)%nat /\ length out' = SESSION_HANDSHAKE_MSG_LEN /\
        exists ps ps', l !! (k - i)%nat = Some ps /\ l' !! (k - i)%nat = Some ps' /\
          accepted_init ps ps' inp out'
    end) w.
Proof.
  intros Hall Hb Hl. revert out i w. induction Hall as [|ps rest Hi Hrest IH]; intros out i w Ho;
    cbn [find_responder_for_init].
  { apply wp_ret. done. }
  (* the peers after this one *)
  assert (forall ps1 w1, peer_inv ps1 -> tried inp ps ps1 -> wire w1 = wire w ->
    wp ('(rest, out, r) ← find_responder_for_init rest inp out (S i); mret (ps1 :: rest, out, r)) (fun r w' =>
    let '(l', out', matched) := r in
    wire w' = wire w /\ Forall peer_inv l' /\ Forall2 (tried inp) (ps :: rest) l' /\
    match matched with
    | None => True
    | Some (k, len) =>
        len = 57 /\ (i <= k)%nat /\ length out' = SESSION_HANDSHAKE_MSG_LEN /\
        exists q q', (ps :: rest) !! (k - i)%nat = Some q /\ l' !! (k - i)%nat = Some q' /\
          accepted_init q q' inp out'
    end) w1) as Later.
  { intros ps1 w1 Hi1 Ho1 Ew. apply wp_bind. eapply wp_mono; [by apply IH|].
    intros [[l' out'] m] w2 (E2 & Hl' & H2 & Hm). apply wp_ret.
    split; [congruence|]. split; [by constructor|]. split; [by constructor|].
    destruct m as [[k len]|]; [|done]. destruct Hm as (-> & Hk & Hlo & q & q' & Hq & Hq' & Ha).
    split; [done|]. split; [lia|]. split; [done|]. exists q, q'.
    replace (k - i)%nat with (S (k - S i)) by lia. done. }
  destruct (is_responder ps) eqn:Er; cbn [negb].
  2:{ apply Later; [done|apply tried_refl|done]. }
  apply wp_bind. apply handle_init_peer_wp; try done.
  - intros s w1 E1 Hi1 Hst. cbv beta iota zeta. cbn [Z.leb Z.compare]. apply Later; [done| |done].
    split; [done|]. auto.
  - intros s response w1 E1 Hi1 Hlr Ha. cbv beta iota zeta. cbn [Z.leb Z.compare]. apply wp_ret.
    split; [done|]. split; [by constructor|]. split.
    { constructor; [|clear; induction rest; constructor; [apply tried_refl|done]].
      split; [done|]. intros _. right. destruct Ha as (c & p & _ & _ & Ha & _). by exists c, p. }
    split; [done|]. split; [done|]. split; [done|]. rewrite Nat.sub_diag.
    by exists ps, (set_session s ps).
Qed.

(** ** What a datagram does *)

(** The datagram is a data message of the peer's session, fresh, and its
    payload goes to the TUN device. *)
Definition data_delivered (tfd : Z) (ps : peer_session_t) (inp : bytes) (ps' : peer_session_t)
    (events : list io_event) : Prop :=
  exists c p rc,
    state (session ps) = SESSION_STATE_ESTABLISHED /\
    inp = message SESSION_MSG_DATA (rx (data_keys (session ps))) c p /\ p <> [] /\ is_u64 c /\
    (forall accepted, window_rep (session ps) accepted -> fresh accepted c) /\
    (exists h window, session ps' = set_replay true h window (session ps)) /\
    events = [EvTunWrite tfd p rc].

(** The datagram is an acceptable init, and the response goes to [dest]. *)
Definition init_answered (ufd : Z) (dest : sockaddr_in) (ps : peer_session_t) (inp : bytes)
    (ps' : peer_session_t) (events : list io_event) : Prop :=
  exists response rc, accepted_init ps ps' inp response /\ events = [EvSend ufd dest response rc].

(** Nothing leaves; the session can only have become established by the
    response to its outstanding init. *)
Definition silent (ps : peer_session_t) (inp : bytes) (ps' : peer_session_t)
    (events : list io_event) : Prop :=
  events = [] /\
  (state (session ps') = SESSION_STATE_ESTABLISHED ->
   state (session ps) = SESSION_STATE_ESTABLISHED \/ exists p, acceptable_response (session ps) inp p).

(** From a source that peer [ps] is known by. *)
Definition known_spec (d : daemon) (ps : peer_session_t) (inp : bytes) (ps' : peer_session_t)
    (events : list io_event) : Prop :=
  same_peer ps ps' /\
  (silent ps inp ps' events \/ init_answered (u_fd (udp d)) (addr ps) ps inp ps' events \/
   data_delivered (t_fd (tun d)) ps inp ps' events).

(** An init from an unknown source. *)
Definition unknown_spec (d : daemon) (inp : bytes) (from : sockaddr_in) (d' : daemon)
    (events : list io_event) : Prop :=
  exists l, Forall2 (tried inp) (d_peers d) l /\
  ((events = [] /\ d_peers d' = l) \/
   exists k ps ps1 response rc,
     d_peers d !! k = Some ps /\ l !! k = Some ps1 /\ accepted_init ps ps1 inp response /\
     events = [EvSend (u_fd (udp d)) from response rc] /\
     ((rc < 0 /\ d_peers d' = l) \/
      (0 <= rc /\ exists ps', d_peers d' = <[k := ps']> l /\ config ps' = config ps /\
         session ps' = session ps1 /\ addr_resolved ps' = true /\ addr ps' = from))).

Definition datagram_spec (d : daemon) (inp : bytes) (from : sockaddr_in) (d' : daemon)
    (events : list io_event) : Prop :=
  match find_peer_by_addr (d_peers d) from with
  | Some i => exists ps ps', d_peers d !! i = Some ps /\ d_peers d' = <[i := ps']> (d_peers d) /\
                known_spec d ps inp ps' events
  | None => if hd 0 inp =? SESSION_MSG_HANDSHAKE_INIT then unknown_spec d inp from d' events
            else d_peers d' = d_peers d /\ events = []
  end.

Lemma find_peer_by_addr_Some l from i :
  find_peer_by_addr l from = Some i ->
  exists ps, l !! i = Some ps /\ addr_resolved ps = true /\ sin_addr (addr ps) = sin_addr from /\
    sin_port (addr ps) = sin_port from.
Proof.
  revert i. induction l as [|ps l IH]; intros i H; [done|]. cbn [find_peer_by_addr] in H.
  destruct (_ && _) eqn:E.
  - simplify_eq. exists ps. split; [done|]. by reflect_bools.
  - apply fmap_Some in H as (j & Hj & ->). apply (IH j Hj).
Qed.

Lemma from_text_ok from : exists t, from_text from = Some t.
Proof. unfold from_text. rewrite inet_ntop_fits. cbn. eauto. Qed.

(** The postcondition shared by the four branches on a known peer. *)
Definition known_post (d : daemon) (i : nat) (ps : peer_session_t) (inp : bytes) (w : world)
    (d' : daemon) (w' : world) : Prop :=
  daemon_inv d' /\ same_daemon d d' /\ exists events, wire w' = wire w ++ events /\
    exists ps', d_peers d' = <[i := ps']> (d_peers d) /\ known_spec d ps inp ps' events.

Lemma known_post_intro d d1 i ps ps' inp w w' events :
  daemon_inv d -> d_peers d !! i = Some ps -> peer_inv ps' -> same_peer ps ps' ->
  wire w' = wire w ++ events -> known_spec d ps inp ps' events ->
  (d1 = d \/ exists b, length b = MAX_PACKET_SIZE /\ d1 = set_plain b d) ->
  known_post d i ps inp w (set_peer i ps' d1) w'.
Proof.
  intros Hd Hps Hi (Hc & Ha & Had) Ew Hk Hd1.
  assert (daemon_inv d1 /\ same_daemon d d1 /\ d_peers d1 = d_peers d) as (Hd1' & Hs & Hp).
  { destruct Hd1 as [->|(b & Hb & ->)]; [done|]. split; [by apply set_plain_inv|done]. }
  split; [eapply set_peer_inv; [done|by rewrite Hp|done|done]|]. split; [by destruct Hs|].
  exists events. split; [done|]. exists ps'. split; [cbn; by rewrite Hp|done].
Qed.

Lemma known_init_wp d i ps inp w :
  daemon_inv d -> d_peers d !! i = Some ps -> is_bytes inp -> zlen inp < 2 ^ 64 ->
  wp (known_init d i ps inp) (known_post d i ps inp w) w.
Proof.
  intros Hd Hps Hb Hl. pose proof (Forall_lookup_1 _ _ _ _ (di_peers _ Hd) Hps) as Hi.
  unfold known_init. apply wp_bind. apply handle_init_peer_wp; try done.
  - intros s w1 E1 Hi1 Hst. cbv beta iota zeta. cbn [Z.ltb Z.compare].
    apply wp_bind, wp_log. intros w2 E2. apply wp_ret.
    eapply (known_post_intro _ _ _ _ _ _ _ _ []); try done; [|by rewrite app_nil_r, E2|..|by left].
    + by apply (peer_inv_bookkeeping (set_session s ps)).
    + split; [done|]. left. split; [done|]. intros; left; auto.
  - intros s response w1 E1 Hi1 Hlr Ha. cbv beta iota zeta. cbn [Z.ltb Z.compare].
    apply wp_bind, wp_send. intros rc w2 E2. cbn [set_session addr udp] in E2.
    rewrite (take_ge response) in E2 by (rewrite Hlr; by apply Nat.leb_le).
    assert (forall ps' w', wire w' = wire w2 -> session ps' = s -> same_peer ps ps' ->
      known_post d i ps inp w (set_peer i ps' d) w') as Fin.
    { intros ps' w' Ew Es Hsame.
      eapply known_post_intro; try done; [|rewrite Ew, E2, E1; done|..|by left].
      - apply (peer_inv_bookkeeping (set_session s ps)); try done; apply Hsame || by destruct Hsame as (_ & -> & _).
      - split; [done|]. right. left. exists response, rc. split; [|done].
        destruct Ha as (c & p & s1 & keys & Ha & Es1 & Ha'). exists c, p, s1, keys.
        split; [done|]. by rewrite Es. }
    destruct (rc <? 0).
    + apply wp_bind, wp_get_errno. apply wp_bind, wp_log. intros w3 E3. by apply wp_ret, Fin.
    + apply wp_bind, wp_monotonic. intros t w3 E3. apply wp_bind, wp_log. intros w4 E4.
      apply wp_ret, Fin; try done. congruence.
Qed.

Lemma known_response_wp d i ps inp w :
  daemon_inv d -> d_peers d !! i = Some ps -> is_bytes inp -> zlen inp < 2 ^ 64 ->
  addr_resolved ps = true ->
  wp (known_response d i ps inp) (known_post d i ps inp w) w.
Proof.
  intros Hd Hps Hb Hl Hres. pose proof (Forall_lookup_1 _ _ _ _ (di_peers _ Hd) Hps) as Hi.
  unfold known_response.
  assert (exists rc s, session_handle_response (session ps) inp = Some (rc, s) /\
    peer_inv (set_session s ps) /\
    (state s = SESSION_STATE_ESTABLISHED -> state (session ps) = SESSION_STATE_ESTABLISHED \/
       exists p, acceptable_response (session ps) inp p)) as (rc & s & E & Hi' & Hst).
  { pose proof (pi_wf _ Hi) as Hw.
    destruct (handle_response_cases (session ps) inp Hw Hb Hl) as [[E _]|(p & Ha & H)].
    { exists (-1), (session ps). split; [done|]. split; [by apply (peer_inv_bookkeeping ps)|auto]. }
    pose proof (derive_wf CRYPTO_ROLE_INITIATOR (local_eph_pk (session ps)) (local_eph_sk (session ps)) p
      (data_keys (session ps)) (wf_data _ Hw)) as Hk.
    destruct (crypto_derive_session_keys _ _ _ _ _) as [rc keys]. cbn [snd] in Hk.
    destruct H as [[_ E]|[-> E]]; eexists _, _; (split; [exact E|]).
    - split; [apply peer_inv_data_keys; auto|auto].
    - split; [|eauto]. apply peer_inv_session; try done; [|apply (pi_window _ Hi)|auto].
      destruct Hw; split; try done. cbn. unfold crypto_wipe. by rewrite length_replicate. }
  apply wp_bind. eapply wp_lift; [exact E|]. cbv beta iota zeta.
  assert (forall ps' w', wire w' = wire w -> session ps' = s -> same_peer ps ps' ->
    known_post d i ps inp w (set_peer i ps' d) w') as Fin.
  { intros ps' w' Ew Es Hsame.
    eapply (known_post_intro _ _ _ _ _ _ _ _ []); try done; [|by rewrite app_nil_r|..|by left].
    - apply (peer_inv_bookkeeping (set_session s ps)); try done; apply Hsame || by destruct Hsame as (_ & -> & _).
    - split; [done|]. left. split; [done|]. by rewrite Es. }
  destruct (rc <? 0).
  - apply wp_bind, wp_log. intros w2 E2. by apply wp_ret, Fin.
  - apply wp_bind, wp_monotonic. intros t w2 E2. apply wp_bind, wp_log. intros w3 E3.
    apply wp_ret, Fin; try done. congruence.
Qed.

(** Opening, for every set of counters the window may stand for. *)
Lemma open_data_peer ps inp out :
  peer_inv ps -> is_bytes inp -> zlen inp < 2 ^ 64 ->
  exists rc s out', session_open_data (session ps) inp out = Some (rc, s, out') /\
    length out' = length out /\ peer_inv (set_session s ps) /\
    state s = state (session ps) /\
    (rc < 0 \/ exists c p, rc = zlen p /\ take (Z.to_nat rc) out' = p /\
       state (session ps) = SESSION_STATE_ESTABLISHED /\
       inp = message SESSION_MSG_DATA (rx (data_keys (session ps))) c p /\ is_u64 c /\
       (forall accepted, window_rep (session ps) accepted -> fresh accepted c) /\
       exists h window, s = set_replay true h window (session ps)).
Proof.
  intros Hi Hb Hl. destruct (pi_window _ Hi) as [acc Hacc].
  destruct (open_data_cases (session ps) acc inp out Hacc Hb Hl)
    as [(out' & E & L)|(c & p & s & Hst & Hin & Hc & _ & Hp & E & Hrep & h & window & Es)].
  { exists (-1), (session ps), out'. split; [done|]. split; [done|].
    split; [by apply (peer_inv_bookkeeping ps)|]. split; [done|]. left. lia. }
  exists (zlen p), s, (p ++ drop (length p) out). split; [done|].
  split; [rewrite length_app, length_drop; lia|]. split; [|split; [by subst s|]].
  { apply peer_inv_session; try done; [|by exists (c :: acc)|by subst s|left; by subst s|by subst s].
    destruct Hrep as [Hww Hrep]. subst s. cbn in Hrep. destruct Hrep as [Hh _].
    destruct (pi_wf _ Hi). by split. }
  right. exists c, p. split; [done|]. rewrite Nat2Z.id, take_app_length. split; [done|].
  split; [done|]. split; [done|]. split; [done|]. split; [|by exists h, window].
  intros acc' Hacc'. destruct (open_data_cases (session ps) acc' inp out Hacc' Hb Hl)
    as [(out' & E' & _)|(c' & p' & _ & _ & Hin' & Hc' & Hf & _)].
  { rewrite E in E'. simplify_eq. lia. }
  assert (c' = c) as ->; [|done]. rewrite Hin in Hin', Hl.
  pose proof (f_equal length Hin') as L. rewrite !message_length in L. rewrite message_length in Hl.
  apply message_inj in Hin' as [-> _]; [done|done|done|lia|lia].
Qed.

Lemma known_data_wp d i ps inp n w :
  daemon_inv d -> d_peers d !! i = Some ps -> is_bytes inp -> zlen inp < 2 ^ 64 ->
  wp (known_data d i ps inp n) (known_post d i ps inp w) w.
Proof.
  intros Hd Hps Hb Hl. pose proof (Forall_lookup_1 _ _ _ _ (di_peers _ Hd) Hps) as Hi.
  unfold known_data.
  destruct (open_data_peer ps inp (plain_buf d) Hi Hb Hl) as (rc & s & buf & E & Lb & Hi' & Est & Hcase).
  apply wp_bind. eapply wp_lift; [exact E|]. cbv beta iota zeta.
  assert (forall ps' w' events, wire w' = wire w ++ events -> session ps' = s -> same_peer ps ps' ->
    (events = [] \/ data_delivered (t_fd (tun d)) ps inp ps' events) ->
    known_post d i ps inp w (set_peer i ps' (set_plain buf d)) w') as Fin.
  { intros ps' w' events Ew Es Hsame Hev.
    eapply known_post_intro; [done|done| |done|exact Ew| |].
    - apply (peer_inv_bookkeeping (set_session s ps)); try done; apply Hsame || by destruct Hsame as (_ & -> & _).
    - split; [done|]. destruct Hev as [->|?]; [|by right; right]. left. split; [done|].
      rewrite Es, Est. auto.
    - right. exists buf. split; [|done]. rewrite Lb. apply (di_plain _ Hd). }
  destruct (Z.ltb_spec rc 0).
  { apply wp_bind, wp_log. intros w2 E2. apply wp_ret. apply (Fin _ _ []); auto; [by rewrite app_nil_r|done]. }
  destruct (Z.eqb_spec rc 0).
  { apply wp_bind, wp_monotonic. intros t w2 E2. apply wp_bind, wp_log. intros w3 E3. apply wp_ret.
    apply (Fin _ _ []); auto; [rewrite app_nil_r; congruence|done]. }
  destruct Hcase as [|(c & p & Erc & Ep & Hst & Hin & Hc & Hf & Hs)]; [lia|].
  apply wp_bind, wp_tun_write. intros rc' w2 E2. rewrite Ep in E2. cbn [set_plain tun] in E2.
  assert (forall ps' w', wire w' = wire w2 -> session ps' = s -> same_peer ps ps' ->
    known_post d i ps inp w (set_peer i ps' (set_plain buf d)) w') as Fin'.
  { intros ps' w' Ew Es Hsame. eapply Fin; [rewrite Ew; exact E2|done|done|]. right.
    exists c, p, rc'. split; [done|]. split; [done|]. split; [by intros ->; cbn in *; lia|].
    split; [done|]. split; [done|]. split; [by rewrite Es|done]. }
  destruct (rc' <? 0).
  - apply wp_bind, wp_get_errno. apply wp_bind, wp_log. intros w3 E3. by apply wp_ret, Fin'.
  - apply wp_bind, wp_monotonic. intros t w3 E3. apply wp_bind, wp_log. intros w4 E4.
    apply wp_ret, Fin'; try done. congruence.
Qed.

Lemma unexpected_wp d i ps inp type w :
  daemon_inv d -> d_peers d !! i = Some ps ->
  wp (unexpected d i ps type) (known_post d i ps inp w) w.
Proof.
  intros Hd Hps. pose proof (Forall_lookup_1 _ _ _ _ (di_peers _ Hd) Hps) as Hi.
  unfold unexpected. apply wp_bind, wp_log. intros w2 E2. apply wp_ret.
  eapply (known_post_intro _ _ _ _ _ _ _ _ []); try done; [|by rewrite app_nil_r|..|by left].
  - by apply (peer_inv_bookkeeping ps).
  - split; [done|]. left. split; [done|]. auto.
Qed.

Lemma only_session_config ps ps' : only_session ps ps' -> config ps' = config ps.
Proof. by intros ->. Qed.

Lemma tried_lookup inp l l' i ps' :
  Forall2 (tried inp) l l' -> l' !! i = Some ps' ->
  exists ps, l !! i = Some ps /\ only_session ps ps'.
Proof. intros H Hl. apply (Forall2_lookup_r _ _ _ _ _ H) in Hl as (ps & ? & [? _]). eauto. Qed.

Lemma set_all_peers_inv inp d l :
  daemon_inv d -> Forall peer_inv l -> Forall2 (tried inp) (d_peers d) l -> daemon_inv (set_all_peers l d).
Proof.
  intros [H1 H2 H3 H4 H5 H6] Hl Hs.
  split; cbn [set_all_peers cfg d_peers cipher_buf plain_buf]; try done.
  - by rewrite <- (Forall2_length _ _ _ Hs).
  - intros i ps' Hps'. destruct (tried_lookup _ _ _ _ _ Hs Hps') as (ps & Hps & Ho).
    rewrite (only_session_config _ _ Ho). by apply H4.
Qed.

Lemma unknown_init_wp d inp from w :
  daemon_inv d -> is_bytes inp -> zlen inp < 2 ^ 64 ->
  wp (unknown_init d inp from) (fun d' w' => daemon_inv d' /\ same_daemon d d' /\
    exists events, wire w' = wire w ++ events /\ unknown_spec d inp from d' events) w.
Proof.
  intros Hd Hb Hl. unfold unknown_init. destruct (from_text_ok from) as [who Hwho]. apply wp_bind.
  eapply wp_mono; [apply find_responder_wp; [apply (di_peers _ Hd)|done|done|done]|].
  intros [[l response] matched] w1 (E1 & Hil & Hsl & Hm). cbv beta iota zeta.
  pose proof (set_all_peers_inv inp d l Hd Hil Hsl) as Hd1.
  destruct matched as [[k len]|].
  2:{ apply wp_bind. eapply wp_lift; [exact Hwho|]. apply wp_bind, wp_log. intros w2 E2. apply wp_ret.
      split; [done|]. split; [done|]. exists []. rewrite app_nil_r. split; [congruence|].
      exists l. split; [done|]. by left. }
  destruct Hm as (-> & _ & Hlr & ps & ps1 & Hps & Hps1 & Ha). rewrite Nat.sub_0_r in *.
  apply wp_bind. eapply wp_lift; [exact Hps1|]. apply wp_bind, wp_send. intros rc w2 E2.
  rewrite (take_ge response) in E2 by (rewrite Hlr; by apply Nat.leb_le).
  cbn [set_all_peers udp] in E2. rewrite E1 in E2.
  pose proof (Forall_lookup_1 _ _ _ _ Hil Hps1) as Hi1.
  destruct (Z.ltb_spec rc 0).
  - apply wp_bind, wp_get_errno. apply wp_bind, wp_log. intros w3 E3. apply wp_ret.
    split; [done|]. split; [done|]. eexists. split; [rewrite E3; exact E2|].
    exists l. split; [done|]. right. exists k, ps, ps1, response, rc. by auto 10.
  - apply wp_bind, wp_monotonic. intros t w3 E3. apply wp_bind. eapply wp_lift; [exact Hwho|].
    apply wp_bind, wp_log. intros w4 E4. apply wp_ret.
    split; [eapply set_peer_inv; [done|exact Hps1| |done]; by apply (peer_inv_bookkeeping ps1)|].
    split; [done|]. eexists. split; [rewrite E4, E3; exact E2|].
    exists l. split; [done|]. right. exists k, ps, ps1, response, rc.
    split; [done|]. split; [done|]. split; [done|]. split; [done|]. right. split; [done|].
    eexists. split; [done|]. split; [|done]. cbn.
    destruct (tried_lookup _ _ _ _ _ Hsl Hps1) as (ps0 & Hps0 & Ho). rewrite (only_session_config _ _ Ho). congruence.
Qed.

Lemma handle_datagram_wp d inp n from w :
  daemon_inv d -> is_bytes inp -> inp <> [] -> n = zlen inp -> (length inp <= SEALED_BUF_SIZE)%nat ->
  take (Z.to_nat n) (cipher_buf d) = inp ->
  wp (handle_datagram d n from) (fun d' w' => daemon_inv d' /\ same_daemon d d' /\
    exists events, wire w' = wire w ++ events /\ datagram_spec d inp from d' events) w.
Proof.
  intros Hd Hb Hne -> Hlen Ht. unfold handle_datagram, datagram_spec. rewrite Ht.
  assert (zlen inp < 2 ^ 64) as Hl.
  { assert (Z.of_nat SEALED_BUF_SIZE < 2 ^ 64) by done. lia. }
  assert (cipher_buf d !! 0%nat = Some (hd 0 inp)) as E0.
  { rewrite <- Ht. destruct (cipher_buf d); [by rewrite take_nil in Ht; subst|].
    rewrite Nat2Z.id. by destruct inp. }
  apply wp_bind. eapply wp_lift; [exact E0|].
  destruct (find_peer_by_addr (d_peers d) from) as [i|] eqn:Ef.
  2:{ destruct (_ =? SESSION_MSG_HANDSHAKE_INIT); [by apply unknown_init_wp|].
      unfold unknown_source. destruct (from_text_ok from) as [who Hwho].
      apply wp_bind. eapply wp_lift; [exact Hwho|]. apply wp_bind, wp_log. intros w1 E1. apply wp_ret.
      split; [done|]. split; [done|]. exists []. by rewrite app_nil_r. }
  destruct (find_peer_by_addr_Some _ _ _ Ef) as (ps & Hps & Hres & _).
  apply wp_bind. eapply wp_lift; [exact Hps|].
  eapply (wp_mono _ (known_post d i ps inp w)).
  - destruct (_ && is_responder ps); [by apply known_init_wp|].
    destruct (_ && is_initiator ps); [by apply known_response_wp|].
    destruct (_ =? SESSION_MSG_DATA); [by apply known_data_wp|by apply unexpected_wp].
  - intros d' w' (H1 & H2 & ev & Ew & ps' & Hp & Hk). split; [done|]. split; [done|].
    exists ev. split; [done|]. by exists ps, ps'.
Qed.

Lemma udp_ready_wp d w :
  daemon_inv d ->
  wp (udp_ready d) (fun d' w' => daemon_inv d' /\ same_daemon d d' /\
    exists events, wire w' = wire w ++ events /\
      match env_recvfrom (w_calls w) with
      | Some (data, from) =>
          if decide (peer_count (cfg d) = 0%nat \/ data = []) then d_peers d' = d_peers d /\ events = []
          else datagram_spec d (take SEALED_BUF_SIZE data) from d' events
      | None => d_peers d' = d_peers d /\ events = []
      end) w.
Proof.
  intros Hd. unfold udp_ready, udp_recv. apply wp_bind, wp_bind, wp_ask. intros w1 E1 _.
  destruct (env_recvfrom (w_calls w)) as [[data from]|] eqn:Er.
  2:{ apply wp_bind, wp_ask. intros w2 E2 _. apply wp_bind, wp_set_errno. intros w3 E3 _.
      apply wp_ret. cbv beta iota zeta. cbn [Z.ltb Z.compare]. apply wp_bind, wp_get_errno.
      assert (set_cipher (cipher_buf d) d = d) as -> by (by destruct d).
      assert (forall w', wire w' = wire w3 -> wp (mret d) (fun d' w' => daemon_inv d' /\ same_daemon d d' /\
        exists events, wire w' = wire w ++ events /\ d_peers d' = d_peers d /\ events = []) w') as Fin.
      { intros w' Ew. apply wp_ret. split; [done|]. split; [done|]. exists []. rewrite app_nil_r.
        split; [congruence|done]. }
      destruct (negb _); [apply wp_bind, wp_log; auto|auto]. }
  unfold fill. cbv beta iota zeta. apply wp_ret. cbv beta iota zeta.
  set (buf := take (length (cipher_buf d)) data ++ _).
  assert (daemon_inv (set_cipher buf d)) as Hd1.
  { apply set_cipher_inv; [done|]. unfold buf. rewrite fill_length. apply (di_cipher _ Hd). }
  pose proof (di_cipher _ Hd) as Hcl.
  destruct (Z.ltb_spec (zlen (take (length (cipher_buf d)) data)) 0); [lia|].
  cbn [set_cipher cfg].
  assert ((peer_count (cfg d) =? 0)%nat || (zlen (take (length (cipher_buf d)) data) <? 1) =
    bool_decide (peer_count (cfg d) = 0%nat \/ data = [])) as Ecase.
  { rewrite length_take, Hcl. destruct (Nat.eqb_spec (peer_count (cfg d)) 0).
    - rewrite bool_decide_true; [done|auto].
    - destruct data as [|b data]; [rewrite bool_decide_true; [done|auto]|].
      rewrite bool_decide_false by naive_solver. cbn [orb]. apply Z.ltb_ge.
      change (length (b :: data)) with (S (length data)).
      assert (1 <= SEALED_BUF_SIZE)%nat by (by apply Nat.leb_le). lia. }
  rewrite Ecase. case_bool_decide as Hcase.
  { apply wp_bind, wp_log. intros w2 E2. apply wp_ret. split; [done|]. split; [done|].
    exists []. rewrite app_nil_r, decide_True by done. split; [congruence|done]. }
  eapply wp_mono; [apply (handle_datagram_wp _ (take SEALED_BUF_SIZE data)); [exact Hd1|..]|].
  - apply Forall_take. by eapply env_recvfrom_bytes.
  - intros E. apply Hcase. right. by destruct data.
  - by rewrite Hcl.
  - rewrite length_take. lia.
  - unfold buf. cbn [set_cipher cipher_buf]. rewrite take_fill. by rewrite Hcl.
  - intros d' w' (H1 & H2 & ev & Ew & Hf). split; [done|]. split; [done|].
    exists ev. rewrite decide_False by done. split; [congruence|done].
Qed.

(** ** The effect on one peer *)
Definition peer_change (inp : bytes) (from : sockaddr_in) (ps ps' : peer_session_t) : Prop :=
  config ps' = config ps /\
  ((addr_resolved ps' = addr_resolved ps /\ addr ps' = addr ps) \/
   (addr_resolved ps' = true /\ addr ps' = from /\ exists c p, acceptable_init (session ps) inp c p)) /\
  (state (session ps') = SESSION_STATE_ESTABLISHED ->
   state (session ps) = SESSION_STATE_ESTABLISHED \/
   (exists c p, acceptable_init (session ps) inp c p) \/ (exists p, acceptable_response (session ps) inp p)).

Lemma peer_change_refl inp from ps : peer_change inp from ps ps.
Proof. split; [done|]. split; auto. Qed.

Lemma known_change d inp from ps ps' events :
  known_spec d ps inp ps' events -> peer_change inp from ps ps'.
Proof.
  intros [(Hc & Hr & Ha) H]. split; [done|]. split; [by left|]. intros Hst.
  destruct H as [[_ H]|[(resp & rc & (c & p & _ & _ & Hacc & _) & _)|(c & p & rc & Hs & _)]].
  - destruct (H Hst); auto.
  - right. left. by exists c, p.
  - by left.
Qed.

Lemma tried_change inp from ps ps' : tried inp ps ps' -> peer_change inp from ps ps'.
Proof.
  intros [Ho Hs]. split; [by apply only_session_config|]. split; [left; by rewrite Ho|].
  intros Hst. destruct (Hs Hst); auto.
Qed.

Lemma datagram_peer d inp from d' events k ps :
  datagram_spec d inp from d' events -> d_peers d !! k = Some ps ->
  exists ps', d_peers d' !! k = Some ps' /\ peer_change inp from ps ps'.
Proof.
  unfold datagram_spec. intros H Hk. destruct (find_peer_by_addr (d_peers d) from) as [i|].
  - destruct H as (q & q' & Hq & -> & Hs). destruct (decide (i = k)) as [->|].
    + simplify_eq. exists q'. split; [|by eapply known_change].
      apply list_lookup_insert_eq. by eapply lookup_lt_Some.
    + exists ps. rewrite list_lookup_insert_ne by done. split; [done|apply peer_change_refl].
  - destruct (_ =? _); [|destruct H as [-> _]; exists ps; split; [done|apply peer_change_refl]].
    destruct H as (l & Hl & H).
    destruct (Forall2_lookup_l _ _ _ _ _ Hl Hk) as (ps1 & Hps1 & Htr).
    destruct H as [[_ ->]|(j & q & q1 & resp & rc & Hq & Hq1 & Hacc & _ & H)].
    { exists ps1. split; [done|by apply tried_change]. }
    destruct H as [[_ ->]|(_ & q' & -> & Hc & Hs & Hr & Ha)].
    { exists ps1. split; [done|by apply tried_change]. }
    destruct (decide (j = k)) as [->|].
    + simplify_eq. exists q'. split; [apply list_lookup_insert_eq; by eapply lookup_lt_Some|].
      destruct Hacc as (c & p & _ & _ & Hacc & _). split; [done|].
      split; [right; split; [done|]; split; [done|]; by exists c, p|].
      intros _. right. left. by exists c, p.
    + exists ps1. rewrite list_lookup_insert_ne by done. split; [done|by apply tried_change].
Qed.

(** ** Delivery *)

(** A fresh data message is opened and its payload written. *)
Lemma known_data_delivers d i ps c p len accepted w :
  daemon_inv d -> state (session ps) = SESSION_STATE_ESTABLISHED -> window_rep (session ps) accepted ->
  fresh accepted c -> is_u64 c -> p <> [] -> (length p <= MAX_PACKET_SIZE)%nat ->
  wp (known_data d i ps (message SESSION_MSG_DATA (rx (data_keys (session ps))) c p) len)
    (fun d' w' => exists rc, wire w' = wire w ++ [EvTunWrite (t_fd (tun d)) p rc]) w.
Proof.
  intros Hd Hs Hrep Hf Hc Hne Hl. pose proof (di_plain _ Hd) as Hpl. unfold known_data.
  assert (zlen p + 25 < 2 ^ 64) by (unfold MAX_PACKET_SIZE in Hl; lia).
  destruct (open_data_message (session ps) accepted c p (plain_buf d) Hrep Hc) as (s & E & _); try done;
    [by rewrite Hpl|]. rewrite decide_True in E by done.
  apply wp_bind. eapply wp_lift; [exact E|]. cbv beta iota zeta.
  assert (0 < zlen p) by (destruct p; [done|cbn; lia]).
  rewrite (proj2 (Z.ltb_ge _ _)), (proj2 (Z.eqb_neq _ _)) by lia.
  apply wp_bind, wp_tun_write. intros rc w1 E1. rewrite Nat2Z.id, take_app_length in E1.
  cbn [set_plain tun] in E1. destruct (rc <? 0).
  - apply wp_bind, wp_get_errno. apply wp_bind, wp_log. intros w2 E2. apply wp_ret. exists rc. congruence.
  - apply wp_bind, wp_monotonic. intros t w2 E2. apply wp_bind, wp_log. intros w3 E3. apply wp_ret.
    exists rc. congruence.
Qed.

(** A datagram that fits the buffer is handled as it is. *)
Lemma udp_ready_handle d i ps t rest from Q w :
  daemon_inv d -> env_recvfrom (w_calls w) = Some (t :: rest, from) ->
  (length (t :: rest) <= SEALED_BUF_SIZE)%nat -> d_peers d !! i = Some ps ->
  (forall b w1, wire w1 = wire w -> length (t :: rest ++ b) = SEALED_BUF_SIZE ->
     wp (handle_datagram (set_cipher (t :: rest ++ b) d) (zlen (t :: rest)) from) Q w1) ->
  wp (udp_ready d) Q w.
Proof.
  intros Hd Er Hfit Hps HQ. set (msg := t :: rest) in *. assert (0 < length msg)%nat by (cbn; lia).
  pose proof (di_cipher _ Hd) as Hcl. unfold udp_ready, udp_recv. apply wp_bind, wp_bind, wp_ask. intros w1 E1 _.
  rewrite Er. unfold fill. cbv beta iota zeta. apply wp_ret. cbv beta iota zeta.
  rewrite (take_ge msg) by lia. destruct (Z.ltb_spec (zlen msg) 0); [lia|].
  cbn [set_cipher cfg]. pose proof (lookup_lt_Some _ _ _ Hps) as Hlt. rewrite (di_count _ Hd) in Hlt.
  destruct (Nat.eqb_spec (peer_count (cfg d)) 0); [lia|]. destruct (Z.ltb_spec (zlen msg) 1); [lia|].
  cbn [orb]. apply (HQ (drop (length msg) (cipher_buf d)) w1 E1).
  change (t :: rest ++ ?x) with (msg ++ x). rewrite length_app, length_drop. lia.
Qed.

(** A datagram from the address of a known peer, by the type it starts with. *)
Lemma udp_ready_dispatch d i ps t rest from Q w :
  daemon_inv d -> env_recvfrom (w_calls w) = Some (t :: rest, from) ->
  (length (t :: rest) <= SEALED_BUF_SIZE)%nat ->
  find_peer_by_addr (d_peers d) from = Some i -> d_peers d !! i = Some ps ->
  (forall b w1, wire w1 = wire w -> length b = SEALED_BUF_SIZE ->
     wp (if (t =? SESSION_MSG_HANDSHAKE_INIT) && is_responder ps
         then known_init (set_cipher b d) i ps (t :: rest)
         else if (t =? SESSION_MSG_HANDSHAKE_RESPONSE) && is_initiator ps
         then known_response (set_cipher b d) i ps (t :: rest)
         else if t =? SESSION_MSG_DATA then known_data (set_cipher b d) i ps (t :: rest) (zlen (t :: rest))
         else unexpected (set_cipher b d) i ps t) Q w1) ->
  wp (udp_ready d) Q w.
Proof.
  intros Hd Er Hfit Hfi Hps HQ. eapply udp_ready_handle; try done. intros b w1 E1 Hb.
  unfold handle_datagram. cbn [set_cipher cipher_buf d_peers]. rewrite Nat2Z.id.
  change (t :: rest ++ b) with ((t :: rest) ++ b). rewrite take_app_length.
  apply wp_bind. eapply wp_lift; [reflexivity|]. rewrite Hfi.
  apply wp_bind. eapply wp_lift; [exact Hps|]. by apply HQ.
Qed.

Lemma udp_ready_delivers d i ps c p from accepted w :
  daemon_inv d -> env_recvfrom (w_calls w) = Some (message SESSION_MSG_DATA (rx (data_keys (session ps))) c p, from) ->
  find_peer_by_addr (d_peers d) from = Some i -> d_peers d !! i = Some ps ->
  state (session ps) = SESSION_STATE_ESTABLISHED -> window_rep (session ps) accepted ->
  fresh accepted c -> is_u64 c -> p <> [] -> (length p <= MAX_PACKET_SIZE)%nat ->
  wp (udp_ready d) (fun d' w' => exists rc, wire w' = wire w ++ [EvTunWrite (t_fd (tun d)) p rc]) w.
Proof.
  intros Hd Er Hfi Hps Hs Hrep Hf Hc Hne Hl. eapply udp_ready_dispatch; [done|exact Er| |done|done|].
  { change (SESSION_MSG_DATA :: _) with (message SESSION_MSG_DATA (rx (data_keys (session ps))) c p).
    rewrite message_length. unfold SEALED_BUF_SIZE, SESSION_DATA_OVERHEAD, CRYPTO_PACKET_OVERHEAD,
      CRYPTO_COUNTER_BYTES, CRYPTO_TAG_BYTES. lia. }
  intros b w1 E1 Hb. cbn [Z.eqb Pos.eqb andb].
  eapply wp_mono; [eapply (known_data_delivers (set_cipher b d)); try done; by apply set_cipher_inv|].
  intros d' w' [rc E]. exists rc. rewrite E. by rewrite E1.
Qed.
End Input.
