(* ===== verification/Timers.v ===== *)
(** * The timers, call by call

    The timers go over the peers in order, and the pass over a peer starts in
    the world the previous pass left.  [passes] records that chain with the
    number of the external call each pass starts at, which is the call that
    asks the resolver when the address of the peer is not known: so what a pass
    does is a function of that answer. *)

From Stdlib Require Import String.
From S2P Require Import Prelude World Crypto Session Replay SessionFacts SessionRuns Libc Config.
From S2P Require Import ConfigFacts Routing Log Net Daemon DaemonFacts.
Open Scope list_scope.

Section Timers.
  Context `{SO : Sodium} {SL : SodiumLaws} `{EV : Env} {EL : EnvLaws} {CL : ClockLaws} {IL : IoLaws}.

(** What call [n] answers when it resolves the peer's own Endpoint. *)
Definition resolution (n : nat) (ps : peer_session_t) : option sockaddr_in :=
  a ← env_getaddrinfo n (host (config ps));
  Some {| sin_family := sin_family a; sin_addr := sin_addr a; sin_port := htons (port (config ps)) |}.

(** Where a handshake attempt that starts at call [n] sends its init. *)
Definition destination (n : nat) (ps : peer_session_t) : option sockaddr_in :=
  if addr_resolved ps then Some (addr ps) else resolution n ps.

Lemma initiate_unresolved ps me sock buf now w :
  peer_inv ps -> peer_role (config ps) = CRYPTO_ROLE_INITIATOR ->
  (SESSION_HANDSHAKE_MSG_LEN <= length buf)%nat -> addr_resolved ps = false ->
  wp (initiate_handshake ps me sock buf now) (fun r _ =>
    match resolution (w_calls w) ps with
    | None => r.1 = set_last_rx now ps
    | Some a => addr_resolved r.1 = true /\ addr r.1 = a
    end) w.
Proof.
  intros Hi Hr Hb Ea. unfold initiate_handshake. rewrite Ea. unfold resolution, udp_resolve.
  apply wp_bind, wp_bind, wp_ask. intros w1 _ _. cbn [config set_last_rx].
  destruct (env_getaddrinfo _ _) as [a|]; apply wp_ret; cbn [Z.eqb negb].
  2:{ apply wp_bind, wp_log. intros w2 _. by apply wp_ret. }
  cbn [mbind option_bind]. set (ps1 := set_addr _ _).
  eapply wp_mono; [apply (start_attempt_wp ps1 ps1); try done; by apply (peer_inv_bookkeeping ps)|].
  intros r w' (_ & _ & ev & _ & _ & _ & _ & _ & [(Hf & _)|(Ht & Had & _)]); [done|].
  split; [done|]. by apply Had.
Qed.

(** A pass over a peer whose address is not known asks the resolver first. *)
Lemma peer_timers_unresolved ps me sock buf now w :
  peer_inv ps -> (SESSION_HANDSHAKE_MSG_LEN <= length buf)%nat ->
  addr_resolved ps = false -> rehandshake_due now ps = true ->
  wp (peer_timers me sock now ps buf) (fun r _ =>
    match resolution (w_calls w) ps with
    | None => r.1 = set_last_rx now ps
    | Some a => addr_resolved r.1 = true /\ addr r.1 = a
    end) w.
Proof.
  intros Hi Hb Ea Hdue. unfold peer_timers, keepalive. rewrite Ea. cbn [andb]. apply wp_bind, wp_ret.
  unfold rehandshake_due in Hdue. apply andb_true_iff in Hdue as [Hini Hdue]. unfold rehandshake. rewrite Hini.
  unfold is_initiator in Hini. apply bool_decide_eq_true in Hini.
  assert (established ps = false) as He.
  { unfold established. apply bool_decide_eq_false. intros Hst. pose proof (pi_known _ Hi Hini Hst). congruence. }
  rewrite He in *. cbn [andb] in *. rewrite orb_false_r in Hdue. rewrite Hdue, Ea.
  apply wp_bind, wp_ret. by apply initiate_unresolved.
Qed.

(** The pass over one peer: what is sent, and to whom. *)
Definition pass_spec (now fd : Z) (n : nat) (ps ps' : peer_session_t) (events : list io_event) : Prop :=
  exists ps1 ka hs,
    events = ka ++ hs /\ keepalive_spec now fd ps ps1 ka /\
    if rehandshake_due now ps1 then
      match destination n ps1 with
      | None => ps' = set_last_rx now ps1 /\ hs = []
      | Some a => attempt_spec now fd ps1 ps' hs /\ addr_resolved ps' = true /\ addr ps' = a
      end
    else ps' = ps1 /\ hs = [].

Lemma peer_timers_pass ps me sock buf now w :
  peer_inv ps -> (SESSION_HANDSHAKE_MSG_LEN <= length buf)%nat -> zlen buf < 2 ^ 64 ->
  wp (peer_timers me sock now ps buf) (fun r w' =>
    length r.2 = length buf /\ peer_inv r.1 /\
    exists events, wire w' = wire w ++ events /\ pass_spec now (u_fd sock) (w_calls w) ps r.1 events) w.
Proof.
  intros Hi Hb Hl. pose proof (peer_timers_wp ps me sock buf now w Hi Hb Hl) as H.
  destruct (wp_exists _ _ _ H) as (r & w' & E & Hlr & Hir & ev & Ew & ps1 & ka & hs & Eev & Hka & Hhs).
  unfold wp. rewrite E. split; [done|]. split; [done|]. exists ev. split; [done|]. exists ps1, ka, hs.
  split; [done|]. split; [done|]. destruct (rehandshake_due now ps1) eqn:Hdue; [|done].
  unfold destination. destruct (addr_resolved ps1) eqn:Ea.
  { split; [done|]. destruct Hhs as (_ & _ & _ & _ & [(Hf & _)|(? & Had & _)]); [congruence|]. auto. }
  assert (ps1 = ps) as ->.
  { unfold keepalive_spec in Hka. destruct (keepalive_due now ps) eqn:Ek; [|by destruct Hka].
    unfold keepalive_due in Ek. destruct Hka as ((_ & Ea' & _) & _). rewrite <- Ea', Ea in Ek. done. }
  pose proof (wp_run _ _ _ _ (peer_timers_unresolved ps me sock buf now w Hi Hb Ea Hdue) E) as Hres. cbn [fst] in Hres.
  destruct (resolution _ ps) as [a|]; [done|]. split; [done|].
  destruct Hhs as (_ & _ & _ & _ & [(_ & _ & ?)|(Ht & _)]); [done|]. rewrite Hres in Ht. cbn in Ht. congruence.
Qed.

(** The passes over a list of peers, from one world to another: for each, the
    call it starts at, the peer it leaves and the events it adds. *)
Inductive passes (me : bytes) (sock : udp_socket_t) (now : Z) :
    list peer_session_t -> world -> list (nat * peer_session_t * list io_event) -> world -> Prop :=
| passes_nil w : passes me sock now [] w [] w
| passes_cons ps rest buf w ps' buf' events w1 ticks w2 :
    peer_timers me sock now ps buf w = Some ((ps', buf'), w1) -> wire w1 = wire w ++ events ->
    passes me sock now rest w1 ticks w2 ->
    passes me sock now (ps :: rest) w ((w_calls w, ps', events) :: ticks) w2.

Lemma all_timers_passes l me sock buf now w :
  Forall peer_inv l -> (SESSION_HANDSHAKE_MSG_LEN <= length buf)%nat -> zlen buf < 2 ^ 64 ->
  wp (all_timers me sock now l buf) (fun r w' =>
    exists ticks, passes me sock now l w ticks w' /\ r.1 = map (fun t => t.1.2) ticks /\
      wire w' = wire w ++ concat (map snd ticks) /\
      Forall2 (fun ps t => pass_spec now (u_fd sock) t.1.1 ps t.1.2 t.2) l ticks) w.
Proof.
  intros Hall. revert buf w. induction Hall as [|ps rest Hi Hrest IH]; intros buf w Hb Hl; cbn [all_timers].
  { apply wp_ret. exists []. split; [constructor|]. by rewrite app_nil_r. }
  apply wp_bind. destruct (wp_exists _ _ _ (peer_timers_pass ps me sock buf now w Hi Hb Hl))
    as ([ps1 buf1] & w1 & E & Hb1 & _ & ev & E1 & S1). cbn [fst snd] in *.
  unfold wp at 1. rewrite E. apply wp_bind. eapply wp_mono; [apply IH; lia|].
  intros [rest1 buf2] w2 (ticks & Hp & Er & E2 & S2). cbn [fst snd] in *. subst rest1.
  apply wp_ret. cbn [fst snd]. exists ((w_calls w, ps1, ev) :: ticks).
  split; [by econstructor|]. split; [done|]. split; [|by constructor]. cbn. by rewrite E2, E1, app_assoc.
Qed.

(** The timers read the clock, go over the peers, and print statistics. *)
Lemma timers_passes d w :
  daemon_inv d ->
  let now := clock_ms w in
  exists d' w' w1 w2 ticks, timers d w = Some (d', w') /\ monotonic_ms w = Some (now, w1) /\
    passes (name (cfg d)) (udp d) now (d_peers d) w1 ticks w2 /\
    d_peers d' = map (fun t => t.1.2) ticks /\ wire w' = wire w ++ concat (map snd ticks) /\
    Forall2 (fun ps t => pass_spec now (u_fd (udp d)) t.1.1 ps t.1.2 t.2) (d_peers d) ticks.
Proof.
  intros Hd now. destruct (wp_exists _ _ _ (wp_clock (fun t w1 => t = now /\ wire w1 = wire w) w ltac:(done)))
    as (? & w1 & E1 & -> & Ew1).
  destruct (decide (0 < peer_count (cfg d))%nat) as [Hn|Hn].
  2:{ pose proof (di_count _ Hd) as Hc. exists d, w, w1, w1, []. unfold timers.
      destruct (Nat.ltb_spec 0 (peer_count (cfg d))); [lia|]. destruct (d_peers d); [|cbn in Hc; lia].
      do 2 (split; [done|]). split; [constructor|]. by rewrite app_nil_r. }
  pose proof (di_cipher _ Hd) as Hc.
  destruct (wp_exists _ _ _ (all_timers_passes (d_peers d) (name (cfg d)) (udp d) (cipher_buf d) now w1 (di_peers _ Hd)
    ltac:(rewrite Hc; by apply Nat.leb_le) ltac:(by rewrite Hc)))
    as ([l buf] & w2 & E2 & ticks & Hp & El & Ew2 & Ht). cbn [fst] in El. subst l.
  assert (wp (timers d) (fun d' w' => d_peers d' = map (fun t => t.1.2) ticks /\ wire w' = wire w2) w) as H.
  { unfold timers. destruct (Nat.ltb_spec 0 (peer_count (cfg d))); [|lia]. unfold wp. rewrite (M_bind_Some _ _ _ _ _ E1).
    rewrite (M_bind_Some _ _ _ _ _ E2).
    match goal with |- match ?m ?w with _ => _ end => change (wp m (fun d' w' =>
      d_peers d' = map (fun t => t.1.2) ticks /\ wire w' = wire w2) w) end.
    cbv zeta. destruct (_ <=? _); [|by apply wp_ret]. apply wp_bind, log_stats_wp. intros w3 E3. by apply wp_ret. }
  destruct (wp_exists _ _ _ H) as (d' & w' & E & Ep & Ew). exists d', w', w1, w2, ticks.
  split; [done|]. split; [done|]. split; [done|]. split; [done|]. split; [|done]. by rewrite Ew, Ew2, Ew1.
Qed.
End Timers.
