(* ===== verification/DaemonStart.v ===== *)
(** * Iterations, start-up and descriptors

    One round of the poll loop keeps the invariant of the daemon, the program
    sets it up, and every descriptor it obtains is given back. *)

From Stdlib Require Import String.
From S2P Require Import Prelude World Crypto Session Replay SessionFacts SessionRuns Libc Config.
From S2P Require Import ConfigFacts Routing Log Net ConfigFile Daemon DaemonFacts DaemonInput.
Open Scope list_scope.

(** ** Open descriptors *)

(** The descriptors open after a trace, latest first; [None] when one is
    closed that is not open. *)
Fixpoint close_fd (fd : Z) (l : list Z) : option (list Z) :=
  match l with
  | [] => None
  | x :: l => if x =? fd then Some l else cons x <$> close_fd fd l
  end.

Definition fd_step (l : list Z) (e : io_event) : option (list Z) :=
  match e with
  | EvOpen fd => Some (fd :: l)
  | EvClose fd => close_fd fd l
  | _ => Some l
  end.

Definition fds (w : world) : option (list Z) := foldM fd_step [] (wire w).

(** Events that concern no descriptor. *)
Definition is_traffic (e : io_event) : Prop :=
  match e with
  | EvSend _ _ _ _ | EvTunWrite _ _ _ => True
  | _ => False
  end.

Lemma fds_app w w' events :
  wire w' = wire w ++ events -> fds w' = l ← fds w; foldM fd_step l events.
Proof. intros E. unfold fds. by rewrite E, foldM_app. Qed.

Lemma fds_same w w' : wire w' = wire w -> fds w' = fds w.
Proof. unfold fds. by intros ->. Qed.

Lemma fds_traffic w w' events :
  wire w' = wire w ++ events -> Forall is_traffic events -> fds w' = fds w.
Proof.
  intros E H. rewrite (fds_app _ _ _ E). destruct (fds w) as [l|]; [|done]. cbn.
  clear E. induction H as [|e events He _ IH]; [done|]. by destruct e.
Qed.

(** ** What the specifications put on the wire *)
Section Traffic.
  Context `{SO : Sodium} `{EV : Env}.

Lemma attempt_traffic now fd ps ps' events : attempt_spec now fd ps ps' events -> Forall is_traffic events.
Proof.
  intros (_ & _ & _ & _ & [(_ & _ & ->)|(_ & _ & _ & _ & n & rc & _ & ->)]); repeat constructor.
Qed.

Lemma keepalive_traffic now fd ps ps' events : keepalive_spec now fd ps ps' events -> Forall is_traffic events.
Proof.
  unfold keepalive_spec. destruct (keepalive_due now ps).
  - intros (_ & _ & _ & _ & _ & rc & ->). repeat constructor.
  - intros [_ ->]. constructor.
Qed.

Lemma peer_tick_traffic now fd ps ps' events : peer_tick now fd ps ps' events -> Forall is_traffic events.
Proof.
  intros (ps1 & ka & hs & -> & Hka & Hhs). apply Forall_app. split; [by eapply keepalive_traffic|].
  destruct (rehandshake_due now ps1); [by eapply attempt_traffic|]. destruct Hhs as [_ ->]. constructor.
Qed.

Lemma forward_traffic d packet d' events : forward_spec d packet d' events -> Forall is_traffic events.
Proof.
  intros (r & _ & H). destruct (r <? 0); [destruct H as [_ ->]; constructor|].
  destruct H as (ps & ps' & _ & _ & _ & H). destruct (established ps).
  - destruct H as (_ & rc & ->). repeat constructor.
  - destruct H as [_ ->]. constructor.
Qed.

Lemma datagram_traffic d inp from d' events : datagram_spec d inp from d' events -> Forall is_traffic events.
Proof.
  unfold datagram_spec. destruct (find_peer_by_addr _ _).
  - intros (ps & ps' & _ & _ & _ & [[-> _]|[(resp & rc & _ & ->)|(c & p & rc & _ & _ & _ & _ & _ & _ & ->)]]);
      repeat constructor.
  - destruct (_ =? _).
    + intros (l & _ & [[-> _]|(k & ps & ps1 & resp & rc & _ & _ & _ & -> & _)]); repeat constructor.
    + intros [_ ->]. constructor.
Qed.
End Traffic.

Section Start.
  Context `{SO : Sodium} {SL : SodiumLaws} `{EV : Env} {EL : EnvLaws} {CL : ClockLaws} {IL : IoLaws}.

(** ** The loop *)
Lemma iteration_wp d w :
  daemon_inv d ->
  wp (iteration d) (fun r w' => daemon_inv r.2 /\ same_daemon d r.2 /\ fds w' = fds w) w.
Proof.
  intros Hd. unfold iteration. apply wp_bind, wp_ask. intros w1 E1 _.
  destruct (env_poll _) as [[ready tun_in] udp_in]. cbv beta iota.
  destruct (ready <? 0).
  { apply wp_bind, wp_ask. intros w2 E2 _. apply wp_bind, wp_set_errno. intros w3 E3 _.
    destruct (_ =? EINTR).
    - apply wp_ret. split; [done|]. split; [done|]. apply fds_same. congruence.
    - apply wp_bind, wp_log. intros w4 E4. apply wp_ret. split; [done|]. split; [done|].
      apply fds_same. congruence. }
  apply wp_bind.
  apply (wp_mono _ (fun d' w' => daemon_inv d' /\ same_daemon d d' /\ fds w' = fds w)).
  { destruct (_ && tun_in); [|apply wp_ret; split; [done|split; [done|by apply fds_same]]].
    eapply wp_mono; [by apply tun_ready_wp|]. intros d' w' (H1 & H2 & ev & Ew & Hs).
    split; [done|]. split; [done|]. rewrite <- (fds_same _ _ E1). eapply fds_traffic; [exact Ew|].
    destruct (env_tun_read _); [case_decide|]; try (destruct Hs as [_ ->]; constructor).
    by eapply forward_traffic. }
  intros d1 w2 (Hd1 & Hs1 & F1). apply wp_bind.
  apply (wp_mono _ (fun d' w' => daemon_inv d' /\ same_daemon d d' /\ fds w' = fds w)).
  { destruct (_ && udp_in); [|by apply wp_ret].
    eapply wp_mono; [by apply udp_ready_wp|]. intros d' w' (H1 & H2 & ev & Ew & Hs).
    split; [done|]. split; [by eapply same_daemon_trans|]. rewrite <- F1.
    eapply fds_traffic; [exact Ew|].
    destruct (env_recvfrom _) as [[data from]|]; [case_decide|]; try (destruct Hs as [_ ->]; constructor).
    by eapply datagram_traffic. }
  intros d2 w3 (Hd2 & Hs2 & F2). apply wp_bind.
  eapply wp_mono; [by apply timers_wp|]. intros d3 w4 (H1 & H2 & _ & ticks & _ & Ew & Ht).
  apply wp_ret. split; [done|]. split; [by eapply same_daemon_trans|]. rewrite <- F2.
  eapply fds_traffic; [exact Ew|]. apply Forall_concat, Forall_map.
  eapply Forall2_Forall_r; [exact Ht|]. apply Forall_true. intros ps t Htick. by eapply peer_tick_traffic.
Qed.

Lemma wp_g_running installed (Q : Z -> world -> Prop) w :
  Q (foldl (fun g signum => handle_shutdown signum g) 1 (delivered installed (w_calls w))) w ->
  wp (g_running installed) Q w.
Proof. done. Qed.

Lemma main_loop_wp fuel installed d w :
  daemon_inv d ->
  wp (main_loop fuel installed d) (fun r w' => daemon_inv r.2 /\ same_daemon d r.2 /\ fds w' = fds w) w.
Proof.
  revert d w. induction fuel as [|fuel IH]; intros d w Hd; cbn [main_loop]; [by apply wp_ret|].
  apply wp_bind, wp_g_running. destruct (negb _); [|by apply wp_ret].
  apply wp_bind. eapply wp_mono; [by apply iteration_wp|].
  intros [go d1] w2 (Hd1 & Hs1 & F1). cbn [fst snd] in *.
  destruct go; [|by apply wp_ret]. eapply wp_mono; [by apply IH|].
  intros r w3 (H1 & H2 & H3). split; [done|]. split; [by eapply same_daemon_trans|congruence].
Qed.

(** ** Descriptors *)
Lemma wp_sys_open f (Q : Z -> world -> Prop) w :
  (forall fd w', fd < 0 -> fds w' = fds w -> Q fd w') ->
  (forall fd w', 0 <= fd -> fds w' = cons fd <$> fds w -> Q fd w') -> wp (sys_open f) Q w.
Proof.
  intros H1 H2. unfold sys_open. apply wp_bind, wp_syscall. intros fd w1 E1.
  destruct (Z.ltb_spec fd 0).
  - apply wp_ret, H1; [done|by apply fds_same].
  - apply wp_bind, wp_emit. intros w2 E2 _. apply wp_ret, H2; [done|].
    rewrite (fds_app _ _ _ E2), (fds_same _ _ E1). by destruct (fds w).
Qed.

Lemma wp_sys_close fd (Q : unit -> world -> Prop) w l :
  fds w = Some (fd :: l) -> (forall w', fds w' = Some l -> Q tt w') -> wp (sys_close fd) Q w.
Proof.
  intros Hf H. unfold sys_close. apply wp_bind, wp_emit. intros w1 E1 _.
  assert (fds w1 = Some l) as F1.
  { rewrite (fds_app _ _ _ E1), Hf. cbn. by rewrite Z.eqb_refl. }
  apply wp_bind, wp_ask. intros w2 E2 _. destruct (env_close _).
  - apply wp_set_errno. intros w3 E3 _. apply H. rewrite <- F1. apply fds_same. congruence.
  - apply wp_ret, H. rewrite <- F1. by apply fds_same.
Qed.

Lemma wp_close_keeping fd (Q : unit -> world -> Prop) w l :
  fds w = Some (fd :: l) -> (forall w', fds w' = Some l -> w_errno w' = w_errno w -> Q tt w') ->
  wp (close_keeping_errno fd) Q w.
Proof.
  intros Hf H. unfold close_keeping_errno. apply wp_bind, wp_get_errno.
  apply wp_bind. eapply wp_sys_close; [exact Hf|]. intros w1 F1.
  apply wp_set_errno. intros w2 E2 Ee. apply H; [|done]. rewrite <- F1. by apply fds_same.
Qed.

Lemma wp_sys_ioctl fd request ifr (Q : Z * ifreq -> world -> Prop) w :
  (forall r w', fds w' = fds w -> Q r w') -> wp (sys_ioctl fd request ifr) Q w.
Proof.
  intros H. unfold sys_ioctl. apply wp_bind, wp_ask. intros w1 E1 _. destruct (env_ioctl _ _ _) as [rc ifr'].
  apply wp_bind, wp_emit. intros w2 E2 _.
  assert (fds w2 = fds w) as F2.
  { rewrite (fds_app _ _ _ E2), (fds_same _ _ E1). by destruct (fds w). }
  destruct (rc <? 0); [|by apply wp_ret, H].
  apply wp_bind, wp_ask. intros w3 E3 _. apply wp_bind, wp_set_errno. intros w4 E4 _.
  apply wp_ret, H. rewrite <- F2. apply fds_same. congruence.
Qed.

Lemma wp_sys_bind fd a (Q : Z -> world -> Prop) w :
  (forall rc w', fds w' = fds w -> Q rc w') -> wp (sys_bind fd a) Q w.
Proof.
  intros H. unfold sys_bind. apply wp_bind, wp_syscall. intros rc w1 E1.
  apply wp_bind, wp_emit. intros w2 E2 _. apply wp_ret, H.
  rewrite (fds_app _ _ _ E2), (fds_same _ _ E1). by destruct (fds w).
Qed.

(** [udp_bind] and [tun_open]: a descriptor on success, none on failure. *)
Lemma udp_bind_fds port w l :
  fds w = Some l ->
  wp (udp_bind port) (fun r w' =>
    (r.1 = 0 /\ 0 <= u_fd r.2 /\ fds w' = Some (u_fd r.2 :: l)) \/
    (r.1 = -1 /\ u_fd r.2 = -1 /\ fds w' = Some l)) w.
Proof.
  intros Hf. unfold udp_bind. apply wp_bind, wp_sys_open.
  - intros fd w1 Hfd F1. destruct (Z.ltb_spec fd 0); [|lia]. apply wp_ret. right. by rewrite F1.
  - intros fd w1 Hfd F1. destruct (Z.ltb_spec fd 0); [lia|]. rewrite Hf in F1. cbn in F1.
    apply wp_bind, wp_sys_bind. intros rc w2 F2. rewrite F1 in F2. destruct (rc <? 0).
    + apply wp_bind. eapply wp_close_keeping; [exact F2|]. intros w3 F3 _. apply wp_ret. by right.
    + apply wp_ret. by left.
Qed.

Lemma tun_open_fds name w l :
  fds w = Some l ->
  wp (tun_open name) (fun r w' =>
    (r.1 = 0 /\ 0 <= t_fd r.2 /\ fds w' = Some (t_fd r.2 :: l)) \/
    (r.1 = -1 /\ t_fd r.2 = -1 /\ fds w' = Some l)) w.
Proof.
  intros Hf. unfold tun_open. apply wp_bind, wp_sys_open.
  - intros fd w1 Hfd F1. destruct (Z.ltb_spec fd 0); [|lia]. apply wp_ret. right. by rewrite F1.
  - intros fd w1 Hfd F1. destruct (Z.ltb_spec fd 0); [lia|]. rewrite Hf in F1. cbn in F1.
    apply wp_bind, wp_sys_ioctl. intros [rc ifr] w2 F2. rewrite F1 in F2. destruct (rc <? 0).
    + apply wp_bind. eapply wp_close_keeping; [exact F2|]. intros w3 F3 _. apply wp_ret. by right.
    + apply wp_ret. by left.
Qed.

(** [tun_configure] gives its socket back on every path. *)
Lemma configure_failed_fds sock w l :
  fds w = Some (sock :: l) -> wp (configure_failed sock) (fun rc w' => fds w' = Some l) w.
Proof.
  intros Hf. unfold configure_failed. apply wp_bind. eapply wp_close_keeping; [exact Hf|].
  intros w1 F1 _. by apply wp_ret.
Qed.

Lemma set_ifreq_fds text (Q : option sockaddr_in -> world -> Prop) w :
  (forall r w', fds w' = fds w -> Q r w') -> wp (set_ifreq_ipv4 text) Q w.
Proof.
  intros H. unfold set_ifreq_ipv4. destruct (inet_pton text); [by apply wp_ret, H|].
  apply wp_bind, wp_set_errno. intros w1 E1 _. by apply wp_ret, H, fds_same.
Qed.

Lemma tun_configure_fds dev a m w l :
  fds w = Some l -> wp (tun_configure dev a m) (fun rc w' => fds w' = Some l) w.
Proof.
  intros Hf. unfold tun_configure. apply wp_bind, wp_sys_open.
  { intros fd w1 Hfd F1. destruct (Z.ltb_spec fd 0); [|lia]. apply wp_ret. by rewrite F1. }
  intros sock w1 Hfd F1. destruct (Z.ltb_spec sock 0); [lia|]. rewrite Hf in F1. cbn in F1.
  apply wp_bind, set_ifreq_fds. intros [adr|] w2 F2; rewrite F1 in F2; [|by apply configure_failed_fds].
  apply wp_bind, wp_sys_ioctl. intros [rc ifr] w3 F3. rewrite F2 in F3.
  destruct (rc <? 0); [by apply configure_failed_fds|].
  apply wp_bind, set_ifreq_fds. intros [msk|] w4 F4; rewrite F3 in F4; [|by apply configure_failed_fds].
  apply wp_bind, wp_sys_ioctl. intros [rc2 ifr2] w5 F5. rewrite F4 in F5.
  destruct (rc2 <? 0); [by apply configure_failed_fds|].
  apply wp_bind, wp_sys_ioctl. intros [rc3 ifr3] w6 F6. rewrite F5 in F6.
  destruct (rc3 <? 0); [by apply configure_failed_fds|].
  apply wp_bind, wp_sys_ioctl. intros [rc4 ifr4] w7 F7. rewrite F6 in F7.
  destruct (rc4 <? 0); [by apply configure_failed_fds|].
  apply wp_bind. eapply wp_sys_close; [exact F7|]. intros w8 F8. by apply wp_ret.
Qed.

Lemma udp_close_fds sock (Q : udp_socket_t -> world -> Prop) w l :
  0 <= u_fd sock -> fds w = Some (u_fd sock :: l) -> (forall s' w', fds w' = Some l -> Q s' w') ->
  wp (udp_close sock) Q w.
Proof.
  intros H0 Hf H. unfold udp_close. destruct (Z.leb_spec 0 (u_fd sock)); [|lia].
  apply wp_bind. eapply wp_sys_close; [exact Hf|]. intros w1 F1. by apply wp_ret, H.
Qed.

Lemma tun_close_fds dev (Q : tun_device_t -> world -> Prop) w l :
  0 <= t_fd dev -> fds w = Some (t_fd dev :: l) -> (forall s' w', fds w' = Some l -> Q s' w') ->
  wp (tun_close dev) Q w.
Proof.
  intros H0 Hf H. unfold tun_close. destruct (Z.leb_spec 0 (t_fd dev)); [|lia].
  apply wp_bind. eapply wp_sys_close; [exact Hf|]. intros w1 F1. by apply wp_ret, H.
Qed.

(** ** Start-up *)

(** A new peer's session, once initialised. *)
Lemma wp_session_init r pk sk peer (Q : Z * session_t -> world -> Prop) w :
  (forall rc s w', rc <> 0 -> wire w' = wire w -> Q (rc, s) w') ->
  (forall s w', wire w' = wire w -> session_wf s -> (exists acc, window_rep s acc) -> role s = r ->
     state s = SESSION_STATE_HANDSHAKE_PENDING -> eph_honest s -> Q (0, s) w') ->
  wp (session_init r pk sk peer) Q w.
Proof.
  intros H1 H2. pose proof (session_init_eq r pk sk peer w) as E.
  pose proof (session_init_inv r pk sk peer w) as I.
  destruct (crypto_derive_session_keys _ _ _ _ _) as [rc keys]. unfold wp. rewrite E in *.
  case_decide; [|by apply H1].
  destruct (I _ _ eq_refl) as (R & Hr & Hs & _). apply H2; try done.
  - apply (inv_wf _ _ _ _ R).
  - destruct (inv_open _ _ _ _ R) as (_ & acc & Hacc & _). by exists acc.
  - apply restarted_honest.
Qed.

Lemma start_peers_wp c dev sock pk todo buf w l :
  length buf = SEALED_BUF_SIZE -> 0 <= u_fd sock -> 0 <= t_fd dev ->
  fds w = Some (u_fd sock :: t_fd dev :: l) ->
  wp (start_peers c dev sock pk todo buf) (fun r w' =>
    match r with
    | None => fds w' = Some l
    | Some (ps, buf') => length buf' = SEALED_BUF_SIZE /\ Forall peer_inv ps /\ map config ps = todo /\
        fds w' = Some (u_fd sock :: t_fd dev :: l)
    end) w.
Proof.
  intros Hb Hu Ht. revert buf w Hb. induction todo as [|q todo IH]; intros buf w Hb Hf; cbn [start_peers].
  { by apply wp_ret. }
  apply wp_bind, wp_session_init.
  { intros rc s w1 Hrc E1. destruct (Z.eqb_spec rc 0); [done|]. cbn [negb].
    apply wp_bind, wp_log. intros w2 E2. apply wp_bind. eapply udp_close_fds; [done| |].
    { rewrite (fds_same w w2) by congruence. exact Hf. }
    intros _ w3 F3. apply wp_bind. eapply tun_close_fds; [done|exact F3|]. intros _ w4 F4. by apply wp_ret. }
  intros s w1 E1 Hw Hacc Hr Hst Heph. cbn [Z.eqb negb]. apply wp_bind, wp_monotonic. intros t w2 E2.
  set (ps := set_last_rx t (set_session s (new_peer q))).
  assert (peer_inv ps) as Hi by (split; cbn; congruence || done).
  apply wp_bind.
  apply (wp_mono _ (fun r w' => length r.2 = SEALED_BUF_SIZE /\ peer_inv r.1 /\ config r.1 = q /\
    fds w' = fds w)).
  { case_bool_decide as Hro.
    - apply wp_bind, wp_monotonic. intros now w3 E3.
      eapply wp_mono; [apply initiate_handshake_wp; [done|done|rewrite Hb; by apply Nat.leb_le]|].
      intros r w4 (Hl & Hi' & ev & Ew & Ha). split; [congruence|]. split; [done|].
      split; [by destruct Ha as (? & _)|]. rewrite (fds_traffic w3 w4 ev Ew) by (by eapply attempt_traffic).
      apply fds_same. congruence.
    - apply wp_bind, wp_log. intros w3 E3. apply wp_ret. split; [done|]. split; [done|]. split; [done|].
      apply fds_same. congruence. }
  intros [ps1 buf1] w3 (Hb1 & Hi1 & Hc1 & F3). cbn [fst snd] in *. rewrite Hf in F3.
  apply wp_bind. eapply wp_mono; [by apply IH|].
  intros [[rest buf2]|] w4; [|by intros; apply wp_ret].
  intros (Hb2 & Hi2 & Hc2 & F4). apply wp_ret. split; [done|]. split; [by constructor|].
  split; [cbn; by rewrite Hc1, Hc2|done].
Qed.

(** The result of the start-up: the invariant of the loop and two descriptors,
    or neither. *)
Definition started (l : list Z) (r : option daemon) (w : world) : Prop :=
  match r with
  | None => fds w = Some l
  | Some d => daemon_inv d /\ 0 <= u_fd (udp d) /\ 0 <= t_fd (tun d) /\
      fds w = Some (u_fd (udp d) :: t_fd (tun d) :: l)
  end.

Lemma start_network_wp c dev cipher0 plain0 w l :
  config_wf c -> length cipher0 = SEALED_BUF_SIZE -> length plain0 = MAX_PACKET_SIZE ->
  0 <= t_fd dev -> fds w = Some (t_fd dev :: l) ->
  wp (start_network c dev cipher0 plain0) (started l) w.
Proof.
  intros Hc Hlc Hlp Ht Hf. unfold start_network. apply wp_bind.
  eapply wp_mono; [by apply udp_bind_fds|]. intros [rc sock] w1 H1. cbn [fst snd] in H1.
  destruct H1 as [(-> & Hu & F1)|(-> & _ & F1)]; cbn [Z.eqb negb].
  2:{ apply wp_bind, wp_get_errno. apply wp_bind, wp_log. intros w2 E2.
      apply wp_bind. eapply tun_close_fds; [done|by rewrite (fds_same _ _ E2)|].
      intros _ w3 F3. by apply wp_ret. }
  apply wp_bind.
  apply (wp_mono _ (fun r w' => match r with
    | None => fds w' = Some l
    | Some (ps, buf') => length buf' = SEALED_BUF_SIZE /\ Forall peer_inv ps /\
        map config ps = take (peer_count c) (peers c) /\ fds w' = Some (u_fd sock :: t_fd dev :: l)
    end)).
  { destruct (Nat.ltb_spec 0 (peer_count c)).
    - apply wp_bind. eapply wp_mono; [by apply start_peers_wp|].
      intros [[ps buf]|] w2; [|by intros; apply wp_ret]. intros (? & ? & ? & F2).
      apply wp_bind, wp_log. intros w3 E3. apply wp_ret. by rewrite (fds_same _ _ E3).
    - apply wp_bind, wp_log. intros w2 E2. apply wp_ret. rewrite (fds_same _ _ E2).
      split; [done|]. split; [constructor|]. split; [|done].
      by replace (peer_count c) with 0%nat by lia. }
  intros [[ps buf]|] w2; [|by intros; apply wp_ret]. intros (Hlb & Hi & Hcf & F2).
  apply wp_bind, wp_monotonic. intros t w3 E3. apply wp_ret. unfold started.
  rewrite (fds_same _ _ E3). split; [|done].
  pose proof (fields_count _ (wf_fields _ Hc)). pose proof (fields_peers _ (wf_fields _ Hc)) as Hp.
  split; cbn [cfg d_peers cipher_buf plain_buf]; try done.
  - rewrite <- (length_map config), Hcf, length_take, Hp. lia.
  - intros i q Hq. assert (map config ps !! i = Some (config q)) as E by (by rewrite list_lookup_fmap, Hq).
    rewrite Hcf in E. by apply lookup_take_Some in E as [? _].
Qed.

(** Loading the configuration leaves no descriptor behind. *)
Lemma config_load_file_fds path (Q : option edgarvpn_config_t -> world -> Prop) w :
  (forall r w', fds w' = fds w -> (forall c, r = Some c -> config_wf c) -> Q r w') ->
  wp (config_load_file path) Q w.
Proof.
  intros H. apply config_load_file_wp; [intros fd f; apply env_fopen_size|]. intros w' E. apply H.
  - rewrite (fds_app _ _ _ E). destruct (fds w) as [l|], (env_fopen _ _) as [[fd f]|]; try done.
    cbn. by rewrite Z.eqb_refl.
  - unfold file_result. destruct (env_fopen _ _) as [[fd f]|] eqn:Ef; [|done].
    cbn [fmap option_fmap option_map snd]. destruct (config_load (Some f)) as [[x|c]|] eqn:El; try done.
    intros c' Hc. injection Hc as <-.
    eapply config_load_wf; [by eapply env_fopen_size|exact El].
Qed.

Lemma start_wp cipher0 plain0 w l :
  length cipher0 = SEALED_BUF_SIZE -> length plain0 = MAX_PACKET_SIZE -> fds w = Some l ->
  wp (start cipher0 plain0) (started l) w.
Proof.
  intros Hlc Hlp Hf. unfold start.
  destruct (negb (crypto_init =? 0)).
  { apply wp_bind, wp_log. intros w4 E4. apply wp_ret. cbn. rewrite (fds_same w w4) by congruence. done. }
  apply wp_bind, wp_ask. intros w4 E4 _.
  set (path := match env_getenv _ _ with None | Some [] => _ | Some p => p end).
  apply wp_bind, config_load_file_fds. intros loaded w5 F5 Hc. rewrite (fds_same _ _ E4), Hf in F5.
  destruct loaded as [c|]; [specialize (Hc c eq_refl)|by apply wp_ret].
  apply wp_bind. eapply wp_mono; [by apply tun_open_fds|]. intros [rc dev] w6 H6. cbn [fst snd] in H6.
  destruct H6 as [(-> & Ht & F6)|(-> & _ & F6)]; cbn [Z.eqb negb].
  2:{ apply wp_bind, wp_get_errno. apply wp_bind, wp_log. intros w7 E7. apply wp_ret. cbn.
      by rewrite (fds_same _ _ E7). }
  apply wp_bind. eapply wp_mono; [by apply tun_configure_fds|]. intros rc w7 F7.
  destruct (negb (rc =? 0)); [|by apply start_network_wp].
  apply wp_bind, wp_get_errno. apply wp_bind, wp_log. intros w8 E8.
  apply wp_bind. eapply tun_close_fds; [done|rewrite (fds_same _ _ E8); exact F7|].
  intros _ w9 F9. by apply wp_ret.
Qed.

Lemma wp_log_init (Q : unit -> world -> Prop) w :
  (forall w', wire w' = wire w -> Q tt w') -> wp log_init Q w.
Proof.
  intros H. unfold log_init. apply wp_bind, wp_ask. intros w1 E1 _. apply wp_bind, wp_ask. intros w2 E2 _.
  unfold wp. cbn [set_log]. apply H. transitivity (wire w2); [done|congruence].
Qed.

(** The whole program. *)
Lemma main_wp fuel cipher0 plain0 w l :
  length cipher0 = SEALED_BUF_SIZE -> length plain0 = MAX_PACKET_SIZE -> fds w = Some l ->
  wp (main fuel cipher0 plain0) (fun r w' =>
    match r with
    | Some status => (status = 0 \/ status = 1) /\ fds w' = Some l
    | None => exists u t, fds w' = Some (u :: t :: l)
    end) w.
Proof.
  intros Hlc Hlp Hf. unfold main. apply wp_bind, wp_log_init. intros w0 E0.
  apply wp_bind. unfold install_handlers at 1. unfold wp at 1.
  apply wp_bind. eapply wp_mono; [apply start_wp; [done|done|by rewrite (fds_same _ _ E0)]|].
  intros [d|] w1 H1; [|by apply wp_ret; auto]. destruct H1 as (Hd & Hu & Ht & F1).
  apply wp_bind. eapply wp_mono; [by apply main_loop_wp|].
  intros [ended d'] w2 (Hd' & (_ & Et & Eu) & F2). cbn [fst snd] in *. rewrite F1 in F2.
  destruct ended; [|apply wp_ret; eauto].
  apply wp_bind. unfold shutdown. apply wp_bind, wp_log. intros w3 E3.
  apply wp_bind. eapply udp_close_fds; [by rewrite Eu|rewrite Eu, (fds_same _ _ E3); exact F2|].
  intros _ w4 F4. apply wp_bind. eapply tun_close_fds; [by rewrite Et|by rewrite Et|].
  intros _ w5 F5. apply wp_ret. apply wp_ret. auto.
Qed.
End Start.
