(* ===== verification/Effects.v ===== *)
(** * What a piece of code may do to the outside

    Partial correctness of the code of the daemon ([wlp]), and which events it
    may add to the wire: [only P m] says that everything [m] puts there
    satisfies [P].  Logging, clocks, configuration of the devices and the
    receiving calls are [plain]: they send nothing and write nothing to the
    TUN device.  The database [effects] has a lemma for each, and the tactic of
    that name takes a function apart. *)

From Stdlib Require Import String.
From S2P Require Import Prelude World Crypto Session Libc Config Routing Log Net ConfigFile Daemon.
Open Scope list_scope.

(** ** Partial correctness

    [wlp m Q w]: if [m], run in [w], returns, then [Q] holds.  That the code
    returns is the business of [wp]; [wlp_with] brings what is proved there. *)
Definition wlp {A} (m : M A) (Q : A -> world -> Prop) (w : world) : Prop :=
  forall a w', m w = Some (a, w') -> Q a w'.

Section WLP.
  Context {A B : Type}.
  Implicit Types (w : world).

Lemma wlp_ret (a : A) (Q : A -> world -> Prop) w : Q a w -> wlp (mret a) Q w.
Proof. intros H a' w' E. injection E as <- <-. done. Qed.

Lemma wlp_bind (m : M A) (k : A -> M B) Q w :
  wlp m (fun a w' => wlp (k a) Q w') w -> wlp (x ← m; k x) Q w.
Proof. intros H b w2 (a & w1 & E1 & E2)%M_bind_inv. by eapply H. Qed.

Lemma wlp_mono (m : M A) (P Q : A -> world -> Prop) w :
  wlp m P w -> (forall a w', P a w' -> Q a w') -> wlp m Q w.
Proof. intros H HPQ a w' E. by apply HPQ, H. Qed.

Lemma wlp_lift (m : option A) Q w : (forall a, m = Some a -> Q a w) -> wlp (lift m) Q w.
Proof. intros H a w' [E ->]%lift_inv. by apply H. Qed.

Lemma wlp_with (m : M A) (P Q : A -> world -> Prop) w :
  wp m P w -> wlp m (fun a w' => P a w' -> Q a w') w -> wlp m Q w.
Proof. intros Hp H a w' E. apply H; [done|]. unfold wp in Hp. by rewrite E in Hp. Qed.
End WLP.

(** ** Events *)

(** Neither a datagram nor a packet for the device. *)
Definition plain (e : io_event) : bool :=
  match e with EvSend _ _ _ _ | EvTunWrite _ _ _ => false | _ => true end.

(** From [w] to [w'] the wire grew by events that satisfy [P]. *)
Definition adds (P : io_event -> bool) (w w' : world) : Prop :=
  (exists events, wire w' = wire w ++ events /\ Forall (fun e => P e = true) events) /\
  (w_calls w <= w_calls w')%nat.

#[global] Instance adds_preorder P : PreOrder (adds P).
Proof.
  split.
  - intros w. split; [|done]. exists []. by rewrite app_nil_r.
  - intros w1 w2 w3 [(e1 & E1 & F1) ?] [(e2 & E2 & F2) ?]. split; [|lia]. exists (e1 ++ e2).
    rewrite E2, E1, app_assoc. split; [done|]. by apply Forall_app.
Qed.

Lemma adds_weaken (P Q : io_event -> bool) w w' :
  (forall e, P e = true -> Q e = true) -> adds P w w' -> adds Q w w'.
Proof.
  intros H [(events & E & F) Hle]. split; [|done]. exists events. split; [done|].
  eapply Forall_impl; [exact F|]. auto.
Qed.

Definition only {A} (P : io_event -> bool) (m : M A) : Prop := forall w a w', m w = Some (a, w') -> adds P w w'.

Lemma only_weaken {A} (P Q : io_event -> bool) (m : M A) :
  only P m -> (forall e, P e = true -> Q e = true) -> only Q m.
Proof. intros H HPQ w a w' E. by eapply adds_weaken, H. Qed.

Lemma wlp_only {A} P (m : M A) (Q : A -> world -> Prop) w :
  only P m -> (forall a w', adds P w w' -> Q a w') -> wlp m Q w.
Proof. intros Hm H a w' E. by eapply H, Hm. Qed.

Create HintDb effects discriminated.
#[export] Hint Constants Opaque : effects.

Lemma only_ret {A} P (a : A) : only P (mret a).
Proof. intros w b w' E. injection E as <- <-. done. Qed.

Lemma only_bind {A B} P (m : M A) (k : A -> M B) :
  only P m -> (forall a, only P (k a)) -> only P (x ← m; k x).
Proof.
  intros H1 H2 w b w2 (a & w1 & E1 & E2)%M_bind_inv. etrans; [by eapply H1|by eapply H2].
Qed.

Lemma same_trace P w w' : w_trace w' = w_trace w -> (w_calls w <= w_calls w')%nat -> adds P w w'.
Proof. intros E ?. split; [|done]. exists []. unfold wire. by rewrite E, app_nil_r. Qed.
Lemma only_lift {A} P (m : option A) : only P (lift m).
Proof. intros w a w' [_ ->]%lift_inv. done. Qed.
Lemma only_ask {A} P (f : nat -> A) : only P (ask f).
Proof. intros w a w' E. injection E as <- <-. apply same_trace; [done|cbn; lia]. Qed.
Lemma only_get_errno P : only P get_errno.
Proof. intros w a w' E. injection E as <- <-. done. Qed.
Lemma only_set_errno P e : only P (set_errno e).
Proof. intros w a w' E. injection E as <- <-. by apply same_trace. Qed.
Lemma only_get_log P : only P get_log.
Proof. intros w a w' E. injection E as <- <-. done. Qed.
Lemma only_set_log P l : only P (set_log l).
Proof. intros w a w' E. injection E as <- <-. by apply same_trace. Qed.

Lemma only_emit (P : io_event -> bool) e : (is_wire e = true -> P e = true) -> only P (emit_event e).
Proof.
  intros He w a w' E. injection E as <- <-. split; [|done]. unfold wire. cbn [w_trace].
  rewrite wire_emit. eexists. split; [done|]. destruct (is_wire e); constructor; auto.
Qed.

#[export] Hint Resolve only_ret only_lift only_ask only_get_errno only_set_errno only_get_log only_set_log : effects.

(** Code made of pieces that are known. *)
Ltac effects :=
  repeat match goal with
  | |- only _ (mbind _ _) => apply only_bind; [|intros ?]
  | |- only _ (emit_event _) => apply only_emit; by intros
  | |- only _ (if ?b then _ else _) => destruct b
  | |- only _ (match ?x with _ => _ end) => destruct x
  | |- only _ (let _ := _ in _) => cbv zeta
  | |- only _ _ => solve [eauto with effects | eapply only_weaken; [eauto with effects|by intros []]]
  end.

Section Plain.
  Context `{EV : Env}.

Lemma only_log P level component text : only P (log_at level component text).
Proof. unfold log_at, log_level_enabled, ensure_initialized, log_init, emit, format_timestamp. effects. Qed.
Lemma only_log_debug P component text : only P (log_debug component text).
Proof. apply only_log. Qed.
Lemma only_log_info P component text : only P (log_info component text).
Proof. apply only_log. Qed.
Lemma only_log_warn P component text : only P (log_warn component text).
Proof. apply only_log. Qed.
Lemma only_log_error P component text : only P (log_error component text).
Proof. apply only_log. Qed.

Lemma only_syscall P f : only P (syscall f).
Proof. unfold syscall. effects. Qed.
End Plain.

#[export] Hint Resolve only_log_debug only_log_info only_log_warn only_log_error only_syscall : effects.

Section PlainNet.
  Context `{EV : Env}.

Lemma only_monotonic P : only P monotonic_ms.
Proof. unfold monotonic_ms. effects. Qed.
Lemma only_resolve P a h p : only P (udp_resolve a h p).
Proof. unfold udp_resolve. effects. Qed.
Lemma only_udp_recv P sock buf from : only P (udp_recv sock buf from).
Proof. unfold udp_recv. effects. Qed.
Lemma only_tun_read P dev buf : only P (tun_read dev buf).
Proof. unfold tun_read. effects. Qed.
Lemma only_sys_close fd : only plain (sys_close fd).
Proof. unfold sys_close. effects. Qed.
Lemma only_sys_open f : only plain (sys_open f).
Proof. unfold sys_open. effects. Qed.
Lemma only_sys_ioctl fd request ifr : only plain (sys_ioctl fd request ifr).
Proof. unfold sys_ioctl. effects. Qed.
Lemma only_close_keeping fd : only plain (close_keeping_errno fd).
Proof. unfold close_keeping_errno, sys_close. effects. Qed.
End PlainNet.

#[export] Hint Resolve only_monotonic only_resolve only_udp_recv only_tun_read : effects.
#[export] Hint Resolve only_sys_close only_sys_open only_sys_ioctl only_close_keeping : effects.

Section PlainStart.
  Context `{EV : Env}.

Lemma only_udp_close sock : only plain (udp_close sock).
Proof. unfold udp_close. effects. Qed.
Lemma only_tun_close dev : only plain (tun_close dev).
Proof. unfold tun_close. effects. Qed.
Lemma only_udp_bind port : only plain (udp_bind port).
Proof. unfold udp_bind, sys_bind. effects. Qed.
Lemma only_tun_open name : only plain (tun_open name).
Proof. unfold tun_open. effects. Qed.
Lemma only_tun_configure dev a m : only plain (tun_configure dev a m).
Proof. unfold tun_configure, set_ifreq_ipv4, configure_failed. effects. Qed.
Lemma only_log_init P : only P log_init.
Proof. unfold log_init. effects. Qed.
Lemma only_sys_fopen path : only plain (sys_fopen path).
Proof. unfold sys_fopen. effects. Qed.
Lemma only_install_handlers P : only P install_handlers.
Proof. intros w a w' E. injection E as <- <-. done. Qed.
Lemma only_g_running P installed : only P (g_running installed).
Proof. intros w a w' E. injection E as <- <-. done. Qed.
Lemma only_log_stats P me l : only P (log_stats me l).
Proof. induction l; cbn [log_stats]; effects. Qed.
Lemma only_config_report P path e : only P (config_report path e).
Proof. unfold config_report. effects. Qed.
End PlainStart.

#[export] Hint Resolve only_udp_close only_tun_close only_udp_bind only_tun_open only_tun_configure : effects.
#[export] Hint Resolve only_log_init only_sys_fopen only_config_report only_log_stats only_install_handlers only_g_running : effects.

Lemma only_config_load_file `{SO : Sodium} `{EV : Env} path : only plain (config_load_file path).
Proof. unfold config_load_file, config_return, sys_fclose. effects. Qed.

#[export] Hint Resolve only_config_load_file : effects.

