(* ===== verification/Steps.v ===== *)
(** * The daemon as an abstract machine

    What a run of the program does to its peers and to the outside, as a
    transition relation.  A [point] is the world and the list of peers.  A
    [step] is one act of a session: a peer joins, a handshake attempt is sent,
    an init is answered, a response completes a handshake, a payload is sealed
    and sent, a data message is opened and delivered.  Everything else
    (logging, clocks, rejected datagrams, bookkeeping) is a [quiet_step].
    Every function of src/main.c is shown to follow [path]s of this machine, so
    that a property of whole runs is an invariant of eleven kinds of steps. *)

From Stdlib Require Import String.
From S2P Require Import Prelude World Crypto Session Replay SessionFacts SessionRuns Libc Config.
From S2P Require Import ConfigFacts Routing Log Net Daemon DaemonFacts DaemonInput DaemonStart Effects.
Open Scope list_scope.

Definition point : Type := world * list peer_session_t.

(** The counters of the traffic. *)
Definition traffic (ps : peer_session_t) : Z * Z * Z * Z :=
  (stat_packets_tx (stats ps), stat_bytes_tx (stats ps), stat_packets_rx (stats ps), stat_bytes_rx (stats ps)).

(** A change of bookkeeping: addresses, times, the other counters. *)
Definition noted (ps ps' : peer_session_t) : Prop :=
  config ps' = config ps /\ session ps' = session ps /\ traffic ps' = traffic ps.

(** What is counted, if the call did not fail. *)
Definition count_sent (rc n : Z) (ps : peer_session_t) : peer_session_t :=
  if rc <? 0 then ps else set_stats (count_tx n) ps.
Definition count_delivered (rc n : Z) (ps : peer_session_t) : peer_session_t :=
  if rc <? 0 then ps else set_stats (count_rx n) ps.

(** One event on the wire. *)
Definition emits (w w' : world) (e : io_event) : Prop :=
  wire w' = wire w ++ [e] /\ (w_calls w <= w_calls w')%nat.

Inductive quiet_step : point -> point -> Prop :=
| quiet_world w w' l : adds plain w w' -> quiet_step (w, l) (w', l)
| quiet_peer w l i ps ps' : l !! i = Some ps -> noted ps ps' -> quiet_step (w, l) (w, <[i := ps']> l).

Section Machine.
  Context `{SO : Sodium} `{EV : Env}.

(** A datagram received before [w]. *)
Definition got (w : world) (inp : bytes) : Prop :=
  exists k data from, (k < w_calls w)%nat /\ env_recvfrom k = Some (data, from) /\
    inp = take SEALED_BUF_SIZE data.

Lemma got_mono w w' inp : (w_calls w <= w_calls w')%nat -> got w inp -> got w' inp.
Proof. intros Hle (k & data & from & Hk & H). exists k, data, from. split; [lia|done]. Qed.

(** The session after an attempt with the pair [kp]. *)
Definition attempted (kp : bytes * bytes) (s : session_t) : session_t :=
  set_handshake_counters (u64 (handshake_counter s + 1)) (handshake_counter s) (restarted kp s).

(** The session after a data message. *)
Definition advanced (s : session_t) : session_t := set_tx_counter (u64 (tx_counter s + 1)) s.

(** The key exchange of a session with the ephemeral key [peer]. *)
Definition exchange (s : session_t) (peer : bytes) : Z * crypto_session_keys_t :=
  crypto_derive_session_keys (role s) (local_eph_pk s) (local_eph_sk s) peer (data_keys s).

(** The key exchange with the configured peer [q]. *)
Definition joins (c : edgarvpn_config_t) (q : config_peer_t) : M (Z * session_t) :=
  session_init (peer_role q) (crypto_derive_public_key (private_key c)) (private_key c) (public_key q).

(** A payload for peer [i] on the way from [w] to [w']: a keepalive, or the
    packet that is next read from the TUN device and is routed to the peer. *)
Definition carries (c : edgarvpn_config_t) (w w' : world) (i : nat) (p : bytes) : Prop :=
  p = [] \/
  exists data, env_tun_read (w_calls w) = Some data /\ (w_calls w < w_calls w')%nat /\
    p = take MAX_PACKET_SIZE data /\ route c p = Some (Z.of_nat i).

Inductive step (c : edgarvpn_config_t) : point -> point -> Prop :=
| step_join w w' l q s :
    (length l < peer_count c)%nat -> peers c !! length l = Some q -> joins c q w = Some ((0, s), w') ->
    step c (w, l) (w', l ++ [set_session s (new_peer q)])
| step_attempt w w' l i ps fd rc :
    l !! i = Some ps -> role (session ps) = CRYPTO_ROLE_INITIATOR ->
    emits (tick w) w' (EvSend fd (addr ps)
      (message SESSION_MSG_HANDSHAKE_INIT (tx (static_keys (session ps))) (handshake_counter (session ps))
         (env_keypair (w_calls w)).1) rc) ->
    step c (w, l) (w', <[i := set_session (attempted (env_keypair (w_calls w)) (session ps)) ps]> l)
| step_answer w w1 w' l i ps inp counter peer s1 keys fd dest rc :
    l !! i = Some ps -> got w inp -> acceptable_init (session ps) inp counter peer ->
    responder_attempt (session ps) w = (s1, w1) -> exchange s1 peer = (0, keys) ->
    emits w1 w' (EvSend fd dest
      (message SESSION_MSG_HANDSHAKE_RESPONSE (tx (static_keys (session ps))) counter (local_eph_pk s1)) rc) ->
    step c (w, l) (w', <[i := set_session (responder_established keys counter s1) ps]> l)
| step_refuse w w1 l i ps inp counter peer s1 rc keys :
    l !! i = Some ps -> got w inp -> acceptable_init (session ps) inp counter peer ->
    responder_attempt (session ps) w = (s1, w1) -> exchange s1 peer = (rc, keys) -> rc <> 0 ->
    step c (w, l) (w1, <[i := set_session (set_data_keys keys s1) ps]> l)
| step_complete w l i ps inp peer keys :
    l !! i = Some ps -> got w inp -> acceptable_response (session ps) inp peer ->
    exchange (session ps) peer = (0, keys) ->
    step c (w, l) (w, <[i := set_session (initiator_established keys (session ps)) ps]> l)
| step_fail w l i ps inp peer rc keys :
    l !! i = Some ps -> got w inp -> acceptable_response (session ps) inp peer ->
    exchange (session ps) peer = (rc, keys) -> rc <> 0 ->
    step c (w, l) (w, <[i := set_session (set_data_keys keys (session ps)) ps]> l)
| step_send w w' l i ps p fd rc :
    l !! i = Some ps -> state (session ps) = SESSION_STATE_ESTABLISHED -> (length p <= MAX_PACKET_SIZE)%nat ->
    carries c w w' i p -> emits w w' (EvSend fd (addr ps)
      (message SESSION_MSG_DATA (tx (data_keys (session ps))) (tx_counter (session ps)) p) rc) ->
    step c (w, l) (w', <[i := count_sent rc (zlen p + 25) (set_session (advanced (session ps)) ps)]> l)
| step_deliver w w' l i ps counter p s fd rc :
    l !! i = Some ps -> state (session ps) = SESSION_STATE_ESTABLISHED -> is_u64 counter -> p <> [] ->
    got w (message SESSION_MSG_DATA (rx (data_keys (session ps))) counter p) ->
    replay_check_and_mark (session ps) counter = Some (true, s) -> emits w w' (EvTunWrite fd p rc) ->
    step c (w, l) (w', <[i := count_delivered rc (zlen p + 25) (set_session s ps)]> l)
| step_hear w l i ps counter s :
    l !! i = Some ps -> state (session ps) = SESSION_STATE_ESTABLISHED -> is_u64 counter ->
    got w (message SESSION_MSG_DATA (rx (data_keys (session ps))) counter []) ->
    replay_check_and_mark (session ps) counter = Some (true, s) ->
    step c (w, l) (w, <[i := set_session s ps]> l).

(** [n] steps, with any number of quiet ones between. *)
Inductive path (c : edgarvpn_config_t) : nat -> point -> point -> Prop :=
| path_refl a : path c 0 a a
| path_quiet n a b b' : path c n a b -> quiet_step b b' -> path c n a b'
| path_step n a b b' : path c n a b -> step c b b' -> path c (S n) a b'.
End Machine.

(** A peer in the middle of the list. *)
Lemma insert_middle {A} (pre rest : list A) x y :
  <[length pre := y]> (pre ++ x :: rest) = pre ++ y :: rest.
Proof. rewrite insert_app_r_alt, Nat.sub_diag by done. done. Qed.

(** The two calls that put an event on the wire. *)
Section Calls.
  Context `{EV : Env}.

Lemma wlp_emits (f : nat -> Z) (e : Z -> io_event) Q w :
  (forall rc, is_wire (e rc) = true) -> (forall rc w', emits w w' (e rc) -> Q rc w') ->
  wlp (rc ← syscall f; _ ← emit_event (e rc); mret rc) Q w.
Proof.
  intros He H. apply wlp_bind, (wlp_only (fun _ => false)); [apply only_syscall|].
  intros rc w1 [(events & E & F) Hle]. destruct F as [|]; [|done]. rewrite app_nil_r in E.
  apply wlp_bind. intros u w2 E2. injection E2 as _ <-. apply wlp_ret, H. split; [|done].
  unfold wire at 1. cbn [w_trace]. by rewrite wire_emit, He, E.
Qed.

Lemma wlp_send sock msg dest Q w :
  (forall rc w', emits w w' (EvSend (u_fd sock) dest msg rc) -> Q rc w') -> wlp (udp_send sock msg dest) Q w.
Proof. by apply wlp_emits. Qed.

Lemma wlp_write dev p Q w :
  (forall rc w', emits w w' (EvTunWrite (t_fd dev) p rc) -> Q rc w') -> wlp (tun_write dev p) Q w.
Proof. by apply wlp_emits. Qed.
End Calls.

(** ** Following a run *)
Section Follow.
  Context `{SO : Sodium} {SL : SodiumLaws} `{EV : Env} {EL : EnvLaws} {CL : ClockLaws} {IL : IoLaws}.
  Context (c : edgarvpn_config_t) (origin : point).

(** Within [k] steps of the origin. *)
Definition reached (k : nat) (w : world) (l : list peer_session_t) : Prop :=
  exists n, (n <= k)%nat /\ path c n origin (w, l).

Lemma reached_le k k' w l : (k <= k')%nat -> reached k w l -> reached k' w l.
Proof. intros Hle (n & Hn & H). exists n. split; [lia|done]. Qed.

Lemma reached_step k w w' l l' : reached k w l -> step c (w, l) (w', l') -> reached (S k) w' l'.
Proof. intros (n & Hn & H) Hs. exists (S n). split; [lia|]. by eapply path_step. Qed.

Lemma reached_world k w w' l : adds plain w w' -> reached k w l -> reached k w' l.
Proof. intros Ha (n & Hn & H). exists n. split; [done|]. eapply path_quiet; [exact H|by constructor]. Qed.

Lemma reached_note k w l i ps ps' : reached k w l -> l !! i = Some ps -> noted ps ps' -> reached k w (<[i := ps']> l).
Proof. intros (n & Hn & H) Hi Hs. exists n. split; [done|]. eapply path_quiet; [exact H|by econstructor]. Qed.

(** Bookkeeping on a peer that was just changed. *)
Lemma reached_then k w l i ps ps1 ps2 :
  reached k w (<[i := ps1]> l) -> l !! i = Some ps -> noted ps1 ps2 -> reached k w (<[i := ps2]> l).
Proof.
  intros H Hi Hs. rewrite <- (list_insert_insert_eq l i ps2 ps1). eapply reached_note; [exact H| |done].
  apply list_lookup_insert_eq. by eapply lookup_lt_Some.
Qed.

(** A call that is not a step: carry what is known over it. *)
Ltac carry :=
  repeat match goal with
  | Ha : adds plain ?w ?w', H : reached _ ?w _ |- _ => apply (reached_world _ _ _ _ Ha) in H
  | Ha : adds plain ?w ?w', H : got ?w _ |- _ => apply (got_mono _ w') in H; [|by destruct Ha]
  end.
Ltac walk :=
  apply wlp_bind, (wlp_only plain); [effects|];
  let w := fresh "w" in let Ha := fresh "Ha" in intros ? w Ha; carry; clear Ha.

(** ** Handshake attempts and timers *)
Lemma start_attempt_follows k w l i ps me sock buf now :
  reached k w l -> l !! i = Some ps -> peer_inv ps -> peer_role (config ps) = CRYPTO_ROLE_INITIATOR ->
  (SESSION_HANDSHAKE_MSG_LEN <= length buf)%nat ->
  wlp (start_attempt ps me sock buf now) (fun r w' => reached (S k) w' (<[i := r.1]> l)) w.
Proof.
  intros H Hi Hp Hro Hb. unfold start_attempt. apply wlp_bind. intros s w1 E1.
  rewrite start_handshake_eq in E1. injection E1 as <- <-. cbv zeta.
  pose proof (restarted_wf (w_calls w) _ (pi_wf _ Hp)) as Hwf.
  apply wlp_bind, wlp_lift. intros [[rc s2] buf2] E2. cbn [session set_last_tx set_last_rx set_session] in E2.
  destruct (build_init_eq _ buf Hwf) as [[_ E']|[Hno _]].
  2:{ destruct Hno. split; [cbn; by rewrite (pi_role _ Hp)|done]. }
  rewrite E' in E2. set (msg := message _ _ _ _ ++ _) in E2. injection E2 as <- <- <-. cbn [Z.ltb Z.compare].
  apply wlp_bind, wlp_bind, wlp_send. change (Z.to_nat 57) with 57%nat. subst msg.
  rewrite take_app_length' by (by rewrite message_length, (wf_eph_pk _ Hwf)).
  intros rc' w2 He. apply wlp_ret.
  eapply reached_step in H; [|eapply step_attempt; [exact Hi|by rewrite (pi_role _ Hp)|exact He]].
  destruct (rc' <? 0); walk; apply wlp_ret; by eapply reached_then.
Qed.

Lemma initiate_handshake_follows k w l i ps me sock buf now :
  reached k w l -> l !! i = Some ps -> peer_inv ps -> peer_role (config ps) = CRYPTO_ROLE_INITIATOR ->
  (SESSION_HANDSHAKE_MSG_LEN <= length buf)%nat ->
  wlp (initiate_handshake ps me sock buf now) (fun r w' => reached (S k) w' (<[i := r.1]> l)) w.
Proof.
  intros H Hi Hp Hro Hb. unfold initiate_handshake. destruct (addr_resolved ps); [by apply start_attempt_follows|].
  cbv zeta. walk. destruct a as [rc a]. destruct (negb _).
  - walk. apply wlp_ret. eapply reached_le; [|by eapply reached_note]. lia.
  - eapply wlp_mono; [eapply (start_attempt_follows k _ (<[i := set_addr a (set_last_rx now ps)]> l) i)|].
    + by eapply reached_note.
    + apply list_lookup_insert_eq. by eapply lookup_lt_Some.
    + by apply (peer_inv_bookkeeping ps).
    + done.
    + done.
    + intros r w' H'. cbv beta in H'. by rewrite list_insert_insert_eq in H'.
Qed.

Lemma send_data_follows k w l i ps p buf rc s buf' :
  reached k w l -> l !! i = Some ps -> (length p <= MAX_PACKET_SIZE)%nat ->
  session_seal_data (session ps) p buf = Some (rc, s, buf') ->
  (rc < 0 /\ s = session ps) \/
  (rc = zlen p + 25 /\ s = advanced (session ps) /\ forall w' fd rc',
     carries c w w' i p -> emits w w' (EvSend fd (addr ps) (take (Z.to_nat rc) buf') rc') ->
     reached (S k) w' (<[i := count_sent rc' rc (set_session s ps)]> l)).
Proof.
  intros H Hi Hp E. assert (zlen p + 25 < 2 ^ 64) as Hp64 by (unfold MAX_PACKET_SIZE in Hp; lia).
  destruct (seal_data_eq (session ps) p buf Hp64) as [[[Hs _] E']|[_ E']]; rewrite E' in E; simplify_eq; [right|by left].
  split; [done|]. split; [done|]. intros w' fd rc' Hcar He.
  rewrite take_app_length' in He by (rewrite message_length; lia).
  eapply reached_step; [exact H|by eapply step_send].
Qed.

Lemma keepalive_follows k w l i ps me sock buf now :
  reached k w l -> l !! i = Some ps ->
  wlp (keepalive me sock now ps buf) (fun r w' => reached (S k) w' (<[i := r.1]> l)) w.
Proof.
  intros H Hi. unfold keepalive. cbv zeta. destruct (_ && _).
  2:{ apply wlp_ret. cbn. rewrite list_insert_id by done. eapply reached_le; [|exact H]. lia. }
  apply wlp_bind, wlp_lift. intros [[rc s] buf'] E. apply wlp_bind.
  apply (wlp_mono _ (fun ps' w' => reached (S k) w' (<[i := ps']> l))).
  2:{ intros ps' w' H'. apply wlp_ret. by eapply reached_then. }
  destruct (send_data_follows _ _ _ _ _ (take 0 EMPTY_PAYLOAD) _ _ _ _ H Hi ltac:(apply Nat.le_0_l) E) as [[Hrc ->]|(Erc & Es & Hstep)].
  - rewrite (proj2 (Z.ltb_lt _ _)) by done. walk. apply wlp_ret. eapply reached_le; [|by eapply reached_note]. lia.
  - rewrite (proj2 (Z.ltb_ge _ _)) by lia. apply wlp_bind, wlp_send. intros rc' w1 He%(Hstep _ _ _ ltac:(by left)). clear H Hstep.
    unfold count_sent in He. destruct (rc' <? 0); [walk|]; walk; by apply wlp_ret.
Qed.

Lemma rehandshake_follows k w l i ps me sock buf now :
  reached k w l -> l !! i = Some ps -> peer_inv ps -> (SESSION_HANDSHAKE_MSG_LEN <= length buf)%nat ->
  wlp (rehandshake me sock now ps buf) (fun r w' => reached (S k) w' (<[i := r.1]> l)) w.
Proof.
  intros H Hi Hp Hb. unfold rehandshake, is_initiator. cbv zeta. case_bool_decide as Hro; cbn [andb].
  2:{ apply wlp_ret. cbn. rewrite list_insert_id by done. eapply reached_le; [|exact H]. lia. }
  destruct (_ <=? _); [|destruct (_ && _)].
  - walk. by apply initiate_handshake_follows.
  - walk. by apply initiate_handshake_follows.
  - apply wlp_ret. cbn. rewrite list_insert_id by done. eapply reached_le; [|exact H]. lia.
Qed.

Lemma all_timers_follows me sock now peers : forall k w pre buf,
  reached k w (pre ++ peers) -> Forall peer_inv peers ->
  (SESSION_HANDSHAKE_MSG_LEN <= length buf)%nat -> zlen buf < 2 ^ 64 ->
  wlp (all_timers me sock now peers buf) (fun r w' => reached (k + 2 * length peers) w' (pre ++ r.1)) w.
Proof.
  induction peers as [|ps rest IH]; intros k w pre buf H Hp Hb Hl; cbn [all_timers].
  { apply wlp_ret. by rewrite Nat.add_0_r. }
  apply Forall_cons in Hp as [Hps Hrest]. apply wlp_bind. unfold peer_timers. apply wlp_bind.
  eapply wlp_with; [apply keepalive_wp; [done| |done]|].
  { etrans; [|exact Hb]. unfold SESSION_HANDSHAKE_MSG_LEN, SESSION_DATA_OVERHEAD. lia. }
  eapply wlp_mono; [eapply (keepalive_follows k w _ (length pre)); [exact H|by apply list_lookup_middle]|].
  intros [ps1 buf1] w1 H1 (Hb1 & Hps1 & _). cbn [fst snd] in *. rewrite insert_middle in H1.
  eapply wlp_with; [apply rehandshake_wp; [done|lia]|].
  eapply wlp_mono; [eapply (rehandshake_follows (S k) w1 _ (length pre)); [exact H1|by apply list_lookup_middle|done|lia]|].
  intros [ps2 buf2] w2 H2 (Hb2 & _). cbn [fst snd] in *. rewrite insert_middle in H2.
  apply wlp_bind. eapply wlp_mono; [apply (IH (S (S k)) w2 (pre ++ [ps2])); [by rewrite <- app_assoc|done|lia|lia]|].
  intros [rest' buf3] w3 H3. apply wlp_ret. cbn [fst] in *. rewrite <- app_assoc in H3.
  eapply reached_le; [|exact H3]. cbn [length]. lia.
Qed.

Lemma timers_follows k w d :
  reached k w (d_peers d) -> daemon_inv d ->
  wlp (timers d) (fun d' w' => reached (k + 2 * length (d_peers d)) w' (d_peers d')) w.
Proof.
  intros H Hd. unfold timers. destruct (_ <? _)%nat.
  2:{ apply wlp_ret. eapply reached_le; [|exact H]. lia. }
  walk. apply wlp_bind. pose proof (di_cipher _ Hd) as Hc. eapply wlp_mono.
  { apply (all_timers_follows _ _ _ _ k _ []); [done|apply (di_peers _ Hd)|rewrite Hc; by apply Nat.leb_le|by rewrite Hc]. }
  intros [peers buf] w1 H1. cbn [fst app] in H1. cbv zeta. destruct (_ <=? _); [walk|]; by apply wlp_ret.
Qed.

(** ** A packet from the TUN device *)

(** [data] was the packet read at [w0], and nothing else was done. *)
Definition reading (w0 w : world) (data : bytes) : Prop :=
  env_tun_read (w_calls w0) = Some data /\ wire w = wire w0 /\ (w_calls w0 < w_calls w)%nat.

Lemma reading_adds w0 w data : reading w0 w data -> adds plain w0 w.
Proof. intros (_ & E & Hlt). split; [|lia]. exists []. by rewrite app_nil_r. Qed.

Lemma tun_read_reading dev buf w :
  wlp (tun_read dev buf) (fun r w' => adds plain w w' /\ length r.2 = length buf /\
    (0 <= r.1 -> exists data, reading w w' data /\ take (Z.to_nat r.1) r.2 = take (length buf) data)) w.
Proof.
  intros r w' E. split; [by eapply only_tun_read|]. unfold tun_read in E.
  apply M_bind_inv in E as (a & w1 & Ea & E). injection Ea as <- <-.
  destruct (env_tun_read (w_calls w)) as [data|] eqn:Er; [|inv_M; split; [done|cbn; lia]].
  unfold fill in E. injection E as <- <-. cbn [fst snd]. split; [apply fill_length|]. intros _. exists data.
  split; [|by rewrite take_fill]. split; [done|]. split; [done|]. cbn. lia.
Qed.

Lemma forward_packet_follows k w0 w d n data :
  reached k w0 (d_peers d) -> daemon_inv d -> cfg d = c -> reading w0 w data ->
  take (Z.to_nat n) (plain_buf d) = take MAX_PACKET_SIZE data ->
  wlp (forward_packet d n) (fun d' w' => reached (S k) w' (d_peers d')) w.
Proof.
  intros H0 Hd Hcfg Hr Ep. pose proof (reading_adds _ _ _ Hr) as Ha. destruct Hr as (Er & Ew & Hlt).
  pose proof (reached_world _ _ _ _ Ha H0) as H. clear Ha. unfold forward_packet. cbv zeta. rewrite Ep, Hcfg.
  assert (reached (S k) w (d_peers d)) as HS by (eapply reached_le; [|exact H]; lia). set (packet := take _ _).
  assert (length packet <= MAX_PACKET_SIZE)%nat as Hp by (unfold packet; rewrite length_take; lia).
  apply wlp_bind, wlp_lift. intros idx Eidx. destruct (Z.ltb_spec idx 0); [walk; by apply wlp_ret|].
  apply wlp_bind, wlp_lift. intros ps Hi. destruct (negb (established ps)).
  { walk. apply wlp_ret. by eapply reached_note. }
  apply wlp_bind, wlp_lift. intros [[rc s] buf] E.
  destruct (send_data_follows _ _ _ _ _ _ _ _ _ _ H0 Hi Hp E) as [[Hrc ->]|(Erc & Es & Hstep)].
  - rewrite (proj2 (Z.ltb_lt _ _)) by done. walk. apply wlp_ret. by eapply reached_note.
  - rewrite (proj2 (Z.ltb_ge _ _)) by lia. apply wlp_bind, wlp_send. intros rc' w1 [Ew1 Hlt1].
    pose proof (Hstep w1 (u_fd (udp d)) rc') as He. clear H H0 HS Hstep.
    assert (reached (S k) w1 (<[Z.to_nat idx := count_sent rc' rc (set_session s ps)]> (d_peers d))) as H.
    { apply He; [|split; [by rewrite <- Ew|lia]]. right. exists data. split; [done|]. split; [lia|]. split; [done|].
      by rewrite Eidx, Z2Nat.id. }
    clear He. unfold count_sent in H. destruct (rc' <? 0); walk; walk; apply wlp_ret; [done|].
    cbn [d_peers set_peer set_cipher]. rewrite list_insert_insert_eq. by eapply reached_then.
Qed.

Lemma tun_ready_follows k w d :
  reached k w (d_peers d) -> daemon_inv d -> cfg d = c ->
  wlp (tun_ready d) (fun d' w' => reached (S k) w' (d_peers d')) w.
Proof.
  intros H Hd Hcfg. unfold tun_ready. cbv zeta.
  assert (reached (S k) w (d_peers d)) as HS by (eapply reached_le; [|exact H]; lia).
  apply wlp_bind. eapply wlp_mono; [apply tun_read_reading|].
  intros [n buf] w1 (Ha & Hl & Hr). cbn [fst snd] in *. apply (reached_world _ _ _ _ Ha) in HS.
  destruct (Z.ltb_spec n 0).
  { walk. destruct (negb _); [walk|]; by apply wlp_ret. }
  destruct (_ =? _)%nat; [walk; by apply wlp_ret|]. destruct (Hr ltac:(lia)) as (data & Hrd & Et).
  rewrite (di_plain _ Hd) in Hl, Et. eapply (forward_packet_follows k w); [done| |done..]. by apply set_plain_inv.
Qed.

(** ** Datagrams *)

(** Sending [msg] next would be the last part of a step to [l]. *)
Definition answering (k : nat) (w : world) (msg : bytes) (l : list peer_session_t) : Prop :=
  forall w' fd dest rc, emits w w' (EvSend fd dest msg rc) -> reached k w' l.

Lemma answering_le k k' w msg l : (k <= k')%nat -> answering k w msg l -> answering k' w msg l.
Proof. intros Hle H w' fd dest rc He. eapply reached_le; [exact Hle|]. by eapply H. Qed.

Lemma handle_init_follows k w l i ps inp out rc s out' w' :
  reached k w l -> l !! i = Some ps -> peer_inv ps -> datagram inp -> got w inp ->
  session_handle_init (session ps) inp out w = Some ((rc, s, out'), w') ->
  (rc < 0 /\ out' = out /\ (w_calls w <= w_calls w')%nat /\ reached (S k) w' (<[i := set_session s ps]> l)) \/
  (0 <= rc /\ answering (S k) w' (take (Z.to_nat rc) out') (<[i := set_session s ps]> l)).
Proof.
  intros H Hi Hp [Hb Hl] Hg E. pose proof (pi_wf _ Hp) as Hwf.
  destruct (handle_init_cases (session ps) inp out w Hwf Hb Hl) as [[E' _]|(Hlo & cn & p & Ha & Hc)].
  { rewrite E' in E. simplify_eq. left. split; [lia|]. split; [done|]. split; [done|].
    eapply reached_le; [|by eapply reached_note]. lia. }
  destruct (responder_attempt (session ps) w) as [s1 w1] eqn:Ea.
  destruct (responder_attempt_facts _ _ _ _ Ea Hwf) as (Hwf1 & Hr1 & _).
  assert (role s1 = CRYPTO_ROLE_RESPONDER) as Hro by (rewrite Hr1; apply Ha).
  rewrite <- Hro in Hc. fold (exchange s1 p) in Hc. destruct (exchange s1 p) as [rcd keys] eqn:Ek.
  destruct Hc as [[Hrc E']|[-> E']]; rewrite E' in E.
  - simplify_eq. left. split; [lia|]. split; [done|]. split.
    + unfold responder_attempt in Ea. case_decide; simplify_eq; [cbn; lia|done].
    + eapply reached_step; [exact H|by eapply step_refuse].
  - set (msg := message _ _ _ _ ++ _) in E. injection E as <- <- <- <-. right. split; [lia|].
    intros w' fd dest rc He. eapply reached_step; [exact H|]. eapply step_answer; [done..|].
    subst msg. change (Z.to_nat 57) with 57%nat in He.
    rewrite take_app_length' in He by (by rewrite message_length, (wf_eph_pk _ Hwf1)). exact He.
Qed.

Lemma find_responder_follows inp peers : forall k w pre out i,
  reached k w (pre ++ peers) -> Forall peer_inv peers -> datagram inp -> got w inp ->
  wlp (find_responder_for_init peers inp out i) (fun r w' =>
    match r.2 with
    | Some (_, len) => answering (k + length peers) w' (take (Z.to_nat len) r.1.2) (pre ++ r.1.1)
    | None => reached (k + length peers) w' (pre ++ r.1.1)
    end) w.
Proof.
  induction peers as [|ps rest IH]; intros k w pre out i H Hp Hdg Hg; cbn [find_responder_for_init].
  { apply wlp_ret. by rewrite Nat.add_0_r. }
  apply Forall_cons in Hp as [Hps Hrest].
  assert (forall ps1 w1, reached (S k) w1 (pre ++ ps1 :: rest) -> got w1 inp ->
    wlp ('(rest, out, r) ← find_responder_for_init rest inp out (S i); mret (ps1 :: rest, out, r)) (fun r w' =>
      match r.2 with
      | Some (_, len) => answering (k + S (length rest)) w' (take (Z.to_nat len) r.1.2) (pre ++ r.1.1)
      | None => reached (k + S (length rest)) w' (pre ++ r.1.1)
      end) w1) as Later.
  { intros ps1 w1 H1 Hg1. apply wlp_bind. eapply wlp_mono.
    { apply (IH (S k) w1 (pre ++ [ps1])); [by rewrite <- app_assoc|done|done|done]. }
    intros [[rest' out'] m] w2 H2. apply wlp_ret. cbn [fst snd] in *. rewrite <- app_assoc in H2.
    by replace (k + S (length rest))%nat with (S k + length rest)%nat by lia. }
  destruct (negb (is_responder ps)).
  { apply Later; [|done]. eapply reached_le; [|exact H]. lia. }
  apply wlp_bind. intros [[rc s] out'] w1 E1. cbv beta iota zeta.
  destruct (handle_init_follows k w _ (length pre) ps _ _ _ _ _ _ H (list_lookup_middle _ _ _ _ eq_refl) Hps Hdg Hg E1)
    as [(Hrc & -> & Hle & H1)|(Hrc & H1)]; rewrite insert_middle in H1.
  - destruct (Z.leb_spec 0 rc); [lia|]. apply Later; [done|]. by eapply got_mono.
  - destruct (Z.leb_spec 0 rc); [|lia]. apply wlp_ret. cbn [fst snd]. eapply answering_le; [|exact H1]. cbn [length]. lia.
Qed.

Lemma unknown_init_follows k w d inp from :
  reached k w (d_peers d) -> daemon_inv d -> datagram inp -> got w inp ->
  wlp (unknown_init d inp from) (fun d' w' => reached (k + length (d_peers d)) w' (d_peers d')) w.
Proof.
  intros H Hd Hdg Hg. unfold unknown_init. cbv zeta. apply wlp_bind.
  eapply wlp_mono; [apply (find_responder_follows inp _ k w []); [done|apply (di_peers _ Hd)|done|done]|].
  intros [[peers response] m] w1 H1. cbn [fst snd app] in *. clear H. destruct m as [[i len]|].
  2:{ walk. walk. by apply wlp_ret. }
  apply wlp_bind, wlp_lift. intros ps Hi. apply wlp_bind, wlp_send. intros rc w2 He%H1.
  clear H1. destruct (rc <? 0); walk; walk; [by apply wlp_ret|].
  walk. apply wlp_ret. by eapply reached_note.
Qed.

(** The branches on a known peer. *)
Lemma known_init_follows k w d i ps inp :
  reached k w (d_peers d) -> daemon_inv d -> datagram inp -> got w inp -> d_peers d !! i = Some ps ->
  wlp (known_init d i ps inp) (fun d' w' => reached (S k) w' (d_peers d')) w.
Proof.
  intros H Hd Hdg Hg Hi. pose proof (Forall_lookup_1 _ _ _ _ (di_peers _ Hd) Hi) as Hp.
  unfold known_init. cbv zeta. apply wlp_bind. intros [[rc s] response] w1 E1.
  destruct (handle_init_follows k w _ i ps _ _ _ _ _ _ H Hi Hp Hdg Hg E1) as [(Hrc & _ & _ & H1)|(Hrc & H1)].
  - rewrite (proj2 (Z.ltb_lt _ _)) by done. clear H. walk. apply wlp_ret. by eapply reached_then.
  - rewrite (proj2 (Z.ltb_ge _ _)) by done. apply wlp_bind, wlp_send. intros rc' w2 He%H1. clear H H1.
    destruct (rc' <? 0); walk; walk; apply wlp_ret; by eapply reached_then.
Qed.

Lemma known_response_follows k w d i ps inp :
  reached k w (d_peers d) -> daemon_inv d -> datagram inp -> got w inp -> d_peers d !! i = Some ps ->
  wlp (known_response d i ps inp) (fun d' w' => reached (S k) w' (d_peers d')) w.
Proof.
  intros H Hd [Hb Hl] Hg Hi. pose proof (Forall_lookup_1 _ _ _ _ (di_peers _ Hd) Hi) as Hp.
  unfold known_response. cbv zeta. apply wlp_bind, wlp_lift. intros [rc s] E.
  assert (reached (S k) w (<[i := set_session s ps]> (d_peers d))) as H1.
  { destruct (handle_response_cases (session ps) inp (pi_wf _ Hp) Hb Hl) as [[E' _]|(p & Ha & Hc)].
    { rewrite E' in E. simplify_eq. eapply reached_le; [|by eapply reached_note]. lia. }
    pose proof (proj1 Ha) as Hro. rewrite <- Hro in Hc. fold (exchange (session ps) p) in Hc.
    destruct (exchange (session ps) p) as [rcd keys] eqn:Ek.
    destruct Hc as [[Hrc E']|[-> E']]; rewrite E' in E; simplify_eq; (eapply reached_step; [exact H|]);
      [by eapply step_fail|by eapply step_complete]. }
  clear H. destruct (rc <? 0); [|walk]; walk; apply wlp_ret; by eapply reached_then.
Qed.

(** A data message that is accepted, with its counter. *)
Lemma open_data_accepts s acc inp out rc s' out' :
  window_rep s acc -> datagram inp -> session_open_data s inp out = Some (rc, s', out') ->
  (rc < 0 /\ s' = s) \/
  exists cn p, state s = SESSION_STATE_ESTABLISHED /\ is_u64 cn /\ rc = zlen p /\ take (Z.to_nat rc) out' = p /\
    inp = message SESSION_MSG_DATA (rx (data_keys s)) cn p /\ replay_check_and_mark s cn = Some (true, s').
Proof.
  intros Hw [Hb Hl] E. unfold session_open_data in E.
  case_bool_decide as Hs; cbn [negb] in E; [|simplify_eq; left; auto with lia].
  destruct (has_type SESSION_MSG_DATA inp) eqn:Ht; cbn [negb] in E; [|simplify_eq; left; auto with lia].
  pose proof (has_type_inv _ _ Ht) as [Hne Hhd]. apply bind_Some in E as ([[r out1] cn] & Eo & E).
  destruct (open_message _ _ _ _ _ _ _ Hb Hl Hne Eo) as [[-> ->]|(p & -> & -> & Hc & Hi & Hp)].
  { cbn in E. simplify_eq. left. auto with lia. }
  rewrite Hhd in Hi. rewrite (proj2 (Z.ltb_ge _ _)) in E by lia.
  apply bind_Some in E as ([ok s1] & Er & E).
  destruct (replay_step s acc cn Hw Hc) as (s2 & Er' & Hst). rewrite Er in Er'. injection Er' as -> ->.
  case_bool_decide as Hf; cbn [negb] in E; simplify_eq.
  - right. exists cn, p. rewrite Nat2Z.id, take_app_length. by auto 10.
  - left. rewrite decide_False in Hst by done. auto with lia.
Qed.

Lemma known_data_follows k w d i ps inp :
  reached k w (d_peers d) -> daemon_inv d -> datagram inp -> got w inp -> d_peers d !! i = Some ps ->
  wlp (known_data d i ps inp (zlen inp)) (fun d' w' => reached (S k) w' (d_peers d')) w.
Proof.
  intros H Hd Hdg Hg Hi. destruct (pi_window _ (Forall_lookup_1 _ _ _ _ (di_peers _ Hd) Hi)) as [acc Hw].
  assert (reached (S k) w (d_peers d)) as HS by (eapply reached_le; [|exact H]; lia).
  unfold known_data. cbv zeta. apply wlp_bind, wlp_lift. intros [[rc s] buf] E.
  destruct (open_data_accepts _ _ _ _ _ _ _ Hw Hdg E) as [[Hrc ->]|(cn & p & Hst & Hc & Erc & Ep & Ei & Er)].
  { rewrite (proj2 (Z.ltb_lt _ _)) by done. walk. apply wlp_ret. by eapply reached_note. }
  rewrite (proj2 (Z.ltb_ge _ _)) by lia. clear HS. subst inp. destruct (Z.eqb_spec rc 0).
  - assert (p = []) as -> by (destruct p; [done|cbn in *; lia]).
    eapply reached_step in H; [|by eapply step_hear]. walk. walk. apply wlp_ret. by eapply reached_then.
  - assert (p <> []) as Hne by (intros ->; cbn in *; lia). rewrite Ep.
    apply wlp_bind, wlp_write. intros rc' w1 He.
    eapply reached_step in H; [|by eapply step_deliver]. unfold count_delivered in H.
    replace (zlen (message _ _ _ p)) with (zlen p + 25) by (rewrite message_length; lia).
    destruct (rc' <? 0); walk; walk; apply wlp_ret; [done|]. by eapply reached_then.
Qed.

Lemma handle_datagram_follows k w d n from inp :
  reached k w (d_peers d) -> daemon_inv d -> datagram inp -> got w inp ->
  take (Z.to_nat n) (cipher_buf d) = inp -> zlen inp = n ->
  wlp (handle_datagram d n from) (fun d' w' => reached (k + S (length (d_peers d))) w' (d_peers d')) w.
Proof.
  intros H Hd Hdg Hg Ei En. unfold handle_datagram. rewrite Ei. cbv zeta. apply wlp_bind, wlp_lift. intros type _.
  assert (reached (S k) w (d_peers d)) as HS by (eapply reached_le; [|exact H]; lia).
  destruct (find_peer_by_addr _ _) as [i|].
  - apply wlp_bind, wlp_lift. intros ps Hi.
    apply (wlp_mono _ (fun d' w' => reached (S k) w' (d_peers d'))).
    2:{ intros d' w' H'. eapply reached_le; [|exact H']. lia. }
    destruct (_ && is_responder ps); [by apply known_init_follows|].
    destruct (_ && is_initiator ps); [by apply known_response_follows|].
    destruct (_ =? _); [subst n; by apply known_data_follows|].
    unfold unexpected. walk. apply wlp_ret. by eapply reached_note.
  - eapply wlp_mono; [|intros d' w' H'; eapply reached_le; [|exact H']; apply Nat.add_le_mono_l, Nat.le_succ_diag_r].
    destruct (_ =? _); [by apply unknown_init_follows|].
    unfold unknown_source. walk. walk. apply wlp_ret. eapply reached_le; [|exact H]. lia.
Qed.

(** What is received. *)
Lemma udp_recv_datagram P sock buf from0 w :
  length buf = SEALED_BUF_SIZE ->
  wlp (udp_recv sock buf from0) (fun r w' => adds P w w' /\ length r.1.2 = SEALED_BUF_SIZE /\
    (0 <= r.1.1 -> datagram (take (Z.to_nat r.1.1) r.1.2) /\ zlen (take (Z.to_nat r.1.1) r.1.2) = r.1.1 /\
       exists data, env_recvfrom (w_calls w) = Some (data, r.2) /\
         take (Z.to_nat r.1.1) r.1.2 = take SEALED_BUF_SIZE data /\ (w_calls w < w_calls w')%nat)) w.
Proof.
  intros Hlb r w' E. split; [by eapply only_udp_recv|]. unfold udp_recv in E.
  apply M_bind_inv in E as (a & w1 & Ea & E). injection Ea as <- <-.
  destruct (env_recvfrom (w_calls w)) as [[data from]|] eqn:Er; [|inv_M; split; [done|cbn; lia]].
  unfold fill in E. injection E as <- <-. cbn [fst snd]. split; [by rewrite fill_length|]. intros _.
  rewrite take_fill, Hlb, length_take. split; [split|split].
  - apply Forall_take. by eapply env_recvfrom_bytes.
  - rewrite length_take. assert (Z.of_nat SEALED_BUF_SIZE < 2 ^ 64) by done. lia.
  - lia.
  - exists data. split; [done|]. split; [done|]. cbn. lia.
Qed.

Lemma udp_ready_follows k w d :
  reached k w (d_peers d) -> daemon_inv d ->
  wlp (udp_ready d) (fun d' w' => reached (k + S (length (d_peers d))) w' (d_peers d')) w.
Proof.
  intros H Hd. unfold udp_ready. cbv zeta. apply wlp_bind.
  assert (reached (k + S (length (d_peers d))) w (d_peers d)) as HS by (eapply reached_le; [|exact H]; lia).
  eapply wlp_mono; [apply (udp_recv_datagram plain); apply (di_cipher _ Hd)|].
  intros [[n buf] from] w1 (Ha & Hlb & Hr). cbn [fst snd] in *. carry. pose proof (proj2 Ha) as Hw1. destruct (Z.ltb_spec n 0).
  { walk. destruct (negb _); [walk|]; by apply wlp_ret. }
  destruct (_ || _); [walk; by apply wlp_ret|]. destruct (Hr ltac:(lia)) as (Hdg & Hn & data & Er & Ei & Hlt).
  assert (got w1 (take (Z.to_nat n) buf)) as Hg by (by exists (w_calls w), data, from).
  eapply (handle_datagram_follows k w1 (set_cipher buf d)); try done.
  by apply set_cipher_inv.
Qed.

(** ** The loop *)

(** What one round can do: one step for a packet from the TUN device, one for
    each peer and one more for a datagram, two for each peer for the timers. *)
Definition round_steps : nat := 2 + 3 * CONFIG_MAX_PEERS.

Lemma daemon_peers_bound d : daemon_inv d -> (length (d_peers d) <= CONFIG_MAX_PEERS)%nat.
Proof. intros Hd. rewrite (di_count _ Hd). apply (fields_count _ (wf_fields _ (di_config _ Hd))). Qed.

Lemma iteration_follows k w d :
  reached k w (d_peers d) -> daemon_inv d -> cfg d = c ->
  wlp (iteration d) (fun r w' => reached (k + round_steps) w' (d_peers r.2)) w.
Proof.
  intros H Hd Hcfg. unfold iteration.
  assert (reached (k + round_steps) w (d_peers d)) as HS by (eapply reached_le; [|exact H]; lia).
  walk. destruct a as [[ready tun_in] udp_in]. destruct (ready <? 0).
  { walk. walk. destruct (_ =? _); [|walk]; by apply wlp_ret. }
  unfold round_steps in *. apply wlp_bind.
  apply (wlp_mono _ (fun d' w' => reached (S k) w' (d_peers d') /\ daemon_inv d')).
  { destruct (_ && tun_in).
    - eapply wlp_with; [by apply tun_ready_wp|].
      eapply wlp_mono; [by apply (tun_ready_follows k)|]. by intros d' w' H' (? & _).
    - apply wlp_ret. split; [|done]. eapply reached_le; [|exact H]. lia. }
  intros d1 w1 [H1 Hd1]. pose proof (daemon_peers_bound _ Hd1) as Hb1. apply wlp_bind.
  apply (wlp_mono _ (fun d' w' => reached (S k + S CONFIG_MAX_PEERS) w' (d_peers d') /\ daemon_inv d')).
  { destruct (_ && udp_in).
    - eapply wlp_with; [by apply udp_ready_wp|].
      eapply wlp_mono; [by apply (udp_ready_follows (S k))|]. intros d' w' H' (? & _). split; [|done].
      eapply reached_le; [|exact H']. lia.
    - apply wlp_ret. split; [|done]. eapply reached_le; [|exact H1]. lia. }
  intros d2 w2 [H2 Hd2]. pose proof (daemon_peers_bound _ Hd2) as Hb2. apply wlp_bind.
  eapply wlp_mono; [by apply timers_follows|]. intros d3 w3 H3. apply wlp_ret. eapply reached_le; [|exact H3]. lia.
Qed.

Lemma main_loop_follows fuel installed : forall k w d,
  reached k w (d_peers d) -> daemon_inv d -> cfg d = c ->
  wlp (main_loop fuel installed d) (fun r w' => reached (k + fuel * round_steps) w' (d_peers r.2)) w.
Proof.
  induction fuel as [|fuel IH]; intros k w d H Hd Hcfg; cbn [main_loop].
  { apply wlp_ret. cbn [Nat.mul]. by rewrite Nat.add_0_r. }
  assert (reached (k + S fuel * round_steps) w (d_peers d)) as HS by (eapply reached_le; [|exact H]; lia).
  walk. destruct (negb _); [|by apply wlp_ret]. apply wlp_bind.
  eapply wlp_with; [by apply iteration_wp|]. eapply wlp_mono; [by apply (iteration_follows k)|].
  intros [go d1] w1 H1 (Hd1 & (Hcfg1 & _) & _). cbn [snd] in *. destruct go.
  - eapply wlp_mono; [apply IH; [done|done|congruence]|]. intros r w' H'. eapply reached_le; [|exact H']. lia.
  - apply wlp_ret. eapply reached_le; [|exact H1]. lia.
Qed.

(** ** Start-up *)
Lemma joins_follows k w l q s w' :
  reached k w l -> (length l < peer_count c)%nat -> peers c !! length l = Some q ->
  joins c q w = Some ((0, s), w') -> reached (S k) w' (l ++ [set_session s (new_peer q)]).
Proof. intros H Hl Hq E. eapply reached_step; [exact H|by eapply step_join]. Qed.

Lemma only_session_init P r pk sk peer : only P (session_init r pk sk peer).
Proof.
  intros w [rc s] w' E. pose proof (session_init_eq r pk sk peer w) as E'.
  destruct (crypto_derive_session_keys _ _ _ _ _) as [rc' keys]. rewrite E' in E.
  case_decide; simplify_eq; [|done]. apply same_trace; [done|cbn; lia].
Qed.

(** The peer that has just joined, and its first attempt. *)
Lemma new_peer_inv q s pk sk w w' t :
  session_init (peer_role q) pk sk (public_key q) w = Some ((0, s), w') ->
  peer_inv (set_last_rx t (set_session s (new_peer q))).
Proof.
  intros E. refine (wp_run _ (fun r _ => r.1 = 0 -> peer_inv (set_last_rx t (set_session r.2 (new_peer q)))) _ _ _ E eq_refl).
  apply wp_session_init; [done|]. intros s1 w1 _ Hw Hacc Hr Hst Heph _. split; cbn; congruence || done.
Qed.

Lemma start_peers_follows dev sock todo : forall done k w pre buf,
  reached k w pre -> take (peer_count c) (peers c) = done ++ todo -> length done = length pre ->
  length buf = SEALED_BUF_SIZE ->
  wlp (start_peers c dev sock (crypto_derive_public_key (private_key c)) todo buf) (fun r w' =>
    match r with
    | Some (ps, _) => reached (k + 2 * length todo) w' (pre ++ ps)
    | None => exists l, reached (k + 2 * length todo) w' l
    end) w.
Proof.
  induction todo as [|q todo IH]; intros dn k w pre buf H Hq Hd Hb; cbn [start_peers].
  { apply wlp_ret. by rewrite Nat.add_0_r, app_nil_r. }
  cbn [length]. apply wlp_bind. intros [rc s] w1 E1. cbv beta iota zeta.
  destruct (Z.eqb_spec rc 0) as [->|]; cbn [negb].
  2:{ apply (reached_world _ _ _ _ (only_session_init _ _ _ _ _ _ _ _ E1)) in H. walk. walk. walk. apply wlp_ret.
      exists pre. eapply reached_le; [|exact H]. lia. }
  assert (take (peer_count c) (peers c) !! length pre = Some q) as [Eq Hlt]%lookup_take_Some.
  { rewrite Hq, <- Hd, lookup_app_r, Nat.sub_diag by done. done. }
  apply (joins_follows k w pre q s w1 H Hlt Eq) in E1 as H1. clear H. walk.
  pose proof (list_lookup_middle pre [] (set_session s (new_peer q)) _ eq_refl) as Hi.
  eapply reached_note in H1; [|exact Hi|]; [|by instantiate (1 := set_last_rx a (set_session s (new_peer q)))].
  rewrite insert_middle in H1. pose proof (new_peer_inv _ _ _ _ _ _ a E1) as Hp.
  apply wlp_bind, (wlp_mono _ (fun r w' => reached (S (S k)) w' (pre ++ [r.1]) /\ length r.2 = SEALED_BUF_SIZE)).
  { case_bool_decide as Hro.
    - assert (SESSION_HANDSHAKE_MSG_LEN <= length buf)%nat as Hb' by (rewrite Hb; by apply Nat.leb_le).
      walk. eapply wlp_with; [by apply initiate_handshake_wp|].
      eapply wlp_mono; [by eapply (initiate_handshake_follows (S k) _ _ (length pre)); [exact H1|apply list_lookup_middle|..]|].
      intros [ps buf1] w' H' (Hl & _). cbn [fst snd] in *. rewrite insert_middle in H'. split; [done|congruence].
    - walk. apply wlp_ret. split; [|done]. eapply reached_le; [|exact H1]. lia. }
  intros [ps buf1] w2 [H2 Hb2]. cbn [fst snd] in *. apply wlp_bind.
  eapply wlp_mono; [apply (IH (dn ++ [q]) (S (S k)) w2 (pre ++ [ps])); [done|by rewrite <- app_assoc| |done]|].
  { rewrite !length_app. cbn. lia. }
  intros [[rest buf2]|] w3 H3; apply wlp_ret.
  - rewrite <- app_assoc in H3. eapply reached_le; [|exact H3]. lia.
  - destruct H3 as [l H3]. exists l. eapply reached_le; [|exact H3]. lia.
Qed.

Lemma start_network_follows dev cipher0 plain0 w :
  reached 0 w [] -> length cipher0 = SEALED_BUF_SIZE -> config_wf c ->
  wlp (start_network c dev cipher0 plain0) (fun r w' =>
    match r with
    | Some d => cfg d = c /\ reached (2 * CONFIG_MAX_PEERS) w' (d_peers d)
    | None => exists l, reached (2 * CONFIG_MAX_PEERS) w' l
    end) w.
Proof.
  intros H Hc Hwf. pose proof (fields_count _ (wf_fields _ Hwf)) as Hn.
  assert (reached (2 * CONFIG_MAX_PEERS) w []) as HS by (eapply reached_le; [|exact H]; lia).
  unfold start_network. walk. destruct a as [rc sock]. destruct (negb _); [walk; walk; walk; apply wlp_ret; eauto|].
  apply wlp_bind, (wlp_mono _ (fun r w' => match r with
    | Some (ps, _) => reached (2 * CONFIG_MAX_PEERS) w' ps
    | None => exists l, reached (2 * CONFIG_MAX_PEERS) w' l
    end)).
  { destruct (_ <? _)%nat; [|walk; by apply wlp_ret].
    apply wlp_bind. eapply wlp_mono; [by apply (start_peers_follows _ _ _ [] 0 _ [])|].
    assert (length (take (peer_count c) (peers c)) <= CONFIG_MAX_PEERS)%nat as Hl by (rewrite length_take; lia).
    intros [[ps buf]|] w' H'.
    - walk. apply wlp_ret. eapply reached_le; [|exact H']. lia.
    - apply wlp_ret. destruct H' as [l H']. exists l. eapply reached_le; [|exact H']. lia. }
  intros [[ps buf]|] w' H'; [|by apply wlp_ret]. walk. by apply wlp_ret.
Qed.
End Follow.

Section Runs.
  Context `{SO : Sodium} {SL : SodiumLaws} `{EV : Env} {EL : EnvLaws} {CL : ClockLaws} {IL : IoLaws}.

Ltac quietly := apply wlp_bind, (wlp_only plain); [effects|]; let w := fresh "w" in let Ha := fresh "Ha" in intros ? w Ha.
Ltac quiet_chain := repeat (etrans; [eassumption|]); done.

Lemma reached_start c w w' : adds plain w w' -> reached c (w, []) 0 w' [].
Proof. intros Ha. apply (reached_world c (w, []) 0 w); [done|]. exists 0%nat. split; [done|constructor]. Qed.

(** What the start-up leaves: a daemon, or nothing, after at most two steps for
    each peer. *)
Definition launched (w : world) (r : option daemon) (w' : world) : Prop :=
  exists c, match r with
  | Some d => cfg d = c /\ reached c (w, []) (2 * CONFIG_MAX_PEERS) w' (d_peers d)
  | None => exists l, reached c (w, []) (2 * CONFIG_MAX_PEERS) w' l
  end.

Lemma launched_none w w' : adds plain w w' -> launched w None w'.
Proof.
  intros Ha. exists config_init, []. eapply reached_le; [|by apply reached_start]. lia.
Qed.

Lemma start_follows cipher0 plain0 w :
  length cipher0 = SEALED_BUF_SIZE -> wlp (start cipher0 plain0) (launched w) w.
Proof.
  intros Hlc. unfold start. destruct (negb _); [quietly; apply wlp_ret, launched_none; quiet_chain|].
  quietly. cbv zeta. apply wlp_bind.
  eapply wlp_with; [by apply (config_load_file_fds _ (fun r _ => forall c, r = Some c -> config_wf c))|].
  apply (wlp_only plain); [effects|]. intros [c|] w1 Ha1 Hwf; [specialize (Hwf c eq_refl)|].
  2:{ apply wlp_ret, launched_none. quiet_chain. }
  quietly. destruct a0 as [rc dev]. destruct (negb _).
  { quietly. quietly. apply wlp_ret, launched_none. quiet_chain. }
  quietly. destruct (negb _).
  { quietly. quietly. quietly. apply wlp_ret, launched_none. quiet_chain. }
  eapply wlp_mono; [eapply (start_network_follows c (w, [])); [apply reached_start; quiet_chain|done|done]|].
  intros r w' H. by exists c.
Qed.

Lemma main_follows fuel cipher0 plain0 w :
  wire w = [] -> length cipher0 = SEALED_BUF_SIZE -> length plain0 = MAX_PACKET_SIZE ->
  wlp (main fuel cipher0 plain0) (fun _ w' => exists c l w0,
    adds plain w w0 /\ reached c (w0, []) (2 * CONFIG_MAX_PEERS + fuel * round_steps) w' l) w.
Proof.
  intros Ew Hlc Hlp. unfold main. apply wlp_bind.
  eapply wlp_with; [by apply (wp_log_init (fun _ w' => wire w' = wire w))|].
  apply (wlp_only plain); [effects|]. intros _ w0 Ha E0. rewrite Ew in E0.
  apply wlp_bind. intros installed w' E. injection E as <- <-. apply wlp_bind.
  eapply wlp_with; [apply (start_wp cipher0 plain0 w0 []); try done; unfold fds; by rewrite E0|].
  eapply wlp_mono; [by apply start_follows|]. intros [d|] w1 (c & H1) Hst.
  2:{ destruct H1 as [l H1]. apply wlp_ret. exists c, l, w0. split; [done|]. eapply reached_le; [|exact H1]. lia. }
  destruct H1 as [<- H1], Hst as (Hd & _). apply wlp_bind.
  eapply wlp_mono; [by apply (main_loop_follows (cfg d) (w0, []) _ _ _ _ _ H1)|].
  intros [ended d'] w2 H2. cbn [snd] in H2. destruct ended; [|apply wlp_ret; by eauto 10].
  unfold shutdown. apply wlp_bind. quietly. quietly. quietly. do 2 apply wlp_ret.
  exists (cfg d), (d_peers d'), w0. split; [done|]. eapply reached_world; [|exact H2]. quiet_chain.
Qed.

Lemma loop_path fuel installed cipher0 plain0 w d w1 :
  length cipher0 = SEALED_BUF_SIZE -> length plain0 = MAX_PACKET_SIZE -> wire w = [] ->
  start cipher0 plain0 w = Some (Some d, w1) ->
  exists ended d' w2 n, main_loop fuel installed d w1 = Some ((ended, d'), w2) /\
    (n <= 2 * CONFIG_MAX_PEERS + fuel * round_steps)%nat /\ path (cfg d) n (w, []) (w2, d_peers d').
Proof.
  intros Hc Hp Ew E1. assert (fds w = Some []) as F by (unfold fds; by rewrite Ew).
  pose proof (wp_run _ _ _ _ (start_wp cipher0 plain0 w [] Hc Hp F) E1) as Hd. destruct Hd as (Hd & _).
  destruct (wp_exists _ _ _ (main_loop_wp fuel installed d w1 Hd)) as ([ended d'] & w2 & E2 & _).
  destruct (start_follows cipher0 plain0 w Hc _ _ E1) as (c & <- & H1).
  destruct (main_loop_follows (cfg d) (w, []) fuel installed _ _ _ H1 Hd eq_refl _ _ E2) as (n & Hn & H2).
  by exists ended, d', w2, n.
Qed.

(** C9. Every run of the program is a path of the abstract machine.  Once it
    has started with a configuration, the poll loop runs for any number of
    rounds without undefined behaviour, and what it did from its first call on
    (joining the peers, attempts, answers, completed and failed exchanges, data
    sent and delivered) is a sequence of steps of [step], each with the
    datagram or packet it puts on the wire and the datagram it depends on
    received before; at most two for each peer at start-up and twenty-six a
    round.  Nothing else changes a session, sends a datagram or writes to the
    TUN device. *)
Theorem run_follows_steps fuel installed cipher0 plain0 w d w1 :
  length cipher0 = SEALED_BUF_SIZE -> length plain0 = MAX_PACKET_SIZE -> wire w = [] ->
  start cipher0 plain0 w = Some (Some d, w1) ->
  exists ended d' w2 n, main_loop fuel installed d w1 = Some ((ended, d'), w2) /\
    (n <= 16 + fuel * 26)%nat /\ path (cfg d) n (w, []) (w2, d_peers d').
Proof. apply loop_path. Qed.
End Runs.
