(* ===== verification/Keygen.v ===== *)
(** * edgarvpn-keygen (tools/keygen.c)

    The key generator, and that the configuration parser reads the lines it
    prints back to the pair it generated. *)

From Stdlib Require Import String.
From S2P Require Import Prelude World Crypto Toy Libc Config ConfigFacts ConfigText.
Open Scope list_scope.

(** [printf("PrivateKey = %s\n", sk_text)] and its companion; [text] is the
    buffer the text was encoded into. *)
Definition private_line (text : bytes) : bytes := str "PrivateKey = " ++ c_string text ++ [10].
Definition public_line (text : bytes) : bytes := str "PublicKey  = " ++ c_string text ++ [10].

Section Code.
  Context `{SO : Sodium} `{EV : Env}.

(** [main]; [pk_text] and [sk_text] are the stack where the two texts go. *)
Definition keygen_main (pk_text sk_text : bytes) : M Z :=
  if negb (crypto_init =? 0) then
    _ ← emit_event (EvPrint Stderr (str "edgarvpn-keygen: failed to initialize crypto library" ++ [10]));
    mret 1
  else
    '(pk, sk) ← crypto_generate_keypair;
    pk_text ← lift (crypto_encode_base64 pk pk_text);
    sk_text ← lift (crypto_encode_base64 sk sk_text);
    _ ← emit_event (EvPrint Stdout (private_line sk_text));
    _ ← emit_event (EvPrint Stdout (public_line pk_text));
    mret 0.
End Code.

(** ** Reading the lines back *)
Section Spec.
  Context `{SO : Sodium} {SL : SodiumLaws} `{EV : Env} {EL : EnvLaws}.

Lemma encoded_key k out :
  is_bytes k -> length k = 32%nat -> length out = CRYPTO_KEY_TEXT_LEN ->
  exists buf, crypto_encode_base64 k out = Some buf /\ c_string buf = sodium_bin2base64 k.
Proof.
  intros Hb Hl Ho. unfold crypto_encode_base64. pose proof (bin2base64_length k) as L. rewrite Hl in L.
  rewrite buf_write_ok by (rewrite length_app, L, Ho; cbn; unfold CRYPTO_KEY_TEXT_LEN; lia).
  eexists. split; [reflexivity|]. cbn [take app]. rewrite <- app_assoc. cbn [app].
  by apply c_string_graphic, bin2base64_graphic.
Qed.

Lemma encoded_word k : length k = 32%nat -> is_bytes k -> word (sodium_bin2base64 k).
Proof. intros Hl Hb. split; [by apply encoded_nonempty|by apply bin2base64_graphic]. Qed.

(** The two lines, up to the dispatch on the section. *)
Lemma private_line_entry p t : word t -> lineno p < INT_MAX ->
  config_line p (str "PrivateKey = " ++ t ++ [10]) = keyed (set_lineno (lineno p + 1) p) (str "PrivateKey") t.
Proof.
  intros Ht Hl. rewrite <- (entry_line p (str "PrivateKey") [32]); [done| |by repeat constructor|done|done].
  apply (bool_decide_unpack _); by vm_compute.
Qed.

Lemma public_line_entry p t : word t -> lineno p < INT_MAX ->
  config_line p (str "PublicKey  = " ++ t ++ [10]) = keyed (set_lineno (lineno p + 1) p) (str "PublicKey") t.
Proof.
  intros Ht Hl. rewrite <- (entry_line p (str "PublicKey") [32; 32]); [done| |by repeat constructor|done|done].
  apply (bool_decide_unpack _); by vm_compute.
Qed.

(** C36. What the key generator prints is what the parser reads: the program
    ends with status 0 after two lines on standard output; the first, under
    [Interface], sets the private key that was generated, the second, under
    [Peer], sets its public key, and that public key is the one the daemon
    derives from the private key. *)
Theorem keygen_output_loads pk_text sk_text w :
  crypto_init = 0 ->
  length pk_text = CRYPTO_KEY_TEXT_LEN -> length sk_text = CRYPTO_KEY_TEXT_LEN ->
  exists private public w',
    keygen_main pk_text sk_text w = Some (0, w') /\
    w_trace w' = w_trace w ++ [EvPrint Stdout private; EvPrint Stdout public] /\
    let '(pk, sk) := env_keypair (w_calls w) in
    crypto_derive_public_key sk = pk /\
    (forall p, parser_inv p -> lineno p < INT_MAX -> section p = SECTION_INTERFACE ->
       exists p', config_line p private = Some (inr p') /\ has_private_key (p_cfg p') = true /\
         private_key (p_cfg p') = sk) /\
    (forall p, parser_inv p -> lineno p < INT_MAX -> section p = SECTION_PEER ->
       exists p' i q, config_line p public = Some (inr p') /\ cur p' = Some i /\
         peers (p_cfg p') !! i = Some q /\ public_key q = pk).
Proof.
  intros Hini Hlp Hls. unfold keygen_main, crypto_generate_keypair. rewrite Hini. cbn [Z.eqb negb].
  pose proof (env_keypair_matches (w_calls w)) as Em. pose proof (env_keypair_sk_length (w_calls w)) as El.
  pose proof (env_keypair_sk_bytes (w_calls w)) as Eb.
  rewrite M_bind_eq. cbn [ask mbind option_bind].
  destruct (env_keypair (w_calls w)) as [pk sk]. cbn [fst snd] in *. unfold CRYPTO_SECRET_KEY_BYTES in El.
  assert (is_bytes pk) as Hpb by (rewrite Em; by apply scalarmult_base_bytes).
  assert (length pk = 32%nat) as Hpl by (rewrite Em; apply scalarmult_base_length).
  destruct (encoded_key pk pk_text Hpb Hpl Hlp) as (pb & Epb & Cpb).
  destruct (encoded_key sk sk_text Eb El Hls) as (sb & Esb & Csb).
  rewrite Epb, Esb. exists (private_line sb), (public_line pb).
  eexists. split; [reflexivity|]. split; [cbn; by rewrite <- app_assoc|]. split; [done|].
  unfold private_line, public_line. rewrite Cpb, Csb. split.
  - intros p Hi Hln Hs. rewrite private_line_entry by auto using encoded_word.
    unfold keyed. cbn [set_lineno section]. rewrite Hs. unfold interface_key.
    pose proof (fields_private_key _ (inv_fields _ Hi)) as Hpk.
    norm_str. cbn -[parse_key].
    rewrite parse_key_encoded; [|done|by rewrite El, Hpk]. cbn. by eexists.
  - intros p Hi Hln Hs. rewrite public_line_entry by auto using encoded_word.
    unfold keyed. cbn [set_lineno section]. rewrite Hs. unfold peer_key_value.
    pose proof (inv_cur _ Hi) as Hc. destruct (cur p) as [i|] eqn:Ec; [|by destruct Hc].
    destruct (lookup_lt_is_Some_2 (peers (p_cfg p)) i) as [q Hq].
    { rewrite (fields_peers _ (inv_fields _ Hi)). pose proof (fields_count _ (inv_fields _ Hi)). lia. }
    destruct (inv_current _ Hi i q Ec Hq) as (Hk & _).
    norm_str. cbn -[parse_key]. rewrite Ec. cbn -[parse_key]. rewrite Hq.
    cbn -[parse_key]. rewrite parse_key_encoded; [|done|by rewrite Hpl, Hk].
    eexists _, i, _. split; [reflexivity|].
    split; [done|]. split; [apply list_lookup_insert_eq; by eapply lookup_lt_Some|done].
Qed.
End Spec.

Lemma keygen_output_loads_witness :
  exists private public w',
    keygen_main (replicate 45 0) (replicate 45 7) toy_world = Some (0, w') /\
    w_trace w' = w_trace toy_world ++ [EvPrint Stdout private; EvPrint Stdout public] /\
    let '(pk, sk) := env_keypair (w_calls toy_world) in
    crypto_derive_public_key sk = pk /\
    (forall p, parser_inv p -> lineno p < INT_MAX -> section p = SECTION_INTERFACE ->
       exists p', config_line p private = Some (inr p') /\ has_private_key (p_cfg p') = true /\
         private_key (p_cfg p') = sk) /\
    (forall p, parser_inv p -> lineno p < INT_MAX -> section p = SECTION_PEER ->
       exists p' i q, config_line p public = Some (inr p') /\ cur p' = Some i /\
         peers (p_cfg p') !! i = Some q /\ public_key q = pk).
Proof. apply keygen_output_loads; by vm_compute. Defined.
