(* ===== verification/LogSpec.v ===== *)
(** * What src/log.c guarantees

    Which messages are printed, where and how, and that JSON output can be
    read back. *)

From Stdlib Require Import String.
From S2P Require Import Prelude World Crypto Toy Libc Log.
Open Scope list_scope.

#[global] Instance toy_clock : ClockLaws.
Proof. split. intros n. cbn. pose proof (Z.mod_pos_bound (Z.of_nat n) 1000000). lia. Qed.

(** C38. JSON escaping loses nothing and cannot break out of its string: the
    escaped form of any byte sequence has no control character and, read as
    the contents of a JSON string (where a bare double quote is an error),
    gives the bytes back. *)
Theorem json_escape_roundtrip text :
  is_bytes text ->
  json_unescape (write_json_escaped text) = Some text /\
  Forall (fun c => 32 <= c) (write_json_escaped text).
Proof. intros H. split; [by apply json_escaped_unescape|by apply json_escaped_printable]. Qed.

Lemma json_escape_roundtrip_witness :
  let text := [34; 92; 10; 13; 9; 1; 31; 65; 200] in
  json_unescape (write_json_escaped text) = Some text /\
  Forall (fun c => 32 <= c) (write_json_escaped text).
Proof. apply json_escape_roundtrip. by apply (bool_decide_unpack _); vm_compute. Defined.

Section Claims.
  Context `{EV : Env} {CL : ClockLaws}.

(** A JSON line holds no control character but its final newline. *)
Lemma json_line_body timestamp level component message :
  forallb plain_char timestamp = true -> is_bytes component -> is_bytes message ->
  exists body, line_of LOG_FORMAT_JSON timestamp level component message = body ++ [10] /\
    Forall (fun c => 32 <= c) body.
Proof.
  intros Ht Hc Hm. unfold line_of, json_line, q.
  eexists. split; [rewrite !app_assoc; reflexivity|].
  assert (Forall (fun c => 32 <= c) timestamp).
  { apply Forall_forall. intros c Hin. rewrite forallb_forall in Ht.
    apply list_elem_of_In in Hin. specialize (Ht c Hin). unfold plain_char in Ht. reflect_bools. lia. }
  assert (Forall (fun c => 32 <= c) (level_name level)).
  { destruct level; by apply (bool_decide_unpack _); vm_compute. }
  rewrite !Forall_app. repeat match goal with |- _ /\ _ => split end;
    try done; try (by apply json_escaped_printable); by apply (bool_decide_unpack _); vm_compute.
Qed.

(** C37. A log call prints at most one line: exactly when its level is at
    least the one configured (read from the environment by the first call if
    [log_init] has not run), on stderr from WARN on and on stdout below, with
    a 20-character UTC timestamp and the message cut to 1023 bytes; [errno] is
    kept; and in JSON format, whatever the component and message are, the line
    has no control character before its newline. *)
Theorem log_at_prints level component text w :
  let l := w_log (log_ready w) in
  let message := take 1023 text in
  exists timestamp w',
    log_at level component text w = Some (tt, w') /\ w_errno w' = w_errno w /\ w_log w' = l /\
    length timestamp = 20%nat /\
    w_trace w' = w_trace w ++
      (if level_number (g_level l) <=? level_number level
       then [EvPrint (match level with
                      | LOG_LEVEL_DEBUG | LOG_LEVEL_INFO => Stdout
                      | LOG_LEVEL_WARN | LOG_LEVEL_ERROR => Stderr
                      end) (line_of (g_format l) timestamp level component message)]
       else []) /\
    (is_bytes component -> is_bytes text ->
     exists body, line_of LOG_FORMAT_JSON timestamp level component message = body ++ [10] /\
       Forall (fun c => 32 <= c) body).
Proof.
  intros l message. destruct (log_at_eq level component text w) as (ts & w' & E & Hl & Hp & Ee & Elog & Et).
  exists ts, w'. split; [done|]. split; [done|]. split; [done|]. split; [done|]. split.
  - rewrite Et. unfold enabled. fold l. destruct (_ <=? _); [|done]. by destruct level.
  - intros Hc Ht. apply json_line_body; [done|done|]. by apply Forall_take.
Qed.
End Claims.

Lemma log_at_prints_witness :
  let l := w_log (log_ready toy_world) in
  let message := take 1023 (str "hello") in
  exists timestamp w',
    log_at LOG_LEVEL_WARN (str "peer1") (str "hello") toy_world = Some (tt, w') /\
    w_errno w' = w_errno toy_world /\ w_log w' = l /\
    length timestamp = 20%nat /\
    w_trace w' = w_trace toy_world ++
      (if level_number (g_level l) <=? level_number LOG_LEVEL_WARN
       then [EvPrint Stderr (line_of (g_format l) timestamp LOG_LEVEL_WARN (str "peer1") message)]
       else []) /\
    (is_bytes (str "peer1") -> is_bytes (str "hello") ->
     exists body, line_of LOG_FORMAT_JSON timestamp LOG_LEVEL_WARN (str "peer1") message = body ++ [10] /\
       Forall (fun c => 32 <= c) body).
Proof. apply log_at_prints. Defined.
