(* ===== verification/NetSpec.v ===== *)
(** * What src/udp.c and src/tun.c guarantee

    The requests that bring the interface up, and the error a failed bind
    reports. *)

From Stdlib Require Import String.
From S2P Require Import Prelude World Crypto Toy Libc Config Net ConfigFile.
Open Scope list_scope.

Section Claims.
  Context `{EV : Env}.

(** ** The system calls on the wire *)
Lemma wp_open_wire f (Q : Z -> world -> Prop) w :
  (forall fd w', fd < 0 -> wire w' = wire w -> Q fd w') ->
  (forall fd w', 0 <= fd -> wire w' = wire w ++ [EvOpen fd] -> Q fd w') -> wp (sys_open f) Q w.
Proof.
  intros H1 H2. unfold sys_open. apply wp_bind, wp_syscall. intros fd w1 E1.
  destruct (Z.ltb_spec fd 0); [by apply wp_ret, H1|].
  apply wp_bind, wp_emit. intros w2 E2 _. apply wp_ret, H2; [done|]. by rewrite E2, E1.
Qed.

Lemma wp_close_wire fd (Q : unit -> world -> Prop) w :
  (forall w', wire w' = wire w ++ [EvClose fd] -> Q tt w') -> wp (sys_close fd) Q w.
Proof.
  apply wp_fclose.
Qed.

Lemma wp_ioctl_wire fd request ifr (Q : Z * ifreq -> world -> Prop) w :
  (forall rc ifr' w', wire w' = wire w ++ [EvIoctl fd request ifr rc] -> Q (rc, ifr') w') ->
  wp (sys_ioctl fd request ifr) Q w.
Proof.
  intros H. unfold sys_ioctl. apply wp_bind, wp_ask. intros w1 E1 _. destruct (env_ioctl _ _ _) as [rc ifr'].
  apply wp_bind, wp_emit. intros w2 E2 _. destruct (rc <? 0).
  - apply wp_bind, wp_ask. intros w3 E3 _. apply wp_bind, wp_set_errno. intros w4 E4 _.
    apply wp_ret, H. by rewrite E4, E3, E2, E1.
  - apply wp_ret, H. by rewrite E2, E1.
Qed.

(** What bringing the interface up looks like from the kernel. *)
Definition configured (dev : tun_device_t) (address netmask : bytes) (events : list io_event) : Prop :=
  exists sock a m n2 n4 ifr3 flags r1 r2 r3 r4,
    inet_pton address = Some a /\ inet_pton netmask = Some m /\
    0 <= r1 /\ 0 <= r2 /\ 0 <= r3 /\ 0 <= r4 /\
    Z.testbit flags 0 = true /\ Z.testbit flags 6 = true /\
    events = [
      EvOpen sock;
      EvIoctl sock SIOCSIFADDR {| ifr_name := strncpy_name (t_name dev);
        ifr_u := ifr_addr {| sin_family := AF_INET; sin_addr := a; sin_port := 0 |} |} r1;
      EvIoctl sock SIOCSIFNETMASK {| ifr_name := n2;
        ifr_u := ifr_addr {| sin_family := AF_INET; sin_addr := m; sin_port := 0 |} |} r2;
      EvIoctl sock SIOCGIFFLAGS ifr3 r3;
      EvIoctl sock SIOCSIFFLAGS {| ifr_name := n4; ifr_u := ifr_flags flags |} r4;
      EvClose sock].

(** Either outcome of the function, for the proof. *)
Definition configure_post (dev : tun_device_t) (address netmask : bytes) (w : world) (rc : Z) (w' : world) :
    Prop :=
  (rc = 0 \/ rc = -1) /\
  exists events, wire w' = wire w ++ events /\ (rc = 0 -> configured dev address netmask events).

Lemma configure_failed_post dev a m sock w w1 events :
  wire w1 = wire w ++ events ->
  wp (configure_failed sock) (configure_post dev a m w) w1.
Proof.
  intros E. unfold configure_failed, close_keeping_errno. apply wp_bind, wp_bind, wp_get_errno.
  apply wp_bind, wp_close_wire. intros w2 E2. apply wp_set_errno. intros w3 E3 _. apply wp_ret.
  split; [by right|]. exists (events ++ [EvClose sock]). split; [by rewrite E3, E2, E, app_assoc|done].
Qed.

(** [tun_configure] returns 0 or -1, and returns 0 only after it has set
    on a socket of its own the parsed address, then the parsed netmask, read
    the flags and set them with IFF_UP and IFF_RUNNING added, every request
    accepted by the kernel, and closed the socket. *)
Theorem tun_configure_success dev address netmask w :
  exists rc w' events,
    tun_configure dev address netmask w = Some (rc, w') /\ (rc = 0 \/ rc = -1) /\
    wire w' = wire w ++ events /\ (rc = 0 -> configured dev address netmask events).
Proof.
  cut (wp (tun_configure dev address netmask) (configure_post dev address netmask w) w).
  { intros (rc & w' & E & Hrc & ev & Ew & H)%wp_exists. by exists rc, w', ev. }
  unfold tun_configure. apply wp_bind, wp_open_wire.
  { intros fd w1 Hfd E1. destruct (Z.ltb_spec fd 0); [|lia]. apply wp_ret. split; [by right|].
    exists []. by rewrite app_nil_r. }
  intros sock w1 Hfd E1. destruct (Z.ltb_spec sock 0); [lia|].
  apply wp_bind. unfold set_ifreq_ipv4 at 1. destruct (inet_pton address) as [a|] eqn:Ea.
  2:{ apply wp_bind, wp_set_errno. intros w2 E2 _. apply wp_ret.
      apply (configure_failed_post _ _ _ _ _ _ [EvOpen sock]). congruence. }
  apply wp_ret, wp_bind, wp_ioctl_wire. intros r1 ifr1 w2 E2. rewrite E1, <- app_assoc in E2. cbn [app] in E2.
  destruct (Z.ltb_spec r1 0); [by eapply configure_failed_post|].
  apply wp_bind. unfold set_ifreq_ipv4. destruct (inet_pton netmask) as [m|] eqn:Em.
  2:{ apply wp_bind, wp_set_errno. intros w3 E3 _. apply wp_ret. eapply configure_failed_post.
      rewrite E3. exact E2. }
  apply wp_ret, wp_bind, wp_ioctl_wire. intros r2 ifr2 w3 E3. rewrite E2, <- app_assoc in E3. cbn [app] in E3.
  destruct (Z.ltb_spec r2 0); [by eapply configure_failed_post|].
  apply wp_bind, wp_ioctl_wire. intros r3 ifr3 w4 E4. rewrite E3, <- app_assoc in E4. cbn [app] in E4.
  destruct (Z.ltb_spec r3 0); [by eapply configure_failed_post|].
  apply wp_bind, wp_ioctl_wire. intros r4 ifr4 w5 E5. rewrite E4, <- app_assoc in E5. cbn [app] in E5.
  destruct (Z.ltb_spec r4 0); [by eapply configure_failed_post|].
  apply wp_bind, wp_close_wire. intros w6 E6. rewrite E5, <- app_assoc in E6. cbn [app] in E6.
  apply wp_ret. split; [by left|]. eexists. split; [exact E6|]. intros _.
  exists sock, a, m, (ifr_name ifr1), (ifr_name ifr3), ifr2,
    (Z.lor (read_flags (ifr_u ifr3)) (Z.lor IFF_UP IFF_RUNNING)), r1, r2, r3, r4.
  split; [done|]. split; [done|]. do 4 (split; [done|]).
  split; [|split; [|reflexivity]]; rewrite Z.lor_spec; apply orb_true_r.
Qed.

(** A failed [udp_bind] reports why: whatever [close] does to [errno],
    the caller sees the error of [socket] when no socket could be made, and
    otherwise the error of [bind], with the socket closed and [fd] at -1. *)
Theorem udp_bind_errno port w :
  let n := w_calls w in
  exists r sock w', udp_bind port w = Some ((r, sock), w') /\
    if env_socket n <? 0 then
      r = -1 /\ u_fd sock = -1 /\ w_errno w' = env_errno (S n) /\ w_trace w' = w_trace w
    else if env_bind (S n) <? 0 then
      r = -1 /\ u_fd sock = -1 /\ w_errno w' = env_errno (S (S n)) /\
      exists a, w_trace w' = w_trace w ++
        [EvOpen (env_socket n); EvBind (env_socket n) a (env_bind (S n)); EvClose (env_socket n)]
    else r = 0 /\ u_fd sock = env_socket n /\ w_errno w' = w_errno w.
Proof.
  intros n. unfold udp_bind, sys_open, syscall, sys_bind, close_keeping_errno, sys_close, syscall.
  run_M. fold n. destruct (env_socket n <? 0) eqn:Es; do 3 (try rewrite Es; run_M); fold n.
  { by eexists _, _, _. }
  destruct (env_bind (S n) <? 0) eqn:Eb; do 3 (try rewrite Eb; run_M); fold n.
  - destruct (env_close (S (S (S n)))); eexists _, _, _; (split; [reflexivity|]); cbn;
      (split; [done|]); (split; [done|]); (split; [done|]); eexists; by rewrite <- !app_assoc.
  - by eexists _, _, _.
Qed.
End Claims.
