(* ===== verification/Scenario.v ===== *)
(** * A concrete run of the daemon

    The program started on the sample configuration, a handshake with its
    first peer, and a data packet each way, on the executable instance of the
    outside world: the states at which the theorems on the daemon are
    evaluated. *)

From Stdlib Require Import String.
From S2P Require Import Prelude World Crypto Toy Session Replay SessionFacts SessionRuns Libc.
From S2P Require Import Config ConfigFacts Routing Log LogSpec Net Daemon DaemonFacts.
From S2P Require Import DaemonInput DaemonStart.
Open Scope list_scope.

(** An outside with a configuration file, that keeps giving the same datagram,
    packet and result of [sendto]. *)
Definition site_env (file : bytes) (recv : option (bytes * sockaddr_in)) (packet : option bytes) (sent : Z) :
    Env := {|
  env_keypair := env_keypair;
  env_time := env_time;
  env_monotonic := env_monotonic;
  env_realtime := env_realtime;
  env_getenv := env_getenv;
  env_fopen _ _ := Some (9, file);
  env_getaddrinfo := env_getaddrinfo;
  env_open := env_open;
  env_socket := env_socket;
  env_bind := env_bind;
  env_sendto _ := sent;
  env_ioctl := env_ioctl;
  env_close := env_close;
  env_recvfrom _ := recv;
  env_tun_read _ := packet;
  env_tun_write _ := 20;
  env_poll _ := (1, true, true);
  env_errno _ := 111;
  env_signals _ := [];
  env_strerror _ := str "Connection refused"
|}.

#[global] Instance site_laws file recv packet sent : @EnvLaws _ (site_env file recv packet sent).
Proof. destruct toy_env_laws. by split. Qed.

#[global] Instance site_clock file recv packet sent : @ClockLaws (site_env file recv packet sent).
Proof. destruct toy_clock as [H]. split. intros n. apply (H n). Qed.

(** A decidable reading of the laws on input. *)
Definition input_ok (file : bytes) (recv : option (bytes * sockaddr_in)) (packet : option bytes) : Prop :=
  zlen file < INT_MAX /\ is_bytes (from_option fst [] recv) /\ is_bytes (default [] packet).

#[global] Instance input_ok_dec file recv packet : Decision (input_ok file recv packet).
Proof. unfold input_ok. apply _. Defined.

Lemma site_io file recv packet sent :
  bool_decide (input_ok file recv packet) = true -> @IoLaws (site_env file recv packet sent).
Proof.
  intros (Hf & Hr & Hp)%bool_decide_eq_true. split; cbn.
  - by intros _ data from ->.
  - by intros _ data ->.
  - by intros _ _ fd f [= _ <-].
Qed.

Abbreviation live_env := (site_env sample_file).

(** ** The start *)
Definition idle : Env := live_env None None 57.
Definition cipher0 : bytes := replicate SEALED_BUF_SIZE 0.
Definition plain0 : bytes := replicate MAX_PACKET_SIZE 0.

Definition run_or {A} (m : option (A * world)) (a : A) : A * world := default (a, toy_world) m.

Definition blank_daemon : daemon := {| cfg := config_init; tun := {| t_fd := 0; t_name := [] |};
  udp := {| u_fd := 0 |}; d_peers := []; cipher_buf := []; plain_buf := []; last_stats_ms := 0 |}.

#[global] Instance idle_io : @IoLaws idle.
Proof. apply site_io. by vm_compute. Qed.

(** The daemon once started, and the world it runs in. *)
Definition d0 : daemon := Eval vm_compute in
  default blank_daemon (run_or (start (EV:=idle) cipher0 plain0 toy_world) None).1.
Definition w0 : world := Eval vm_compute in
  (run_or (start (EV:=idle) cipher0 plain0 toy_world) None).2.

Lemma d0_started : start (EV:=idle) cipher0 plain0 toy_world = Some (Some d0, w0).
Proof. by vm_compute. Qed.

Lemma d0_inv : daemon_inv d0.
Proof.
  pose proof (start_wp (EV:=idle) cipher0 plain0 toy_world [] ltac:(by vm_compute) ltac:(by vm_compute) ltac:(by vm_compute)) as H.
  unfold wp in H. rewrite d0_started in H. apply H.
Qed.

(** ** A handshake with the first peer, from an address not known before *)
Definition from1 : sockaddr_in := {| sin_family := 2; sin_addr := 33663168; sin_port := 27850 |}.

Definition first_peer (d : daemon) : peer_session_t := default (new_peer zero_peer) (head (d_peers d)).

Definition init1 : bytes := Eval vm_compute in
  message SESSION_MSG_HANDSHAKE_INIT (rx (static_keys (session (first_peer d0)))) 1700000123 (replicate 32 9).

Definition greeted : Env := live_env (Some (init1, from1)) None 57.

Definition d1 : daemon := Eval vm_compute in (run_or (udp_ready (EV:=greeted) d0 w0) d0).1.
Definition w1 : world := Eval vm_compute in (run_or (udp_ready (EV:=greeted) d0 w0) d0).2.

Lemma d1_reached : udp_ready (EV:=greeted) d0 w0 = Some (d1, w1).
Proof. by vm_compute. Qed.

#[global] Instance greeted_io : @IoLaws greeted.
Proof. apply site_io. by vm_compute. Qed.

Lemma d1_inv : daemon_inv d1.
Proof.
  pose proof (udp_ready_wp (EV:=greeted) d0 w0 d0_inv) as H.
  unfold wp in H. rewrite d1_reached in H. apply H.
Qed.

Lemma d1_established :
  state (session (first_peer d1)) = SESSION_STATE_ESTABLISHED /\ addr (first_peer d1) = from1 /\
  addr_resolved (first_peer d1) = true.
Proof. by vm_compute. Qed.

(** ** Data *)

(** An IPv4 packet to 10.8.0.11, the first peer's range. *)
Definition packet1 : bytes := [69] ++ replicate 15 0 ++ [10; 8; 0; 11] ++ [1; 2; 3].

(** The first data message of that peer, carrying [packet1]. *)
Definition data1 : bytes := Eval vm_compute in
  message SESSION_MSG_DATA (rx (data_keys (session (first_peer d1)))) 0 packet1.

Definition busy : Env := live_env (Some (data1, from1)) (Some packet1) 48.

#[global] Instance busy_io : @IoLaws busy.
Proof. apply site_io. by vm_compute. Qed.

(** ** Two programs

    The other end of the sample configuration: the initiator "peer1", whose
    keys are those that the sample's first peer stands for.  Each program runs
    in a world of its own; what one sends is what the other receives. *)
Definition peer1_file : bytes := lines [
  "[Interface]";
  "Name = peer1";
  "Address = 10.8.0.11/24";
  "PrivateKey = WH2RvdCDP2OfJ0K2WiFchwwi7XndB4uky9cYmQCAxEc=";
  "[Peer]";
  "Endpoint = peer2:51820";
  "PublicKey = /gtFMtBv9uKoGzLmj7Mf5/1I3tQ9lLIaTKIeOtzkyJc=";
  "Role = initiator";
  "AllowedIPs = 10.8.0.12/32"]%string.

(** The latest datagram a program sent. *)
Definition datagram_of (e : io_event) : option bytes := match e with EvSend _ _ m _ => Some m | _ => None end.
Definition last_datagram (w : world) : bytes := default [] (last (omap datagram_of (wire w))).

Lemma last_datagram_snoc w w' fd to m rc : wire w' = wire w ++ [EvSend fd to m rc] -> last_datagram w' = m.
Proof. intros E. unfold last_datagram. rewrite E, omap_app. cbn. by rewrite last_snoc. Qed.

(** The only datagram of a step. *)
Lemma only_datagram w w' events fd to m rc m' :
  wire w' = wire w ++ events -> EvSend fd to m rc ∈ events ->
  omap datagram_of (drop (length (wire w)) (wire w')) = [m'] -> m = m'.
Proof.
  intros -> Hin. rewrite drop_app_length. intros E.
  apply list_elem_of_singleton. rewrite <- E. apply list_elem_of_omap. by exists (EvSend fd to m rc).
Qed.

Lemma first_peer_lookup d ps : d_peers d !! 0%nat = Some ps -> first_peer d = ps.
Proof. unfold first_peer. by destruct (d_peers d) as [|? ?]; intros [= ->]. Qed.

Definition site1 (recv : option (bytes * sockaddr_in)) : Env := site_env peer1_file recv None 57.

(** peer1 starts, and sends its init. *)
Definition a0 : daemon * world := Eval vm_compute in
  match start (EV:=site1 None) cipher0 plain0 toy_world with
  | Some (Some d, w) => (d, w)
  | _ => (blank_daemon, toy_world)
  end.

(** peer2 answers it. *)
Definition hello : Env := live_env (Some (last_datagram a0.2, from1)) None 57.
Definition b1 : daemon * world := Eval vm_compute in run_or (udp_ready (EV:=hello) d0 w0) d0.

(** peer1 completes the handshake; it knows peer2 by the resolver's address. *)
Definition peer2_addr : sockaddr_in := Eval vm_compute in addr (first_peer a0.1).
Definition welcome : Env := site1 (Some (last_datagram b1.2, peer2_addr)).
Definition a1 : daemon * world := Eval vm_compute in run_or (udp_ready (EV:=welcome) a0.1 a0.2) a0.1.

#[global] Instance hello_io : @IoLaws hello.
Proof. apply site_io. by vm_compute. Qed.
#[global] Instance welcome_io : @IoLaws welcome.
Proof. apply site_io. by vm_compute. Qed.
#[global] Instance site1_io : @IoLaws (site1 None).
Proof. apply site_io. by vm_compute. Qed.

Lemma a0_started : start (EV:=site1 None) cipher0 plain0 toy_world = Some (Some a0.1, a0.2).
Proof. by vm_compute. Qed.
Lemma b1_reached : udp_ready (EV:=hello) d0 w0 = Some b1.
Proof. by vm_compute. Qed.
Lemma a1_reached : udp_ready (EV:=welcome) a0.1 a0.2 = Some a1.
Proof. by vm_compute. Qed.

Lemma b1_inv : daemon_inv b1.1.
Proof.
  pose proof (udp_ready_wp (EV:=hello) d0 w0 d0_inv) as H. unfold wp in H. rewrite b1_reached in H. apply H.
Qed.

Lemma a0_inv : daemon_inv a0.1.
Proof.
  pose proof (start_wp (EV:=site1 None) cipher0 plain0 toy_world [] ltac:(by vm_compute) ltac:(by vm_compute)
    ltac:(by vm_compute)) as H. unfold wp in H. rewrite a0_started in H. apply H.
Qed.

Lemma a1_inv : daemon_inv a1.1.
Proof.
  pose proof (udp_ready_wp (EV:=welcome) a0.1 a0.2 a0_inv) as H. unfold wp in H. rewrite a1_reached in H. apply H.
Qed.

(** peer2 has a packet for peer1, which will receive the datagram it makes. *)
Definition outgoing : Env := live_env None (Some packet1) 48.
Definition carried : bytes := Eval vm_compute in
  last_datagram (run_or (tun_ready (EV:=outgoing) b1.1 b1.2) b1.1).2.
Definition incoming : Env := site1 (Some (carried, peer2_addr)).
#[global] Instance outgoing_io : @IoLaws outgoing.
Proof. apply site_io. by vm_compute. Qed.
#[global] Instance incoming_io : @IoLaws incoming.
Proof. apply site_io. by vm_compute. Qed.

(** The same outside, with signals. *)
Definition with_signals (signals : nat -> list Z) (E : Env) : Env := {|
  env_keypair := @env_keypair E;
  env_time := @env_time E;
  env_monotonic := @env_monotonic E;
  env_realtime := @env_realtime E;
  env_getenv := @env_getenv E;
  env_fopen := @env_fopen E;
  env_getaddrinfo := @env_getaddrinfo E;
  env_open := @env_open E;
  env_socket := @env_socket E;
  env_bind := @env_bind E;
  env_sendto := @env_sendto E;
  env_ioctl := @env_ioctl E;
  env_close := @env_close E;
  env_recvfrom := @env_recvfrom E;
  env_tun_read := @env_tun_read E;
  env_tun_write := @env_tun_write E;
  env_poll := @env_poll E;
  env_errno := @env_errno E;
  env_signals := signals;
  env_strerror := @env_strerror E
|}.

#[global] Instance with_signals_laws signals E (H : @EnvLaws _ E) : @EnvLaws _ (with_signals signals E).
Proof. destruct H. by split. Qed.
#[global] Instance with_signals_clock signals E (H : @ClockLaws E) : @ClockLaws (with_signals signals E).
Proof. destruct H. by split. Qed.
#[global] Instance with_signals_io signals E (H : @IoLaws E) : @IoLaws (with_signals signals E).
Proof. destruct H. by split. Qed.

(** SIGTERM at the 60th call. *)
Definition interrupted : Env := with_signals (fun n => if (n =? 60)%nat then [15] else []) idle.

(** The same outside, with another resolver. *)
Definition with_resolver (resolver : nat -> bytes -> option sockaddr_in) (E : Env) : Env := {|
  env_keypair := @env_keypair E;
  env_time := @env_time E;
  env_monotonic := @env_monotonic E;
  env_realtime := @env_realtime E;
  env_getenv := @env_getenv E;
  env_fopen := @env_fopen E;
  env_getaddrinfo := resolver;
  env_open := @env_open E;
  env_socket := @env_socket E;
  env_bind := @env_bind E;
  env_sendto := @env_sendto E;
  env_ioctl := @env_ioctl E;
  env_close := @env_close E;
  env_recvfrom := @env_recvfrom E;
  env_tun_read := @env_tun_read E;
  env_tun_write := @env_tun_write E;
  env_poll := @env_poll E;
  env_errno := @env_errno E;
  env_signals := @env_signals E;
  env_strerror := @env_strerror E
|}.

#[global] Instance with_resolver_laws r E (H : @EnvLaws _ E) : @EnvLaws _ (with_resolver r E).
Proof. destruct H. by split. Qed.
#[global] Instance with_resolver_clock r E (H : @ClockLaws E) : @ClockLaws (with_resolver r E).
Proof. destruct H. by split. Qed.
#[global] Instance with_resolver_io r E (H : @IoLaws E) : @IoLaws (with_resolver r E).
Proof. destruct H. by split. Qed.

(** peer1 starts while the name of its peer does not resolve; 20 calls later
    the clock is more than 15 seconds on. *)
Definition nameless : Env := with_resolver (fun _ _ => None) (site1 None).
Definition u0 : daemon * world := Eval vm_compute in
  match start (EV:=nameless) cipher0 plain0 toy_world with
  | Some (Some d, w) => (d, {| w_calls := w_calls w + 20; w_errno := w_errno w; w_log := w_log w;
                               w_trace := w_trace w |})
  | _ => (blank_daemon, toy_world)
  end.

Lemma u0_inv : daemon_inv u0.1.
Proof.
  pose proof (start_wp (EV:=nameless) cipher0 plain0 toy_world [] ltac:(by vm_compute) ltac:(by vm_compute)
    ltac:(by vm_compute)) as H. unfold wp in H.
  destruct (start (EV:=nameless) cipher0 plain0 toy_world) as [[[d|] w]|] eqn:E; vm_compute in E; try discriminate E.
  destruct H as [H _]. injection E as E _. by rewrite <- E in H.
Qed.
