(* ===== verification/DaemonSpec.v ===== *)
(** * What src/main.c guarantees

    Safety of the poll loop, what may reach the TUN device and the wire, whose
    address the daemon believes, the deadlines the timers keep, and that no
    descriptor is leaked. *)

From Stdlib Require Import String.
From S2P Require Import Prelude World Crypto Toy Session Replay SessionFacts SessionRuns Libc.
From S2P Require Import Config ConfigFacts Routing Log LogSpec Net Daemon DaemonFacts.
From S2P Require Import DaemonInput Timers DaemonStart Scenario.
Open Scope list_scope.

Section Claims.
  Context `{SO : Sodium} {SL : SodiumLaws} `{EV : Env} {EL : EnvLaws} {CL : ClockLaws} {IL : IoLaws}.

(** C1. The poll loop is safe: from a state that satisfies the invariant, any
    number of iterations (whatever is received, read, resolved or refused
    meanwhile) runs without undefined behaviour, keeps the invariant, the
    configuration and the two descriptors, and opens or closes none. *)
Theorem main_loop_safe fuel installed d w :
  daemon_inv d ->
  exists ended d' w', main_loop fuel installed d w = Some ((ended, d'), w') /\ daemon_inv d' /\
    cfg d' = cfg d /\ tun d' = tun d /\ udp d' = udp d /\ fds w' = fds w.
Proof.
  intros Hd. pose proof (main_loop_wp fuel installed d w Hd) as H.
  apply wp_exists in H as ([ended d'] & w' & E & Hd' & (? & ? & ?) & F). by exists ended, d', w'.
Qed.

(** C28. The whole program gives back what it takes: started with no
    descriptor open, it exits with status 0 or 1 and none open (each opened
    exactly once and closed exactly once, on every error path of the start-up
    and on shutdown; the configuration file on every return of [config_load]), and while it is still in its loop exactly two are
    open, the UDP socket's and the TUN device's. *)
Theorem main_closes_descriptors fuel cipher0 plain0 w :
  length cipher0 = SEALED_BUF_SIZE -> length plain0 = MAX_PACKET_SIZE -> wire w = [] ->
  exists r w', main fuel cipher0 plain0 w = Some (r, w') /\
    match r with
    | Some status => (status = 0 \/ status = 1) /\ fds w' = Some []
    | None => exists u t, fds w' = Some [u; t]
    end.
Proof.
  intros Hc Hp Hw. assert (fds w = Some []) as F by (unfold fds; by rewrite Hw).
  exact (wp_exists _ _ _ (main_wp fuel cipher0 plain0 w [] Hc Hp F)).
Qed.

(** Only authentic traffic reaches the TUN device: when handling the
    socket makes the daemon write a packet to the TUN device, the datagram
    came from the known address of a peer whose session is established, it is
    byte for byte a data message sealed under that session's receive key for
    exactly that packet, which is not empty, and its counter is fresh with
    respect to every set of accepted counters the replay window stands for. *)
Theorem tun_write_is_authentic d w fd packet rc :
  daemon_inv d ->
  exists d' w' events, udp_ready d w = Some (d', w') /\ wire w' = wire w ++ events /\
    (EvTunWrite fd packet rc ∈ events ->
     exists data from i ps c,
       env_recvfrom (w_calls w) = Some (data, from) /\ fd = t_fd (tun d) /\
       d_peers d !! i = Some ps /\ addr_resolved ps = true /\
       sin_addr (addr ps) = sin_addr from /\ sin_port (addr ps) = sin_port from /\
       state (session ps) = SESSION_STATE_ESTABLISHED /\ packet <> [] /\ is_u64 c /\
       take SEALED_BUF_SIZE data = message SESSION_MSG_DATA (rx (data_keys (session ps))) c packet /\
       forall accepted, window_rep (session ps) accepted -> fresh accepted c).
Proof.
  intros Hd. pose proof (udp_ready_wp d w Hd) as H.
  apply wp_exists in H as (d' & w' & E & _ & _ & events & Ew & Hs).
  exists d', w', events. split; [done|]. split; [done|]. intros Hin.
  destruct (env_recvfrom (w_calls w)) as [[data from]|]; [|destruct Hs as [_ ->]; by apply elem_of_nil in Hin].
  case_decide; [destruct Hs as [_ ->]; by apply elem_of_nil in Hin|].
  unfold datagram_spec in Hs. destruct (find_peer_by_addr (d_peers d) from) as [i|] eqn:Ef.
  - destruct (find_peer_by_addr_Some _ _ _ Ef) as (ps0 & Hps0 & Hr & Ha & Hp).
    destruct Hs as (ps & ps' & Hps & _ & _ & [[-> _]|[(resp & rc' & _ & ->)|
      (c & p & rc' & Hst & Hm & Hne & Hc & Hf & _ & ->)]]).
    + by apply elem_of_nil in Hin.
    + by apply list_elem_of_singleton in Hin.
    + apply list_elem_of_singleton in Hin. simplify_eq. exists data, from, i, ps, c. by auto 12.
  - destruct (_ =? _); [|destruct Hs as [_ ->]; by apply elem_of_nil in Hin].
    destruct Hs as (l & _ & [[-> _]|(k & ps & ps1 & resp & rc' & _ & _ & _ & -> & _)]).
    + by apply elem_of_nil in Hin.
    + by apply list_elem_of_singleton in Hin.
Qed.

(** C15. Forwarding: a packet read from the TUN device (cut to 2048 bytes) by
    a daemon with peers is sent exactly once, as a data message sealed under
    the session key and the next counter of the peer that the routing table
    gives for its destination, to that peer's address, when that session is
    established; when it is not established, when there is no route or when
    nothing could be read, nothing is sent, and no other session changes. *)
Theorem tun_packet_forwarded d w :
  daemon_inv d ->
  exists d' w' events, tun_ready d w = Some (d', w') /\ wire w' = wire w ++ events /\
    match env_tun_read (w_calls w) with
    | None => d_peers d' = d_peers d /\ events = []
    | Some data =>
        let packet := take MAX_PACKET_SIZE data in
        if decide (peer_count (cfg d) = 0%nat) then d_peers d' = d_peers d /\ events = []
        else exists r, route (cfg d) packet = Some r /\
          if r <? 0 then d_peers d' = d_peers d /\ events = []
          else exists ps ps', d_peers d !! Z.to_nat r = Some ps /\
            d_peers d' = <[Z.to_nat r := ps']> (d_peers d) /\ config ps' = config ps /\ addr ps' = addr ps /\
            if established ps then
              session ps' = set_tx_counter (u64 (tx_counter (session ps) + 1)) (session ps) /\
              exists rc, events = [EvSend (u_fd (udp d)) (addr ps)
                (message SESSION_MSG_DATA (tx (data_keys (session ps))) (tx_counter (session ps)) packet) rc]
            else session ps' = session ps /\ events = []
    end.
Proof.
  intros Hd. pose proof (tun_ready_wp d w Hd) as H.
  apply wp_exists in H as (d' & w' & E & _ & _ & events & Ew & Hs).
  exists d', w', events. split; [done|]. split; [done|].
  destruct (env_tun_read (w_calls w)) as [data|]; [|done]. cbv zeta. case_decide; [done|].
  destruct Hs as (r & Hr & Hs). exists r. split; [done|]. destruct (r <? 0); [done|].
  destruct Hs as (ps & ps' & Hps & Hd' & (Hc & _ & Ha) & Hs). exists ps, ps'. by auto.
Qed.

(** C16. Whose address the daemon believes: handling the socket changes the
    known address of a peer only if the peer is a responder relationship and
    the datagram is an init that authenticates under its static key with a
    counter above every one accepted before, and then the new address is the
    source of that datagram; and it establishes a session only on such an
    init or on the authentic response to the session's outstanding init. *)
Theorem endpoint_learned_from_authentic_init d w k ps :
  daemon_inv d -> d_peers d !! k = Some ps ->
  exists d' w' ps', udp_ready d w = Some (d', w') /\ d_peers d' !! k = Some ps' /\
    config ps' = config ps /\
    (addr_resolved ps' <> addr_resolved ps \/ addr ps' <> addr ps ->
     exists data from c p, env_recvfrom (w_calls w) = Some (data, from) /\ addr ps' = from /\
       addr_resolved ps' = true /\ peer_role (config ps) = CRYPTO_ROLE_RESPONDER /\
       acceptable_init (session ps) (take SEALED_BUF_SIZE data) c p) /\
    (state (session ps) = SESSION_STATE_HANDSHAKE_PENDING ->
     state (session ps') = SESSION_STATE_ESTABLISHED ->
     exists data from, env_recvfrom (w_calls w) = Some (data, from) /\
       ((exists c p, acceptable_init (session ps) (take SEALED_BUF_SIZE data) c p) \/
        (exists p, acceptable_response (session ps) (take SEALED_BUF_SIZE data) p))).
Proof.
  intros Hd Hk. pose proof (Forall_lookup_1 _ _ _ _ (di_peers _ Hd) Hk) as Hi.
  pose proof (udp_ready_wp d w Hd) as H.
  apply wp_exists in H as (d' & w' & E & _ & _ & events & _ & Hs). exists d', w'.
  destruct (env_recvfrom (w_calls w)) as [[data from]|].
  2:{ destruct Hs as [Eq _]. exists ps. rewrite Eq. split; [done|]. split; [done|]. split; [done|].
      split; [by intros [?|?]|congruence]. }
  case_decide.
  { destruct Hs as [Eq _]. exists ps. rewrite Eq. split; [done|]. split; [done|]. split; [done|].
    split; [by intros [?|?]|congruence]. }
  destruct (datagram_peer _ _ _ _ _ _ _ Hs Hk) as (ps' & Hps' & Hc & Ha & Hst).
  exists ps'. split; [done|]. split; [done|]. split; [done|]. split.
  - intros Hch. destruct Ha as [[??]|(Hr & Had & c & p & Hacc)]; [by destruct Hch|].
    exists data, from, c, p. split; [done|]. split; [done|]. split; [done|].
    split; [by eapply acceptable_init_role|done].
  - intros Hp Hest. exists data, from. split; [done|]. destruct (Hst Hest) as [?|?]; [congruence|done].
Qed.

(** C26. The timers keep their deadlines: after they have run at the time
    [now] that the clock shows (in the 64-bit arithmetic of the code, for any
    clock), every established session with a known address has sent something
    less than 5 seconds ago, every initiator has heard from its peer
    or tried a handshake less than 15 seconds ago, and no initiator's session
    is still established on keys that are 45 seconds old. *)
Theorem timers_keep_deadlines d w :
  daemon_inv d ->
  let now := clock_ms w in
  exists d' w', timers d w = Some (d', w') /\
    forall ps, ps ∈ d_peers d' ->
      (addr_resolved ps = true -> state (session ps) = SESSION_STATE_ESTABLISHED ->
         u64 (now - last_tx_activity_ms ps) < KEEPALIVE_INTERVAL_MS) /\
      (peer_role (config ps) = CRYPTO_ROLE_INITIATOR ->
         u64 (now - last_rx_activity_ms ps) < SESSION_TIMEOUT_MS) /\
      (peer_role (config ps) = CRYPTO_ROLE_INITIATOR -> state (session ps) = SESSION_STATE_ESTABLISHED ->
         u64 (now - last_handshake_completed_ms ps) < KEY_ROTATION_INTERVAL_MS).
Proof.
  intros Hd now. pose proof (timers_wp d w Hd) as H.
  apply wp_exists in H as (d' & w' & E & _ & _ & _ & ticks & Ep & _ & Ht).
  exists d', w'. split; [done|]. intros ps Hin. rewrite Ep in Hin.
  apply list_elem_of_fmap in Hin as ([ps' ev] & -> & Hin). cbn [fst].
  apply list_elem_of_lookup in Hin as [i Hi].
  apply (Forall2_lookup_r _ _ _ _ _ Ht) in Hi as (ps0 & Hps0 & Htick).
  pose proof (Forall_lookup_1 _ _ _ _ (di_peers _ Hd) Hps0) as Hinv.
  destruct (peer_tick_deadlines _ _ _ _ _ Hinv Htick) as (D1 & D2 & D3).
  unfold established, is_initiator in *. rewrite !bool_decide_eq_true in *. auto.
Qed.

(** C27. What the timers send.  They read the clock, then go over the peers in
    order, each pass starting where the one before it ended ([passes]).  A pass
    sends a keepalive (an empty data message under the next counter) to the
    peer's address exactly when the session is established, the address known
    and nothing was sent for 5 seconds; then, exactly when the peer is an
    initiator relationship that has been silent for 15 seconds or whose session
    keys are 45 seconds old, it makes an attempt.  The attempt goes to the
    address of the peer if it is known, and otherwise to what the resolver
    answers, at the call the pass starts with, for that peer's own host, with
    that peer's port: one init, under a fresh ephemeral key and the next
    handshake counter, to that address, which the peer keeps.  When the
    resolver has no answer nothing is sent and only the time of the attempt
    changes.  Nothing else is sent. *)
Theorem timers_send_only_what_is_due d w :
  daemon_inv d ->
  let now := clock_ms w in
  exists d' w' w1 w2 ticks, timers d w = Some (d', w') /\ monotonic_ms w = Some (now, w1) /\
    passes (name (cfg d)) (udp d) now (d_peers d) w1 ticks w2 /\
    d_peers d' = map (fun t => t.1.2) ticks /\ wire w' = wire w ++ concat (map snd ticks) /\
    Forall2 (fun ps '(n, ps', events) => exists ps1 ka hs, events = ka ++ hs /\
      (if keepalive_due now ps
       then config ps1 = config ps /\ addr_resolved ps1 = addr_resolved ps /\ addr ps1 = addr ps /\
            last_tx_activity_ms ps1 = now /\
            session ps1 = set_tx_counter (u64 (tx_counter (session ps) + 1)) (session ps) /\
            exists rc, ka = [EvSend (u_fd (udp d)) (addr ps)
              (message SESSION_MSG_DATA (tx (data_keys (session ps))) (tx_counter (session ps)) []) rc]
       else ps1 = ps /\ ka = []) /\
      (if rehandshake_due now ps1
       then match (if addr_resolved ps1 then Some (addr ps1) else
                     a ← env_getaddrinfo n (host (config ps1));
                     Some {| sin_family := sin_family a; sin_addr := sin_addr a;
                             sin_port := htons (port (config ps1)) |}) with
            | None => ps' = set_last_rx now ps1 /\ hs = []
            | Some a =>
                last_rx_activity_ms ps' = now /\ addr_resolved ps' = true /\ addr ps' = a /\
                state (session ps') = SESSION_STATE_HANDSHAKE_PENDING /\
                exists k rc,
                  session ps' = set_handshake_counters (u64 (handshake_counter (session ps1) + 1))
                    (handshake_counter (session ps1)) (restarted (env_keypair k) (session ps1)) /\
                  hs = [EvSend (u_fd (udp d)) a
                    (message SESSION_MSG_HANDSHAKE_INIT (tx (static_keys (session ps1)))
                       (handshake_counter (session ps1)) (env_keypair k).1) rc]
            end
       else ps' = ps1 /\ hs = [])) (d_peers d) ticks.
Proof.
  intros Hd now. destruct (timers_passes d w Hd) as (d' & w' & w1 & w2 & ticks & E & E1 & Hp & Ep & Ew & Ht).
  exists d', w', w1, w2, ticks. do 5 (split; [done|]).
  eapply Forall2_impl; [exact Ht|]. intros ps [[n ps'] ev] (ps1 & ka & hs & Eev & Hka & Hhs). cbn [fst snd] in *.
  exists ps1, ka, hs. split; [done|]. split.
  - unfold keepalive_spec in Hka. fold now in Hka. destruct (keepalive_due now ps); [|done].
    destruct Hka as ((? & ? & ?) & ? & _ & _ & ? & ?). auto 10.
  - fold now in Hhs. destruct (rehandshake_due now ps1); [|done].
    change (if addr_resolved ps1 then _ else _) with (destination n ps1).
    destruct (destination n ps1) as [a|]; [|done]. destruct Hhs as ((_ & _ & Hrx & _ & Hat) & Ha & Had).
    destruct Hat as [(Hun & -> & _)|(_ & _ & _ & Hst & k & rc & Hs & He)]; [cbn in Ha; congruence|].
    do 4 (split; [done|]). exists k, rc. by rewrite <- Had.
Qed.

End Claims.

(** ** Two daemons *)
Section Tunnel.
  Context `{SO : Sodium} {SL : SodiumLaws}.
  Context (near far : Env) {ELN : @EnvLaws _ near} {ELF : @EnvLaws _ far} {CLN : @ClockLaws near}
    {CLF : @ClockLaws far} {ILN : @IoLaws near} {ILF : @IoLaws far}.

(** C14. The tunnel delivers: a packet of at most 2048 bytes read from the TUN
    device of one daemon, whose route leads to a peer with an established
    session, goes out as one datagram to that peer's address; and a daemon
    that receives this datagram from an address it knows a peer by, with an
    established session whose receiving key is the sender's sending key and
    whose window has not seen the counter, writes exactly the same packet to
    its own TUN device, and nothing else. *)
Theorem tunnel_delivers dN wN dF wF packet i psN j psF from accepted :
  daemon_inv dN -> daemon_inv dF ->
  env_tun_read (Env:=near) (w_calls wN) = Some packet -> (length packet <= MAX_PACKET_SIZE)%nat ->
  route (cfg dN) packet = Some (Z.of_nat i) -> d_peers dN !! i = Some psN -> established psN = true ->
  find_peer_by_addr (d_peers dF) from = Some j -> d_peers dF !! j = Some psF -> established psF = true ->
  rx (data_keys (session psF)) = tx (data_keys (session psN)) ->
  window_rep (session psF) accepted -> fresh accepted (tx_counter (session psN)) ->
  exists dN' wN' datagram rc,
    tun_ready (EV:=near) dN wN = Some (dN', wN') /\
    wire wN' = wire wN ++ [EvSend (u_fd (udp dN)) (addr psN) datagram rc] /\
    (env_recvfrom (Env:=far) (w_calls wF) = Some (datagram, from) ->
     exists dF' wF' rc', udp_ready (EV:=far) dF wF = Some (dF', wF') /\
       wire wF' = wire wF ++ [EvTunWrite (t_fd (tun dF)) packet rc']).
Proof.
  intros HN HF Hread Hl Hroute HpsN HeN Hfind HpsF HeF Hkeys Hrep Hfr.
  pose proof (tun_ready_wp (EV:=near) dN wN HN) as Hd.
  apply wp_exists in Hd as (dN' & wN' & E & _ & _ & events & Ew & Hs). rewrite Hread in Hs.
  pose proof (lookup_lt_Some _ _ _ HpsN) as Hlt. rewrite (di_count _ HN) in Hlt.
  rewrite decide_False, take_ge in Hs by lia. destruct Hs as (r & Hr & Hs). rewrite Hroute in Hr. simplify_eq.
  destruct (Z.ltb_spec (Z.of_nat i) 0); [lia|]. rewrite Nat2Z.id in Hs.
  destruct Hs as (ps & ps' & Hps & _ & _ & Hs). simplify_eq. rewrite HeN in Hs. destruct Hs as (_ & rc & ->).
  exists dN', wN'. eexists _, rc. split; [done|]. split; [exact Ew|]. rewrite <- Hkeys. intros Hrecv.
  assert (packet <> []) as Hne by (intros ->; cbn in Hroute; injection Hroute; lia).
  pose proof (Forall_lookup_1 _ _ _ _ (di_peers _ HN) HpsN) as HiN.
  unfold established in HeF. apply bool_decide_eq_true in HeF.
  pose proof (udp_ready_delivers (EV:=far) dF j psF _ packet from accepted wF HF Hrecv Hfind HpsF HeF Hrep Hfr
    (wf_tx _ (pi_wf _ HiN)) Hne Hl) as Hd.
  apply wp_exists in Hd as (dF' & wF' & EF & rc' & EwF). by exists dF', wF', rc'.
Qed.
End Tunnel.

(** ** Witnesses *)

Lemma main_loop_safe_witness :
  exists ended d' w', main_loop (EV:=busy) 3 2 d1 w1 = Some ((ended, d'), w') /\ daemon_inv d' /\
    cfg d' = cfg d1 /\ tun d' = tun d1 /\ udp d' = udp d1 /\ fds w' = fds w1.
Proof.
  exact (main_loop_safe (EV:=busy) 3 2 d1 w1 d1_inv).
Defined.

(** With a file that is rejected, and with one that is accepted. *)
Lemma main_closes_descriptors_witness :
  (exists w', main (EV:=site_env (str "[Nowhere]") None None 57) 2 cipher0 plain0 toy_world = Some (Some 1, w') /\
     wire w' = [EvOpen 9; EvClose 9]) /\
  wire toy_world = [] /\
  exists r w', main (EV:=idle) 2 cipher0 plain0 toy_world = Some (r, w') /\
    match r with
    | Some status => (status = 0 \/ status = 1) /\ fds w' = Some []
    | None => exists u t, fds w' = Some [u; t]
    end.
Proof.
  split; [eexists; split; by vm_compute|]. split; [done|].
  apply (main_closes_descriptors (EV:=idle)); by vm_compute.
Defined.

(** The peer's packet is written, once. *)
Lemma tun_write_is_authentic_witness :
  (exists d' w', udp_ready (EV:=busy) d1 w1 = Some (d', w') /\
     wire w' = wire w1 ++ [EvTunWrite (t_fd (tun d1)) packet1 20]) /\
  exists d' w' events, udp_ready (EV:=busy) d1 w1 = Some (d', w') /\ wire w' = wire w1 ++ events /\
    (EvTunWrite (t_fd (tun d1)) packet1 20 ∈ events ->
     exists data from i ps c,
       env_recvfrom (Env:=busy) (w_calls w1) = Some (data, from) /\ t_fd (tun d1) = t_fd (tun d1) /\
       d_peers d1 !! i = Some ps /\ addr_resolved ps = true /\
       sin_addr (addr ps) = sin_addr from /\ sin_port (addr ps) = sin_port from /\
       state (session ps) = SESSION_STATE_ESTABLISHED /\ packet1 <> [] /\ is_u64 c /\
       take SEALED_BUF_SIZE data = message SESSION_MSG_DATA (rx (data_keys (session ps))) c packet1 /\
       forall accepted, window_rep (session ps) accepted -> fresh accepted c).
Proof.
  split; [eexists _, _; split; [by vm_compute|by vm_compute]|].
  exact (tun_write_is_authentic (EV:=busy)
    d1 w1 (t_fd (tun d1)) packet1 20 d1_inv).
Defined.

(** peer2 and peer1, after their handshake: [packet1] crosses the tunnel. *)
Lemma tunnel_delivers_witness :
  let psN := first_peer b1.1 in
  (exists dF' wF' rc, udp_ready (EV:=incoming) a1.1 a1.2 = Some (dF', wF') /\
    wire wF' = wire a1.2 ++ [EvTunWrite (t_fd (tun a1.1)) packet1 rc]) /\
  exists dN' wN' datagram rc,
    tun_ready (EV:=outgoing) b1.1 b1.2 = Some (dN', wN') /\
    wire wN' = wire b1.2 ++ [EvSend (u_fd (udp b1.1)) (addr psN) datagram rc] /\
    (env_recvfrom (Env:=incoming) (w_calls a1.2) = Some (datagram, peer2_addr) ->
     exists dF' wF' rc', udp_ready (EV:=incoming) a1.1 a1.2 = Some (dF', wF') /\
    wire wF' = wire a1.2 ++ [EvTunWrite (t_fd (tun a1.1)) packet1 rc']).
Proof.
  intros psN. split; [eexists _, _, _; split; by vm_compute|].
  apply (tunnel_delivers outgoing incoming b1.1 b1.2 a1.1 a1.2 packet1 0 psN 0 (first_peer a1.1) peer2_addr []
    b1_inv a1_inv); try by vm_compute.
  - by apply Nat.leb_le.
  - exact (window_rep_reset _ (session (first_peer a1.1))).
  - split; [by apply not_elem_of_nil|constructor].
Defined.

(** A packet to 10.8.0.11 leaves for the first peer, sealed. *)
Lemma tun_packet_forwarded_witness :
  exists d' w' events, tun_ready (EV:=busy) d1 w1 = Some (d', w') /\ wire w' = wire w1 ++ events /\
    match env_tun_read (Env:=busy) (w_calls w1) with
    | None => d_peers d' = d_peers d1 /\ events = []
    | Some data =>
        let packet := take MAX_PACKET_SIZE data in
        if decide (peer_count (cfg d1) = 0%nat) then d_peers d' = d_peers d1 /\ events = []
        else exists r, route (cfg d1) packet = Some r /\
          if r <? 0 then d_peers d' = d_peers d1 /\ events = []
          else exists ps ps', d_peers d1 !! Z.to_nat r = Some ps /\
            d_peers d' = <[Z.to_nat r := ps']> (d_peers d1) /\ config ps' = config ps /\ addr ps' = addr ps /\
            if established ps then
              session ps' = set_tx_counter (u64 (tx_counter (session ps) + 1)) (session ps) /\
              exists rc, events = [EvSend (u_fd (udp d1)) (addr ps)
                (message SESSION_MSG_DATA (tx (data_keys (session ps))) (tx_counter (session ps)) packet) rc]
            else session ps' = session ps /\ events = []
    end.
Proof.
  exact (tun_packet_forwarded (EV:=busy) d1 w1 d1_inv).
Defined.

(** The first peer's address is learned from the init. *)
Lemma endpoint_learned_from_authentic_init_witness :
  let ps := first_peer d0 in
  d_peers d0 !! 0%nat = Some ps /\ addr_resolved (first_peer d1) <> addr_resolved ps /\
  exists d' w' ps', udp_ready (EV:=greeted) d0 w0 = Some (d', w') /\ d_peers d' !! 0%nat = Some ps' /\
    config ps' = config ps /\
    (addr_resolved ps' <> addr_resolved ps \/ addr ps' <> addr ps ->
     exists data from c p, env_recvfrom (Env:=greeted) (w_calls w0) = Some (data, from) /\ addr ps' = from /\
       addr_resolved ps' = true /\ peer_role (config ps) = CRYPTO_ROLE_RESPONDER /\
       acceptable_init (session ps) (take SEALED_BUF_SIZE data) c p) /\
    (state (session ps) = SESSION_STATE_HANDSHAKE_PENDING ->
     state (session ps') = SESSION_STATE_ESTABLISHED ->
     exists data from, env_recvfrom (Env:=greeted) (w_calls w0) = Some (data, from) /\
       ((exists c p, acceptable_init (session ps) (take SEALED_BUF_SIZE data) c p) \/
        (exists p, acceptable_response (session ps) (take SEALED_BUF_SIZE data) p))).
Proof.
  intros ps. split; [done|]. split; [done|].
  apply (endpoint_learned_from_authentic_init (EV:=greeted) d0 w0 0 ps d0_inv). done.
Defined.

Lemma timers_keep_deadlines_witness :
  let now := clock_ms (EV:=busy) w1 in
  exists d' w', timers (EV:=busy) d1 w1 = Some (d', w') /\
    forall ps, ps ∈ d_peers d' ->
      (addr_resolved ps = true -> state (session ps) = SESSION_STATE_ESTABLISHED ->
         u64 (now - last_tx_activity_ms ps) < KEEPALIVE_INTERVAL_MS) /\
      (peer_role (config ps) = CRYPTO_ROLE_INITIATOR ->
         u64 (now - last_rx_activity_ms ps) < SESSION_TIMEOUT_MS) /\
      (peer_role (config ps) = CRYPTO_ROLE_INITIATOR -> state (session ps) = SESSION_STATE_ESTABLISHED ->
         u64 (now - last_handshake_completed_ms ps) < KEY_ROTATION_INTERVAL_MS).
Proof.
  exact (timers_keep_deadlines (EV:=busy) d1 w1 d1_inv).
Defined.

(** The peer's name, unknown until now, resolves: one init goes to the address
    the resolver gives, at the port of the configuration; while it does not
    resolve, nothing is sent. *)
Lemma timers_send_only_what_is_due_witness :
  let E := site1 None in let d := u0.1 in let w := u0.2 in
  addr_resolved (first_peer d) = false /\
  (exists d' w' m, timers (EV:=E) d w = Some (d', w') /\
     wire w' = wire w ++ [EvSend (u_fd (udp d))
       {| sin_family := 2; sin_addr := 16777343; sin_port := htons 51820 |} m 57]) /\
  (exists d' w', timers (EV:=nameless) d w = Some (d', w') /\ wire w' = wire w) /\
  let now := clock_ms (EV:=E) w in
  exists d' w' w1 w2 ticks, timers (EV:=E) d w = Some (d', w') /\ monotonic_ms (EV:=E) w = Some (now, w1) /\
    passes (EV:=E) (name (cfg d)) (udp d) now (d_peers d) w1 ticks w2 /\
    d_peers d' = map (fun t => t.1.2) ticks /\ wire w' = wire w ++ concat (map snd ticks) /\
    Forall2 (fun ps '(n, ps', events) => exists ps1 ka hs, events = ka ++ hs /\
      (if keepalive_due now ps
       then config ps1 = config ps /\ addr_resolved ps1 = addr_resolved ps /\ addr ps1 = addr ps /\
            last_tx_activity_ms ps1 = now /\
            session ps1 = set_tx_counter (u64 (tx_counter (session ps) + 1)) (session ps) /\
            exists rc, ka = [EvSend (u_fd (udp d)) (addr ps)
              (message SESSION_MSG_DATA (tx (data_keys (session ps))) (tx_counter (session ps)) []) rc]
       else ps1 = ps /\ ka = []) /\
      (if rehandshake_due now ps1
       then match (if addr_resolved ps1 then Some (addr ps1) else
                     a ← env_getaddrinfo (Env:=E) n (host (config ps1));
                     Some {| sin_family := sin_family a; sin_addr := sin_addr a;
                             sin_port := htons (port (config ps1)) |}) with
            | None => ps' = set_last_rx now ps1 /\ hs = []
            | Some a =>
                last_rx_activity_ms ps' = now /\ addr_resolved ps' = true /\ addr ps' = a /\
                state (session ps') = SESSION_STATE_HANDSHAKE_PENDING /\
                exists k rc,
                  session ps' = set_handshake_counters (u64 (handshake_counter (session ps1) + 1))
                    (handshake_counter (session ps1)) (restarted (env_keypair (Env:=E) k) (session ps1)) /\
                  hs = [EvSend (u_fd (udp d)) a
                    (message SESSION_MSG_HANDSHAKE_INIT (tx (static_keys (session ps1)))
                       (handshake_counter (session ps1)) (env_keypair (Env:=E) k).1) rc]
            end
       else ps' = ps1 /\ hs = [])) (d_peers d) ticks.
Proof.
  cbv zeta. split; [by vm_compute|]. split; [eexists _, _, _; split; by vm_compute|].
  split; [eexists _, _; split; by vm_compute|].
  exact (timers_send_only_what_is_due (EV:=site1 None) u0.1 u0.2 u0_inv).
Defined.
