(* ===== verification/Untrusted.v ===== *)
(** * Datagrams that nobody vouches for

    Anyone can send to the UDP port, from any address.  What the program does
    with a datagram that no session accepts, and how much it can be made to
    send by one. *)

From Stdlib Require Import String.
From S2P Require Import Prelude World Crypto Toy Session Replay SessionFacts SessionRuns Libc Config.
From S2P Require Import ConfigFacts Routing Log Net Daemon DaemonFacts DaemonInput DaemonStart.
From S2P Require Import Effects Steps Scenario.
Open Scope list_scope.

(** All that may happen to a peer: its failures are counted. *)
Definition ignored (ps ps' : peer_session_t) : Prop :=
  ps' = ps \/ ps' = set_stats count_auth_failure ps \/ ps' = set_stats count_drop ps \/
  ps' = set_stats count_drop (set_stats count_auth_failure ps).

Lemma ignored_all l : Forall2 ignored l l.
Proof. induction l; constructor; [by left|done]. Qed.

Lemma ignored_peer l i ps ps' : l !! i = Some ps -> ignored ps ps' -> Forall2 ignored l (<[i := ps']> l).
Proof.
  intros Hi Hp. rewrite <- (list_insert_id l i ps) at 1 by done. apply Forall2_insert; [apply ignored_all|done].
Qed.

Lemma set_session_same ps : set_session (session ps) ps = ps.
Proof. by destruct ps. Qed.

(** No event at all. *)
Definition none (_ : io_event) : bool := false.

Lemma adds_none w w' : adds none w w' -> wire w' = wire w.
Proof. intros [(events & E & F) _]. destruct F; [by rewrite E, app_nil_r|done]. Qed.

Ltac unseen := apply wlp_bind, (wlp_only none); [effects|]; let w := fresh "w" in intros ? w ?%adds_none.
Ltac finish := apply wlp_ret; split; [congruence|].

Section Untrusted.
  Context `{SO : Sodium} {SL : SodiumLaws} `{EV : Env} {EL : EnvLaws} {CL : ClockLaws} {IL : IoLaws}.

(** The datagrams a session accepts: a new init for a responder, the response
    an initiator waits for, a data message it has not seen. *)
Definition genuine (s : session_t) (inp : bytes) : Prop :=
  (exists c p, acceptable_init s inp c p) \/ (exists p, acceptable_response s inp p) \/
  exists c p s', state s = SESSION_STATE_ESTABLISHED /\ is_u64 c /\
    inp = message SESSION_MSG_DATA (rx (data_keys s)) c p /\ replay_check_and_mark s c = Some (true, s').

(** The three calls on a session reject the others and change nothing. *)
Section Session.
  Context (ps : peer_session_t) (inp : bytes).
  Context (Hp : peer_inv ps) (Hdg : datagram inp) (Hno : ~ genuine (session ps) inp).

Lemma forged_init out Q w :
  length out = SESSION_HANDSHAKE_MSG_LEN -> Q (-1, session ps, out) w -> wlp (session_handle_init (session ps) inp out) Q w.
Proof.
  intros Ho HQ r w' E. destruct Hdg as [Hb Hl].
  destruct (handle_init_cases _ inp out w (pi_wf _ Hp) Hb Hl) as [[E' _]|(_ & c & p & Ha & _)].
  - rewrite E' in E. injection E as <- <-. done.
  - destruct Hno. left. by exists c, p.
Qed.

Lemma forged_response : session_handle_response (session ps) inp = Some (-1, session ps).
Proof.
  destruct Hdg as [Hb Hl].
  destruct (handle_response_cases _ inp (pi_wf _ Hp) Hb Hl) as [[E _]|(p & Ha & _)]; [done|].
  destruct Hno. right. left. by exists p.
Qed.

Lemma forged_data out rc s out' : session_open_data (session ps) inp out = Some (rc, s, out') -> rc < 0 /\ s = session ps.
Proof.
  intros E. destruct (pi_window _ Hp) as [acc Hacc].
  destruct (open_data_accepts _ _ _ _ _ _ _ Hacc Hdg E) as [?|(c & p & Hs & Hc & _ & _ & Ei & Er)]; [done|].
  destruct Hno. right. right. by exists c, p, s.
Qed.
End Session.

Lemma forged_for_all l inp out i w :
  Forall peer_inv l -> datagram inp -> Forall (fun ps => ~ genuine (session ps) inp) l ->
  length out = SESSION_HANDSHAKE_MSG_LEN ->
  wlp (find_responder_for_init l inp out i) (fun r w' => r = (l, out, None) /\ wire w' = wire w) w.
Proof.
  intros Hp Hdg Hno Ho. revert i w. induction l as [|ps l IH]; intros i w; cbn [find_responder_for_init]; [by apply wlp_ret|].
  inversion Hp; inversion Hno; subst.
  assert (forall w', wire w' = wire w ->
    wlp ('(rest, out, r) ← find_responder_for_init l inp out (S i); mret (ps :: rest, out, r))
      (fun r w' => r = (ps :: l, out, None) /\ wire w' = wire w) w') as Later.
  { intros w' Ew. apply wlp_bind. eapply wlp_mono; [by apply IH|]. intros r w2 [-> E]. apply wlp_ret. split; [done|congruence]. }
  destruct (negb _); [by apply Later|]. apply wlp_bind, forged_init; [done..|].
  cbn [Z.leb Z.compare]. rewrite set_session_same. by apply Later.
Qed.

(** Nothing left and nobody is affected. *)
Definition inert (d : daemon) (w : world) (d' : daemon) (w' : world) : Prop :=
  wire w' = wire w /\ Forall2 ignored (d_peers d) (d_peers d').

Lemma handle_datagram_inert d n from inp w :
  daemon_inv d -> datagram inp -> take (Z.to_nat n) (cipher_buf d) = inp ->
  Forall (fun ps => ~ genuine (session ps) inp) (d_peers d) ->
  wlp (handle_datagram d n from) (inert d w) w.
Proof.
  intros Hd Hdg Ei Hno. unfold handle_datagram. rewrite Ei. cbv zeta. apply wlp_bind, wlp_lift. intros type _.
  destruct (find_peer_by_addr _ _) as [i|].
  2:{ destruct (_ =? _).
      - unfold unknown_init. apply wlp_bind. eapply wlp_mono; [by apply forged_for_all; [apply (di_peers _ Hd)|..]|].
        intros r w1 [-> E]. cbv zeta. unseen. unseen. finish. apply ignored_all.
      - unfold unknown_source. unseen. unseen. finish. apply ignored_all. }
  apply wlp_bind, wlp_lift. intros ps Hi.
  pose proof (Forall_lookup_1 _ _ _ _ (di_peers _ Hd) Hi) as Hp. pose proof (Forall_lookup_1 _ _ _ _ Hno Hi) as Hf.
  destruct (_ && is_responder ps).
  { unfold known_init. apply wlp_bind, forged_init; [done..|]. cbv zeta. cbn [Z.ltb Z.compare].
    rewrite set_session_same. unseen. finish. eapply ignored_peer; [done|]. right. by left. }
  destruct (_ && is_initiator ps).
  { unfold known_response. rewrite (forged_response ps inp Hp Hdg Hf). apply wlp_bind, wlp_lift. intros r [= <-].
    cbv zeta. cbn [Z.ltb Z.compare]. rewrite set_session_same. unseen. finish. eapply ignored_peer; [done|]. right. by left. }
  destruct (_ =? _).
  { unfold known_data. apply wlp_bind, wlp_lift. intros [[rc s] buf] E.
    destruct (forged_data ps inp Hp Hdg Hf _ _ _ _ E) as [Hrc ->]. cbv zeta. rewrite (proj2 (Z.ltb_lt _ _)) by done.
    rewrite set_session_same. unseen. finish. eapply ignored_peer; [done|]. right. right. by right. }
  unfold unexpected. unseen. finish. eapply ignored_peer; [done|]. right. right. by left.
Qed.

Lemma udp_ready_inert d w :
  daemon_inv d ->
  (forall data from, env_recvfrom (w_calls w) = Some (data, from) ->
     Forall (fun ps => ~ genuine (session ps) (take SEALED_BUF_SIZE data)) (d_peers d)) ->
  wlp (udp_ready d) (inert d w) w.
Proof.
  intros Hd Hno. unfold udp_ready. apply wlp_bind.
  eapply wlp_mono; [apply (udp_recv_datagram none); apply (di_cipher _ Hd)|].
  intros [[n buf] from] w1 (Hw1%adds_none & Hlb & Hr). cbn [fst snd] in *. cbv zeta. destruct (Z.ltb_spec n 0).
  { unseen. destruct (negb _); [unseen|]; finish; apply ignored_all. }
  destruct (_ || _); [unseen; finish; apply ignored_all|].
  destruct (Hr ltac:(lia)) as (Hdg & Hn & data & Er & Ei & _).
  eapply wlp_mono; [apply (handle_datagram_inert (set_cipher buf d) n from (take (Z.to_nat n) buf))|].
  - by apply set_cipher_inv.
  - exact Hdg.
  - done.
  - cbn. rewrite Ei. by eapply Hno.
  - intros d' w' [E F]. split; [congruence|done].
Qed.

(** C8. What no session vouches for has no effect.  A datagram, of any content
    and from any address, the peers' own included, that is not a new init for
    one of the responders, the response an initiator is waiting for, or a data
    message of an established session that it has not seen, makes the program
    send nothing and write nothing, and leaves every session, every address and
    every timer as it was: at most the counters of failures and drops of one
    peer grow.  So forgeries and replays neither break a session, nor keep one
    alive, nor move an endpoint. *)
Theorem forged_datagrams_are_inert d w :
  daemon_inv d ->
  (forall data from, env_recvfrom (w_calls w) = Some (data, from) ->
     Forall (fun ps => ~ genuine (session ps) (take SEALED_BUF_SIZE data)) (d_peers d)) ->
  exists d' w', udp_ready d w = Some (d', w') /\ wire w' = wire w /\ cfg d' = cfg d /\
    tun d' = tun d /\ udp d' = udp d /\ Forall2 ignored (d_peers d) (d_peers d').
Proof.
  intros Hd Hno. destruct (wp_exists _ _ _ (udp_ready_wp d w Hd)) as (d' & w' & E & _ & Hs & _).
  destruct (udp_ready_inert d w Hd Hno d' w' E) as [Ew F]. exists d', w'. by destruct Hs as (? & ? & ?).
Qed.

(** ** How much one datagram can cause *)

(** The sizes of an init and of its answer. *)
Lemma accepted_init_sizes ps ps' inp response :
  peer_inv ps -> accepted_init ps ps' inp response -> length inp = 57%nat /\ length response = 57%nat.
Proof.
  intros Hp (c & p & s & keys & (_ & -> & Lp & _) & _ & Hs & ->). rewrite !message_length, Lp. split; [done|].
  assert (length (local_eph_pk s) = CRYPTO_PUBLIC_KEY_BYTES) as ->; [|done].
  destruct Hs as [[-> _]|[n ->]]; [apply (pi_wf _ Hp)|apply restarted_wf, (pi_wf _ Hp)].
Qed.

(** A short datagram is received whole. *)
Lemma received_whole (data : bytes) n : length (take SEALED_BUF_SIZE data) = n -> (n < SEALED_BUF_SIZE)%nat -> length data = n.
Proof. rewrite length_take. lia. Qed.

(** What a datagram [data] from [from] may bring about. *)
Inductive caused (d : daemon) (data : bytes) (from : sockaddr_in) : list io_event -> Prop :=
| caused_nothing : caused d data from []
| caused_packet p rc :
    (length p + 25 <= length data)%nat -> caused d data from [EvTunWrite (t_fd (tun d)) p rc]
| caused_reply dest response rc :
    sin_addr dest = sin_addr from -> sin_port dest = sin_port from ->
    length data = 57%nat -> length response = 57%nat ->
    caused d data from [EvSend (u_fd (udp d)) dest response rc].

Lemma reply_caused d data from ps ps' response dest rc :
  peer_inv ps -> accepted_init ps ps' (take SEALED_BUF_SIZE data) response ->
  sin_addr dest = sin_addr from -> sin_port dest = sin_port from ->
  caused d data from [EvSend (u_fd (udp d)) dest response rc].
Proof.
  intros Hp [Li Lr]%accepted_init_sizes Ha Hport; [|done].
  apply caused_reply; [done|done| |done]. apply received_whole; [done|]. by apply Nat.ltb_lt.
Qed.

Lemma datagram_causes d data from d' events :
  daemon_inv d -> datagram_spec d (take SEALED_BUF_SIZE data) from d' events -> caused d data from events.
Proof.
  unfold datagram_spec. intros Hd H. destruct (find_peer_by_addr _ _) as [i|] eqn:Ef.
  - destruct H as (ps & ps' & Hi & _ & _ & H). destruct (find_peer_by_addr_Some _ _ _ Ef) as (q & Hq & _ & Ha & Hport).
    simplify_eq. pose proof (Forall_lookup_1 _ _ _ _ (di_peers _ Hd) Hi) as Hp.
    destruct H as [[-> _]|[(response & rc & Hacc & ->)|(c & p & rc & _ & Ei & _ & _ & _ & _ & ->)]].
    + constructor.
    + by eapply reply_caused.
    + constructor. apply (f_equal length) in Ei. rewrite message_length, length_take in Ei. lia.
  - destruct (_ =? _); [|destruct H as [_ ->]; constructor].
    destruct H as (l & _ & [[-> _]|(k & ps & ps1 & response & rc & Hk & _ & Hacc & -> & _)]); [constructor|].
    eapply reply_caused; [|exact Hacc|done..]. by eapply Forall_lookup_1; [apply (di_peers _ Hd)|].
Qed.

(** C11. No amplification.  One datagram makes the program send at most one
    datagram, and only an init does; the answer is 57 bytes, as long as the
    init itself, and goes to the address and port the init came from.
    Otherwise it makes the program write at most one packet to the TUN device,
    at least 25 bytes shorter than the datagram. *)
Theorem replies_never_amplify d w :
  daemon_inv d ->
  exists d' w' events, udp_ready d w = Some (d', w') /\ wire w' = wire w ++ events /\
    match env_recvfrom (w_calls w) with
    | Some (data, from) => caused d data from events
    | None => events = []
    end.
Proof.
  intros Hd. destruct (wp_exists _ _ _ (udp_ready_wp d w Hd)) as (d' & w' & E & _ & _ & events & Ew & H).
  exists d', w', events. split; [done|]. split; [done|]. destruct (env_recvfrom _) as [[data from]|]; [|apply H].
  case_decide; [destruct H as [_ ->]; constructor|]. by eapply datagram_causes.
Qed.
End Untrusted.

(** ** A replay: the data message of the first peer, from its own address, after
    it was delivered *)
Definition d2 : daemon := Eval vm_compute in (run_or (udp_ready (EV:=busy) d1 w1) d1).1.
Definition w2 : world := Eval vm_compute in (run_or (udp_ready (EV:=busy) d1 w1) d1).2.

Lemma d2_inv : daemon_inv d2.
Proof.
  pose proof (udp_ready_wp (EV:=busy) d1 w1 d1_inv) as H. unfold wp in H.
  assert (udp_ready (EV:=busy) d1 w1 = Some (d2, w2)) as E by (by vm_compute). rewrite E in H. apply H.
Qed.

(** A data message is not genuine where the session is not established, or
    has seen its counter. *)
Lemma stale_data s c p key :
  is_u64 c -> (length p <= MAX_PACKET_SIZE)%nat ->
  (state s = SESSION_STATE_ESTABLISHED -> rx (data_keys s) = key /\ replay_check_and_mark s c = Some (false, s)) ->
  ~ genuine s (message SESSION_MSG_DATA key c p).
Proof.
  intros Hc Hp H [(c' & p' & _ & Hi & _)|[(p' & _ & _ & Hi & _)|(c' & p' & s' & Hs & Hc' & Hi & Er')]]; [done|done|].
  destruct (H Hs) as [<- Er]. pose proof (f_equal length Hi) as L. rewrite !message_length in L. unfold MAX_PACKET_SIZE in Hp.
  apply message_inj in Hi as [<- _]; [|done|done|lia|lia]. congruence.
Qed.

Lemma forged_datagrams_are_inert_witness :
  env_recvfrom (Env:=busy) (w_calls w2) = Some (data1, from1) /\
  exists d' w', udp_ready (EV:=busy) d2 w2 = Some (d', w') /\ wire w' = wire w2 /\ cfg d' = cfg d2 /\
    tun d' = tun d2 /\ udp d' = udp d2 /\ Forall2 ignored (d_peers d2) (d_peers d').
Proof.
  split; [done|]. apply (forged_datagrams_are_inert (EV:=busy) d2 w2 d2_inv). intros data from [= <- <-].
  replace (take SEALED_BUF_SIZE data1)
    with (message SESSION_MSG_DATA (rx (data_keys (session (first_peer d1)))) 0 packet1) by (by vm_compute).
  repeat constructor; (apply stale_data; [by vm_compute|by apply Nat.leb_le; vm_compute|]); [by intros _; vm_compute|done].
Defined.

(** The init of the first peer is answered with as many bytes. *)
Lemma replies_never_amplify_witness :
  (exists d' w' dest response, udp_ready (EV:=greeted) d0 w0 = Some (d', w') /\
     wire w' = wire w0 ++ [EvSend (u_fd (udp d0)) dest response 57] /\ length response = 57%nat) /\
  exists d' w' events, udp_ready (EV:=greeted) d0 w0 = Some (d', w') /\ wire w' = wire w0 ++ events /\
    match env_recvfrom (Env:=greeted) (w_calls w0) with
    | Some (data, from) => caused d0 data from events
    | None => events = []
    end.
Proof.
  split; [eexists _, _, _, _; split; [by vm_compute|split; by vm_compute]|].
  exact (replies_never_amplify (EV:=greeted) d0 w0 d0_inv).
Defined.
