(* ===== verification/Reconnect.v ===== *)
(** * Two daemons agree on keys

    A handshake between two running daemons, function by function of
    src/main.c: the timers of one send an init, the other answers it, from an
    address it knows or not, and the first completes.  It needs nothing of the
    sessions before, so it is also how daemons recover from lost messages.  And
    what is left behind when the answer cannot be sent. *)

From Stdlib Require Import String.
From S2P Require Import Prelude World Crypto Toy Session Replay SessionFacts SessionRuns Libc.
From S2P Require Import Config ConfigFacts Routing Log LogSpec Net Daemon DaemonFacts.
From S2P Require Import DaemonInput DaemonStart Scenario.
Open Scope list_scope.

(** The X25519 exchange of two pairs that the generator made does not fail:
    their public keys are not of small order. *)
Definition exchange_sound `{Sodium} : Prop := forall sk_i sk_r old,
  length sk_i = CRYPTO_SECRET_KEY_BYTES -> length sk_r = CRYPTO_SECRET_KEY_BYTES ->
  (crypto_derive_session_keys CRYPTO_ROLE_INITIATOR (crypto_scalarmult_base sk_i) sk_i
     (crypto_scalarmult_base sk_r) old).1 = 0.

(** ** The responder's side *)
Section Responder.
  Context `{SO : Sodium} {SL : SodiumLaws} `{EV : Env} {EL : EnvLaws} {CL : ClockLaws} {IL : IoLaws}.

(** The session after an acceptable init with the public key of [sk_i]: it is
    established, and holds the mirror image of what the initiator will derive
    from the public key [pk] in the response. *)
Definition answered (sk_i : bytes) (pk : bytes) (s : session_t) : Prop :=
  state s = SESSION_STATE_ESTABLISHED /\ length pk = CRYPTO_PUBLIC_KEY_BYTES /\ is_bytes pk /\
  forall old, crypto_derive_session_keys CRYPTO_ROLE_INITIATOR (crypto_scalarmult_base sk_i) sk_i pk old =
    (0, swap_keys (data_keys s)).

Lemma swap_swap k : swap_keys (swap_keys k) = k.
Proof. by destruct k. Qed.

Lemma handle_init_answers ps inp out w c sk_i :
  peer_inv ps -> exchange_sound -> is_bytes inp -> zlen inp < 2 ^ 64 -> (57 <= length out)%nat ->
  length sk_i = CRYPTO_SECRET_KEY_BYTES ->
  acceptable_init (session ps) inp c (crypto_scalarmult_base sk_i) ->
  exists s pk w', session_handle_init (session ps) inp out w =
      Some ((57, s, message SESSION_MSG_HANDSHAKE_RESPONSE (tx (static_keys (session ps))) c pk ++ drop 57 out), w') /\
    wire w' = wire w /\ answered sk_i pk s.
Proof.
  intros Hi Hx Hb Hl Ho Hsk Ha. destruct (responder_attempt (session ps) w) as [s1 w1] eqn:Ea.
  destruct (responder_attempt_facts _ _ _ _ Ea (pi_wf _ Hi)) as (Hw1 & _ & _).
  assert (eph_honest s1 /\ wire w1 = wire w) as [He Ew].
  { unfold responder_attempt in Ea. case_decide as Hs; simplify_eq.
    - split; [apply restarted_honest|done].
    - split; [|done]. apply (pi_eph _ Hi). by destruct (state (session ps)). }
  assert (forall old, exists k, crypto_derive_session_keys CRYPTO_ROLE_INITIATOR (crypto_scalarmult_base sk_i) sk_i
    (local_eph_pk s1) old = (0, k) /\ crypto_derive_session_keys CRYPTO_ROLE_RESPONDER (local_eph_pk s1)
      (local_eph_sk s1) (crypto_scalarmult_base sk_i) (data_keys s1) = (0, swap_keys k)) as Hk.
  { intros old. rewrite He. pose proof (Hx sk_i (local_eph_sk s1) old Hsk (wf_eph_sk _ Hw1)) as E0.
    destruct (crypto_derive_session_keys CRYPTO_ROLE_INITIATOR _ _ _ _) as [rc k] eqn:Ek. cbn in E0. subst rc.
    exists k. split; [done|]. by eapply derive_agree. }
  destruct (Hk zero_keys) as (k & _ & Er).
  eexists (responder_established (swap_keys k) c s1), (local_eph_pk s1), w1.
  split; [by apply (handle_init_ok _ _ _ _ _ (crypto_scalarmult_base sk_i) _ _ _ (pi_wf _ Hi))|].
  split; [done|]. split; [done|]. split; [apply Hw1|]. split; [apply Hw1|].
  intros old. destruct (Hk old) as (k' & -> & Er'). rewrite Er in Er'. cbn [data_keys responder_established set_state
    set_seen_handshake set_local_eph set_data_keys]. rewrite swap_swap.
  assert (swap_keys k = swap_keys k') as Ek by congruence. apply (f_equal swap_keys) in Ek.
  rewrite !swap_swap in Ek. by rewrite Ek.
Qed.

Lemma handle_init_rejects s inp out w :
  session_wf s -> is_bytes inp -> zlen inp < 2 ^ 64 -> (forall c p, ~ acceptable_init s inp c p) ->
  session_handle_init s inp out w = Some ((-1, s, out), w).
Proof.
  intros Hw Hb Hl Hno. destruct (handle_init_cases s inp out w Hw Hb Hl) as [[E _]|(_ & c & p & Ha & _)]; [done|].
  by destruct (Hno c p).
Qed.

(** The responders before the one it is for leave an init alone. *)
Definition not_for_earlier (l : list peer_session_t) (j : nat) (inp : bytes) : Prop :=
  forall k ps, (k < j)%nat -> l !! k = Some ps -> is_responder ps = true ->
    forall c p, ~ acceptable_init (session ps) inp c p.

Lemma find_responder_answers l inp out i j ps c sk_i w :
  Forall peer_inv l -> exchange_sound -> is_bytes inp -> zlen inp < 2 ^ 64 -> (57 <= length out)%nat ->
  length sk_i = CRYPTO_SECRET_KEY_BYTES -> l !! j = Some ps ->
  acceptable_init (session ps) inp c (crypto_scalarmult_base sk_i) -> not_for_earlier l j inp ->
  exists s pk w', find_responder_for_init l inp out i w =
      Some ((<[j := set_session s ps]> l,
        message SESSION_MSG_HANDSHAKE_RESPONSE (tx (static_keys (session ps))) c pk ++ drop 57 out,
        Some ((i + j)%nat, 57)), w') /\
    wire w' = wire w /\ answered sk_i pk s.
Proof.
  intros Hall Hx Hb Hl Ho Hsk. revert i j w. induction Hall as [|q rest Hq Hrest IH]; intros i j w Hj Ha Hne; [done|].
  cbn [find_responder_for_init]. destruct j as [|j].
  - simplify_eq/=. assert (is_responder ps = true) as ->.
    { unfold is_responder. apply bool_decide_eq_true. by eapply acceptable_init_role. }
    destruct (handle_init_answers ps inp out w c sk_i) as (s & pk & w' & E & Ew & Hans); try done.
    exists s, pk, w'. split; [|done]. cbn [negb]. rewrite (M_bind_Some _ _ _ _ _ E).
    cbv beta iota zeta. cbn [Z.leb Z.compare]. by rewrite Nat.add_0_r.
  - cbn in Hj. destruct (IH (S i) j w Hj Ha) as (s & pk & w' & E & Ew & Hans).
    { intros k p Hk Hp. apply (Hne (S k) p); [lia|done]. }
    exists s, pk, w'. split; [|done]. replace (i + S j)%nat with (S i + j)%nat by lia.
    destruct (is_responder q) eqn:Er; cbn [negb].
    + rewrite (M_bind_Some _ _ _ _ _ (handle_init_rejects (session q) inp out w (pi_wf _ Hq) Hb Hl
        (Hne 0%nat q ltac:(lia) eq_refl Er))). cbv beta iota zeta. cbn [Z.leb Z.compare].
      rewrite (M_bind_Some _ _ _ _ _ E). cbv beta iota. by destruct q.
    + by rewrite (M_bind_Some _ _ _ _ _ E).
Qed.

(** What the responder leaves behind. *)
Definition answer_post (d : daemon) (j : nat) (ps : peer_session_t) (from : sockaddr_in) (c : Z) (sk_i : bytes)
    (w : world) (d' : daemon) (w' : world) : Prop :=
  exists pk ps' dest rc,
    wire w' = wire w ++ [EvSend (u_fd (udp d)) dest
      (message SESSION_MSG_HANDSHAKE_RESPONSE (tx (static_keys (session ps))) c pk) rc] /\
    sin_addr dest = sin_addr from /\ sin_port dest = sin_port from /\
    d_peers d' !! j = Some ps' /\ (rc < 0 -> same_peer ps ps') /\ answered sk_i pk (session ps').

Lemma response_take t key c pk rest :
  length pk = CRYPTO_PUBLIC_KEY_BYTES -> take (Z.to_nat 57) (message t key c pk ++ rest) = message t key c pk.
Proof. intros H. apply take_app_length'. rewrite message_length, H. done. Qed.

Lemma known_init_answers d j ps inp from c sk_i w :
  daemon_inv d -> exchange_sound -> is_bytes inp -> zlen inp < 2 ^ 64 -> length sk_i = CRYPTO_SECRET_KEY_BYTES ->
  d_peers d !! j = Some ps -> acceptable_init (session ps) inp c (crypto_scalarmult_base sk_i) ->
  sin_addr (addr ps) = sin_addr from -> sin_port (addr ps) = sin_port from ->
  wp (known_init d j ps inp) (answer_post d j ps from c sk_i w) w.
Proof.
  intros Hd Hx Hb Hl Hsk Hps Ha Hfa Hfp. pose proof (Forall_lookup_1 _ _ _ _ (di_peers _ Hd) Hps) as Hi.
  pose proof (lookup_lt_Some _ _ _ Hps) as Hlt.
  destruct (handle_init_answers ps inp response_buf w c sk_i) as (s & pk & w1 & E & Ew & Hans); try done.
  unfold known_init. apply wp_bind. unfold wp at 1. rewrite E. cbv beta iota zeta. cbn [Z.ltb Z.compare].
  rewrite response_take by apply Hans. apply wp_bind, wp_send. intros rc w2 E2.
  cbn [set_session addr udp] in E2. rewrite Ew in E2.
  assert (forall ps' w', wire w' = wire w2 -> session ps' = s -> same_peer ps ps' ->
    answer_post d j ps from c sk_i w (set_peer j ps' d) w') as Fin.
  { intros ps' w' Ew' Es Hsame. exists pk, ps', (addr ps), rc. split; [congruence|]. split; [done|]. split; [done|].
    rewrite Es. split; [|by split]. cbn. by apply list_lookup_insert_eq. }
  destruct (rc <? 0).
  - apply wp_bind, wp_get_errno. apply wp_bind, wp_log. intros w3 E3. by apply wp_ret, Fin.
  - apply wp_bind, wp_monotonic. intros t w3 E3. apply wp_bind, wp_log. intros w4 E4.
    apply wp_ret, Fin; [congruence|done|done].
Qed.

Lemma unknown_init_answers d j ps inp from c sk_i w :
  daemon_inv d -> exchange_sound -> is_bytes inp -> zlen inp < 2 ^ 64 -> length sk_i = CRYPTO_SECRET_KEY_BYTES ->
  d_peers d !! j = Some ps -> acceptable_init (session ps) inp c (crypto_scalarmult_base sk_i) ->
  not_for_earlier (d_peers d) j inp ->
  wp (unknown_init d inp from) (answer_post d j ps from c sk_i w) w.
Proof.
  intros Hd Hx Hb Hl Hsk Hps Ha Hne. pose proof (lookup_lt_Some _ _ _ Hps) as Hlt.
  destruct (find_responder_answers (d_peers d) inp response_buf 0 j ps c sk_i w)
    as (s & pk & w1 & E & Ew & Hans); try done; [apply (di_peers _ Hd)|].
  unfold unknown_init. apply wp_bind. unfold wp at 1. rewrite E. cbv beta iota zeta. cbn [Nat.add].
  assert (<[j := set_session s ps]> (d_peers d) !! j = Some (set_session s ps)) as Hj
    by (by apply list_lookup_insert_eq).
  apply wp_bind. eapply wp_lift; [exact Hj|]. rewrite response_take by apply Hans.
  apply wp_bind, wp_send. intros rc w2 E2. cbn [set_all_peers udp] in E2. rewrite Ew in E2. destruct (rc <? 0) eqn:Hrc.
  - apply wp_bind, wp_get_errno. apply wp_bind, wp_log. intros w3 E3. apply wp_ret.
    exists pk, (set_session s ps), from, rc. split; [congruence|]. by split.
  - apply wp_bind, wp_monotonic. intros t w3 E3. destruct (from_text_ok from) as [who Hwho].
    apply wp_bind. eapply wp_lift; [exact Hwho|]. apply wp_bind, wp_log. intros w4 E4. apply wp_ret.
    eexists pk, _, from, rc. split; [congruence|]. split; [done|]. split; [done|].
    split; [cbn; apply list_lookup_insert_eq; by rewrite length_insert|]. split; [|done].
    apply Z.ltb_ge in Hrc. lia.
Qed.

(** The daemon answers an init that is for peer [j]. *)
Lemma udp_ready_answers d j ps inp from c sk_i w :
  daemon_inv d -> exchange_sound -> length sk_i = CRYPTO_SECRET_KEY_BYTES ->
  env_recvfrom (w_calls w) = Some (inp, from) -> d_peers d !! j = Some ps ->
  acceptable_init (session ps) inp c (crypto_scalarmult_base sk_i) ->
  (find_peer_by_addr (d_peers d) from = Some j \/
   find_peer_by_addr (d_peers d) from = None /\ not_for_earlier (d_peers d) j inp) ->
  wp (udp_ready d) (answer_post d j ps from c sk_i w) w.
Proof.
  intros Hd Hx Hsk Er Hps Ha Hfrom. pose proof (env_recvfrom_bytes _ _ _ Er) as Hb.
  pose proof Ha as (_ & Hinp & Hlp & _).
  assert (length inp = 57%nat) as Hlen by (by rewrite Hinp, message_length, Hlp).
  assert (zlen inp < 2 ^ 64) as Hl by (rewrite Hlen; done).
  assert (exists rest, inp = SESSION_MSG_HANDSHAKE_INIT :: rest) as [rest Hin] by (rewrite Hinp; eexists; done).
  pose proof (acceptable_init_role _ _ _ _ (Forall_lookup_1 _ _ _ _ (di_peers _ Hd) Hps) Ha) as Hro.
  rewrite Hin in Er. assert (57 <= SEALED_BUF_SIZE)%nat by (by apply Nat.leb_le).
  destruct Hfrom as [Hf|[Hf Hne]].
  - eapply udp_ready_dispatch; try done; [by rewrite <- Hin, Hlen|]. intros b w1 E1 Hlb.
    cbn [Z.eqb Pos.eqb andb]. unfold is_responder. rewrite bool_decide_true by done. rewrite <- Hin.
    destruct (find_peer_by_addr_Some _ _ _ Hf) as (ps' & Hps' & _ & Hfa & Hfp).
    rewrite Hps in Hps'. injection Hps' as <-.
    eapply wp_mono; [apply (known_init_answers (set_cipher b d) j ps inp from c sk_i w1); try done;
      by apply set_cipher_inv|].
    intros d' w' (pk & ps' & dest & rc & Ew & H'). exists pk, ps', dest, rc. rewrite <- E1. done.
  - eapply udp_ready_handle; try done; [by rewrite <- Hin, Hlen|]. intros b w1 E1 Hlb.
    unfold handle_datagram. cbn [set_cipher cipher_buf d_peers]. rewrite Nat2Z.id.
    change (SESSION_MSG_HANDSHAKE_INIT :: rest ++ b) with ((SESSION_MSG_HANDSHAKE_INIT :: rest) ++ b).
    rewrite take_app_length, <- Hin. apply wp_bind. eapply wp_lift; [by rewrite Hin|]. rewrite Hf.
    cbn [Z.eqb Pos.eqb]. eapply wp_mono; [apply (unknown_init_answers (set_cipher (inp ++ b) d) j ps inp from c sk_i w1); try done|].
    + apply set_cipher_inv; [done|]. by rewrite Hin.
    + intros d' w' (pk & ps' & dest & rc & Ew & H'). exists pk, ps', dest, rc. rewrite <- E1. done.
Qed.
End Responder.

(** ** The initiator's side *)
Section Initiator.
  Context `{SO : Sodium} {SL : SodiumLaws} `{EV : Env} {EL : EnvLaws} {CL : ClockLaws} {IL : IoLaws}.

(** The session of an outstanding attempt: an init with counter [c] was sent
    for the pair of draw [n]. *)
Definition outstanding (n : nat) (c : Z) (s : session_t) : Prop :=
  state s = SESSION_STATE_HANDSHAKE_PENDING /\ pending_handshake_counter s = c /\
  local_eph_pk s = (env_keypair n).1 /\ local_eph_sk s = (env_keypair n).2.

Lemma keepalive_keeps_due now fd ps ps1 ka :
  keepalive_spec now fd ps ps1 ka ->
  same_peer ps ps1 /\ rehandshake_due now ps1 = rehandshake_due now ps /\
  static_keys (session ps1) = static_keys (session ps) /\
  handshake_counter (session ps1) = handshake_counter (session ps).
Proof.
  unfold keepalive_spec. destruct (keepalive_due now ps); [|by intros [-> _]].
  intros (Hs & _ & Erx & Ehs & Es & _). split; [done|]. rewrite Es. split; [|done].
  unfold rehandshake_due, is_initiator, established. destruct Hs as (-> & _). by rewrite Erx, Ehs, Es.
Qed.

(** The timers send the init that is due. *)
Lemma timers_attempt d i ps w :
  daemon_inv d -> d_peers d !! i = Some ps -> addr_resolved ps = true ->
  rehandshake_due (clock_ms w) ps = true ->
  wp (timers d) (fun d' w' => daemon_inv d' /\ exists ps' n events rc,
    wire w' = wire w ++ events /\ d_peers d' !! i = Some ps' /\ config ps' = config ps /\ addr ps' = addr ps /\
    static_keys (session ps') = static_keys (session ps) /\
    outstanding n (handshake_counter (session ps)) (session ps') /\
    EvSend (u_fd (udp d)) (addr ps) (message SESSION_MSG_HANDSHAKE_INIT (tx (static_keys (session ps)))
      (handshake_counter (session ps)) (env_keypair n).1) rc ∈ events) w.
Proof.
  intros Hd Hps Hres Hdue. eapply wp_mono; [by apply timers_wp|].
  intros d' w' (Hd' & _ & _ & ticks & Ep & Ew & Ht). split; [done|].
  destruct (Forall2_lookup_l _ _ _ _ _ Ht Hps) as ([ps' ev] & Hi & ps1 & ka & hs & Eev & Hka & Hhs).
  cbn [fst snd] in *. destruct (keepalive_keeps_due _ _ _ _ _ Hka) as ((Hc & Hr & Ha) & Hd1 & Hst & Hhc).
  rewrite Hd1, Hdue in Hhs. destruct Hhs as (Ec & _ & _ & _ & [(Hun & _)|(_ & Ead & _ & _ & n & rc & Es & ->)]);
    [congruence|]. specialize (Ead ltac:(congruence)).
  exists ps', n, (concat (map snd ticks)), rc. split; [done|].
  split; [by rewrite Ep, list_lookup_fmap, Hi|]. split; [congruence|]. split; [congruence|].
  split; [rewrite Es; exact Hst|]. split; [rewrite Es; by split|].
  apply list_elem_of_In, in_concat. exists ev. split; apply list_elem_of_In.
  - apply list_elem_of_fmap. exists (ps', ev). split; [done|]. by eapply list_elem_of_lookup_2.
  - rewrite Eev, Ead, Ha, Hst, Hhc. apply elem_of_app. right. by apply list_elem_of_singleton.
Qed.

(** The response to an outstanding attempt completes it. *)
Lemma udp_ready_completes d i ps from n c pk keys w :
  daemon_inv d -> d_peers d !! i = Some ps -> peer_role (config ps) = CRYPTO_ROLE_INITIATOR ->
  outstanding n c (session ps) -> length pk = CRYPTO_PUBLIC_KEY_BYTES ->
  env_recvfrom (w_calls w) =
    Some (message SESSION_MSG_HANDSHAKE_RESPONSE (rx (static_keys (session ps))) c pk, from) ->
  find_peer_by_addr (d_peers d) from = Some i ->
  crypto_derive_session_keys CRYPTO_ROLE_INITIATOR (env_keypair n).1 (env_keypair n).2 pk
    (data_keys (session ps)) = (0, keys) ->
  wp (udp_ready d) (fun d' w' => wire w' = wire w /\ exists ps', d_peers d' !! i = Some ps' /\
    state (session ps') = SESSION_STATE_ESTABLISHED /\ data_keys (session ps') = keys) w.
Proof.
  intros Hd Hps Hro (Hst & Hpc & Epk & Esk) Hlpk Er Hfi Hk. pose proof (env_recvfrom_bytes _ _ _ Er) as Hb.
  pose proof (Forall_lookup_1 _ _ _ _ (di_peers _ Hd) Hps) as Hi. pose proof (lookup_lt_Some _ _ _ Hps) as Hlt.
  pose proof (message_length SESSION_MSG_HANDSHAKE_RESPONSE (rx (static_keys (session ps))) c pk) as Hlen.
  rewrite Hlpk in Hlen.
  eapply udp_ready_dispatch; [done|exact Er| |done|done|].
  { change (SESSION_MSG_HANDSHAKE_RESPONSE :: _) with
      (message SESSION_MSG_HANDSHAKE_RESPONSE (rx (static_keys (session ps))) c pk).
    rewrite Hlen. by apply Nat.leb_le. }
  intros b w1 E1 Hlb. cbn [Z.eqb Pos.eqb andb]. unfold is_initiator. rewrite bool_decide_true by done.
  unfold known_response. rewrite <- Epk, <- Esk in Hk.
  apply wp_bind. eapply wp_lift.
  { apply (handle_response_ok _ _ pk keys (pi_wf _ Hi) Hb); [rewrite Hlen; done| |done].
    split; [by rewrite (pi_role _ Hi)|]. split; [done|]. rewrite Hpc. by split. }
  cbv beta iota zeta. cbn [Z.ltb Z.compare]. apply wp_bind, wp_monotonic. intros t w2 E2.
  apply wp_bind, wp_log. intros w3 E3. apply wp_ret. split; [congruence|].
  eexists. split; [cbn; by apply list_lookup_insert_eq|]. done.
Qed.
End Initiator.

(** ** Both *)
Section Handshake.
  Context `{SO : Sodium} {SL : SodiumLaws}.
  Context (near far : Env) {ELN : @EnvLaws _ near} {ELF : @EnvLaws _ far} {CLN : @ClockLaws near}
    {CLF : @ClockLaws far} {ILN : @IoLaws near} {ILF : @IoLaws far}.

(** C12. Two daemons agree on session keys.  When a handshake attempt is due
    for a peer whose address is known, the timers send an init to it.  Any
    daemon that receives that init, whenever it does and whatever state its
    session is in, with a responder relationship to the same pair of keys
    whose highest init counter is below this one's, answers with one datagram
    to where the init came from (whether it knew that address or not) and has
    its session established.  And when the first daemon receives that answer
    while the attempt is still outstanding, its session is established too,
    with the mirror image of the other's keys.  Nothing is assumed of what was
    lost before: this is also how a lost init, a lost response or a restart of
    either end is recovered from. *)
Theorem daemons_agree_on_keys dI wI i psI :
  daemon_inv dI -> exchange_sound -> d_peers dI !! i = Some psI -> addr_resolved psI = true ->
  rehandshake_due (clock_ms (EV:=near) wI) psI = true ->
  exists dI' wI' psI' events init rc,
    timers (EV:=near) dI wI = Some (dI', wI') /\ wire wI' = wire wI ++ events /\
    EvSend (u_fd (udp dI)) (addr psI) init rc ∈ events /\ d_peers dI' !! i = Some psI' /\
    forall dR wR j psR from,
      daemon_inv dR -> d_peers dR !! j = Some psR -> peer_role (config psR) = CRYPTO_ROLE_RESPONDER ->
      static_keys (session psR) = swap_keys (static_keys (session psI)) ->
      (have_seen_handshake (session psR) = true ->
       highest_handshake_counter_seen (session psR) < handshake_counter (session psI)) ->
      env_recvfrom (Env:=far) (w_calls wR) = Some (init, from) ->
      (find_peer_by_addr (d_peers dR) from = Some j \/
       find_peer_by_addr (d_peers dR) from = None /\ not_for_earlier (d_peers dR) j init) ->
      exists dR' wR' psR' dest response rc',
        udp_ready (EV:=far) dR wR = Some (dR', wR') /\
        wire wR' = wire wR ++ [EvSend (u_fd (udp dR)) dest response rc'] /\
        sin_addr dest = sin_addr from /\ sin_port dest = sin_port from /\
        d_peers dR' !! j = Some psR' /\ state (session psR') = SESSION_STATE_ESTABLISHED /\
        forall dL wL psL fromR,
          daemon_inv dL -> d_peers dL !! i = Some psL -> config psL = config psI ->
          session psL = session psI' -> find_peer_by_addr (d_peers dL) fromR = Some i ->
          env_recvfrom (Env:=near) (w_calls wL) = Some (response, fromR) ->
          exists dL' wL' psL', udp_ready (EV:=near) dL wL = Some (dL', wL') /\
            d_peers dL' !! i = Some psL' /\ state (session psL') = SESSION_STATE_ESTABLISHED /\
            data_keys (session psR') = swap_keys (data_keys (session psL')).
Proof.
  intros HI Hx HpsI Hres Hdue. pose proof (Forall_lookup_1 _ _ _ _ (di_peers _ HI) HpsI) as HiI.
  assert (peer_role (config psI) = CRYPTO_ROLE_INITIATOR) as Hini.
  { unfold rehandshake_due, is_initiator in Hdue. apply andb_true_iff in Hdue as [Hb _]. by apply bool_decide_eq_true in Hb. }
  destruct (wp_exists _ _ _ (timers_attempt (EV:=near) dI i psI wI HI HpsI Hres Hdue))
    as (dI' & wI' & E & _ & psI' & n & events & rc & Ew & HpsI' & Hcf & _ & Hst' & Hout & Hin).
  eexists dI', wI', psI', events, _, rc. split; [done|]. split; [done|]. split; [exact Hin|]. split; [done|].
  intros dR wR j psR from HR HpsR HroR Hst Hnew Er Hfrom.
  rewrite (@env_keypair_matches _ near _) in Er, Hfrom.
  set (sk := (env_keypair (Env:=near) n).2) in *.
  pose proof (env_keypair_sk_length (EnvLaws:=ELN) n) as Hsk.
  assert (acceptable_init (session psR) (message SESSION_MSG_HANDSHAKE_INIT (tx (static_keys (session psI)))
    (handshake_counter (session psI)) (crypto_scalarmult_base sk)) (handshake_counter (session psI))
    (crypto_scalarmult_base sk)) as Hacc.
  { pose proof (Forall_lookup_1 _ _ _ _ (di_peers _ HR) HpsR) as HiR.
    split; [by rewrite (pi_role _ HiR)|]. rewrite Hst. split; [done|]. split; [apply scalarmult_base_length|].
    split; [apply (wf_hs_counter _ (pi_wf _ HiI))|done]. }
  destruct (wp_exists _ _ _ (udp_ready_answers (EV:=far) dR j psR _ from _ sk wR HR Hx Hsk Er HpsR Hacc Hfrom))
    as (dR' & wR' & ER & pk & psR' & dest & rc' & EwR & Hda & Hdp & HpsR' & _ & Hest & Hlpk & _ & Hk).
  eexists dR', wR', psR', dest, _, rc'. split; [done|]. split; [exact EwR|]. split; [done|]. split; [done|].
  split; [done|]. split; [done|]. intros dL wL psL fromR HL HpsL HcL HsL Hfind ErL.
  specialize (Hk (data_keys (session psL))).
  rewrite <- (@env_keypair_matches _ near _ n) in Hk. fold sk in Hk.
  assert (tx (static_keys (session psR)) = rx (static_keys (session psL))) as Erx by (by rewrite HsL, Hst', Hst).
  rewrite Erx in ErL.
  destruct (wp_exists _ _ _ (udp_ready_completes (EV:=near) dL i psL fromR n (handshake_counter (session psI)) pk
    (swap_keys (data_keys (session psR'))) wL HL HpsL ltac:(by rewrite HcL) ltac:(by rewrite HsL) Hlpk ErL Hfind Hk))
    as (dL' & wL' & EL & _ & psL' & HpsL' & HestL & HkL).
  exists dL', wL', psL'. split; [done|]. split; [done|]. split; [done|]. by rewrite HkL, swap_swap.
Qed.
End Handshake.

(** ** peer1 and peer2 *)
Lemma toy_exchange_sound : exchange_sound.
Proof.
  intros sk_i sk_r old _ _. unfold crypto_derive_session_keys. rewrite decide_True by done.
  change crypto_kx_client_session_keys with (toy_kx 1 2). change crypto_scalarmult_base with toy_base.
  unfold toy_kx. rewrite decide_False; [done|].
  intros [E|E]; by apply toy_base_nonzero in E.
Qed.

(** peer1, half a minute after it started without an answer. *)
Definition waited (w : world) : world := {| w_calls := w_calls w + 30; w_errno := w_errno w; w_log := w_log w;
  w_trace := w_trace w |}.
Definition retry : daemon * world := Eval vm_compute in
  run_or (timers (EV:=site1 None) a0.1 (waited a0.2)) blank_daemon.
Definition retry_far : Env := live_env (Some (last_datagram retry.2, from1)) None 57.
Definition retry_b : daemon * world := Eval vm_compute in run_or (udp_ready (EV:=retry_far) b1.1 b1.2) blank_daemon.
Definition retry_near : Env := site1 (Some (last_datagram retry_b.2, peer2_addr)).
Definition retry_a : daemon * world := Eval vm_compute in
  run_or (udp_ready (EV:=retry_near) retry.1 retry.2) blank_daemon.

#[global] Instance retry_far_io : @IoLaws retry_far.
Proof. apply site_io. by vm_compute. Qed.
#[global] Instance retry_near_io : @IoLaws retry_near.
Proof. apply site_io. by vm_compute. Qed.

(** The three steps. *)
Lemma retry_reached : timers (EV:=retry_near) a0.1 (waited a0.2) = Some retry.
Proof. by vm_compute. Qed.
Lemma retry_b_reached : udp_ready (EV:=retry_far) b1.1 b1.2 = Some retry_b.
Proof. by vm_compute. Qed.
Lemma retry_a_reached : udp_ready (EV:=retry_near) retry.1 retry.2 = Some retry_a.
Proof. by vm_compute. Qed.

Lemma retry_inv : daemon_inv retry.1.
Proof. exact (proj1 (wp_run _ _ _ _ (timers_wp (EV:=retry_near) _ _ a0_inv) retry_reached)). Qed.

(** The response to peer1's first init was lost: peer2 has an established
    session, peer1 has not.  The next attempt brings them together. *)
Lemma retry_runs :
  state (session (first_peer b1.1)) = SESSION_STATE_ESTABLISHED /\
  state (session (first_peer a0.1)) = SESSION_STATE_HANDSHAKE_PENDING /\
  data_keys (session (first_peer retry_b.1)) <> data_keys (session (first_peer b1.1)).
Proof. split; [by vm_compute|]. split; [by vm_compute|]. apply (bool_decide_unpack _). by vm_compute. Qed.

Lemma daemons_agree_on_keys_witness :
  (state (session (first_peer b1.1)) = SESSION_STATE_ESTABLISHED /\
   state (session (first_peer a0.1)) = SESSION_STATE_HANDSHAKE_PENDING /\
   data_keys (session (first_peer retry_b.1)) <> data_keys (session (first_peer b1.1))) /\
  state (session (first_peer retry_b.1)) = SESSION_STATE_ESTABLISHED /\
  state (session (first_peer retry_a.1)) = SESSION_STATE_ESTABLISHED /\
  data_keys (session (first_peer retry_b.1)) = swap_keys (data_keys (session (first_peer retry_a.1))).
Proof.
  split; [exact retry_runs|].
  destruct (daemons_agree_on_keys retry_near retry_far a0.1 (waited a0.2) 0 (first_peer a0.1) a0_inv
    toy_exchange_sound ltac:(by vm_compute) ltac:(by vm_compute) ltac:(by vm_compute))
    as (dI' & wI' & psI' & ev & m & rc & E & Ew & Hm & Hp & H).
  apply (run_det _ _ _ _ _ retry_reached) in E as [-> ->].
  apply (only_datagram _ _ _ _ _ _ _ (last_datagram retry.2) Ew) in Hm as ->; [|by vm_compute].
  destruct (H b1.1 b1.2 0%nat (first_peer b1.1) from1 b1_inv)
    as (dR & wR & psR & dest & r & rc' & ER & EwR & _ & _ & HpR & HeR & HL); [by vm_compute..|left; by vm_compute|].
  apply (run_det _ _ _ _ _ retry_b_reached) in ER as [-> ->].
  apply last_datagram_snoc in EwR as <-.
  destruct (HL retry.1 retry.2 (first_peer retry.1) peer2_addr retry_inv ltac:(by vm_compute) ltac:(by vm_compute)
    ltac:(by rewrite (first_peer_lookup _ _ Hp)) ltac:(by vm_compute) ltac:(by vm_compute))
    as (dL & wL & psL & EL & HpL & HeL & Hk).
  apply (run_det _ _ _ _ _ retry_a_reached) in EL as [-> ->].
  by rewrite (first_peer_lookup _ _ HpR), (first_peer_lookup _ _ HpL).
Defined.

(** ** A response that could not be sent *)
Section Unreached.
  Context `{SO : Sodium} {SL : SodiumLaws} `{EV : Env} {EL : EnvLaws} {CL : ClockLaws} {IL : IoLaws}.


End Unreached.

(** peer1's init reaches peer2 and the answer to it is refused by the kernel:
    the next packet for peer1 goes to 0.0.0.0:0. *)
Definition refused : Env := live_env (Some (last_datagram a0.2, from1)) (Some packet1) (-1).
#[global] Instance refused_io : @IoLaws refused.
Proof. apply site_io. by vm_compute. Qed.

