(* ===== verification/History.v ===== *)
(** * Whole runs of the daemon: the data channel on the wire

    From the start of the program on, [history] accounts for every data
    message on the wire and every packet written to the TUN device: each was
    sealed or opened by the session of one peer, under a key that this session
    derived from an ephemeral pair drawn, and a handshake message received, in
    this run.  The account is kept by the invariant [run_inv] of each session,
    through the interleaving of all of them in the poll loop. *)

From stdpp Require Import sorting.
From Stdlib Require Import String.
From S2P Require Import Prelude World Crypto Session Replay SessionFacts SessionRuns Libc Config.
From S2P Require Import ConfigFacts Routing Log Net Daemon DaemonFacts DaemonInput DaemonStart Effects Steps.
Open Scope list_scope.

(** ** The data channel in a trace *)

(** The data messages handed to the kernel, and the packets written to the TUN
    device, in order. *)
Definition data_datagrams (events : list io_event) : list bytes :=
  omap (fun e => match e with
    | EvSend _ _ msg _ => if has_type SESSION_MSG_DATA msg then Some msg else None
    | _ => None
    end) events.

Definition tun_packets (events : list io_event) : list bytes :=
  omap (fun e => match e with EvTunWrite _ p _ => Some p | _ => None end) events.

Definition sent (w : world) : list bytes := data_datagrams (wire w).
Definition written (w : world) : list bytes := tun_packets (wire w).

(** Steps that add nothing to either. *)
Definition still (w w' : world) : Prop :=
  sent w' = sent w /\ written w' = written w /\ (w_calls w <= w_calls w')%nat.

#[global] Instance still_preorder : PreOrder still.
Proof.
  split; [done|]. intros w1 w2 w3 (? & ? & ?) (? & ? & ?). split; [congruence|]. split; [congruence|lia].
Qed.

(** The events that are not part of the data channel. *)
Definition off_channel (e : io_event) : bool :=
  match e with
  | EvSend _ _ msg _ => negb (has_type SESSION_MSG_DATA msg)
  | EvTunWrite _ _ _ => false
  | _ => true
  end.

(** From one world to another through such events. *)
Abbreviation uneventful := (adds off_channel).

Lemma off_channel_nothing events : Forall (fun e => off_channel e = true) events ->
  data_datagrams events = [] /\ tun_packets events = [].
Proof.
  induction 1 as [|e events He _ [IH1 IH2]]; [done|]. unfold data_datagrams, tun_packets in *. cbn.
  destruct e; try done. cbn in He. by destruct (has_type _ _).
Qed.

Lemma uneventful_still w w' : uneventful w w' -> still w w'.
Proof.
  intros [(events & E & [E1 E2]%off_channel_nothing) Hle]. unfold still, sent, written, data_datagrams, tun_packets in *.
  rewrite E, !omap_app, E1, E2, !app_nil_r. done.
Qed.

(** ** Logs of several sessions *)
Definition peer_log (i : nat) (log : list (nat * obs)) : list obs :=
  omap (fun e => if decide (e.1 = i) then Some e.2 else None) log.

Lemma peer_log_app i l l' : peer_log i (l ++ l') = peer_log i l ++ peer_log i l'.
Proof. apply omap_app. Qed.

Lemma peer_log_own i o : peer_log i (map (pair i) o) = o.
Proof. induction o as [|x o IH]; [done|]. cbn. rewrite decide_True by done. by f_equal. Qed.

Lemma peer_log_other i j o : i <> j -> peer_log i (map (pair j) o) = [].
Proof. intros H. induction o as [|x o IH]; [done|]. cbn. by rewrite decide_False. Qed.

Lemma peer_log_beyond i log : Forall (fun e => (e.1 < i)%nat) log -> peer_log i log = [].
Proof.
  induction 1 as [|e log He _ IH]; [done|]. cbn. rewrite decide_False by lia. done.
Qed.

Lemma elem_of_peer_log {B} (f : obs -> option B) log x :
  x ∈ omap f (map snd log) -> exists i, x ∈ omap f (peer_log i log).
Proof.
  intros (o & Ho & Hf)%list_elem_of_omap. apply list_elem_of_fmap in Ho as ([i o'] & -> & Ho).
  exists i. apply list_elem_of_omap. exists o'. split; [|done].
  apply list_elem_of_omap. exists (i, o'). split; [done|]. by rewrite decide_True.
Qed.

(** A repetition in the common log is one in the log of one session, or is
    shared by two. *)
Lemma peer_log_repeats {B} `{EqDecision B} (f : obs -> option B) log :
  ~ NoDup (omap f (map snd log)) ->
  (exists i, ~ NoDup (omap f (peer_log i log))) \/
  (exists i j x, i <> j /\ x ∈ omap f (peer_log i log) /\ x ∈ omap f (peer_log j log)).
Proof.
  induction log as [|[i o] log IH]; [intros []; constructor|]. cbn [map snd omap list_omap].
  assert (forall j, omap f (peer_log j ((i, o) :: log)) =
    omap f (if decide (i = j) then [o] else []) ++ omap f (peer_log j log)) as E.
  { intros j. rewrite <- omap_app. f_equal. cbn. by case_decide. }
  assert (~ NoDup (omap f (map snd log)) -> (exists j, ~ NoDup (omap f (peer_log j ((i, o) :: log)))) \/
    exists j k x, j <> k /\ x ∈ omap f (peer_log j ((i, o) :: log)) /\ x ∈ omap f (peer_log k ((i, o) :: log))) as Later.
  { intros [[j Hj]|(j & k & x & Hjk & Hj & Hk)]%IH.
    - left. exists j. rewrite E. intros (_ & _ & ?)%NoDup_app. done.
    - right. exists j, k, x. rewrite !E, !elem_of_app. auto. }
  destruct (f o) as [x|] eqn:Ef; [|done]. intros Hnd.
  destruct (decide (x ∈ omap f (map snd log))) as [[j Hj]%elem_of_peer_log|Hx].
  - destruct (decide (i = j)) as [<-|Hij].
    + left. exists i. rewrite E, decide_True by done. cbn. rewrite Ef. intros [? _]%NoDup_cons. done.
    + right. exists i, j, x. split; [done|]. rewrite !E, decide_True, !elem_of_app by done. cbn. rewrite Ef.
      split; [left; by apply list_elem_of_singleton|by right].
  - apply Later. intros H. apply Hnd. by constructor.
Qed.

Lemma NoDup_repeats {A} `{EqDecision A} (l : list A) :
  ~ NoDup l -> exists a b x, a <> b /\ l !! a = Some x /\ l !! b = Some x.
Proof.
  induction l as [|x l IH]; [intros []; constructor|]. intros Hnd.
  destruct (decide (x ∈ l)) as [[b Hb]%list_elem_of_lookup|Hx].
  - by exists 0%nat, (S b), x.
  - destruct IH as (a & b & y & Hab & Ha & Hb); [intros ?; apply Hnd; by constructor|].
    exists (S a), (S b), y. split; [lia|done].
Qed.

Section History.
  Context `{SO : Sodium} {SL : SodiumLaws} `{EV : Env} {EL : EnvLaws} {CL : ClockLaws} {IL : IoLaws}.

(** ** Where keys and packets come from *)

(** Session keys derived from the ephemeral pair of draw [n] and the payload
    of a message received. *)
Definition derived (w : world) (n : nat) (keys : crypto_session_keys_t) : Prop :=
  (n < w_calls w)%nat /\
  exists r t key c peer old, got w (message t key c peer) /\
    crypto_derive_session_keys r (env_keypair n).1 (env_keypair n).2 peer old = (0, keys).

Lemma derived_mono w w' n keys : (w_calls w <= w_calls w')%nat -> derived w n keys -> derived w' n keys.
Proof.
  intros Hle (Hn & r & t & key & c & p & old & Hg & H). split; [lia|].
  exists r, t, key, c, p, old. split; [by eapply got_mono|done].
Qed.

(** ** The ephemeral pairs of a session

    [owner] says which peer drew a pair; [draws] are those the established
    keys of the log were derived from.  A pending session holds a pair of its
    own that was not used yet. *)
Record draws_ok (owner : nat -> nat) (w : world) (i : nat) (s : session_t) (draws : list nat)
    (log : list obs) : Prop := {
  dr_derived : Forall2 (derived w) draws (keys_established log);
  dr_nodup : NoDup draws;
  dr_owner : Forall (fun m => owner m = i) draws;
  dr_pending : state s = SESSION_STATE_HANDSHAKE_PENDING -> exists m,
    local_eph_pk s = (env_keypair m).1 /\ local_eph_sk s = (env_keypair m).2 /\
    (m < w_calls w)%nat /\ owner m = i /\ (m ∉ draws)
}.

Lemma draws_below owner w i s draws log m : draws_ok owner w i s draws log -> m ∈ draws -> (m < w_calls w)%nat.
Proof.
  intros [H _ _ _] [k Hk]%list_elem_of_lookup.
  destruct (Forall2_lookup_l _ _ _ _ _ H Hk) as (keys & _ & Hd). by destruct Hd.
Qed.

(** Later, with an owner map that agrees on the past. *)
Lemma draws_mono owner owner' w w' i s draws log :
  (w_calls w <= w_calls w')%nat -> (forall m, (m < w_calls w)%nat -> owner' m = owner m) ->
  draws_ok owner w i s draws log -> draws_ok owner' w' i s draws log.
Proof.
  intros Hle Ho H. pose proof (fun m => draws_below _ _ _ _ _ _ m H) as Hb. destruct H as [H1 H2 H3 H4]. split.
  - eapply Forall2_impl; [exact H1|]. intros n keys. by apply derived_mono.
  - done.
  - apply Forall_forall. intros m Hm. rewrite Ho by auto. by apply (Forall_in H3).
  - intros Hs. destruct (H4 Hs) as (m & ? & ? & Hm & Hw & ?). exists m. rewrite Ho by done.
    split; [done|]. split; [done|]. split; [lia|done].
Qed.

(** A step that establishes nothing and leaves a pending session's pair. *)
Lemma draws_same owner w i s s' draws log o :
  draws_ok owner w i s draws log -> keys_established o = [] ->
  (state s' = SESSION_STATE_HANDSHAKE_PENDING -> state s = SESSION_STATE_HANDSHAKE_PENDING /\
     local_eph_pk s' = local_eph_pk s /\ local_eph_sk s' = local_eph_sk s) ->
  draws_ok owner w i s' draws (log ++ o).
Proof.
  intros [H1 H2 H3 H4] Ho Hs. unfold keys_established in *. split; try done.
  - unfold keys_established. by rewrite omap_app, Ho, app_nil_r.
  - intros [Hp [-> ->]]%Hs. by apply H4.
Qed.

(** A new pair. *)
Lemma draws_new owner w w' i s s' m draws log :
  draws_ok owner w i s draws log -> (w_calls w <= m < w_calls w')%nat ->
  local_eph_pk s' = (env_keypair m).1 -> local_eph_sk s' = (env_keypair m).2 ->
  exists owner', (forall k, (k < w_calls w)%nat -> owner' k = owner k) /\
    draws_ok owner' w' i s' draws log.
Proof.
  intros H Hm Epk Esk. exists (fun k => if decide (k = m) then i else owner k).
  assert (forall k, (k < w_calls w)%nat -> (if decide (k = m) then i else owner k) = owner k) as Ho.
  { intros k Hk. rewrite decide_False by lia. done. }
  split; [done|]. pose proof (fun m => draws_below _ _ _ _ _ _ m H) as Hb.
  eapply (draws_mono _ _ w w') in H; [|lia|exact Ho]. destruct H as [H1 H2 H3 _]. split; try done.
  intros _. exists m. rewrite decide_True by done. split; [done|]. split; [done|]. split; [lia|].
  split; [done|]. intros ?%Hb. lia.
Qed.

(** A pending session's pair becomes session keys. *)
Lemma draws_established owner w i s s' draws log o r t key c peer keys :
  draws_ok owner w i s draws log -> state s = SESSION_STATE_HANDSHAKE_PENDING ->
  state s' = SESSION_STATE_ESTABLISHED -> keys_established o = [keys] ->
  got w (message t key c peer) ->
  crypto_derive_session_keys r (local_eph_pk s) (local_eph_sk s) peer (data_keys s) = (0, keys) ->
  exists draws', draws_ok owner w i s' draws' (log ++ o).
Proof.
  intros [H1 H2 H3 H4] Hp Hs Ho Hg Hd. destruct (H4 Hp) as (m & Epk & Esk & Hm & Hw & Hn).
  exists (draws ++ [m]). unfold keys_established in *. split.
  - unfold keys_established. rewrite omap_app, Ho. apply Forall2_app; [done|].
    constructor; [|constructor]. split; [done|]. rewrite Epk, Esk in Hd.
    by exists r, t, key, c, peer, (data_keys s).
  - by apply NoDup_snoc.
  - apply Forall_app. by auto.
  - by rewrite Hs.
Qed.

(** ** The account of a run

    [log] has what all sessions did, tagged with their peers; [n] bounds the
    number of operations; [opened] are the packets written to the TUN device,
    with the key and counter they were opened under. *)
Definition peer_history (owner : nat -> nat) (w : world) (n : nat) (log : list (nat * obs)) (i : nat)
    (s : session_t) : Prop :=
  exists s0 draws, handshake_counter s0 < 2 ^ 62 /\ run_inv s0 s n (peer_log i log) /\
    draws_ok owner w i s draws (peer_log i log).

(** [ds] are data messages sealed with the keys and counters [kcs]. *)
Definition sealed_as (kcs : list (bytes * Z)) (ds : list bytes) : Prop :=
  Forall2 (fun kc d => exists p, d = message SESSION_MSG_DATA kc.1 kc.2 p) kcs ds.

Record account (owner : nat -> nat) (log : list (nat * obs)) (opened : list (bytes * Z * bytes))
    (n : nat) (w : world) (l : list session_t) : Prop := {
  ac_peers : forall i s, l !! i = Some s -> peer_history owner w n log i s;
  ac_tags : Forall (fun e => (e.1 < length l)%nat) log;
  ac_sent : sealed_as (data_sealed (map snd log)) (sent w);
  ac_written : map snd opened = written w;
  ac_opened : sublist (map fst opened) (data_opened (map snd log));
  ac_got : Forall (fun e => got w (message SESSION_MSG_DATA e.1.1 e.1.2 e.2)) opened
}.

Definition history (n : nat) (w : world) (l : list session_t) : Prop :=
  exists owner log opened, account owner log opened n w l.

Lemma inv_le s0 s n n' log : (n <= n')%nat -> run_inv s0 s n log -> run_inv s0 s n' log.
Proof. intros Hle []. split; auto; lia. Qed.

Lemma history_still n w w' l : still w w' -> history n w l -> history n w' l.
Proof.
  intros (Es & Ew & Hle) (owner & log & opened & [H1 H2 H3 H4 H5 H6]).
  exists owner, log, opened. split; rewrite ?Es, ?Ew; try done.
  - intros i s (s0 & draws & ? & ? & ?)%H1. exists s0, draws. split; [done|]. split; [done|].
    by eapply draws_mono.
  - eapply Forall_impl; [exact H6|]. intros e. by apply got_mono.
Qed.

Lemma history_le n n' w l : (n <= n')%nat -> history n w l -> history n' w l.
Proof.
  intros Hle (owner & log & opened & [H1 H2 H3 H4 H5 H6]). exists owner, log, opened. split; try done.
  intros i s (s0 & draws & ? & ? & ?)%H1. exists s0, draws. split; [done|]. split; [by eapply inv_le|done].
Qed.

Lemma history_empty w : sent w = [] -> written w = [] -> history 0 w [].
Proof.
  intros Es Ew. exists (fun _ => 0%nat), [], []. split; rewrite ?Es, ?Ew; try done; constructor.
Qed.

(** One operation of the session of peer [i], with what it adds to the
    channel. *)
Lemma history_update n w w' l i s s' o ds ps :
  history n w l -> l !! i = Some s ->
  (w_calls w <= w_calls w')%nat -> sent w' = sent w ++ ds -> written w' = written w ++ map snd ps ->
  sealed_as (data_sealed o) ds -> sublist (map fst ps) (data_opened o) ->
  Forall (fun e => got w' (message SESSION_MSG_DATA e.1.1 e.1.2 e.2)) ps ->
  (forall s0 log, handshake_counter s0 < 2 ^ 62 -> run_inv s0 s n log -> run_inv s0 s' (S n) (log ++ o)) ->
  (forall owner draws log, draws_ok owner w i s draws log ->
     exists owner' draws', (forall m, (m < w_calls w)%nat -> owner' m = owner m) /\
       draws_ok owner' w' i s' draws' (log ++ o)) ->
  history (S n) w' (<[i := s']> l).
Proof.
  intros (owner & log & opened & [H1 H2 H3 H4 H5 H6]) Hi Hle Es Ew Hds Hps Hgot Hrun Hdraws.
  destruct (H1 i s Hi) as (s0 & draws & Hs0 & Hr & Hd).
  destruct (Hdraws _ _ _ Hd) as (owner' & draws' & Ho & Hd').
  exists owner', (log ++ map (pair i) o), (opened ++ ps).
  assert (map snd (map (pair i) o) = o) as Eo by (rewrite map_map; apply map_id).
  split.
  - intros j q Hq. apply list_lookup_insert_Some in Hq as [(<- & <- & _)|[Hne Hq]]; unfold peer_history;
      rewrite peer_log_app.
    + rewrite peer_log_own. exists s0, draws'. split; [done|]. split; [by apply Hrun|done].
    + rewrite peer_log_other, app_nil_r by done. destruct (H1 j q Hq) as (q0 & dr & ? & ? & ?).
      exists q0, dr. split; [done|]. split; [by apply inv_more|by eapply draws_mono].
  - rewrite length_insert. apply Forall_app. split; [done|]. apply Forall_map, Forall_true.
    intros. by eapply lookup_lt_Some.
  - rewrite Es, map_app, Eo. unfold data_sealed in *. rewrite omap_app. by apply Forall2_app.
  - by rewrite Ew, map_app, H4.
  - rewrite !map_app, Eo. unfold data_opened in *. rewrite omap_app. by apply sublist_app.
  - apply Forall_app. split; [|done]. eapply Forall_impl; [exact H6|]. intros e. by apply got_mono.
Qed.

(** A new peer's session. *)
Lemma history_new n w w' l s m :
  history n w l -> still w w' -> (w_calls w <= m < w_calls w')%nat -> handshake_counter s < 2 ^ 62 ->
  run_inv s s 0 [] -> local_eph_pk s = (env_keypair m).1 -> local_eph_sk s = (env_keypair m).2 ->
  history n w' (l ++ [s]).
Proof.
  intros H Hst Hm Hc Hr Epk Esk. destruct H as (owner & log & opened & [H1 H2 H3 H4 H5 H6]).
  destruct Hst as (Es & Ew & Hle). pose proof (peer_log_beyond (length l) log H2) as Enil.
  set (owner' := fun k => if decide (k = m) then length l else owner k).
  assert (forall k, (k < w_calls w)%nat -> owner' k = owner k) as Ho.
  { intros k Hk. unfold owner'. rewrite decide_False by lia. done. }
  exists owner', log, opened. split; rewrite ?Es, ?Ew; try done.
  - intros i q Hq. apply lookup_app_Some in Hq as [Hq|[Hge Hq]].
    + destruct (H1 i q Hq) as (q0 & dr & ? & ? & ?). exists q0, dr. split; [done|]. split; [done|].
      by eapply draws_mono.
    + apply list_lookup_singleton_Some in Hq as [Hz <-]. assert (i = length l) as -> by lia.
      exists s, []. rewrite Enil. split; [done|]. split; [apply (inv_le _ _ 0); [lia|done]|].
      split; try constructor. intros _. exists m. unfold owner'. rewrite decide_True by done.
      split; [done|]. split; [done|]. split; [lia|]. split; [done|]. by apply not_elem_of_nil.
  - eapply Forall_impl; [exact H2|]. intros e. cbn. rewrite length_app. lia.
  - eapply Forall_impl; [exact H6|]. intros e. by apply got_mono.
Qed.

(** What an operation does to the invariant of its session. *)
Lemma run_step op s w rc s' w' n :
  exec_op op s w = Some ((rc, s'), w') -> op_ok op -> Z.of_nat n < 2 ^ 62 ->
  forall s0 log, handshake_counter s0 < 2 ^ 62 -> run_inv s0 s n log ->
    run_inv s0 s' (S n) (log ++ observe op rc s s').
Proof.
  intros E Hop Hn s0 log Hc Hr.
  destruct (exec_op_inv s0 s n log op w Hr Hop ltac:(lia)) as (rc' & s1 & w1 & E' & Hr').
  rewrite E in E'. by simplify_eq.
Qed.

Lemma history_wf n w l i s : history n w l -> l !! i = Some s ->
  session_wf s /\ exists accepted, window_rep s accepted.
Proof.
  intros (owner & log & opened & H) Hi. destruct (ac_peers _ _ _ _ _ _ H i s Hi) as (s0 & dr & _ & Hr & _).
  split; [apply (inv_wf _ _ _ _ Hr)|]. destruct (inv_open _ _ _ _ Hr) as (_ & acc & ? & _). by exists acc.
Qed.

(** ** The operations of a session *)
Lemma history_seal n w l i s p out rc s' out' :
  history n w l -> l !! i = Some s -> Z.of_nat n < 2 ^ 62 -> zlen p + 25 < 2 ^ 64 ->
  session_seal_data s p out = Some (rc, s', out') ->
  (rc < 0 /\ s' = s) \/
  (0 <= rc /\ has_type SESSION_MSG_DATA (take (Z.to_nat rc) out') = true /\
   forall w', (w_calls w <= w_calls w')%nat -> sent w' = sent w ++ [take (Z.to_nat rc) out'] ->
     written w' = written w -> history (S n) w' (<[i := s']> l)).
Proof.
  intros H Hi Hn Hp E. destruct (seal_data_eq s p out Hp) as [[[Hs _] E']|[_ E']].
  2:{ left. rewrite E' in E. by simplify_eq. }
  right. rewrite E' in E. simplify_eq. split; [lia|].
  split; [replace (Z.to_nat (zlen p + 25)) with (S (length p + 24)) by lia; done|]. intros w' Hle Es Ew.
  assert (observe (OpSealData p out) (zlen p + 25) s (set_tx_counter (u64 (tx_counter s + 1)) s) =
    [ObsSealed (tx (data_keys s)) (tx_counter s)]) as Eo.
  { unfold observe. by rewrite (proj2 (Z.ltb_ge _ _)) by lia. }
  eapply (history_update n w w' l i s _ (observe (OpSealData p out) (zlen p + 25) s _) _ []);
    try done; [by rewrite app_nil_r|..].
  - rewrite Eo. constructor; [|constructor]. exists p. cbn [fst snd].
    rewrite take_app_length'; [done|]. rewrite message_length. lia.
  - apply sublist_nil_l.
  - apply (run_step (OpSealData p out) s w _ _ w); [|done|done].
    cbn [exec_op]. by rewrite (M_bind_lift _ _ _ _ E').
  - intros owner draws log Hd. exists owner, draws. split; [done|]. apply (draws_mono owner owner w); try done.
    apply (draws_same _ _ _ s); [done|by rewrite Eo|done].
Qed.

Lemma history_open n w l i s inp out rc s' out' :
  history n w l -> l !! i = Some s -> Z.of_nat n < 2 ^ 62 -> datagram inp -> got w inp ->
  session_open_data s inp out = Some (rc, s', out') ->
  (rc < 0 /\ s' = s) \/
  (0 <= rc /\ forall w', (w_calls w <= w_calls w')%nat -> sent w' = sent w ->
     (written w' = written w \/ written w' = written w ++ [take (Z.to_nat rc) out']) ->
     history (S n) w' (<[i := s']> l)).
Proof.
  intros H Hi Hn [Hb Hl] Hg E. destruct (history_wf _ _ _ _ _ H Hi) as [_ [acc Hrep]].
  destruct (open_data_cases s acc inp out Hrep Hb Hl)
    as [(out1 & E' & _)|(c & p & s1 & Hs & Hi' & Hc & _ & Hp & E' & _ & h & win & Es1)].
  { left. rewrite E' in E. by simplify_eq. }
  right. rewrite E' in E. simplify_eq. split; [lia|]. intros w' Hle Es Ew.
  set (s1 := set_replay true h win s).
  set (inp := message SESSION_MSG_DATA (rx (data_keys s)) c p) in *.
  assert (observe (OpOpenData inp out) (zlen p) s s1 = [ObsOpened (rx (data_keys s)) c]) as Eo.
  { unfold observe. rewrite (proj2 (Z.ltb_ge _ _)) by lia. unfold inp. by rewrite wire_counter_message. }
  assert (exists ps, written w' = written w ++ map snd ps /\ Forall (fun e => e = (rx (data_keys s), c, p)) ps /\
    sublist (map fst ps) (data_opened [ObsOpened (rx (data_keys s)) c])) as (ps & Ew' & Hps & Hsub).
  { destruct Ew as [Ew|Ew].
    - exists []. rewrite app_nil_r. split; [done|]. split; [constructor|apply sublist_nil_l].
    - exists [(rx (data_keys s), c, p)]. cbn [map snd fst]. rewrite Ew, Nat2Z.id, take_app_length.
      split; [done|]. split; [by repeat constructor|done]. }
  eapply (history_update n w w' l i s s1 (observe (OpOpenData inp out) (zlen p) s s1) [] ps);
    try done; [by rewrite app_nil_r|..].
  - rewrite Eo. constructor.
  - by rewrite Eo.
  - eapply Forall_impl; [exact Hps|]. intros e ->. by eapply got_mono.
  - apply (run_step (OpOpenData inp out) s w _ _ w); [|by split|done].
    cbn [exec_op]. by rewrite (M_bind_lift _ _ _ _ E').
  - intros owner draws log Hd. exists owner, draws. split; [done|]. apply (draws_mono owner owner w); try done.
    apply (draws_same _ _ _ s); [done|by rewrite Eo|done].
Qed.

(** Operations that leave the channel alone. *)
Lemma history_quiet n w w' l i s s' o :
  history n w l -> l !! i = Some s -> still w w' -> data_sealed o = [] -> data_opened o = [] ->
  (forall s0 log, handshake_counter s0 < 2 ^ 62 -> run_inv s0 s n log -> run_inv s0 s' (S n) (log ++ o)) ->
  (forall owner draws log, draws_ok owner w i s draws log ->
     exists owner' draws', (forall m, (m < w_calls w)%nat -> owner' m = owner m) /\
       draws_ok owner' w' i s' draws' (log ++ o)) ->
  history (S n) w' (<[i := s']> l).
Proof.
  intros H Hi (Es & Ew & Hle) E1 E2 Hr Hd.
  eapply (history_update n w w' l i s s' o [] []); try done; rewrite ?E1, ?E2, ?app_nil_r; try done.
  - constructor.
Qed.

Lemma uneventful_tick w : uneventful w (tick w).
Proof. apply same_trace; [done|cbn; lia]. Qed.
Lemma still_tick w : still w (tick w).
Proof. apply uneventful_still, uneventful_tick. Qed.

Lemma history_start_handshake n w l i s s' w' :
  history n w l -> l !! i = Some s -> Z.of_nat n < 2 ^ 62 ->
  session_start_handshake s w = Some (s', w') -> still w w' /\ history (S n) w' (<[i := s']> l).
Proof.
  intros H Hi Hn E. pose proof E as E'. rewrite start_handshake_eq in E. simplify_eq.
  split; [apply still_tick|]. eapply (history_quiet n w _ l i s _ []); try done; [apply still_tick|..].
  - apply (run_step OpStartHandshake s w 0 _ (tick w)); [|done|done].
    cbn [exec_op]. by rewrite (M_bind_Some _ _ _ _ _ E').
  - intros owner draws log Hd. rewrite app_nil_r.
    destruct (draws_new _ w (tick w) _ _ (restarted (env_keypair (w_calls w)) s) (w_calls w) _ _ Hd)
      as (owner' & Ho & Hd'); [cbn; lia|done|done|]. by exists owner', draws.
Qed.

Lemma history_build_init n w l i s out rc s' out' :
  history n w l -> l !! i = Some s -> Z.of_nat n < 2 ^ 62 ->
  session_build_init s out = Some (rc, s', out') ->
  history (S n) w (<[i := s']> l) /\
  (0 <= rc -> has_type SESSION_MSG_DATA (take (Z.to_nat rc) out') = false).
Proof.
  intros H Hi Hn E. destruct (history_wf _ _ _ _ _ H Hi) as [Hwf _].
  assert (exec_op (OpBuildInit out) s w = Some ((rc, s'), w)) as Ex
    by (cbn [exec_op]; by rewrite (M_bind_lift _ _ _ _ E)).
  pose proof (run_step _ _ _ _ _ _ n Ex I Hn) as Hr.
  assert (let o := observe (OpBuildInit out) rc s s' in
    data_sealed o = [] -> data_opened o = [] -> keys_established o = [] ->
    state s' = state s -> local_eph_pk s' = local_eph_pk s -> local_eph_sk s' = local_eph_sk s ->
    history (S n) w (<[i := s']> l)) as Fin.
  { intros o E1 E2 E3 Est Epk Esk. eapply (history_quiet n w _ l i s); try done.
    intros owner draws log Hd. exists owner, draws. split; [done|]. apply (draws_same _ _ _ s); try done.
    by rewrite Est, Epk, Esk. }
  destruct (build_init_eq s out Hwf) as [[_ E']|[_ E']]; rewrite E' in E; injection E as <- <- <-;
    (split; [by apply Fin|done]).
Qed.

(** The pair a responder answers with. *)
Lemma draws_attempt s w s1 w1 :
  responder_attempt s w = (s1, w1) ->
  still w w1 /\ state s1 = SESSION_STATE_HANDSHAKE_PENDING /\
  forall owner i draws log, draws_ok owner w i s draws log ->
    exists owner', (forall m, (m < w_calls w)%nat -> owner' m = owner m) /\ draws_ok owner' w1 i s1 draws log.
Proof.
  unfold responder_attempt. case_decide as Hs; intros; simplify_eq.
  - split; [apply still_tick|]. split; [done|]. intros owner i draws log Hd.
    by apply (draws_new _ w (tick w) _ _ _ (w_calls w) _ _ Hd); [cbn; lia|..].
  - split; [done|]. split; [by destruct (state s1)|]. eauto.
Qed.

Lemma history_handle_init n w l i s inp out rc s' out' w' :
  history n w l -> l !! i = Some s -> Z.of_nat n < 2 ^ 62 -> datagram inp -> got w inp ->
  session_handle_init s inp out w = Some ((rc, s', out'), w') ->
  still w w' /\ history (S n) w' (<[i := s']> l) /\
  (0 <= rc -> has_type SESSION_MSG_DATA (take (Z.to_nat rc) out') = false) /\
  (rc < 0 -> out' = out).
Proof.
  intros H Hi Hn Hdg Hg E. pose proof Hdg as [Hb Hl]. destruct (history_wf _ _ _ _ _ H Hi) as [Hwf _].
  assert (exec_op (OpHandleInit inp out) s w = Some ((rc, s'), w')) as Ex
    by (cbn [exec_op]; by rewrite (M_bind_Some _ _ _ _ _ E)).
  pose proof (run_step _ _ _ _ _ _ n Ex Hdg Hn) as Hr.
  assert (still w w' -> (forall owner draws log, draws_ok owner w i s draws log ->
     exists owner' draws', (forall m, (m < w_calls w)%nat -> owner' m = owner m) /\
       draws_ok owner' w' i s' draws' (log ++ observe (OpHandleInit inp out) rc s s')) ->
     history (S n) w' (<[i := s']> l)) as Fin.
  { intros Hst Hd. eapply (history_quiet n w w' l i s); try done; unfold observe; by destruct (rc <? 0). }
  destruct (handle_init_cases s inp out w Hwf Hb Hl) as [[E' _]|(Hlo & c & p & Ha & Hc)].
  { rewrite E' in E. injection E as <- <- <- <-. split; [done|]. split; [|done]. apply Fin; [done|].
    intros owner draws log Hd. exists owner, draws. split; [done|]. by apply (draws_same _ _ _ s). }
  destruct (responder_attempt s w) as [s1 w1] eqn:Ea.
  destruct (draws_attempt _ _ _ _ Ea) as (Hst & Hp & Hdraw).
  destruct (crypto_derive_session_keys _ _ _ _ _) as [rcd keys] eqn:Ek.
  destruct Hc as [[_ E']|[-> E']]; rewrite E' in E; injection E as <- <- <- <-;
    (split; [done|]); (split; [apply Fin; [done|]|done]).
  - intros owner draws log (owner' & Ho & Hd')%Hdraw. exists owner', draws. split; [done|].
    by apply (draws_same _ _ _ s1).
  - intros owner draws log (owner' & Ho & Hd')%Hdraw. destruct Ha as (_ & Hinp & _).
    assert (got w1 inp) as Hg1 by (apply (got_mono w); [by destruct Hst as (_ & _ & ?)|done]).
    rewrite Hinp in Hg1.
    destruct (draws_established owner' w1 i s1 (responder_established keys c s1) draws log
      (observe (OpHandleInit inp out) 57 s (responder_established keys c s1)) _ _ _ _ _ keys Hd' Hp eq_refl
      eq_refl Hg1 Ek) as [draws' Hd'']. by exists owner', draws'.
Qed.

Lemma history_handle_response n w l i s inp rc s' :
  history n w l -> l !! i = Some s -> Z.of_nat n < 2 ^ 62 -> datagram inp -> got w inp ->
  session_handle_response s inp = Some (rc, s') -> history (S n) w (<[i := s']> l).
Proof.
  intros H Hi Hn Hdg Hg E. pose proof Hdg as [Hb Hl]. destruct (history_wf _ _ _ _ _ H Hi) as [Hwf _].
  assert (exec_op (OpHandleResponse inp) s w = Some ((rc, s'), w)) as Ex by (cbn [exec_op]; by rewrite E).
  pose proof (run_step _ _ _ _ _ _ n Ex Hdg Hn) as Hr.
  eapply (history_quiet n w w l i s _ (observe (OpHandleResponse inp) rc s s')); try done;
    [unfold observe; by destruct (rc <? 0)|unfold observe; by destruct (rc <? 0)|].
  intros owner draws log Hd. exists owner.
  destruct (handle_response_cases s inp Hwf Hb Hl) as [[E' _]|(p & (_ & Hp & Hinp & _) & Hc)].
  { rewrite E' in E. injection E as <- <-. exists draws. split; [done|]. by apply (draws_same _ _ _ s). }
  destruct (crypto_derive_session_keys _ _ _ _ _) as [rcd keys] eqn:Ek.
  destruct Hc as [[_ E']|[-> E']]; rewrite E' in E; injection E as <- <-.
  - exists draws. split; [done|]. by apply (draws_same _ _ _ s).
  - rewrite Hinp in Hg.
    destruct (draws_established owner w i s (initiator_established keys s) draws log
      (observe (OpHandleResponse inp) 0 s (initiator_established keys s)) _ _ _ _ _ keys Hd Hp eq_refl
      eq_refl Hg Ek) as [draws' Hd']. by exists draws'.
Qed.
End History.
