(* ===== verification/HistoryLoop.v ===== *)
(** * Whole runs of the daemon: every step extends the account

    Each step of the machine of [Steps] extends the account of the run
    ([history]) by what it does to a session and puts on the wire, so that
    every run of the program has one. *)

From Stdlib Require Import String.
From S2P Require Import Prelude World Crypto Session Replay SessionFacts SessionRuns Libc Config.
From S2P Require Import ConfigFacts Routing Log Net Daemon DaemonFacts DaemonInput DaemonStart Effects Steps History.
Open Scope list_scope.

(** The sessions of the peers. *)
Abbreviation sessions l := (map session l).

Lemma sessions_insert i ps l : sessions (<[i := ps]> l) = <[i := session ps]> (sessions l).
Proof. apply list_fmap_insert. Qed.

Lemma sessions_lookup i ps l : l !! i = Some ps -> sessions l !! i = Some (session ps).
Proof. intros H. by rewrite list_lookup_fmap, H. Qed.

Section Loop.
  Context `{SO : Sodium} {SL : SodiumLaws} `{EV : Env} {EL : EnvLaws} {CL : ClockLaws} {IL : IoLaws}.

(** The wall clock at start-up, in seconds, leaves room for the handshake
    counters. *)
Definition clock_has_room : Prop := forall k, 0 <= env_time k < 2 ^ 62.

Lemma session_init_history n w l r pk sk peer s w' :
  history n w l -> clock_has_room -> session_init r pk sk peer w = Some ((0, s), w') ->
  history n w' (l ++ [s]).
Proof.
  intros H Hc E. destruct (session_init_inv r pk sk peer w s w' E) as (Hr & _).
  pose proof (session_init_eq r pk sk peer w) as E'.
  destruct (crypto_derive_session_keys _ _ _ _ _) as [rc keys]. rewrite E' in E.
  case_decide; simplify_eq. apply (history_new n w _ l _ (S (w_calls w))); try done.
  - etrans; apply still_tick.
  - cbn. lia.
  - cbn. rewrite u64_small by (unfold is_u64; specialize (Hc (w_calls w)); lia). apply Hc.
Qed.

(** ** What a step puts on the data channel *)
Lemma emits_off w w' e : emits w w' e -> off_channel e = true -> still w w'.
Proof.
  intros [E Hle] He. apply uneventful_still. split; [|done]. exists [e]. split; [done|]. by repeat constructor.
Qed.

Lemma emits_data w w' fd dest key cn p rc :
  emits w w' (EvSend fd dest (message SESSION_MSG_DATA key cn p) rc) ->
  (w_calls w <= w_calls w')%nat /\ sent w' = sent w ++ [message SESSION_MSG_DATA key cn p] /\ written w' = written w.
Proof.
  intros [E Hle]. unfold sent, written, data_datagrams, tun_packets in *. rewrite E, !omap_app. cbn. by rewrite app_nil_r.
Qed.

Lemma emits_packet w w' fd p rc :
  emits w w' (EvTunWrite fd p rc) ->
  (w_calls w <= w_calls w')%nat /\ sent w' = sent w /\ written w' = written w ++ [p].
Proof.
  intros [E Hle]. unfold sent, written, data_datagrams, tun_packets in *. rewrite E, !omap_app. cbn. by rewrite app_nil_r.
Qed.

Lemma got_datagram w inp : got w inp -> datagram inp.
Proof.
  intros (k & data & from & _ & E & ->). split; [apply Forall_take; by eapply env_recvfrom_bytes|].
  rewrite length_take. assert (Z.of_nat SEALED_BUF_SIZE < 2 ^ 64) by done. lia.
Qed.

(** ** The steps *)
Section Step.
  Context (m : nat) (w : world) (l : list peer_session_t) (H : history m w (sessions l)) (Hm : Z.of_nat (S m) < 2 ^ 62).

Lemma history_attempt i ps w' fd rc :
  l !! i = Some ps -> role (session ps) = CRYPTO_ROLE_INITIATOR ->
  emits (tick w) w' (EvSend fd (addr ps)
    (message SESSION_MSG_HANDSHAKE_INIT (tx (static_keys (session ps))) (handshake_counter (session ps))
       (env_keypair (w_calls w)).1) rc) ->
  history (S (S m)) w' (<[i := attempted (env_keypair (w_calls w)) (session ps)]> (sessions l)).
Proof.
  intros Hi Hro He. pose proof (sessions_lookup _ _ _ Hi) as Hs. pose proof (lookup_lt_Some _ _ _ Hs) as Hlt.
  destruct (history_wf _ _ _ _ _ H Hs) as [Hwf _].
  destruct (history_start_handshake m w _ i _ _ _ H Hs ltac:(lia) (start_handshake_eq _ w)) as [_ H1].
  pose proof (build_init_ok (restarted (env_keypair (w_calls w)) (session ps)) (replicate 57 0)
    (restarted_wf (w_calls w) _ Hwf) ltac:(by split)) as E.
  destruct (history_build_init (S m) _ _ i _ _ _ _ _ H1 (list_lookup_insert_eq _ _ _ Hlt) Hm E) as [H2 _].
  rewrite list_insert_insert_eq in H2. eapply history_still; [by eapply emits_off|exact H2].
Qed.

Lemma history_answer i ps inp cn peer s1 w1 keys :
  l !! i = Some ps -> got w inp -> acceptable_init (session ps) inp cn peer ->
  responder_attempt (session ps) w = (s1, w1) -> exchange s1 peer = (0, keys) ->
  history (S m) w1 (<[i := responder_established keys cn s1]> (sessions l)).
Proof.
  intros Hi Hg Ha Er Ek. pose proof (sessions_lookup _ _ _ Hi) as Hs. destruct (history_wf _ _ _ _ _ H Hs) as [Hwf _].
  pose proof (got_datagram _ _ Hg) as [Hb Hl]. destruct (responder_attempt_facts _ _ _ _ Er Hwf) as (_ & Hr & _).
  unfold exchange in Ek. rewrite Hr, (proj1 Ha) in Ek.
  pose proof (handle_init_ok _ _ (replicate 57 0) w _ _ _ _ _ Hwf Hb Hl ltac:(done) Ha Er Ek) as E.
  by destruct (history_handle_init m w _ i _ _ _ _ _ _ _ H Hs ltac:(lia) ltac:(done) Hg E) as (_ & ? & _).
Qed.

Lemma history_refuse i ps inp cn peer s1 w1 rc keys :
  l !! i = Some ps -> got w inp -> acceptable_init (session ps) inp cn peer ->
  responder_attempt (session ps) w = (s1, w1) -> exchange s1 peer = (rc, keys) -> rc <> 0 ->
  history (S m) w1 (<[i := set_data_keys keys s1]> (sessions l)).
Proof.
  intros Hi Hg Ha Er Ek Hrc. pose proof (sessions_lookup _ _ _ Hi) as Hs. destruct (history_wf _ _ _ _ _ H Hs) as [Hwf _].
  pose proof (got_datagram _ _ Hg) as [Hb Hl]. destruct (responder_attempt_facts _ _ _ _ Er Hwf) as (_ & Hr & _).
  unfold exchange in Ek. rewrite Hr, (proj1 Ha) in Ek.
  pose proof (handle_init_refused _ _ (replicate 57 0) w _ _ _ _ _ _ Hwf Hb Hl ltac:(done) Ha Er Ek Hrc) as E.
  by destruct (history_handle_init m w _ i _ _ _ _ _ _ _ H Hs ltac:(lia) ltac:(done) Hg E) as (_ & ? & _).
Qed.

Lemma history_response i ps inp peer rc keys :
  l !! i = Some ps -> got w inp -> acceptable_response (session ps) inp peer -> exchange (session ps) peer = (rc, keys) ->
  history (S m) w (<[i := if decide (rc = 0) then initiator_established keys (session ps)
                          else set_data_keys keys (session ps)]> (sessions l)).
Proof.
  intros Hi Hg Ha Ek. pose proof (sessions_lookup _ _ _ Hi) as Hs. destruct (history_wf _ _ _ _ _ H Hs) as [Hwf _].
  pose proof (got_datagram _ _ Hg) as Hd. destruct Hd as [Hb Hl]. unfold exchange in Ek. rewrite (proj1 Ha) in Ek.
  case_decide as Hrc; [subst rc|].
  - eapply (history_handle_response m); try done; [lia|]. by eapply handle_response_ok.
  - eapply (history_handle_response m); try done; [lia|]. by eapply handle_response_failed.
Qed.

Lemma history_send i ps w' p fd rc :
  l !! i = Some ps -> state (session ps) = SESSION_STATE_ESTABLISHED -> (length p <= MAX_PACKET_SIZE)%nat ->
  emits w w' (EvSend fd (addr ps)
    (message SESSION_MSG_DATA (tx (data_keys (session ps))) (tx_counter (session ps)) p) rc) ->
  history (S m) w' (<[i := advanced (session ps)]> (sessions l)).
Proof.
  intros Hi Hst Hp (Hle & Es & Ew)%emits_data. pose proof (sessions_lookup _ _ _ Hi) as Hs.
  assert (zlen p + 25 < 2 ^ 64) as Hp64 by (unfold MAX_PACKET_SIZE in Hp; lia).
  destruct (seal_data_eq (session ps) p (replicate (length p + 25) 0) Hp64) as [[_ E]|[Hno _]].
  2:{ destruct Hno. split; [done|]. by rewrite length_replicate. }
  destruct (history_seal m w _ i _ _ _ _ _ _ H Hs ltac:(lia) Hp64 E) as [[? _]|(_ & _ & Hw)]; [lia|].
  apply Hw; [done| |done]. rewrite take_app_length' by (rewrite message_length; lia). done.
Qed.

Lemma history_receive i ps w' cn p s :
  l !! i = Some ps -> state (session ps) = SESSION_STATE_ESTABLISHED -> is_u64 cn ->
  got w (message SESSION_MSG_DATA (rx (data_keys (session ps))) cn p) ->
  replay_check_and_mark (session ps) cn = Some (true, s) ->
  (w_calls w <= w_calls w')%nat -> sent w' = sent w -> (written w' = written w \/ written w' = written w ++ [p]) ->
  history (S m) w' (<[i := s]> (sessions l)).
Proof.
  intros Hi Hst Hc Hg Er Hle Es Ew. pose proof (sessions_lookup _ _ _ Hi) as Hs.
  pose proof (got_datagram _ _ Hg) as Hd. pose proof (proj2 Hd) as Hl. rewrite message_length in Hl.
  pose proof (open_data_ok (session ps) cn p s Hst Hc ltac:(lia) Er) as E.
  destruct (history_open m w _ i _ _ _ _ _ _ H Hs ltac:(lia) Hd Hg E) as [[? _]|(_ & Hw)]; [lia|].
  apply Hw; [done|done|]. rewrite Nat2Z.id, firstn_all. done.
Qed.
End Step.

Lemma history_step c m w w' l l' :
  clock_has_room -> Z.of_nat (S m) < 2 ^ 62 -> step c (w, l) (w', l') -> history m w (sessions l) ->
  history (S (S m)) w' (sessions l').
Proof.
  intros Hc Hm Hs H. assert (S m <= S (S m))%nat as Hle by lia.
  inversion Hs; subst; clear Hs; rewrite ?sessions_insert, ?map_app.
  - eapply history_le; [|by eapply session_init_history]. lia.
  - by eapply history_attempt.
  - eapply history_le; [exact Hle|]. eapply history_still; [by eapply emits_off|by eapply history_answer].
  - eapply history_le; [exact Hle|]. by eapply history_refuse.
  - eapply history_le; [exact Hle|]. by eapply (history_response _ _ _ H Hm _ _ _ _ 0).
  - eapply history_le; [exact Hle|]. match goal with E : exchange _ _ = _ |- _ => eapply (history_response _ _ _ H Hm) in E; [|done..]; by rewrite decide_False in E end.
  - eapply history_le; [exact Hle|]. unfold count_sent. destruct (_ <? 0); by eapply history_send.
  - eapply history_le; [exact Hle|]. match goal with E : emits _ _ _ |- _ => apply emits_packet in E as (? & ? & ?) end.
    unfold count_delivered. destruct (_ <? 0); eapply history_receive; eauto.
  - eapply history_le; [exact Hle|]. eapply history_receive; eauto.
Qed.

Lemma history_path c n a b :
  clock_has_room -> Z.of_nat (2 * n) < 2 ^ 62 -> path c n a b -> history 0 a.1 (sessions a.2) ->
  history (2 * n) b.1 (sessions b.2).
Proof.
  intros Hc Hn Hp H0. induction Hp as [a|n a b b' _ IH Hq|n a [w l] [w' l'] _ IH Hs]; [done| |].
  - specialize (IH Hn H0). destruct Hq as [w w' l Ha|w l i ps ps' Hi (_ & Es & _)]; cbn [fst snd] in *.
    + eapply history_still; [|exact IH]. apply uneventful_still. eapply adds_weaken; [|exact Ha]. by intros [].
    + rewrite sessions_insert, Es, list_insert_id; [done|by apply sessions_lookup].
  - replace (2 * S n)%nat with (S (S (2 * n))) by lia. cbn [fst snd] in *.
    eapply history_step; [done|lia|exact Hs|]. apply IH; [lia|done].
Qed.

Lemma main_history fuel w cipher0 plain0 :
  wire w = [] -> clock_has_room -> Z.of_nat fuel < 2 ^ 56 ->
  length cipher0 = SEALED_BUF_SIZE -> length plain0 = MAX_PACKET_SIZE ->
  wlp (main fuel cipher0 plain0) (fun _ w' => exists n l, history n w' l) w.
Proof.
  intros Ew Hc Hf Hlc Hlp. eapply wlp_mono; [by apply main_follows|].
  intros _ w' (c & l & w0 & Ha & n & Hn & Hp). exists (2 * n)%nat, (sessions l).
  eapply (history_path c n (w0, []) (w', l)); [done| |done|].
  - unfold round_steps, CONFIG_MAX_PEERS in Hn. lia.
  - apply (history_still _ w); [apply uneventful_still; eapply adds_weaken; [|exact Ha]; by intros []|].
    apply history_empty; unfold sent, written; by rewrite Ew.
Qed.

(** ** Reading the account *)

(** Two ephemeral pairs drawn in the run gave the same session key. *)
Definition key_collision (key : crypto_session_keys_t -> bytes) (w : world) : Prop :=
  exists m m' keys keys', m <> m' /\ derived w m keys /\ derived w m' keys' /\ key keys = key keys'.

Section Reading.
  Context (owner : nat -> nat) (log : list (nat * obs)) (opened : list (bytes * Z * bytes)).
  Context (n : nat) (w : world) (l : list session_t) (A : account owner log opened n w l).

Lemma account_peer i o : o ∈ peer_log i log -> exists s, l !! i = Some s /\ peer_history owner w n log i s.
Proof.
  intros Ho. apply list_elem_of_omap in Ho as ([j o'] & Hin & Hj). cbn in Hj. case_decide; simplify_eq.
  pose proof (Forall_in (ac_tags _ _ _ _ _ _ A) _ Hin) as Hlt. cbn in Hlt.
  apply lookup_lt_is_Some in Hlt as [s Hs]. exists s. split; [done|]. by apply (ac_peers _ _ _ _ _ _ A).
Qed.

(** An established key was derived by a pair of its peer. *)
Lemma key_source (key : crypto_session_keys_t -> bytes) i s k :
  peer_history owner w n log i s -> k ∈ map key (keys_established (peer_log i log)) ->
  exists m keys, derived w m keys /\ owner m = i /\ key keys = k.
Proof.
  intros (s0 & draws & _ & _ & [Hd _ Ho _]) Hk. apply list_elem_of_fmap in Hk as (keys & -> & Hin).
  apply list_elem_of_lookup in Hin as [a Ha]. destruct (Forall2_lookup_r _ _ _ _ _ Hd Ha) as (m & Hm & Hder).
  exists m, keys. split; [done|]. split; [|done]. by apply (Forall_lookup_1 _ _ _ _ Ho Hm).
Qed.

(** Repeated keys of one session come from different pairs. *)
Lemma repeated_key (key : crypto_session_keys_t -> bytes) i s :
  peer_history owner w n log i s -> ~ NoDup (map key (keys_established (peer_log i log))) ->
  key_collision key w.
Proof.
  intros (s0 & draws & _ & _ & [Hd Hnd _ _]) (a & b & k & Hab & Ha & Hb)%NoDup_repeats.
  rewrite list_lookup_fmap in Ha, Hb. apply fmap_Some in Ha as (ka & Ha & ->).
  apply fmap_Some in Hb as (kb & Hb & Ek).
  destruct (Forall2_lookup_r _ _ _ _ _ Hd Ha) as (ma & Hma & Da).
  destruct (Forall2_lookup_r _ _ _ _ _ Hd Hb) as (mb & Hmb & Db).
  exists ma, mb, ka, kb. split; [|done]. intros ->. apply Hab. by eapply NoDup_lookup.
Qed.

(** A key and counter used twice are a collision, when each session keeps its
    own apart and uses only established keys. *)
Lemma reuse_is_collision (g : obs -> option (bytes * Z)) (key : crypto_session_keys_t -> bytes) :
  (forall i s, peer_history owner w n log i s ->
     (forall k c, (k, c) ∈ omap g (peer_log i log) -> k ∈ map key (keys_established (peer_log i log))) /\
     (NoDup (map key (keys_established (peer_log i log))) -> NoDup (omap g (peer_log i log)))) ->
  NoDup (omap g (map snd log)) \/ key_collision key w.
Proof.
  intros Hg. destruct (decide (NoDup (omap g (map snd log)))) as [|Hr]; [by left|]. right.
  apply peer_log_repeats in Hr as [[i Hi]|(i & j & [k c] & Hij & Hi & Hj)].
  - assert (exists o, o ∈ peer_log i log) as [o Ho].
    { destruct (peer_log i log) as [|o rest]; [destruct Hi; constructor|]. exists o. left. }
    destruct (account_peer i o Ho) as (s & _ & Hs). destruct (Hg i s Hs) as [_ Hn].
    eapply repeated_key; [exact Hs|]. auto.
  - assert (forall i, (k, c) ∈ omap g (peer_log i log) -> exists m keys, derived w m keys /\ owner m = i /\ key keys = k) as Src.
    { intros i' Hin. pose proof Hin as (o & Ho & _)%list_elem_of_omap.
      destruct (account_peer i' o Ho) as (s & _ & Hs). destruct (Hg i' s Hs) as [Hk _].
      eapply key_source; [exact Hs|]. by eapply Hk. }
    destruct (Src i Hi) as (m & keys & Dm & Om & Ek). destruct (Src j Hj) as (m' & keys' & Dm' & Om' & Ek').
    exists m, m', keys, keys'. split; [congruence|]. split; [done|]. split; [done|congruence].
Qed.

Lemma uses_derived (g : obs -> option (bytes * Z)) (key : crypto_session_keys_t -> bytes) k c :
  (forall i s, peer_history owner w n log i s ->
     forall k c, (k, c) ∈ omap g (peer_log i log) -> k ∈ map key (keys_established (peer_log i log))) ->
  (k, c) ∈ omap g (map snd log) -> exists m keys, derived w m keys /\ key keys = k.
Proof.
  intros Hg [i Hi]%elem_of_peer_log. pose proof Hi as (o & Ho & _)%list_elem_of_omap.
  destruct (account_peer i o Ho) as (s & _ & Hs).
  destruct (key_source key i s k Hs (Hg i s Hs k c Hi)) as (m & keys & ? & _ & ?). by eauto.
Qed.
End Reading.

Lemma sealed_as_list kcs ds :
  sealed_as kcs ds -> exists sealed : list (bytes * Z * bytes), kcs = map fst sealed /\
    ds = map (fun e => message SESSION_MSG_DATA e.1.1 e.1.2 e.2) sealed.
Proof.
  induction 1 as [|[k c] d kcs ds [p ->] _ (sealed & -> & ->)]; [by exists []|]. by exists ((k, c, p) :: sealed).
Qed.

(** Every data message on the wire, with its key and counter. *)
Lemma history_sent n w l :
  history n w l -> exists sealed : list (bytes * Z * bytes),
    sent w = map (fun e => message SESSION_MSG_DATA e.1.1 e.1.2 e.2) sealed /\
    Forall (fun e => exists m keys, derived w m keys /\ tx keys = e.1.1) sealed /\
    (NoDup (map fst sealed) \/ key_collision tx w).
Proof.
  intros (owner & log & opened & A).
  destruct (sealed_as_list _ _ (ac_sent _ _ _ _ _ _ A)) as (sealed & Ek & Es). exists sealed.
  split; [done|]. rewrite <- Ek. split.
  - apply Forall_forall. intros [[k c] p] Hin. cbn [fst].
    apply (uses_derived _ _ _ _ _ _ A
      (fun o => match o with ObsSealed k c => Some (k, c) | _ => None end) tx k c).
    2:{ change (omap _ _) with (data_sealed (map snd log)). rewrite Ek.
        apply list_elem_of_fmap. by exists (k, c, p). }
    intros i s (s0 & dr & _ & Hr & _). apply (inv_seal _ _ _ _ Hr).
  - apply (reuse_is_collision _ _ _ _ _ _ A
      (fun o => match o with ObsSealed k c => Some (k, c) | _ => None end) tx). intros i s (s0 & dr & _ & Hr & _).
    destruct (inv_seal _ _ _ _ Hr) as [H1 H2]. split; [exact H1|]. intros Hn. by apply H2.
Qed.

(** Every packet written to the TUN device, with the key and counter it was
    opened under. *)
Lemma history_written n w l :
  history n w l -> exists opened : list (bytes * Z * bytes),
    written w = map snd opened /\
    Forall (fun e => got w (message SESSION_MSG_DATA e.1.1 e.1.2 e.2) /\
              exists m keys, derived w m keys /\ rx keys = e.1.1) opened /\
    (NoDup (map fst opened) \/ key_collision rx w).
Proof.
  intros (owner & log & opened & A). exists opened. split; [by rewrite (ac_written _ _ _ _ _ _ A)|].
  pose proof (ac_opened _ _ _ _ _ _ A) as Hsub. split.
  - apply Forall_and. split; [apply (ac_got _ _ _ _ _ _ A)|]. apply Forall_forall. intros [[k c] p] Hin. cbn [fst].
    apply (uses_derived _ _ _ _ _ _ A
      (fun o => match o with ObsOpened k c => Some (k, c) | _ => None end) rx k c).
    2:{ eapply elem_of_sublist; [|exact Hsub]. apply list_elem_of_fmap. by exists (k, c, p). }
    intros i s (s0 & dr & _ & Hr & _). apply (inv_open _ _ _ _ Hr).
  - destruct (reuse_is_collision _ _ _ _ _ _ A (fun o => match o with ObsOpened k c => Some (k, c) | _ => None end) rx)
      as [Hnd|?]; [| |by right].
    + intros i s (s0 & dr & _ & Hr & _). destruct (inv_open _ _ _ _ Hr) as (H1 & acc & _ & _ & H2).
      split; [exact H1|]. intros Hn. by apply H2.
    + left. by eapply sublist_NoDup.
Qed.
End Loop.
