(* ===== verification/HistorySpec.v ===== *)
(** * What whole runs of the program guarantee

    From the start of the process to its end, or for any number of rounds of
    the poll loop, no nonce is used twice on the data channel and no data
    message is delivered twice, unless two key exchanges of the run gave the
    same key. *)

From Stdlib Require Import String.
From S2P Require Import Prelude World Crypto Toy Session Replay SessionFacts SessionRuns Libc.
From S2P Require Import Config ConfigFacts Routing Log LogSpec Net Daemon DaemonFacts.
From S2P Require Import DaemonInput DaemonStart Effects Steps Scenario History HistoryLoop.
Open Scope list_scope.

Section Claims.
  Context `{SO : Sodium} {SL : SodiumLaws} `{EV : Env} {EL : EnvLaws} {CL : ClockLaws} {IL : IoLaws}.

(** C2. No nonce reuse, for the whole program: whatever the outside answers
    and however the sessions of all peers interleave, every data message the
    program hands to the kernel is a payload sealed under a key that was
    derived in this run, from an ephemeral pair it drew and a handshake
    message it received, and no two of them use the same key and counter,
    keepalives included, unless two different ephemeral pairs of the run gave
    the same sending key. *)
Theorem program_never_reuses_a_nonce fuel cipher0 plain0 w :
  wire w = [] -> clock_has_room -> Z.of_nat fuel < 2 ^ 56 ->
  length cipher0 = SEALED_BUF_SIZE -> length plain0 = MAX_PACKET_SIZE ->
  exists r w' (sealed : list (bytes * Z * bytes)),
    main fuel cipher0 plain0 w = Some (r, w') /\
    data_datagrams (wire w') = map (fun e => message SESSION_MSG_DATA e.1.1 e.1.2 e.2) sealed /\
    Forall (fun e => exists m keys, derived w' m keys /\ tx keys = e.1.1) sealed /\
    (NoDup (map fst sealed) \/ key_collision tx w').
Proof.
  intros Ew Hc Hf Hlc Hlp.
  destruct (wp_exists _ _ _ (main_wp fuel cipher0 plain0 w [] Hlc Hlp ltac:(unfold fds; by rewrite Ew)))
    as (r & w' & E & _).
  destruct (main_history fuel w cipher0 plain0 Ew Hc Hf Hlc Hlp r w' E) as (n & l & H).
  destruct (history_sent n w' l H) as (sealed & H'). by exists r, w', sealed.
Qed.

(** C3. No packet is delivered twice, for the whole program: every packet it
    writes to the TUN device is the payload of a data message it received,
    sealed under a key that was derived in this run, and no two of them were
    opened under the same key and counter, unless two different ephemeral
    pairs of the run gave the same receiving key.  So what an attacker
    replays, in whatever order, across rotations and reconnections, reaches
    the device at most once. *)
Theorem program_never_delivers_twice fuel cipher0 plain0 w :
  wire w = [] -> clock_has_room -> Z.of_nat fuel < 2 ^ 56 ->
  length cipher0 = SEALED_BUF_SIZE -> length plain0 = MAX_PACKET_SIZE ->
  exists r w' (opened : list (bytes * Z * bytes)),
    main fuel cipher0 plain0 w = Some (r, w') /\
    tun_packets (wire w') = map snd opened /\
    Forall (fun e => got w' (message SESSION_MSG_DATA e.1.1 e.1.2 e.2) /\
              exists m keys, derived w' m keys /\ rx keys = e.1.1) opened /\
    (NoDup (map fst opened) \/ key_collision rx w').
Proof.
  intros Ew Hc Hf Hlc Hlp.
  destruct (wp_exists _ _ _ (main_wp fuel cipher0 plain0 w [] Hlc Hlp ltac:(unfold fds; by rewrite Ew)))
    as (r & w' & E & _).
  destruct (main_history fuel w cipher0 plain0 Ew Hc Hf Hlc Hlp r w' E) as (n & l & H).
  destruct (history_written n w' l H) as (opened & H'). by exists r, w', opened.
Qed.
End Claims.

(** ** A run from the start: a handshake, then data both ways *)

(** The datagrams are [init1] up to call [k] and [later] from then on; the
    clocks stand still. *)
Definition story_env (k : nat) (later : bytes) : Env := {|
  env_keypair := env_keypair;
  env_time _ := 1700000000;
  env_monotonic _ := (100, 0);
  env_realtime := env_realtime;
  env_getenv := env_getenv;
  env_fopen := env_fopen;
  env_getaddrinfo := env_getaddrinfo;
  env_open := env_open;
  env_socket := env_socket;
  env_bind := env_bind;
  env_sendto _ := 48;
  env_ioctl := env_ioctl;
  env_close := env_close;
  env_recvfrom n := Some (if (n <? k)%nat then init1 else later, from1);
  env_tun_read _ := Some packet1;
  env_tun_write _ := 23;
  env_poll _ := (1, true, true);
  env_errno _ := 111;
  env_signals _ := [];
  env_strerror _ := str "Connection refused"
|}.

#[global] Instance story_laws k later : @EnvLaws _ (story_env k later).
Proof. destruct toy_env_laws. by split. Qed.

#[global] Instance story_clock k later : @ClockLaws (story_env k later).
Proof. destruct toy_clock as [H]. split. intros n. apply (H n). Qed.

(** The first round, in which the handshake completes. *)
Definition first_round : daemon * world := Eval vm_compute in
  match (_ ← log_init (EV:=story_env 1000 []); start (EV:=story_env 1000 []) cipher0 plain0) toy_world with
  | Some (Some d, w) =>
      match iteration (EV:=story_env 1000 []) d w with
      | Some ((_, d), w) => (d, w)
      | None => (blank_daemon, w)
      end
  | _ => (blank_daemon, toy_world)
  end.

(** The peer's first data message in the session of that run. *)
Definition story_data : bytes := Eval vm_compute in
  message SESSION_MSG_DATA (rx (data_keys (session (first_peer first_round.1)))) 0 packet1.

Definition story : Env := story_env (w_calls first_round.2) story_data.

#[global] Instance story_io : @IoLaws story.
Proof.
  split.
  - intros n data from [= <- _]. destruct (n <? _)%nat; by apply (bool_decide_unpack _); vm_compute.
  - intros _ p [= <-]. by apply (bool_decide_unpack _); vm_compute.
  - intros _ _ fd f [= _ <-]. by vm_compute.
Qed.

Definition story_end : world := Eval vm_compute in
  match main (EV:=story) 4 cipher0 plain0 toy_world with Some (_, w) => w | None => toy_world end.

(** In four rounds the peer's message is delivered once, though it arrives
    three times, and three packets leave, as the first came too early. *)
Lemma story_runs :
  tun_packets (wire story_end) = [packet1] /\ length (data_datagrams (wire story_end)) = 3%nat.
Proof. by vm_compute. Qed.

Lemma story_has_room : clock_has_room (EV:=story).
Proof. intros k. cbn. lia. Qed.

Lemma program_never_reuses_a_nonce_witness :
  length (data_datagrams (wire story_end)) = 3%nat /\
  exists r w' (sealed : list (bytes * Z * bytes)),
    main (EV:=story) 4 cipher0 plain0 toy_world = Some (r, w') /\
    data_datagrams (wire w') = map (fun e => message SESSION_MSG_DATA e.1.1 e.1.2 e.2) sealed /\
    Forall (fun e => exists m keys, derived (EV:=story) w' m keys /\ tx keys = e.1.1) sealed /\
    (NoDup (map fst sealed) \/ key_collision (EV:=story) tx w').
Proof.
  split; [apply story_runs|].
  apply (program_never_reuses_a_nonce (EV:=story)); [by vm_compute|exact story_has_room|by vm_compute..].
Defined.

Lemma program_never_delivers_twice_witness :
  tun_packets (wire story_end) = [packet1] /\
  exists r w' (opened : list (bytes * Z * bytes)),
    main (EV:=story) 4 cipher0 plain0 toy_world = Some (r, w') /\
    tun_packets (wire w') = map snd opened /\
    Forall (fun e => got (EV:=story) w' (message SESSION_MSG_DATA e.1.1 e.1.2 e.2) /\
              exists m keys, derived (EV:=story) w' m keys /\ rx keys = e.1.1) opened /\
    (NoDup (map fst opened) \/ key_collision (EV:=story) rx w').
Proof.
  split; [apply story_runs|].
  apply (program_never_delivers_twice (EV:=story)); [by vm_compute|exact story_has_room|by vm_compute..].
Defined.

(** ** The same run, up to the poll loop and through four rounds of it *)
Definition story_world : world := Eval vm_compute in from_option snd toy_world (log_init (EV:=story) toy_world).
Definition story_start : daemon * world := Eval vm_compute in
  match start (EV:=story) cipher0 plain0 story_world with
  | Some (Some d, w) => (d, w)
  | _ => (blank_daemon, toy_world)
  end.

Lemma story_started : start (EV:=story) cipher0 plain0 story_world = Some (Some story_start.1, story_start.2).
Proof. by vm_compute. Qed.

Definition story_rounds : daemon * world := Eval vm_compute in
  match main_loop (EV:=story) 4 0 story_start.1 story_start.2 with
  | Some ((_, d), w) => (d, w)
  | None => (blank_daemon, toy_world)
  end.

Lemma run_follows_steps_witness :
  start (EV:=story) cipher0 plain0 story_world = Some (Some story_start.1, story_start.2) /\
  exists ended d' w2 n, main_loop (EV:=story) 4 0 story_start.1 story_start.2 = Some ((ended, d'), w2) /\
    (n <= 16 + 4 * 26)%nat /\ path (EV:=story) (cfg story_start.1) n (story_world, []) (w2, d_peers d').
Proof.
  split; [exact story_started|].
  apply (run_follows_steps (EV:=story) 4 0 cipher0 plain0 story_world); [by vm_compute..|exact story_started].
Defined.
