(* ===== verification/Handshakes.v ===== *)
(** * Whole runs of the daemon: the handshake channel on the wire

    Every handshake message of a run is an [offer]: one of the peers offers the
    ephemeral key of one draw under one counter.  The account of the offers is
    an invariant of the steps: no draw is offered twice, and no peer uses a
    counter twice, so that the static keys are safe as long as they differ
    from peer to peer. *)

From Stdlib Require Import String.
From S2P Require Import Prelude World Crypto Toy Session Replay SessionFacts SessionRuns Libc Config.
From S2P Require Import ConfigFacts Routing Log LogSpec Net Daemon DaemonFacts DaemonInput DaemonStart.
From S2P Require Import Effects Steps Scenario History HistoryLoop HistorySpec.
Open Scope list_scope.

Record offer := { o_peer : nat; o_draw : nat; o_counter : Z }.

(** The datagrams that are not data messages. *)
Definition handshakes (w : world) : list bytes :=
  omap (fun e => match e with
    | EvSend _ _ msg _ => if has_type SESSION_MSG_DATA msg then None else Some msg
    | _ => None
    end) (wire w).

Definition handshake_type (r : crypto_role_t) : Z :=
  match r with
  | CRYPTO_ROLE_INITIATOR => SESSION_MSG_HANDSHAKE_INIT
  | CRYPTO_ROLE_RESPONDER => SESSION_MSG_HANDSHAKE_RESPONSE
  end.

(** How a peer signs its handshakes: its role and the static sending key. *)
Definition identity (ps : peer_session_t) : crypto_role_t * bytes := (role (session ps), tx (static_keys (session ps))).

Lemma handshakes_plain w w' : adds plain w w' -> handshakes w' = handshakes w.
Proof.
  intros [(events & E & F) _]. unfold handshakes. rewrite E, omap_app. clear E.
  induction F as [|e events He _ IH]; [by rewrite app_nil_r|]. destruct e; try done; cbn; apply IH.
Qed.

Lemma handshakes_other w w' e :
  emits w w' e -> (match e with EvSend _ _ msg _ => has_type SESSION_MSG_DATA msg | _ => true end) = true ->
  handshakes w' = handshakes w.
Proof.
  intros [E _] He. unfold handshakes. rewrite E, omap_app. cbn. destruct e; rewrite ?He; by rewrite app_nil_r.
Qed.

Section Offers.
  Context `{SO : Sodium} {SL : SodiumLaws} `{EV : Env} {EL : EnvLaws} {CL : ClockLaws} {IL : IoLaws}.

Lemma handshakes_sent w w' fd dest r key cn p rc :
  emits w w' (EvSend fd dest (message (handshake_type r) key cn p) rc) ->
  handshakes w' = handshakes w ++ [message (handshake_type r) key cn p].
Proof. intros [E _]. unfold handshakes. rewrite E, omap_app. by destruct r. Qed.

Definition offer_text (ids : list (crypto_role_t * bytes)) (o : offer) : bytes :=
  match ids !! o_peer o with
  | Some (r, key) => message (handshake_type r) key (o_counter o) (env_keypair (o_draw o)).1
  | None => []
  end.

(** What the session of peer [i] promises about its next offer.  An initiator
    draws a pair for each attempt; a responder that is pending holds a pair of
    its own that it has not offered. *)
Definition next_offer (n : nat) (w : world) (owner : nat -> nat) (os : list offer) (i : nat) (s : session_t) : Prop :=
  match role s with
  | CRYPTO_ROLE_INITIATOR =>
      0 <= handshake_counter s < 2 ^ 62 + Z.of_nat n /\
      forall o, o ∈ os -> o_peer o = i -> o_counter o < handshake_counter s
  | CRYPTO_ROLE_RESPONDER =>
      (forall o, o ∈ os -> o_peer o = i -> have_seen_handshake s = true /\ o_counter o <= highest_handshake_counter_seen s) /\
      (state s = SESSION_STATE_HANDSHAKE_PENDING -> exists m,
         local_eph_pk s = (env_keypair m).1 /\ (m < w_calls w)%nat /\ owner m = i /\ (m ∉ map o_draw os))
  end.

Record offers (n : nat) (w : world) (owner : nat -> nat) (os : list offer) (l : list peer_session_t) : Prop := {
  of_sent : handshakes w = map (offer_text (map identity l)) os;
  of_range : Forall (fun o => (o_peer o < length l)%nat /\ (o_draw o < w_calls w)%nat /\ owner (o_draw o) = o_peer o) os;
  of_draws : NoDup (map o_draw os);
  of_nonces : NoDup (map (fun o => (o_peer o, o_counter o)) os);
  of_next : forall i ps, l !! i = Some ps -> next_offer n w owner os i (session ps)
}.

(** Time passes and other peers act. *)
Lemma next_offer_mono n n' w w' owner owner' os new i s :
  (n <= n')%nat -> (w_calls w <= w_calls w')%nat -> (forall m, (m < w_calls w)%nat -> owner' m = owner m) ->
  Forall (fun o => o_peer o <> i /\ owner' (o_draw o) <> i) new ->
  next_offer n w owner os i s -> next_offer n' w' owner' (os ++ new) i s.
Proof.
  intros Hn Hw Ho Hnew H. unfold next_offer in *. destruct (role s).
  - destruct H as [H1 H2]. split; [lia|]. intros o [Ho'|Ho']%elem_of_app Hi; [by apply H2|].
    by destruct (Forall_in Hnew _ Ho').
  - destruct H as [H1 H2]. split.
    + intros o [Ho'|Ho']%elem_of_app Hi; [by apply H1|]. by destruct (Forall_in Hnew _ Ho').
    + intros (m & E & Hm & Hi & Hf)%H2. exists m. rewrite Ho by done. split; [done|]. split; [lia|]. split; [done|].
      rewrite map_app, elem_of_app. intros [?|(o & -> & Ho')%list_elem_of_fmap]; [done|].
      destruct (Forall_in Hnew _ Ho') as [_ Hd]. apply Hd. by rewrite Ho.
Qed.

(** One peer acts, and makes the offers [new]. *)
Lemma offers_update n w w' owner owner' os new l i ps ps' :
  offers n w owner os l -> l !! i = Some ps -> identity ps' = identity ps ->
  (w_calls w <= w_calls w')%nat -> (forall m, (m < w_calls w)%nat -> owner' m = owner m) ->
  handshakes w' = handshakes w ++ map (offer_text (map identity l)) new ->
  Forall (fun o => o_peer o = i /\ (o_draw o < w_calls w')%nat /\ owner' (o_draw o) = i) new ->
  NoDup (map o_draw (os ++ new)) -> NoDup (map (fun o => (o_peer o, o_counter o)) (os ++ new)) ->
  next_offer (S n) w' owner' (os ++ new) i (session ps') ->
  offers (S n) w' owner' (os ++ new) (<[i := ps']> l).
Proof.
  intros [H1 H2 H3 H4 H5] Hi Eid Hw Ho Eh Hnew Hd Hc Hnext.
  assert (map identity (<[i := ps']> l) = map identity l) as El.
  { rewrite list_fmap_insert, Eid. apply list_insert_id. by rewrite list_lookup_fmap, Hi. }
  split; [by rewrite El, Eh, H1, map_app| |done|done|].
  - rewrite length_insert. apply Forall_app. split.
    + eapply Forall_impl; [exact H2|]. intros o (? & ? & ?). rewrite Ho by done. auto with lia.
    + eapply Forall_impl; [exact Hnew|]. intros o (-> & ? & ?). split; [by eapply lookup_lt_Some|done].
  - intros j q [(<- & <- & _)|[Hij Hq]]%list_lookup_insert_Some; [done|].
    eapply next_offer_mono; [|exact Hw|exact Ho| |by apply H5]; [lia|].
    eapply Forall_impl; [exact Hnew|]. intros o (-> & _ & ->). done.
Qed.

Lemma offers_keep n w w' owner owner' os l i ps ps' :
  offers n w owner os l -> l !! i = Some ps -> identity ps' = identity ps ->
  (w_calls w <= w_calls w')%nat -> (forall m, (m < w_calls w)%nat -> owner' m = owner m) ->
  handshakes w' = handshakes w -> next_offer (S n) w' owner' os i (session ps') ->
  offers (S n) w' owner' os (<[i := ps']> l).
Proof.
  intros H Hi Eid Hw Ho Eh Hn. pose proof H as [_ _ H3 H4 _].
  pose proof (offers_update n w w' owner owner' os [] l i ps ps') as U. cbn [map] in U. rewrite !app_nil_r in U.
  by apply U.
Qed.

(** A new offer [o] of the peer [i]. *)
Lemma offers_add n w w' owner owner' os l i ps ps' o :
  offers n w owner os l -> l !! i = Some ps -> identity ps' = identity ps ->
  (w_calls w <= w_calls w')%nat -> (forall m, (m < w_calls w)%nat -> owner' m = owner m) ->
  handshakes w' = handshakes w ++ [offer_text (map identity l) o] ->
  o_peer o = i -> (o_draw o < w_calls w')%nat -> owner' (o_draw o) = i -> (o_draw o ∉ map o_draw os) ->
  (forall o', o' ∈ os -> o_peer o' = i -> o_counter o' < o_counter o) ->
  next_offer (S n) w' owner' (os ++ [o]) i (session ps') ->
  offers (S n) w' owner' (os ++ [o]) (<[i := ps']> l).
Proof.
  intros H Hi Eid Hw Ho Eh Ep Hd Eo Hf Hc Hn. pose proof H as [_ _ H3 H4 _].
  eapply offers_update; try done.
  - by constructor.
  - rewrite map_app. by apply NoDup_snoc.
  - rewrite map_app. apply NoDup_snoc. split; [done|]. intros (o' & E & Ho')%list_elem_of_fmap. injection E as E1 E2.
    specialize (Hc o' Ho' ltac:(congruence)). lia.
Qed.

(** The pair drawn at call [m] belongs to peer [i]. *)
Definition assign (m i : nat) (owner : nat -> nat) : nat -> nat := fun k => if decide (k = m) then i else owner k.

Lemma assign_other m i owner k : (k < m)%nat -> assign m i owner k = owner k.
Proof. intros H. unfold assign. by rewrite decide_False by lia. Qed.
Lemma assign_same m i owner : assign m i owner m = i.
Proof. unfold assign. by rewrite decide_True. Qed.

Lemma draws_in_past n w owner os l m : offers n w owner os l -> m ∈ map o_draw os -> (m < w_calls w)%nat.
Proof. intros H (o & -> & Ho)%list_elem_of_fmap. by destruct (Forall_in (of_range _ _ _ _ _ H) _ Ho) as (_ & ? & _). Qed.

Lemma offer_text_own l i ps o :
  l !! i = Some ps -> o_peer o = i ->
  offer_text (map identity l) o = message (handshake_type (role (session ps))) (tx (static_keys (session ps)))
    (o_counter o) (env_keypair (o_draw o)).1.
Proof. intros Hi E. unfold offer_text. by rewrite E, list_lookup_fmap, Hi. Qed.

(** An accepted counter changes the replay window only. *)
Lemma replay_accepted s cn s' :
  replay_check_and_mark s cn = Some (true, s') -> exists any h win, s' = set_replay any h win s.
Proof.
  unfold replay_check_and_mark. intros E.
  repeat match type of E with
  | (if ?b then _ else _) = _ => destruct b
  | (_ ≫= _) = Some _ => apply bind_Some in E as (? & _ & E)
  end; simplify_eq; eauto.
Qed.

Ltac accepted := match goal with E : replay_check_and_mark _ _ = _ |- _ =>
  apply replay_accepted in E as (? & ? & ? & ->) end.

(** What a responder's attempt keeps. *)
Lemma responder_attempt_keeps s w s1 w1 :
  responder_attempt s w = (s1, w1) -> role s1 = role s /\ static_keys s1 = static_keys s /\
    have_seen_handshake s1 = have_seen_handshake s /\ highest_handshake_counter_seen s1 = highest_handshake_counter_seen s.
Proof. unfold responder_attempt. intros E. case_decide; by simplify_eq. Qed.

Section Step.
  Context (n : nat) (w : world) (owner : nat -> nat) (os : list offer) (l : list peer_session_t).
  Context (H : offers n w owner os l) (Hn : Z.of_nat n < 2 ^ 62).

(** A step of an established session, or of an initiator that completes. *)
Lemma offers_session w' i ps ps' :
  l !! i = Some ps -> identity ps' = identity ps -> handshakes w' = handshakes w -> (w_calls w <= w_calls w')%nat ->
  handshake_counter (session ps') = handshake_counter (session ps) ->
  have_seen_handshake (session ps') = have_seen_handshake (session ps) ->
  highest_handshake_counter_seen (session ps') = highest_handshake_counter_seen (session ps) ->
  (role (session ps) = CRYPTO_ROLE_RESPONDER -> state (session ps') = SESSION_STATE_HANDSHAKE_PENDING ->
     state (session ps) = SESSION_STATE_HANDSHAKE_PENDING /\ local_eph_pk (session ps') = local_eph_pk (session ps)) ->
  offers (S n) w' owner os (<[i := ps']> l).
Proof.
  intros Hi Eid Eh Hw E1 E2 E3 Hp. eapply offers_keep; try done.
  pose proof (of_next _ _ _ _ _ H i ps Hi) as Hx. injection Eid as Er _. unfold next_offer in *. rewrite Er, E1, E2, E3.
  destruct (role (session ps)); [destruct Hx; split; [lia|done]|]. destruct Hx as [Hx1 Hx2]. split; [done|].
  intros [Hs Epk]%Hp; [|done]. destruct (Hx2 Hs) as (m & E & Hm & Ho & Hf). exists m. rewrite Epk. auto with lia.
Qed.

Lemma offers_attempt i ps w' fd rc :
  l !! i = Some ps -> role (session ps) = CRYPTO_ROLE_INITIATOR ->
  emits (tick w) w' (EvSend fd (addr ps)
    (message SESSION_MSG_HANDSHAKE_INIT (tx (static_keys (session ps))) (handshake_counter (session ps))
       (env_keypair (w_calls w)).1) rc) ->
  exists owner' os',
    offers (S n) w' owner' os' (<[i := set_session (attempted (env_keypair (w_calls w)) (session ps)) ps]> l).
Proof.
  intros Hi Hr He. pose proof (of_next _ _ _ _ _ H i ps Hi) as Hx. unfold next_offer in Hx. rewrite Hr in Hx.
  destruct Hx as [Hc Hlt]. pose proof (proj2 He) as Hw. cbn in Hw.
  assert (u64 (handshake_counter (session ps) + 1) = handshake_counter (session ps) + 1) as Eu
    by (apply u64_small; unfold is_u64; lia).
  set (o := {| o_peer := i; o_draw := w_calls w; o_counter := handshake_counter (session ps) |}).
  exists (assign (w_calls w) i owner), (os ++ [o]). eapply offers_add; try done.
  - lia.
  - intros m Hm. by apply assign_other.
  - rewrite (offer_text_own _ _ _ o Hi eq_refl), Hr. exact (handshakes_sent (tick w) w' _ _ CRYPTO_ROLE_INITIATOR _ _ _ _ He).
  - apply assign_same.
  - intros Hd%(draws_in_past _ _ _ _ _ _ H). cbn in Hd. lia.
  - unfold next_offer. cbn. rewrite Hr, Eu. split; [lia|].
    intros o' [Ho'| ->%list_elem_of_singleton]%elem_of_app Hp; [|cbn; lia]. specialize (Hlt o' Ho' Hp). lia.
Qed.

(** The pair a responder answers with, drawn now or held. *)
Lemma responder_draw i ps s1 w1 :
  l !! i = Some ps -> role (session ps) = CRYPTO_ROLE_RESPONDER -> responder_attempt (session ps) w = (s1, w1) ->
  exists owner' m, (forall k, (k < w_calls w)%nat -> owner' k = owner k) /\ handshakes w1 = handshakes w /\
    (w_calls w <= w_calls w1)%nat /\ local_eph_pk s1 = (env_keypair m).1 /\ (m < w_calls w1)%nat /\ owner' m = i /\
    (m ∉ map o_draw os).
Proof.
  intros Hi Hr Ea. pose proof (of_next _ _ _ _ _ H i ps Hi) as Hx. unfold next_offer in Hx. rewrite Hr in Hx.
  unfold responder_attempt in Ea. case_decide as Hs; simplify_eq.
  - exists (assign (w_calls w) i owner), (w_calls w). split; [intros; by apply assign_other|]. split; [done|].
    split; [cbn; lia|]. split; [done|]. split; [cbn; lia|]. split; [apply assign_same|].
    intros Hd%(draws_in_past _ _ _ _ _ _ H). lia.
  - destruct (proj2 Hx) as (m & E & Hm & Ho & Hf); [by destruct (state (session ps))|]. exists owner, m. auto 10.
Qed.

Lemma offers_answer i ps inp cn peer s1 w1 w' keys fd dest rc :
  l !! i = Some ps -> acceptable_init (session ps) inp cn peer -> responder_attempt (session ps) w = (s1, w1) ->
  emits w1 w' (EvSend fd dest
    (message SESSION_MSG_HANDSHAKE_RESPONSE (tx (static_keys (session ps))) cn (local_eph_pk s1)) rc) ->
  exists owner' os', offers (S n) w' owner' os' (<[i := set_session (responder_established keys cn s1) ps]> l).
Proof.
  intros Hi (Hr & _ & _ & _ & Hnew) Ea He. destruct (responder_draw i ps s1 w1 Hi Hr Ea) as (owner' & m & Ho & Eh & Hw & Em & Hm & Hi' & Hf).
  destruct (responder_attempt_keeps _ _ _ _ Ea) as (Er & Est & _).
  pose proof (proj2 He) as Hw'. pose proof (of_next _ _ _ _ _ H i ps Hi) as Hx. unfold next_offer in Hx. rewrite Hr in Hx.
  destruct Hx as [Hseen _]. set (o := {| o_peer := i; o_draw := m; o_counter := cn |}).
  exists owner', (os ++ [o]). eapply offers_add; try done.
  - unfold identity. cbn. by rewrite Er, Est.
  - lia.
  - rewrite (offer_text_own _ _ _ o Hi eq_refl), Hr, <- Eh. cbn [o o_counter o_draw]. rewrite <- Em.
    exact (handshakes_sent _ _ _ _ CRYPTO_ROLE_RESPONDER _ _ _ _ He).
  - cbn. lia.
  - intros o' Ho' Hp. destruct (Hseen o' Ho' Hp) as [Hs Hle]. specialize (Hnew Hs). cbn. lia.
  - unfold next_offer. cbn. rewrite Er, Hr. split; [|done]. intros o' [Ho'| ->%list_elem_of_singleton]%elem_of_app Hp; [|done].
    destruct (Hseen o' Ho' Hp) as [Hs Hle]. specialize (Hnew Hs). split; [done|lia].
Qed.

Lemma offers_refuse i ps inp cn peer s1 w1 keys :
  l !! i = Some ps -> acceptable_init (session ps) inp cn peer -> responder_attempt (session ps) w = (s1, w1) ->
  exists owner' os', offers (S n) w1 owner' os' (<[i := set_session (set_data_keys keys s1) ps]> l).
Proof.
  intros Hi (Hr & _) Ea. destruct (responder_draw i ps s1 w1 Hi Hr Ea) as (owner' & m & Ho & Eh & Hw & Em & Hm & Hi' & Hf).
  pose proof (of_next _ _ _ _ _ H i ps Hi) as Hx. unfold next_offer in Hx. rewrite Hr in Hx.
  destruct (responder_attempt_keeps _ _ _ _ Ea) as (Er & Est & E1 & E2).
  exists owner', os. eapply offers_keep; try done.
  - unfold identity. cbn. by rewrite Er, Est.
  - unfold next_offer. cbn. rewrite Er, Hr, E1, E2. split; [apply Hx|]. intros _. by exists m.
Qed.

Lemma offers_join c q s w' :
  clock_has_room -> joins c q w = Some ((0, s), w') ->
  exists owner' os', offers (S n) w' owner' os' (l ++ [set_session s (new_peer q)]).
Proof.
  intros Hc E. unfold joins in E. pose proof (session_init_eq (peer_role q) (crypto_derive_public_key (private_key c))
    (private_key c) (public_key q) w) as E'.
  destruct (crypto_derive_session_keys _ _ _ _ _) as [rc keys]. rewrite E' in E. case_decide; simplify_eq.
  set (m := S (w_calls w)). exists (assign m (length l) owner), os. destruct H as [H1 H2 H3 H4 H5].
  assert (forall k, (k < w_calls w)%nat -> assign m (length l) owner k = owner k) as Ho
    by (intros k Hk; apply assign_other; unfold m; lia).
  split; [|rewrite length_app|done|done|].
  - change (handshakes (tick (tick w))) with (handshakes w). rewrite H1. apply map_ext_in. intros o Ho'.
    apply list_elem_of_In in Ho'. destruct (Forall_in H2 _ Ho') as (Hp & _). unfold offer_text.
    by rewrite map_app, lookup_app_l by (by rewrite length_map).
  - eapply Forall_impl; [exact H2|]. intros o (? & ? & ?). rewrite Ho by done. cbn. auto with lia.
  - intros i ps [Hps|[Hge Hps]]%lookup_app_Some.
    { rewrite <- (app_nil_r os). eapply next_offer_mono; [..|by apply H5]; [lia|cbn; lia|exact Ho|constructor]. }
    apply list_lookup_singleton_Some in Hps as [Hz <-]. assert (i = length l) as -> by lia.
    assert (forall o, o ∈ os -> o_peer o = length l -> False) as Hno
      by (intros o (Hp & _)%(Forall_in H2) E; lia).
    unfold next_offer. cbn. destruct (peer_role q).
    + rewrite u64_small by (unfold is_u64; specialize (Hc (w_calls w)); lia). specialize (Hc (w_calls w)).
      split; [lia|]. intros o Ho' Hp. by destruct (Hno o Ho' Hp).
    + split; [intros o Ho' Hp; by destruct (Hno o Ho' Hp)|]. intros _. exists m. split; [done|]. unfold m.
      split; [lia|]. split; [apply assign_same|]. intros (o & Eo & Ho')%list_elem_of_fmap.
      destruct (Forall_in H2 _ Ho') as (_ & ? & _). lia.
Qed.

End Step.

Lemma offers_step n owner os c w l w' l' :
  offers n w owner os l -> Z.of_nat n < 2 ^ 62 -> clock_has_room -> step c (w, l) (w', l') -> exists owner' os', offers (S n) w' owner' os' l'.
Proof.
  intros H Hn Hc Hs. inversion Hs; subst; clear Hs.
  - by eapply offers_join.
  - by eapply offers_attempt.
  - by eapply offers_answer.
  - by eapply offers_refuse.
  - exists owner, os. by eapply offers_session.
  - exists owner, os. by eapply offers_session.
  - exists owner, os. match goal with E : emits _ _ _ |- _ => rename E into He end.
    pose proof (handshakes_other _ _ _ He eq_refl) as Eh. destruct He as [_ Hw].
    unfold count_sent. destruct (_ <? 0); eapply offers_session; try done; cbn; congruence.
  - exists owner, os. match goal with E : emits _ _ _ |- _ => rename E into He end.
    pose proof (handshakes_other _ _ _ He eq_refl) as Eh. destruct He as [_ Hw].
    accepted.
    unfold count_delivered. destruct (_ <? 0); eapply offers_session; try done; cbn; congruence.
  - exists owner, os.
    accepted.
    eapply offers_session; try done; cbn; congruence.
Qed.

Lemma offers_path c k a b :
  clock_has_room -> Z.of_nat k < 2 ^ 62 -> path c k a b -> handshakes a.1 = [] -> a.2 = [] ->
  exists owner os, offers k b.1 owner os b.2.
Proof.
  intros Hc Hk Hp Ha Hl. induction Hp as [[w l]|k a b b' _ IH Hq|k a [w l] [w' l'] _ IH Hs].
  - cbn [fst snd] in *. subst l. exists (fun _ => 0%nat), []. by split; try constructor.
  - destruct (IH Hk Ha Hl) as (owner & os & [H1 H2 H3 H4 H5]). exists owner, os.
    destruct Hq as [w w' l Hw|w l i ps ps' Hi (_ & Es & _)]; cbn [fst snd] in *.
    + pose proof (proj2 Hw) as Hle. split; try done; [by rewrite (handshakes_plain _ _ Hw)| |].
      * eapply Forall_impl; [exact H2|]. intros o (? & ? & ?). auto with lia.
      * intros i ps Hi. rewrite <- (app_nil_r os). eapply next_offer_mono; [..|by apply H5]; done || constructor.
    + assert (map identity (<[i := ps']> l) = map identity l) as El.
      { rewrite list_fmap_insert. unfold identity at 1. rewrite Es. apply list_insert_id. by rewrite list_lookup_fmap, Hi. }
      split; rewrite ?El, ?length_insert; try done.
      intros j q [(<- & <- & _)|[_ Hq]]%list_lookup_insert_Some; [rewrite Es|]; by apply H5.
  - destruct (IH ltac:(lia) Ha Hl) as (owner & os & H). by eapply offers_step; [exact H|lia|..].
Qed.

(** The static keys of the peers of a configuration, from the exchange of the
    two long-term keys, and how the peers sign: with their role and one of
    these keys. *)
Definition static_of (c : edgarvpn_config_t) (q : config_peer_t) : crypto_session_keys_t :=
  (crypto_derive_session_keys (peer_role q) (crypto_derive_public_key (private_key c))
     (private_key c) (public_key q) zero_keys).2.
Definition static_identity (c : edgarvpn_config_t) (q : config_peer_t) : crypto_role_t * bytes :=
  (peer_role q, tx (static_of c q)).
Definition configured (c : edgarvpn_config_t) : list (crypto_role_t * bytes) :=
  map (static_identity c) (take (peer_count c) (peers c)).

Ltac keeps Er Est := match goal with E : responder_attempt _ _ = _ |- _ =>
  destruct (responder_attempt_keeps _ _ _ _ E) as (Er & Est & _) end.

(** No step changes how a peer signs. *)
Lemma identity_step c w l w' l' :
  step c (w, l) (w', l') ->
  (exists q, peers c !! length l = Some q /\ (length l < peer_count c)%nat /\
     map identity l' = map identity l ++ [static_identity c q]) \/ map identity l' = map identity l.
Proof.
  intros Hs. assert (forall i ps ps', l !! i = Some ps -> identity ps' = identity ps ->
    map identity (<[i := ps']> l) = map identity l) as Hsame.
  { intros i ps ps' Hi E. rewrite list_fmap_insert, E. apply list_insert_id. by rewrite list_lookup_fmap, Hi. }
  inversion Hs; subst; clear Hs; [left|right..].
  - exists q. split; [done|]. split; [done|]. rewrite map_app. do 2 f_equal. cbn.
    match goal with E : joins _ _ _ = _ |- _ => unfold joins in E; rename E into Ej end.
    pose proof (session_init_eq (peer_role q) (crypto_derive_public_key (private_key c)) (private_key c) (public_key q) w) as E'.
    unfold static_identity, static_of. destruct (crypto_derive_session_keys _ _ _ _ _) as [rc keys]. rewrite E' in Ej.
    case_decide; by simplify_eq.
  - by eapply Hsame.
  - eapply Hsame; [done|]. unfold identity. cbn. keeps Er Est. by rewrite Er, Est.
  - eapply Hsame; [done|]. unfold identity. cbn. keeps Er Est. by rewrite Er, Est.
  - by eapply Hsame.
  - by eapply Hsame.
  - eapply Hsame; [done|]. unfold count_sent. by destruct (_ <? 0).
  - eapply Hsame; [done|]. accepted.
    unfold count_delivered. by destruct (_ <? 0).
  - eapply Hsame; [done|]. by accepted.
Qed.

Lemma identity_path c k a b :
  path c k a b -> a.2 = [] -> map identity b.2 = take (length b.2) (configured c).
Proof.
  intros Hp Ha. induction Hp as [[w l]|k a b b' _ IH Hq|k a [w l] [w' l'] _ IH Hs]; cbn [fst snd] in *.
  - by subst l.
  - specialize (IH Ha). destruct Hq as [w w' l _|w l i ps ps' Hi (_ & Es & _)]; cbn [fst snd] in *; [done|].
    rewrite length_insert, <- IH, list_fmap_insert. unfold identity at 1. rewrite Es. apply list_insert_id.
    by rewrite list_lookup_fmap, Hi.
  - specialize (IH Ha). assert (length l' = length (map identity l')) as El by (by rewrite length_map).
    destruct (identity_step _ _ _ _ _ Hs) as [(q & Hq & Hlt & E)|E]; rewrite El, E.
    + rewrite length_app, length_map, Nat.add_1_r, IH.
      rewrite (take_S_r _ _ (static_identity c q)); [done|]. unfold configured.
      by rewrite list_lookup_fmap, lookup_take_lt, Hq by done.
    + by rewrite length_map.
Qed.

(** The key and counter an offer is sealed under. *)
Definition offer_nonce (ids : list (crypto_role_t * bytes)) (o : offer) : option bytes * Z :=
  (snd <$> ids !! o_peer o, o_counter o).

Lemma offer_text_take n ids o : (o_peer o < n)%nat -> offer_text (take n ids) o = offer_text ids o.
Proof. intros H. unfold offer_text. by rewrite lookup_take_lt. Qed.

(** Peers with different keys use different nonces. *)
Lemma offer_nonces_differ ids os :
  NoDup (map snd ids) -> Forall (fun o => (o_peer o < length ids)%nat) os ->
  NoDup (map (fun o => (o_peer o, o_counter o)) os) -> NoDup (map (offer_nonce ids) os).
Proof.
  intros Hk Hr. induction Hr as [|o os Ho Hr IH]; cbn [map]; [by constructor|].
  rewrite !NoDup_cons. intros [Hnew Hnd]. split; [|by apply IH].
  intros (o' & E & Ho')%list_elem_of_fmap. apply Hnew, list_elem_of_fmap. exists o'. split; [|done].
  unfold offer_nonce in E. injection E as E1 E2. destruct (lookup_lt_is_Some_2 _ _ Ho) as [x Hx].
  destruct (lookup_lt_is_Some_2 _ _ (Forall_in Hr _ Ho')) as [y Hy]. rewrite Hx, Hy in E1. injection E1 as E1.
  f_equal; [|done]. eapply NoDup_lookup; [exact Hk| |]; rewrite list_lookup_fmap, ?Hx, ?Hy; cbn; [done|by f_equal].
Qed.

(** C7. The handshake messages of a whole run are fresh.  Every datagram the
    program sends that is not a data message is a handshake message of one of
    the configured peers, sealed under the key that the two long-term keys and
    the role give, and carries an ephemeral public key that this run drew from
    the generator.  No two of them carry the same draw, so that no attempt or
    answer ever offers an ephemeral key again, and no peer uses a counter
    twice: when the keys of the peers differ, no nonce of the handshake channel
    is used twice either, over any number of rounds, reconnections and
    rotations of all peers, whatever arrives. *)
Theorem handshakes_are_fresh fuel installed cipher0 plain0 w d w1 :
  length cipher0 = SEALED_BUF_SIZE -> length plain0 = MAX_PACKET_SIZE -> wire w = [] ->
  clock_has_room -> Z.of_nat fuel < 2 ^ 56 -> start cipher0 plain0 w = Some (Some d, w1) ->
  exists ended d' w2 os, main_loop fuel installed d w1 = Some ((ended, d'), w2) /\
    handshakes w2 = map (offer_text (configured (cfg d))) os /\
    Forall (fun o => (o_peer o < length (configured (cfg d)))%nat /\ (o_draw o < w_calls w2)%nat) os /\
    NoDup (map o_draw os) /\ NoDup (map (fun o => (o_peer o, o_counter o)) os) /\
    (NoDup (map snd (configured (cfg d))) -> NoDup (map (offer_nonce (configured (cfg d))) os)).
Proof.
  intros Hc Hp Ew Hroom Hf E1.
  destruct (loop_path fuel installed cipher0 plain0 w d w1 Hc Hp Ew E1) as (ended & d' & w2 & n & E2 & Hn & H).
  assert (Z.of_nat n < 2 ^ 62) as Hn' by (change round_steps with 26%nat in Hn; change CONFIG_MAX_PEERS with 8%nat in Hn; lia).
  destruct (offers_path (cfg d) n _ _ Hroom Hn' H) as (owner & os & [H1 H2 H3 H4 _]); [cbn; unfold handshakes; by rewrite Ew|done|].
  pose proof (identity_path _ _ _ _ H eq_refl) as Eid. cbn [fst snd] in *.
  assert (length (d_peers d') <= length (configured (cfg d)))%nat as Hle.
  { apply (f_equal length) in Eid. rewrite length_map, length_take in Eid. lia. }
  assert (Forall (fun o => (o_peer o < length (configured (cfg d)))%nat) os) as Hr
    by (eapply Forall_impl; [exact H2|]; cbn; intros o (? & _); lia).
  exists ended, d', w2, os. split; [done|]. split.
  { rewrite H1, Eid. apply map_ext_in. intros o Ho%list_elem_of_In. apply offer_text_take.
    by destruct (Forall_in H2 _ Ho). }
  split; [|split; [done|split; [done|]]].
  - eapply Forall_impl; [exact H2|]. cbn. intros o (? & ? & _). auto with lia.
  - intros Hk. by apply offer_nonces_differ.
Qed.
End Offers.

(** The run of HistorySpec: one peer sends an init, another answers one. *)
Lemma story_handshakes : length (handshakes story_rounds.2) = 2%nat.
Proof. by vm_compute. Qed.

Lemma handshakes_are_fresh_witness :
  length (handshakes story_rounds.2) = 2%nat /\ NoDup (map snd (configured (cfg story_start.1))) /\
  exists ended d' w2 os, main_loop (EV:=story) 4 0 story_start.1 story_start.2 = Some ((ended, d'), w2) /\
    handshakes w2 = map (offer_text (EV:=story) (configured (cfg story_start.1))) os /\
    Forall (fun o => (o_peer o < length (configured (cfg story_start.1)))%nat /\ (o_draw o < w_calls w2)%nat) os /\
    NoDup (map o_draw os) /\ NoDup (map (fun o => (o_peer o, o_counter o)) os) /\
    (NoDup (map snd (configured (cfg story_start.1))) -> NoDup (map (offer_nonce (configured (cfg story_start.1))) os)).
Proof.
  split; [exact story_handshakes|]. split; [apply (bool_decide_unpack _); by vm_compute|].
  apply (handshakes_are_fresh (EV:=story) 4 0 cipher0 plain0 story_world);
    [by vm_compute|by vm_compute|by vm_compute|exact story_has_room|by vm_compute|exact story_started].
Defined.
