(* ===== verification/Transcript.v ===== *)
(** * Whole runs of the daemon: the transcript

    The account of everything a run exchanged, peer by peer: every datagram
    sent ([letter]), every key agreed ([accord]) and every packet written to
    the TUN device ([delivery]).  A letter is a handshake message under the
    peer's static key, or a data message under a key agreed with the peer that
    is empty or carries a packet read from the device and routed to the peer;
    an accord is the exchange of a pair drawn in this run with the ephemeral
    key of a handshake message received under the peer's static key; a delivery
    was received under a key agreed with the peer.  The transcript is an
    invariant of the steps, together with what each session remembers of it
    ([party]) and with the traffic counters of each peer. *)

From stdpp Require Import sorting.
From Stdlib Require Import String.
From S2P Require Import Prelude World Crypto Session Replay SessionFacts SessionRuns Libc Config.
From S2P Require Import ConfigFacts Routing Log Net Daemon DaemonFacts DaemonInput DaemonStart.
From S2P Require Import Effects Steps History HistoryLoop Handshakes.
Open Scope list_scope.

(** A datagram sent: the peer, its contents, the call that read its packet from
    the TUN device (none for a handshake message or a keepalive), and whether
    the kernel took it. *)
Record letter := { l_peer : nat; l_type : Z; l_key : bytes; l_counter : Z; l_payload : bytes;
  l_read : option nat; l_taken : bool }.

(** A key agreed: the peer, the counter of the handshake, the draw of the own
    ephemeral pair and the ephemeral key of the peer. *)
Record accord := { a_peer : nat; a_counter : Z; a_draw : nat; a_remote : bytes; a_keys : crypto_session_keys_t }.

(** A packet written to the TUN device: the peer, the key and counter it was
    opened under, and whether the device took it. *)
Record delivery := { v_peer : nat; v_key : bytes; v_counter : Z; v_packet : bytes; v_taken : bool }.

Definition other_role (r : crypto_role_t) : crypto_role_t :=
  match r with CRYPTO_ROLE_INITIATOR => CRYPTO_ROLE_RESPONDER | CRYPTO_ROLE_RESPONDER => CRYPTO_ROLE_INITIATOR end.

(** What the trace shows: the datagrams and the packets, with their fate. *)
Definition mail (w : world) : list (bytes * bool) :=
  omap (fun e => match e with EvSend _ _ msg rc => Some (msg, negb (rc <? 0)) | _ => None end) (wire w).
Definition handed (w : world) : list (bytes * bool) :=
  omap (fun e => match e with EvTunWrite _ p rc => Some (p, negb (rc <? 0)) | _ => None end) (wire w).

(** What belongs to peer [i]. *)
Abbreviation letters_of i := (filter (fun x => l_peer x = i)).
Abbreviation accords_of i := (filter (fun x => a_peer x = i)).
Abbreviation deliveries_of i := (filter (fun x => v_peer x = i)).
Abbreviation greetings := (filter (fun x => l_type x <> SESSION_MSG_DATA)).

(** ** The traffic of a peer *)
Fixpoint sum_of {A} (f : A -> Z) (l : list A) : Z :=
  match l with [] => 0 | x :: l => f x + sum_of f l end.

Lemma sum_of_app {A} (f : A -> Z) l l' : sum_of f (l ++ l') = sum_of f l + sum_of f l'.
Proof. induction l as [|x l IH]; [done|]. cbn. rewrite IH. lia. Qed.

(** The data messages of peer [i] that the kernel took, and the packets of peer
    [i] that the device took, each weighed by the size of its datagram. *)
Definition sent_total (f : Z -> Z) (i : nat) (ls : list letter) : Z :=
  sum_of (fun x => if bool_decide (l_peer x = i) && (l_type x =? SESSION_MSG_DATA) && l_taken x
                   then f (zlen (l_payload x) + 25) else 0) ls.
Definition received_total (f : Z -> Z) (i : nat) (vs : list delivery) : Z :=
  sum_of (fun x => if bool_decide (v_peer x = i) && v_taken x then f (zlen (v_packet x) + 25) else 0) vs.

Definition one (_ : Z) : Z := 1.
Definition size (n : Z) : Z := n.

Definition traffic_total (i : nat) (ls : list letter) (vs : list delivery) : Z * Z * Z * Z :=
  (u64 (sent_total one i ls), u64 (sent_total size i ls), u64 (received_total one i vs), u64 (received_total size i vs)).

Lemma sent_total_other f i ls new : Forall (fun x => l_peer x <> i) new -> sent_total f i (ls ++ new) = sent_total f i ls.
Proof.
  intros H. unfold sent_total. rewrite sum_of_app. induction H as [|x new Hx _ IH]; cbn; [lia|].
  rewrite bool_decide_false by done. exact IH.
Qed.
Lemma received_total_other f i vs new :
  Forall (fun x => v_peer x <> i) new -> received_total f i (vs ++ new) = received_total f i vs.
Proof.
  intros H. unfold received_total. rewrite sum_of_app. induction H as [|x new Hx _ IH]; cbn; [lia|].
  rewrite bool_decide_false by done. exact IH.
Qed.

Section Transcript.
  Context `{SO : Sodium} {SL : SodiumLaws} `{EV : Env} {EL : EnvLaws} {CL : ClockLaws} {IL : IoLaws}.
  Context (c : edgarvpn_config_t).

Definition letter_text (x : letter) : bytes := message (l_type x) (l_key x) (l_counter x) (l_payload x).
Definition delivery_text (v : delivery) : bytes := message SESSION_MSG_DATA (v_key v) (v_counter v) (v_packet v).

(** Peer [i] is [q], and the exchange with its long-term key works. *)
Definition joined (i : nat) (q : config_peer_t) : Prop :=
  peers c !! i = Some q /\
  (crypto_derive_session_keys (peer_role q) (crypto_derive_public_key (private_key c)) (private_key c)
     (public_key q) zero_keys).1 = 0.

(** A handshake message of peer [i] with the ephemeral key [pk] left. *)
Definition offered (ls : list letter) (i : nat) (q : config_peer_t) (counter : Z) (pk : bytes) : Prop :=
  exists x, x ∈ ls /\ l_peer x = i /\ l_type x = handshake_type (peer_role q) /\ l_key x = tx (static_of c q) /\
    l_counter x = counter /\ l_payload x = pk.

(** The ephemeral key is one of a handshake message from the peer; the own key
    was offered with the same counter.  (Counter 0 stands for no init yet.) *)
Definition accord_ok (w : world) (ls : list letter) (a : accord) : Prop :=
  exists q old, joined (a_peer a) q /\ (a_draw a < w_calls w)%nat /\ is_u64 (a_counter a) /\
    length (a_remote a) = CRYPTO_PUBLIC_KEY_BYTES /\
    got w (message (handshake_type (other_role (peer_role q))) (rx (static_of c q)) (a_counter a) (a_remote a)) /\
    crypto_derive_session_keys (peer_role q) (env_keypair (a_draw a)).1 (env_keypair (a_draw a)).2 (a_remote a) old =
      (0, a_keys a) /\
    (peer_role q = CRYPTO_ROLE_INITIATOR /\ a_counter a = 0 \/
     offered ls (a_peer a) q (a_counter a) (env_keypair (a_draw a)).1).

(** Where the payload of a data message for peer [i] comes from. *)
Definition payload_ok (w : world) (i : nat) (read : option nat) (p : bytes) : Prop :=
  match read with
  | None => p = []
  | Some k => (k < w_calls w)%nat /\ exists data, env_tun_read k = Some data /\ p = take MAX_PACKET_SIZE data /\
      route c p = Some (Z.of_nat i)
  end.

Definition letter_ok (w : world) (xs : list accord) (x : letter) : Prop :=
  exists q, joined (l_peer x) q /\
  ((l_type x = handshake_type (peer_role q) /\ l_key x = tx (static_of c q) /\ l_read x = None /\
    match peer_role q with
    | CRYPTO_ROLE_INITIATOR => 0 < l_counter x
    | CRYPTO_ROLE_RESPONDER => exists a, a ∈ xs /\ a_peer a = l_peer x /\ a_counter a = l_counter x /\
        (env_keypair (a_draw a)).1 = l_payload x
    end) \/
   (l_type x = SESSION_MSG_DATA /\ (exists a, a ∈ xs /\ a_peer a = l_peer x /\ tx (a_keys a) = l_key x) /\
    payload_ok w (l_peer x) (l_read x) (l_payload x))).

Definition delivery_ok (w : world) (xs : list accord) (v : delivery) : Prop :=
  (exists a, a ∈ xs /\ a_peer a = v_peer v /\ rx (a_keys a) = v_key v) /\
  got w (delivery_text v) /\ is_u64 (v_counter v) /\ v_packet v <> [].

(** The receiving keys agreed with peer [i], and the nonces of its packets. *)
Definition receiving (i : nat) (xs : list accord) : list bytes := map (fun a => rx (a_keys a)) (accords_of i xs).
Definition opened_nonces (i : nat) (vs : list delivery) : list (bytes * Z) :=
  map (fun v => (v_key v, v_counter v)) (deliveries_of i vs).

(** What the session of peer [i] remembers. *)
Record party (n : nat) (w : world) (ls : list letter) (xs : list accord) (vs : list delivery) (i : nat)
    (ps : peer_session_t) : Prop := {
  pt_peer : exists q, joined i q /\ role (session ps) = peer_role q /\ static_keys (session ps) = static_of c q /\
    (state (session ps) = SESSION_STATE_HANDSHAKE_PENDING -> exists m, (m < w_calls w)%nat /\
       (local_eph_pk (session ps), local_eph_sk (session ps)) = env_keypair m /\
       (peer_role q = CRYPTO_ROLE_INITIATOR -> pending_handshake_counter (session ps) = 0 \/
          offered ls i q (pending_handshake_counter (session ps)) (env_keypair m).1));
  pt_fresh : state (session ps) = SESSION_STATE_HANDSHAKE_PENDING -> window_rep (session ps) [];
  pt_open : state (session ps) = SESSION_STATE_ESTABLISHED ->
    (exists a, a ∈ xs /\ a_peer a = i /\ a_keys a = data_keys (session ps)) /\
    exists acc, window_rep (session ps) acc /\ (NoDup (receiving i xs) ->
      forall v, v ∈ vs -> v_peer v = i -> v_key v = rx (data_keys (session ps)) -> v_counter v ∈ acc);
  pt_counter : match role (session ps) with
    | CRYPTO_ROLE_INITIATOR => 0 < handshake_counter (session ps) < 2 ^ 62 + Z.of_nat n /\
        forall x, x ∈ greetings ls -> l_peer x = i -> l_counter x < handshake_counter (session ps)
    | CRYPTO_ROLE_RESPONDER => forall x, x ∈ greetings ls -> l_peer x = i ->
        have_seen_handshake (session ps) = true /\ l_counter x <= highest_handshake_counter_seen (session ps)
    end;
  pt_traffic : traffic ps = traffic_total i ls vs
}.

(** The account of a run that left the trace of [w]. *)
Record accounts (w : world) (ls : list letter) (xs : list accord) (vs : list delivery) : Prop := {
  tr_mail : mail w = map (fun x => (letter_text x, l_taken x)) ls;
  tr_handed : handed w = map (fun v => (v_packet v, v_taken v)) vs;
  tr_letters : Forall (letter_ok w xs) ls;
  tr_accords : Forall (accord_ok w ls) xs;
  tr_deliveries : Forall (delivery_ok w xs) vs;
  tr_order : StronglySorted lt (omap l_read ls);
  tr_nonces : NoDup (map (fun x => (l_peer x, l_counter x)) (greetings ls));
  tr_once : forall i, NoDup (receiving i xs) -> NoDup (opened_nonces i vs)
}.

Record transcript (n : nat) (w : world) (ls : list letter) (xs : list accord) (vs : list delivery)
    (l : list peer_session_t) : Prop := {
  tr_accounts : accounts w ls xs vs;
  tr_range : Forall (fun x => (l_peer x < length l)%nat) ls /\ Forall (fun v => (v_peer v < length l)%nat) vs;
  tr_parties : forall i ps, l !! i = Some ps -> party n w ls xs vs i ps
}.

(** ** The transcript grows *)
Section Grow.
  Context (w w' : world) (ls nl : list letter) (xs nx : list accord) (vs nv : list delivery).
  Context (Hle : (w_calls w <= w_calls w')%nat).

Lemma offered_grow i q cn pk : offered ls i q cn pk -> offered (ls ++ nl) i q cn pk.
Proof. intros (x & Hx & H). exists x. split; [apply elem_of_app; by left|done]. Qed.

Lemma accord_ok_grow a : accord_ok w ls a -> accord_ok w' (ls ++ nl) a.
Proof.
  intros (q & old & Hq & Hm & Hc & Hr & Hg & Hk & Ho). exists q, old. split; [done|]. split; [lia|].
  split; [done|]. split; [done|]. split; [by eapply got_mono|]. split; [done|].
  destruct Ho as [?|?]; [by left|right; by apply offered_grow].
Qed.

Lemma payload_ok_grow i r p : payload_ok w i r p -> payload_ok w' i r p.
Proof. unfold payload_ok. destruct r; [|done]. intros [? ?]. split; [lia|done]. Qed.

Lemma letter_ok_grow x : letter_ok w xs x -> letter_ok w' (xs ++ nx) x.
Proof.
  intros (q & Hq & H). exists q. split; [done|]. destruct H as [(? & ? & ? & H)|(? & (a & Ha & H) & Hp)]; [left|right].
  - do 3 (split; [done|]). destruct (peer_role q); [done|]. destruct H as (a & Ha & H). exists a. by rewrite elem_of_app; auto.
  - split; [done|]. split; [exists a; by rewrite elem_of_app; auto|by apply payload_ok_grow].
Qed.

Lemma delivery_ok_grow v : delivery_ok w xs v -> delivery_ok w' (xs ++ nx) v.
Proof.
  intros ((a & Ha & H) & Hg & Hv). split; [exists a; by rewrite elem_of_app; auto|]. split; [by eapply got_mono|done].
Qed.

(** Another peer acts. *)
Lemma party_other n n' i j ps :
  (n <= n')%nat -> i <> j -> Forall (fun x => l_peer x = i) nl -> Forall (fun a => a_peer a = i) nx ->
  Forall (fun v => v_peer v = i) nv -> party n w ls xs vs j ps -> party n' w' (ls ++ nl) (xs ++ nx) (vs ++ nv) j ps.
Proof.
  intros Hn Hij Hl Hx Hv [(q & Hq & Hr & Hs & He) Hf Ho Hc Ht].
  assert (forall x, x ∈ greetings (ls ++ nl) -> l_peer x = j -> x ∈ greetings ls) as Hg.
  { intros x [Hd Hin]%list_elem_of_filter Hp. apply list_elem_of_filter. split; [done|].
    apply elem_of_app in Hin as [?|Hin]; [done|]. pose proof (Forall_in Hl _ Hin). cbn in *. congruence. }
  split.
  - exists q. do 3 (split; [done|]). intros (m & Hm & Em & Ho')%He. exists m. split; [lia|]. split; [done|].
    intros [?|?]%Ho'; [by left|right; by apply offered_grow].
  - done.
  - intros [(a & Ha & Hap) (acc & Hw & Hd)]%Ho. split; [exists a; by rewrite elem_of_app; auto|]. exists acc.
    split; [done|]. unfold receiving. rewrite filter_app, map_app. intros [Hnd _]%NoDup_app v [Hin|Hin]%elem_of_app Hvp; [by apply Hd|].
    pose proof (Forall_in Hv _ Hin). cbn in *. congruence.
  - destruct (role (session ps)); [destruct Hc as [Hb Hc]; split; [lia|]|]; intros x Hx' Hp; apply Hc; auto.
  - unfold traffic_total.
    assert (Forall (fun x => l_peer x <> j) nl) as Hl' by (eapply Forall_impl; [exact Hl|]; cbn; congruence).
    assert (Forall (fun x => v_peer x <> j) nv) as Hv' by (eapply Forall_impl; [exact Hv|]; cbn; congruence).
    rewrite !sent_total_other, !received_total_other by done. exact Ht.
Qed.
End Grow.

(** The nonces of peer [i] when peer [j] acts. *)
Lemma opened_other i j vs nv : i <> j -> Forall (fun v => v_peer v = i) nv -> opened_nonces j (vs ++ nv) = opened_nonces j vs.
Proof.
  intros Hij Hv. unfold opened_nonces. rewrite filter_app, map_app.
  assert (deliveries_of j nv = []) as ->; [|by rewrite app_nil_r].
  induction Hv as [|v nv Hp _ IH]; [done|]. rewrite filter_cons, decide_False by congruence. done.
Qed.

(** Peer [i] acts: it sends [nl], agrees [nx], delivers [nv]. *)
Lemma transcript_act n w w' ls nl xs nx vs nv l i ps ps' :
  transcript n w ls xs vs l -> l !! i = Some ps -> (w_calls w <= w_calls w')%nat ->
  mail w' = mail w ++ map (fun x => (letter_text x, l_taken x)) nl ->
  handed w' = handed w ++ map (fun v => (v_packet v, v_taken v)) nv ->
  Forall (fun x => l_peer x = i) nl -> Forall (fun a => a_peer a = i) nx -> Forall (fun v => v_peer v = i) nv ->
  Forall (letter_ok w' (xs ++ nx)) nl -> Forall (accord_ok w' (ls ++ nl)) nx -> Forall (delivery_ok w' (xs ++ nx)) nv ->
  StronglySorted lt (omap l_read (ls ++ nl)) ->
  NoDup (map (fun x => (l_peer x, l_counter x)) (greetings (ls ++ nl))) ->
  (NoDup (receiving i (xs ++ nx)) -> NoDup (opened_nonces i (vs ++ nv))) ->
  party (S n) w' (ls ++ nl) (xs ++ nx) (vs ++ nv) i ps' ->
  transcript (S n) w' (ls ++ nl) (xs ++ nx) (vs ++ nv) (<[i := ps']> l).
Proof.
  intros [[H1 H2 H3 H4 H5 H6 H7 H8] [Hr1 Hr2] H9] Hi Hle Em Eh Pl Px Pv Ol Ox Ov Hord Hnd Honce Hp.
  pose proof (lookup_lt_Some _ _ _ Hi) as Hlt. split; [split; try done|..].
  - by rewrite Em, H1, map_app.
  - by rewrite Eh, H2, map_app.
  - apply Forall_app. split; [|done]. eapply Forall_impl; [exact H3|]. intros x. by apply letter_ok_grow.
  - apply Forall_app. split; [|done]. eapply Forall_impl; [exact H4|]. intros x. by apply accord_ok_grow.
  - apply Forall_app. split; [|done]. eapply Forall_impl; [exact H5|]. intros x. by apply delivery_ok_grow.
  - intros j Hj. destruct (decide (i = j)) as [->|Hij]; [by apply Honce|]. rewrite (opened_other i) by done. apply H8.
    unfold receiving in *. rewrite filter_app, map_app in Hj. by apply NoDup_app in Hj as [? _].
  - rewrite length_insert, !Forall_app. split; (split; [done|]); eapply Forall_impl; [exact Pl| |exact Pv|]; by intros x ->.
  - intros j q [(<- & <- & _)|[Hij Hq]]%list_lookup_insert_Some; [done|].
    eapply party_other; [exact Hle| |exact Hij|done..|by apply H9]. lia.
Qed.

(** Nothing is added. *)
Lemma transcript_keep n w w' ls xs vs l i ps ps' :
  transcript n w ls xs vs l -> l !! i = Some ps -> (w_calls w <= w_calls w')%nat -> mail w' = mail w -> handed w' = handed w ->
  party (S n) w' ls xs vs i ps' -> transcript (S n) w' ls xs vs (<[i := ps']> l).
Proof.
  intros H Hi Hle Em Eh Hp. pose proof (tr_accounts _ _ _ _ _ _ H) as [_ _ _ _ _ H6 H7 H8].
  pose proof (transcript_act n w w' ls [] xs [] vs [] l i ps ps' H Hi Hle) as A. cbn [map] in A. rewrite !app_nil_r in A.
  apply A; try done; apply H8.
Qed.

Lemma accounts_mono w w' ls xs vs :
  (w_calls w <= w_calls w')%nat -> mail w' = mail w -> handed w' = handed w -> accounts w ls xs vs -> accounts w' ls xs vs.
Proof.
  intros Hle Em Eh [H1 H2 H3 H4 H5 H6 H7 H8]. split; try done; [congruence|congruence|..].
  - eapply Forall_impl; [exact H3|]. intros x Hx. rewrite <- (app_nil_r xs). by eapply letter_ok_grow.
  - eapply Forall_impl; [exact H4|]. intros x Hx. rewrite <- (app_nil_r ls). by eapply accord_ok_grow.
  - eapply Forall_impl; [exact H5|]. intros x Hx. rewrite <- (app_nil_r xs). by eapply delivery_ok_grow.
Qed.

Lemma party_mono n n' w w' ls xs vs i ps :
  (n <= n')%nat -> (w_calls w <= w_calls w')%nat -> party n w ls xs vs i ps -> party n' w' ls xs vs i ps.
Proof.
  intros Hn Hle Hp. pose proof (party_other w w' ls [] xs [] vs [] Hle n n' (S i) i ps Hn) as A.
  rewrite !app_nil_r in A. apply A; auto; lia.
Qed.

(** Only the bookkeeping of a peer changes. *)
Lemma party_noted n w ls xs vs i ps ps' : noted ps ps' -> party n w ls xs vs i ps -> party n w ls xs vs i ps'.
Proof. intros (_ & Es & Et) [H1 H2 H3 H4 H5]. split; rewrite ?Es; try done. congruence. Qed.

Lemma party_session n w ls xs vs i ps s :
  party n w ls xs vs i (set_session s ps) -> forall ps', session ps' = s -> traffic ps' = traffic ps -> party n w ls xs vs i ps'.
Proof. intros [H1 H2 H3 H4 H5] ps' Es Et. cbn in *. split; rewrite ?Es; try done. by rewrite Et. Qed.

(** ** What the calls add to the trace *)
Lemma mail_plain w w' : adds plain w w' -> mail w' = mail w /\ handed w' = handed w.
Proof.
  intros [(events & E & F) _]. unfold mail, handed. rewrite E, !omap_app. clear E.
  induction F as [|e events He _ IH]; [by rewrite !app_nil_r|]. destruct e; try done; cbn; exact IH.
Qed.

Lemma mail_sent w w' fd dest msg rc :
  emits w w' (EvSend fd dest msg rc) -> mail w' = mail w ++ [(msg, negb (rc <? 0))] /\ handed w' = handed w.
Proof. intros [E _]. unfold mail, handed. rewrite E, !omap_app. cbn. by rewrite app_nil_r. Qed.

Lemma mail_written w w' fd p rc :
  emits w w' (EvTunWrite fd p rc) -> mail w' = mail w /\ handed w' = handed w ++ [(p, negb (rc <? 0))].
Proof. intros [E _]. unfold mail, handed. rewrite E, !omap_app. cbn. by rewrite app_nil_r. Qed.

(** A new handshake message is not traffic. *)
Lemma traffic_greeting i ls vs x : l_type x <> SESSION_MSG_DATA -> traffic_total i (ls ++ [x]) vs = traffic_total i ls vs.
Proof.
  intros Hx. unfold traffic_total, sent_total. rewrite !sum_of_app. cbn [sum_of].
  rewrite (proj2 (Z.eqb_neq _ _) Hx), andb_false_r. by rewrite !Z.add_0_r.
Qed.

Lemma greetings_snoc ls x y : y ∈ greetings (ls ++ [x]) -> y ∈ greetings ls \/ y = x.
Proof.
  rewrite filter_app, elem_of_app. intros [?|[_ Hy]%list_elem_of_filter]; [by left|right]. by apply list_elem_of_singleton.
Qed.

(** The nonce of a greeting that is ahead of the others of its peer. *)
Lemma greetings_fresh ls x :
  NoDup (map (fun y => (l_peer y, l_counter y)) (greetings ls)) ->
  (l_type x <> SESSION_MSG_DATA -> forall y, y ∈ greetings ls -> l_peer y = l_peer x -> l_counter y <> l_counter x) ->
  NoDup (map (fun y => (l_peer y, l_counter y)) (greetings (ls ++ [x]))).
Proof.
  intros Hnd Hx. rewrite filter_app, filter_cons, filter_nil. case_decide as Ht; [|by rewrite app_nil_r].
  rewrite map_app. apply NoDup_snoc. split; [done|]. intros (y & E & Hy)%list_elem_of_fmap. injection E as E1 E2.
  by apply (Hx Ht y Hy).
Qed.

Lemma handshake_type_data r : handshake_type r <> SESSION_MSG_DATA.
Proof. by destruct r. Qed.

Lemma offered_new ls i q cn pk taken :
  offered (ls ++ [{| l_peer := i; l_type := handshake_type (peer_role q); l_key := tx (static_of c q); l_counter := cn;
    l_payload := pk; l_read := None; l_taken := taken |}]) i q cn pk.
Proof. eexists. split; [apply elem_of_app; right; by apply list_elem_of_singleton|done]. Qed.

Lemma greetings_data ls x : l_type x = SESSION_MSG_DATA -> greetings (ls ++ [x]) = greetings ls.
Proof. intros Hx. rewrite filter_app, filter_cons, filter_nil, decide_False by tauto. apply app_nil_r. Qed.

(** Traffic is counted as it passes. *)
Lemma traffic_sent i ls vs x rc ps :
  traffic ps = traffic_total i ls vs -> l_peer x = i -> l_type x = SESSION_MSG_DATA -> l_taken x = negb (rc <? 0) ->
  traffic (count_sent rc (zlen (l_payload x) + 25) ps) = traffic_total i (ls ++ [x]) vs.
Proof.
  intros H Hi Ht Hk. unfold traffic_total, sent_total, count_sent in *. rewrite !sum_of_app. cbn [sum_of].
  rewrite Hi, Ht, Hk, bool_decide_true by done. cbn [andb].
  destruct (rc <? 0); cbn [negb]; [by rewrite !Z.add_0_r|]. unfold traffic in *. cbn. injection H as -> -> -> ->.
  unfold u64. rewrite !Z.add_0_r, !Zplus_mod_idemp_l. done.
Qed.

Lemma traffic_delivered i ls vs v rc ps :
  traffic ps = traffic_total i ls vs -> v_peer v = i -> v_taken v = negb (rc <? 0) ->
  traffic (count_delivered rc (zlen (v_packet v) + 25) ps) = traffic_total i ls (vs ++ [v]).
Proof.
  intros H Hi Hk. unfold traffic_total, received_total, count_delivered in *. rewrite !sum_of_app. cbn [sum_of].
  rewrite Hi, Hk, bool_decide_true by done. cbn [andb].
  destruct (rc <? 0); cbn [negb]; [by rewrite !Z.add_0_r|]. unfold traffic in *. cbn. injection H as -> -> -> ->.
  unfold u64. rewrite !Z.add_0_r, !Zplus_mod_idemp_l. done.
Qed.
End Transcript.
