(* ===== verification/TranscriptLoop.v ===== *)
(** * Whole runs of the daemon: every step extends the transcript

    Each of the steps of [Steps] keeps the transcript of the run, so that every
    run of the program has one. *)

From stdpp Require Import sorting.
From Stdlib Require Import String.
From S2P Require Import Prelude World Crypto Session Replay SessionFacts SessionRuns Libc Config.
From S2P Require Import ConfigFacts Routing Log Net Daemon DaemonFacts DaemonInput DaemonStart.
From S2P Require Import Effects Steps History HistoryLoop Handshakes Transcript.
Open Scope list_scope.

Section Loop.
  Context `{SO : Sodium} {SL : SodiumLaws} `{EV : Env} {EL : EnvLaws} {CL : ClockLaws} {IL : IoLaws}.
  Context (c : edgarvpn_config_t).

(** The wall clock at start-up is set, and leaves room for the handshake
    counters. *)
Definition clock_is_set : Prop := forall k, 0 < env_time k < 2 ^ 62.

(** An attempt of a session, as its party sees it. *)
Lemma attempt_remembered n w ls xs vs i ps s1 w1 :
  party c n w ls xs vs i ps -> role (session ps) = CRYPTO_ROLE_RESPONDER -> responder_attempt (session ps) w = (s1, w1) ->
  (w_calls w <= w_calls w1)%nat /\ mail w1 = mail w /\ handed w1 = handed w /\
  state s1 = SESSION_STATE_HANDSHAKE_PENDING /\ window_rep s1 [] /\
  exists m, (m < w_calls w1)%nat /\ (local_eph_pk s1, local_eph_sk s1) = env_keypair m.
Proof.
  intros [(q & _ & Hr & _ & He) Hf _ _ _] Hres. unfold responder_attempt. case_decide as Hs; intros [= <- <-].
  - split; [cbn; lia|]. do 3 (split; [done|]). split; [exact (window_rep_reset (highest_rx_counter (session ps)) (session ps))|].
    exists (w_calls w). split; [cbn; lia|]. cbn. by destruct (env_keypair _).
  - assert (state (session ps) = SESSION_STATE_HANDSHAKE_PENDING) as Hp by (by destruct (state (session ps))).
    do 4 (split; [done|]). split; [by apply Hf|]. destruct (He Hp) as (m & Hm & E & _). by exists m.
Qed.

(** A counter that an initiator remembers is one of 64 bits. *)
Lemma pending_is_u64 n w ls xs vs i ps q m :
  accounts c w ls xs vs -> party c n w ls xs vs i ps -> Z.of_nat n < 2 ^ 62 ->
  role (session ps) = CRYPTO_ROLE_INITIATOR -> peer_role q = CRYPTO_ROLE_INITIATOR -> joined c i q ->
  pending_handshake_counter (session ps) = 0 \/
    offered c ls i q (pending_handshake_counter (session ps)) (env_keypair m).1 ->
  is_u64 (pending_handshake_counter (session ps)).
Proof.
  intros HA [_ _ _ Hc _] Hn Hr Hq Hj [->|(x & Hx & Hp & Ht & _ & <- & _)]; [done|]. rewrite Hr in Hc.
  destruct Hc as [Hb Hlt]. assert (x ∈ greetings ls) as Hg.
  { apply list_elem_of_filter. split; [rewrite Ht; apply handshake_type_data|done]. }
  specialize (Hlt x Hg Hp). destruct (Forall_in (tr_letters _ _ _ _ _ HA) _ Hx) as (q' & [Hq' _] & H).
  rewrite Hp, (proj1 Hj) in Hq'. injection Hq' as <-. destruct H as [(_ & _ & _ & H)|(Hd & _)].
  - rewrite Hq in H. unfold is_u64. lia.
  - rewrite Ht in Hd. by destruct (handshake_type_data (peer_role q)).
Qed.

(** Nothing was delivered yet under a key that is new. *)
Lemma none_delivered w xs vs a v :
  Forall (delivery_ok w xs) vs -> NoDup (receiving (a_peer a) (xs ++ [a])) -> v ∈ vs -> v_peer v = a_peer a ->
  v_key v <> rx (a_keys a).
Proof.
  intros Hd Hnd Hv Hp Hk. destruct (Forall_in Hd _ Hv) as [(b & Hb & Hbp & Ek) _].
  unfold receiving in Hnd. rewrite filter_app, map_app in Hnd. apply NoDup_app in Hnd as (_ & Hnd & _).
  apply (Hnd (v_key v)).
  - apply list_elem_of_fmap. exists b. split; [done|]. apply list_elem_of_filter. split; [congruence|done].
  - rewrite Hk. apply list_elem_of_fmap. exists a. split; [done|]. apply list_elem_of_filter.
    split; [done|by apply list_elem_of_singleton].
Qed.

(** The session of an accord just made. *)
Lemma opened_now w xs vs a s i :
  Forall (delivery_ok w xs) vs -> a_peer a = i -> a_keys a = data_keys s -> window_rep s [] ->
  (exists b, b ∈ xs ++ [a] /\ a_peer b = i /\ a_keys b = data_keys s) /\
  exists acc, window_rep s acc /\ (NoDup (receiving i (xs ++ [a])) ->
    forall v, v ∈ vs -> v_peer v = i -> v_key v = rx (data_keys s) -> v_counter v ∈ acc).
Proof.
  intros Hd <- Ek Hw. split; [exists a; split; [apply elem_of_app; right; by apply list_elem_of_singleton|done]|].
  exists []. split; [done|]. intros Hnd v Hv Hp Hk. rewrite <- Ek in Hk. by destruct (none_delivered w xs vs a v Hd Hnd Hv Hp).
Qed.

(** What was delivered stays delivered once. *)
Lemma once_kept w ls xs vs i nx :
  accounts c w ls xs vs -> NoDup (receiving i (xs ++ nx)) -> NoDup (opened_nonces i vs).
Proof.
  intros HA Hnd. apply (tr_once _ _ _ _ _ HA). unfold receiving in *. rewrite filter_app, map_app in Hnd.
  by apply NoDup_app in Hnd as [? _].
Qed.

Section Step.
  Context (n : nat) (w : world) (ls : list letter) (xs : list accord) (vs : list delivery) (l : list peer_session_t).
  Context (T : transcript c n w ls xs vs l) (Hn : Z.of_nat n < 2 ^ 62).

Let HA : accounts c w ls xs vs := tr_accounts _ _ _ _ _ _ _ T.

Lemma transcript_attempt i ps w' fd rc :
  l !! i = Some ps -> role (session ps) = CRYPTO_ROLE_INITIATOR ->
  emits (tick w) w' (EvSend fd (addr ps)
    (message SESSION_MSG_HANDSHAKE_INIT (tx (static_keys (session ps))) (handshake_counter (session ps))
       (env_keypair (w_calls w)).1) rc) ->
  exists nl, transcript c (S n) w' (ls ++ nl) xs vs
    (<[i := set_session (attempted (env_keypair (w_calls w)) (session ps)) ps]> l).
Proof.
  intros Hi Hr He. pose proof (tr_parties _ _ _ _ _ _ _ T i ps Hi) as [(q & Hq & Er & Es & _) _ _ Hc Ht].
  rewrite Hr in Hc. destruct Hc as [Hb Hlt]. pose proof (proj2 He) as Hw. cbn in Hw.
  destruct (mail_sent _ _ _ _ _ _ He) as [Em Eh].
  assert (u64 (handshake_counter (session ps) + 1) = handshake_counter (session ps) + 1) as Eu
    by (apply u64_small; unfold is_u64; lia).
  assert (peer_role q = CRYPTO_ROLE_INITIATOR) as Hqr by congruence.
  set (x := {| l_peer := i; l_type := handshake_type (peer_role q); l_key := tx (static_of c q);
    l_counter := handshake_counter (session ps); l_payload := (env_keypair (w_calls w)).1; l_read := None;
    l_taken := negb (rc <? 0) |}).
  assert (l_type x <> SESSION_MSG_DATA) as Hx by apply handshake_type_data.
  exists [x]. pose proof (transcript_act c n w w' ls [x] xs [] vs [] l i ps) as A. rewrite !app_nil_r in A. eapply A; clear A; try done.
  - lia.
  - rewrite Em. cbn. unfold letter_text. cbn. by rewrite Hqr, Es.
  - by constructor.
  - constructor; [|done]. exists q. split; [done|]. left. cbn. rewrite Hqr. auto with lia.
  - rewrite omap_app. cbn. rewrite app_nil_r. apply (tr_order _ _ _ _ _ HA).
  - apply greetings_fresh; [apply (tr_nonces _ _ _ _ _ HA)|]. intros _ y Hy Hp. specialize (Hlt y Hy Hp). cbn. lia.
  - apply (tr_once _ _ _ _ _ HA).
  - split.
    + exists q. do 3 (split; [done|]). intros _. exists (w_calls w). split; [done|]. cbn. split; [by destruct (env_keypair _)|].
      intros _. right. apply offered_new.
    + intros _. exact (window_rep_reset (highest_rx_counter (session ps)) (session ps)).
    + done.
    + cbn. rewrite Hr, Eu. split; [lia|]. intros y [Hy| ->]%greetings_snoc Hp; [|cbn; lia]. specialize (Hlt y Hy Hp). lia.
    + rewrite traffic_greeting by done. exact Ht.
Qed.

Lemma transcript_answer i ps inp cn peer s1 w1 w' keys fd dest rc :
  l !! i = Some ps -> got w inp -> acceptable_init (session ps) inp cn peer ->
  responder_attempt (session ps) w = (s1, w1) -> exchange s1 peer = (0, keys) ->
  emits w1 w' (EvSend fd dest
    (message SESSION_MSG_HANDSHAKE_RESPONSE (tx (static_keys (session ps))) cn (local_eph_pk s1)) rc) ->
  exists nl nx, transcript c (S n) w' (ls ++ nl) (xs ++ nx) vs
    (<[i := set_session (responder_established keys cn s1) ps]> l).
Proof.
  intros Hi Hg (Hr & -> & Lp & Hcn & Hnew) Ea Ek He. pose proof (tr_parties _ _ _ _ _ _ _ T i ps Hi) as Hp.
  destruct (attempt_remembered _ _ _ _ _ _ _ _ _ Hp Hr Ea) as (Hw1 & Em1 & Eh1 & Hs1 & Hwin & m & Hm & Epair).
  destruct (responder_attempt_keeps _ _ _ _ Ea) as (Er1 & Es1 & E1 & E2).
  destruct Hp as [(q & Hq & Er & Es & _) _ _ Hc Ht]. rewrite Hr in Hc.
  assert (peer_role q = CRYPTO_ROLE_RESPONDER) as Hqr by congruence.
  pose proof (proj2 He) as Hw. destruct (mail_sent _ _ _ _ _ _ He) as [Em Eh].
  assert (local_eph_pk s1 = (env_keypair m).1) as Epk by (by rewrite <- Epair).
  set (x := {| l_peer := i; l_type := handshake_type (peer_role q); l_key := tx (static_of c q); l_counter := cn;
    l_payload := (env_keypair m).1; l_read := None; l_taken := negb (rc <? 0) |}).
  set (a := {| a_peer := i; a_counter := cn; a_draw := m; a_remote := peer; a_keys := keys |}).
  exists [x], [a]. pose proof (transcript_act c n w w' ls [x] xs [a] vs [] l i ps) as A. rewrite !app_nil_r in A.
  eapply A; clear A; try done; [lia|..].
  - rewrite Em, Em1. cbn. unfold letter_text. cbn. by rewrite Hqr, <- Es, Epk.
  - by rewrite Eh, Eh1.
  - by constructor.
  - by constructor.
  - constructor; [|done]. exists q. split; [done|]. left. cbn. rewrite Hqr. do 3 (split; [done|]). exists a.
    split; [apply elem_of_app; right; by apply list_elem_of_singleton|done].
  - constructor; [|done]. exists q, (data_keys s1). split; [done|]. split; [cbn; lia|]. do 2 (split; [done|]).
    split; [cbn; rewrite Hqr; cbn; rewrite <- Es; eapply got_mono; [|exact Hg]; lia|].
    split; [|right; apply offered_new]. cbn. rewrite <- Epair, Hqr. cbn. unfold exchange in Ek. by rewrite Er1, Hr in Ek.
  - rewrite omap_app. cbn. rewrite app_nil_r. apply (tr_order _ _ _ _ _ HA).
  - apply greetings_fresh; [apply (tr_nonces _ _ _ _ _ HA)|]. intros _ y Hy Hpy. destruct (Hc y Hy Hpy) as [Hsn Hle].
    specialize (Hnew Hsn). cbn. lia.
  - by apply (once_kept _ _ _ _ i [a] HA).
  - split.
    + exists q. split; [done|]. cbn. by rewrite Er1, Es1.
    + done.
    + intros _. by apply (opened_now w _ _ a _ _ (tr_deliveries _ _ _ _ _ HA)).
    + cbn. rewrite Er1, Hr. intros y [Hy| ->]%greetings_snoc Hpy; [|by split]. destruct (Hc y Hy Hpy) as [Hsn Hle].
      specialize (Hnew Hsn). split; [done|lia].
    + rewrite traffic_greeting by apply handshake_type_data. exact Ht.
Qed.

Lemma transcript_refuse i ps inp cn peer s1 w1 keys :
  l !! i = Some ps -> acceptable_init (session ps) inp cn peer -> responder_attempt (session ps) w = (s1, w1) ->
  transcript c (S n) w1 ls xs vs (<[i := set_session (set_data_keys keys s1) ps]> l).
Proof.
  intros Hi (Hr & _) Ea. pose proof (tr_parties _ _ _ _ _ _ _ T i ps Hi) as Hp.
  destruct (attempt_remembered _ _ _ _ _ _ _ _ _ Hp Hr Ea) as (Hw1 & Em1 & Eh1 & Hs1 & Hwin & m & Hm & Epair).
  destruct (responder_attempt_keeps _ _ _ _ Ea) as (Er1 & Es1 & E1 & E2).
  destruct Hp as [(q & Hq & Er & Es & _) _ _ Hc Ht]. rewrite Hr in Hc. eapply transcript_keep; try done. split.
  - exists q. split; [done|]. cbn. rewrite Er1, Es1. do 2 (split; [done|]). intros _. exists m. do 2 (split; [done|]). congruence.
  - done.
  - cbn. congruence.
  - cbn. by rewrite Er1, Hr, E1, E2.
  - exact Ht.
Qed.

Lemma transcript_complete i ps inp peer keys :
  l !! i = Some ps -> got w inp -> acceptable_response (session ps) inp peer -> exchange (session ps) peer = (0, keys) ->
  exists nx, transcript c (S n) w ls (xs ++ nx) vs (<[i := set_session (initiator_established keys (session ps)) ps]> l).
Proof.
  intros Hi Hg (Hr & Hs & -> & Lp) Ek. pose proof (tr_parties _ _ _ _ _ _ _ T i ps Hi) as Hp.
  pose proof Hp as [(q & Hq & Er & Es & He) Hf _ Hc Ht]. rewrite Hr in Hc.
  assert (peer_role q = CRYPTO_ROLE_INITIATOR) as Hqr by congruence. destruct (He Hs) as (m & Hm & Epair & Ho). specialize (Ho Hqr).
  set (a := {| a_peer := i; a_counter := pending_handshake_counter (session ps); a_draw := m; a_remote := peer; a_keys := keys |}).
  exists [a]. pose proof (transcript_act c n w w ls [] xs [a] vs [] l i ps) as A. cbn [map] in A. rewrite !app_nil_r in A.
  eapply A; clear A; try done.
  - by constructor.
  - constructor; [|done]. exists q, (data_keys (session ps)). do 2 (split; [done|]).
    split; [by eapply (pending_is_u64 _ _ _ _ _ _ _ q m HA Hp)|]. split; [done|].
    split; [cbn; rewrite Hqr; cbn; by rewrite <- Es|]. split; [|cbn; destruct Ho; auto].
    cbn. rewrite <- Epair, Hqr. cbn. unfold exchange in Ek. by rewrite Hr in Ek.
  - apply (tr_order _ _ _ _ _ HA).
  - apply (tr_nonces _ _ _ _ _ HA).
  - by apply (once_kept _ _ _ _ i [a] HA).
  - split.
    + by exists q.
    + done.
    + intros _. apply (opened_now w _ _ a _ _ (tr_deliveries _ _ _ _ _ HA)); [done|done|by apply Hf].
    + cbn. rewrite Hr. destruct Hc. split; [lia|done].
    + exact Ht.
Qed.

Lemma transcript_fail i ps inp peer keys :
  l !! i = Some ps -> acceptable_response (session ps) inp peer ->
  transcript c (S n) w ls xs vs (<[i := set_session (set_data_keys keys (session ps)) ps]> l).
Proof.
  intros Hi (Hr & Hs & _). pose proof (tr_parties _ _ _ _ _ _ _ T i ps Hi) as Hp.
  eapply transcript_keep; try done. apply (party_mono _ n (S n) w w) in Hp as [H1 H2 _ H4 H5]; [|lia|done].
  split; try done. cbn. congruence.
Qed.

(** A data message leaves. *)
Lemma transcript_send i ps w' p fd rc :
  l !! i = Some ps -> state (session ps) = SESSION_STATE_ESTABLISHED -> carries c w w' i p ->
  emits w w' (EvSend fd (addr ps)
    (message SESSION_MSG_DATA (tx (data_keys (session ps))) (tx_counter (session ps)) p) rc) ->
  exists nl, transcript c (S n) w' (ls ++ nl) xs vs
    (<[i := count_sent rc (zlen p + 25) (set_session (advanced (session ps)) ps)]> l).
Proof.
  intros Hi Hs Hcar He. pose proof (tr_parties _ _ _ _ _ _ _ T i ps Hi) as Hp.
  pose proof (proj2 He) as Hw. destruct (mail_sent _ _ _ _ _ _ He) as [Em Eh].
  assert (exists r, payload_ok c w' i r p /\ forall k, r = Some k -> k = w_calls w) as (r & Hpay & Hr).
  { destruct Hcar as [->|(data & Er & Hlt & Ep & Hrt)]; [by exists None|].
    exists (Some (w_calls w)). split; [|by intros k [= <-]]. split; [done|]. by exists data. }
  set (x := {| l_peer := i; l_type := SESSION_MSG_DATA; l_key := tx (data_keys (session ps));
    l_counter := tx_counter (session ps); l_payload := p; l_read := r; l_taken := negb (rc <? 0) |}).
  set (ps' := count_sent rc (zlen p + 25) (set_session (advanced (session ps)) ps)).
  assert (session ps' = advanced (session ps)) as Es' by (unfold ps', count_sent; by destruct (_ <? 0)).
  destruct Hp as [(q & Hq & Er & Es & _) _ Ho Hc Ht]. destruct (Ho Hs) as [(a & Ha & Hap & Hak) Hacc].
  exists [x]. pose proof (transcript_act c n w w' ls [x] xs [] vs [] l i ps ps') as A. rewrite !app_nil_r in A. apply A; clear A; try done.
  - by constructor.
  - constructor; [|done]. exists q. split; [done|]. right. split; [done|]. split; [exists a; by rewrite Hak|done].
  - rewrite omap_app. cbn. pose proof (tr_order _ _ _ _ _ HA) as Hord. destruct r as [k|]; [|by rewrite app_nil_r].
    rewrite (Hr k eq_refl). apply StronglySorted_snoc; [done|]. apply Forall_forall. intros k' (y & Hy & Ek)%list_elem_of_omap.
    destruct (Forall_in (tr_letters _ _ _ _ _ HA) _ Hy) as (q' & _ & [(_ & _ & Hno & _)|(_ & _ & Hpy)]); [congruence|].
    rewrite Ek in Hpy. apply Hpy.
  - rewrite greetings_data by done. apply (tr_nonces _ _ _ _ _ HA).
  - apply (tr_once _ _ _ _ _ HA).
  - split; rewrite ?Es'.
    + exists q. do 3 (split; [done|]). cbn. congruence.
    + cbn. congruence.
    + intros _. split; [by exists a|exact Hacc].
    + rewrite greetings_data by done. cbn. destruct (role (session ps)); [destruct Hc; split; [lia|done]|done].
    + by apply (traffic_sent i ls vs x rc).
Qed.

(** A data message is heard. *)
Lemma heard s acc cn s' :
  window_rep s acc -> is_u64 cn -> replay_check_and_mark s cn = Some (true, s') ->
  (cn ∉ acc) /\ window_rep s' (cn :: acc) /\ exists h win, s' = set_replay true h win s.
Proof.
  intros Hw Hc E. destruct (replay_step _ _ _ Hw Hc) as (s2 & E' & H). rewrite E in E'. injection E' as Hb <-.
  symmetry in Hb. apply bool_decide_eq_true in Hb. rewrite decide_True in H by done. destruct Hb. by destruct H.
Qed.

Lemma party_heard i ps ps' cn s w' nv :
  party c n w ls xs vs i ps -> state (session ps) = SESSION_STATE_ESTABLISHED -> is_u64 cn ->
  replay_check_and_mark (session ps) cn = Some (true, s) -> session ps' = s -> (w_calls w <= w_calls w')%nat ->
  Forall (fun v => v_counter v = cn) nv -> traffic ps' = traffic_total i ls (vs ++ nv) ->
  party c (S n) w' ls xs (vs ++ nv) i ps'.
Proof.
  intros [(q & Hq & Er & Es & _) _ Ho Hc _] Hs Hcn Erep <- Hw Hnv Ht. destruct (Ho Hs) as [Ha (acc & Hwin & Hd)].
  destruct (heard _ _ _ _ Hwin Hcn Erep) as (_ & Hwin' & h & win & E). rewrite E in Hwin'. split; rewrite ?E; cbn.
  - exists q. do 3 (split; [done|]). congruence.
  - congruence.
  - intros _. split; [done|]. exists (cn :: acc). split; [done|]. intros Hnd v [Hv|Hv]%elem_of_app Hp Hk.
    + right. by apply Hd.
    + rewrite (Forall_in Hnv _ Hv). left.
  - destruct (role (session ps)); [destruct Hc; split; [lia|done]|done].
  - done.
Qed.

Lemma transcript_hear i ps cn s :
  l !! i = Some ps -> state (session ps) = SESSION_STATE_ESTABLISHED -> is_u64 cn ->
  replay_check_and_mark (session ps) cn = Some (true, s) -> transcript c (S n) w ls xs vs (<[i := set_session s ps]> l).
Proof.
  intros Hi Hs Hcn Er. pose proof (tr_parties _ _ _ _ _ _ _ T i ps Hi) as Hp. eapply transcript_keep; try done.
  rewrite <- (app_nil_r vs). eapply party_heard; try done. rewrite app_nil_r. apply (pt_traffic _ _ _ _ _ _ _ _ Hp).
Qed.

Lemma transcript_deliver i ps w' cn p s fd rc :
  l !! i = Some ps -> state (session ps) = SESSION_STATE_ESTABLISHED -> is_u64 cn -> p <> [] ->
  got w (message SESSION_MSG_DATA (rx (data_keys (session ps))) cn p) ->
  replay_check_and_mark (session ps) cn = Some (true, s) -> emits w w' (EvTunWrite fd p rc) ->
  exists nv, transcript c (S n) w' ls xs (vs ++ nv) (<[i := count_delivered rc (zlen p + 25) (set_session s ps)]> l).
Proof.
  intros Hi Hs Hcn Hne Hg Erep He. pose proof (tr_parties _ _ _ _ _ _ _ T i ps Hi) as Hp.
  pose proof (proj2 He) as Hw. destruct (mail_written _ _ _ _ _ He) as [Em Eh].
  set (v := {| v_peer := i; v_key := rx (data_keys (session ps)); v_counter := cn; v_packet := p; v_taken := negb (rc <? 0) |}).
  destruct (pt_open _ _ _ _ _ _ _ _ Hp Hs) as [(a & Ha & Hap & Hak) (acc & Hwin & Hd)].
  exists [v]. pose proof (transcript_act c n w w' ls [] xs [] vs [v] l i ps) as A. cbn [map] in A. rewrite !app_nil_r in A.
  eapply A; clear A; try done.
  - by constructor.
  - constructor; [|done]. split; [exists a; by rewrite Hak|]. split; [by eapply got_mono|done].
  - apply (tr_order _ _ _ _ _ HA).
  - apply (tr_nonces _ _ _ _ _ HA).
  - intros Hnd. unfold opened_nonces. rewrite filter_app, filter_cons, filter_nil, decide_True by done. rewrite map_app.
    apply NoDup_snoc. split; [by apply (tr_once _ _ _ _ _ HA)|]. intros (v' & E & [Hp' Hv']%list_elem_of_filter)%list_elem_of_fmap.
    injection E as E1 E2. destruct (heard _ _ _ _ Hwin Hcn Erep) as [Hfr _]. apply Hfr. cbn in E2. rewrite E2. by apply Hd.
  - eapply party_heard; try done.
    + unfold count_delivered. by destruct (_ <? 0).
    + by constructor.
    + apply (traffic_delivered i ls vs v rc); [|done|done]. apply (pt_traffic _ _ _ _ _ _ _ _ Hp).
Qed.

(** A peer joins. *)
Lemma transcript_join q s w' :
  clock_is_set -> peers c !! length l = Some q -> joins c q w = Some ((0, s), w') ->
  transcript c (S n) w' ls xs vs (l ++ [set_session s (new_peer q)]).
Proof.
  intros Hclk Hq E. pose proof (only_session_init plain _ _ _ _ _ _ _ E) as Ha. destruct (mail_plain _ _ Ha) as [Em Eh].
  unfold joins in E. pose proof (session_init_eq (peer_role q) (crypto_derive_public_key (private_key c)) (private_key c) (public_key q) w) as E'.
  destruct (crypto_derive_session_keys _ _ _ _ _) as [rc keys] eqn:Ek. rewrite E' in E. case_decide; simplify_eq.
  pose proof (proj2 Ha) as Hw. pose proof T as [_ [Hr1 Hr2] H9]. split; [by eapply accounts_mono|..].
  - rewrite length_app. split; (eapply Forall_impl; [eassumption|]; cbn; lia).
  - intros i ps [Hps|[Hge Hps]]%lookup_app_Some; [eapply party_mono; [| |by apply H9]; [lia|done]|].
    apply list_lookup_singleton_Some in Hps as [Hz <-]. assert (i = length l) as -> by lia.
    assert (forall x, x ∈ ls -> l_peer x <> length l) as Hno by (intros x Hx%(Forall_in Hr1); lia).
    split.
    + exists q. split; [split; [done|by rewrite Ek]|]. split; [done|]. split; [unfold static_of; by rewrite Ek|].
      intros _. exists (S (w_calls w)). split; [cbn; lia|]. cbn. split; [by destruct (env_keypair _)|by left].
    + intros _. exact (window_rep_reset _ _).
    + done.
    + cbn. specialize (Hclk (w_calls w)). rewrite u64_small by (unfold is_u64; lia).
      destruct (peer_role q); [split; [lia|]|]; intros x [_ Hx]%list_elem_of_filter Hp; by destruct (Hno x Hx).
    + assert (forall f, sent_total f (length l) ls = 0) as E1
        by (intros f; apply (sent_total_other f _ []); by apply Forall_forall).
      assert (forall f, received_total f (length l) vs = 0) as E2
        by (intros f; apply (received_total_other f _ []); eapply Forall_impl; [exact Hr2|]; cbn; lia).
      unfold traffic_total. by rewrite !E1, !E2.
Qed.
End Step.

Lemma transcript_step n ls xs vs w l w' l' :
  transcript c n w ls xs vs l -> Z.of_nat n < 2 ^ 62 -> clock_is_set -> step c (w, l) (w', l') ->
  exists nl nx nv, transcript c (S n) w' (ls ++ nl) (xs ++ nx) (vs ++ nv) l'.
Proof.
  intros T Hn Hclk Hs. inversion Hs; subst; clear Hs.
  - exists [], [], []. rewrite !app_nil_r. by eapply transcript_join.
  - match goal with E : emits _ _ _ |- _ => eapply (transcript_attempt _ _ _ _ _ _ T Hn) in E as [nl T']; [|done..] end.
    exists nl, [], []. by rewrite !app_nil_r.
  - match goal with E : emits _ _ _ |- _ => eapply (transcript_answer _ _ _ _ _ _ T) in E as (nl & nx & T'); [|done..] end.
    exists nl, nx, []. by rewrite !app_nil_r.
  - exists [], [], []. rewrite !app_nil_r. by eapply transcript_refuse.
  - match goal with E : exchange _ _ = _ |- _ => eapply (transcript_complete _ _ _ _ _ _ T Hn) in E as [nx T']; [|done..] end.
    exists [], nx, []. by rewrite !app_nil_r.
  - exists [], [], []. rewrite !app_nil_r. by eapply transcript_fail.
  - match goal with E : emits _ _ _ |- _ => eapply (transcript_send _ _ _ _ _ _ T) in E as [nl T']; [|done..] end.
    exists nl, [], []. by rewrite !app_nil_r.
  - match goal with E : emits _ _ _ |- _ => eapply (transcript_deliver _ _ _ _ _ _ T) in E as [nv T']; [|done..] end.
    exists [], [], nv. by rewrite !app_nil_r.
  - exists [], [], []. rewrite !app_nil_r. by eapply transcript_hear.
Qed.

Lemma transcript_quiet n ls xs vs b b' :
  quiet_step b b' -> transcript c n b.1 ls xs vs b.2 -> transcript c n b'.1 ls xs vs b'.2.
Proof.
  intros Hq [HA Hr H10]. destruct Hq as [w w' l Ha|w l i ps ps' Hi Hs]; cbn [fst snd] in *.
  - destruct (mail_plain _ _ Ha) as [Em Eh]. pose proof (proj2 Ha) as Hw. split; [by eapply accounts_mono|done|].
    intros i ps Hi. by eapply party_mono; [..|by apply H10].
  - split; rewrite ?length_insert; try done.
    intros j q [(<- & <- & _)|[_ Hq]]%list_lookup_insert_Some; [|by apply H10]. eapply party_noted; [exact Hs|by apply H10].
Qed.

Lemma transcript_path k a b :
  clock_is_set -> Z.of_nat k < 2 ^ 62 -> path c k a b -> wire a.1 = [] -> a.2 = [] ->
  exists ls xs vs, transcript c k b.1 ls xs vs b.2.
Proof.
  intros Hclk Hk Hp Ha Hl. induction Hp as [[w l]|k a b b' _ IH Hq|k a [w l] [w' l'] _ IH Hs].
  - cbn [fst snd] in *. subst l. exists [], [], []. split; [|by split|done].
    split; try constructor; unfold mail, handed; by rewrite Ha.
  - destruct (IH Hk Ha Hl) as (ls & xs & vs & T). exists ls, xs, vs. by eapply transcript_quiet.
  - destruct (IH ltac:(lia) Ha Hl) as (ls & xs & vs & T).
    destruct (transcript_step k ls xs vs w l w' l' T ltac:(lia) Hclk Hs) as (nl & nx & nv & T'). by eauto.
Qed.

(** Every run of the program has a transcript. *)
Lemma run_transcript fuel installed cipher0 plain0 w d w1 :
  cfg d = c -> length cipher0 = SEALED_BUF_SIZE -> length plain0 = MAX_PACKET_SIZE -> wire w = [] ->
  clock_is_set -> Z.of_nat fuel < 2 ^ 56 -> start cipher0 plain0 w = Some (Some d, w1) ->
  exists ended d' w2 n ls xs vs, main_loop fuel installed d w1 = Some ((ended, d'), w2) /\
    transcript c n w2 ls xs vs (d_peers d').
Proof.
  intros Ecfg Hc Hp Ew Hclk Hf E1.
  destruct (loop_path fuel installed cipher0 plain0 w d w1 Hc Hp Ew E1) as (ended & d' & w2 & n & E2 & Hn & H).
  assert (Z.of_nat n < 2 ^ 62) as Hn' by (change round_steps with 26%nat in Hn; change CONFIG_MAX_PEERS with 8%nat in Hn; lia).
  rewrite Ecfg in H. destruct (transcript_path n _ _ Hclk Hn' H Ew eq_refl) as (ls & xs & vs & T).
  by exists ended, d', w2, n, ls, xs, vs.
Qed.
End Loop.
