(* ===== verification/Flows.v ===== *)
(** * What whole runs exchange, peer by peer

    The readings of the transcript: to whom the packets go, from whom they
    come, and what the traffic counters of each peer say. *)

From stdpp Require Import sorting.
From Stdlib Require Import String.
From S2P Require Import Prelude World Crypto Toy Session Replay SessionFacts SessionRuns Libc Config.
From S2P Require Import ConfigFacts Routing Log LogSpec Net Daemon DaemonFacts DaemonInput DaemonStart.
From S2P Require Import Effects Steps Scenario History HistoryLoop HistorySpec Handshakes Transcript TranscriptLoop.
Open Scope list_scope.

Section Claims.
  Context `{SO : Sodium} {SL : SodiumLaws} `{EV : Env} {EL : EnvLaws} {CL : ClockLaws} {IL : IoLaws}.

(** C6. A packet leaves only for the peer it is routed to.  In a run of any
    length, every datagram the program hands to the kernel belongs to one
    configured peer.  It is a handshake message under the static key of that
    peer, or a data message under a key agreed in an exchange that was
    authenticated by that peer's long-term key; then it is a keepalive or
    carries a packet that the program read from the TUN device and whose
    destination the routing table gives to that peer.  Packets leave in the
    order they were read, each at most once. *)
Theorem packets_go_to_their_peer fuel installed cipher0 plain0 w d w1 :
  length cipher0 = SEALED_BUF_SIZE -> length plain0 = MAX_PACKET_SIZE -> wire w = [] ->
  clock_is_set -> Z.of_nat fuel < 2 ^ 56 -> start cipher0 plain0 w = Some (Some d, w1) ->
  exists ended d' w2 ls xs, main_loop fuel installed d w1 = Some ((ended, d'), w2) /\
    mail w2 = map (fun x => (letter_text x, l_taken x)) ls /\ Forall (letter_ok (cfg d) w2 xs) ls /\
    Forall (accord_ok (cfg d) w2 ls) xs /\ StronglySorted lt (omap l_read ls).
Proof.
  intros Hc Hp Ew Hclk Hf E1.
  destruct (run_transcript _ fuel installed cipher0 plain0 w d w1 eq_refl Hc Hp Ew Hclk Hf E1)
    as (ended & d' & w2 & n & ls & xs & vs & E2 & [[H1 _ H3 H4 _ H6 _ _] _ _]). by exists ended, d', w2, ls, xs.
Qed.

(** C10. What reaches the TUN device came from a configured peer.  In a run of
    any length, every packet written to the device is the payload of a data
    message received before, sealed under a key agreed in an exchange that was
    authenticated by the long-term key of one of the configured peers; and no
    two packets of a peer were opened under the same key and counter, unless
    two exchanges with the peer gave the same key. *)
Theorem packets_come_from_a_peer fuel installed cipher0 plain0 w d w1 :
  length cipher0 = SEALED_BUF_SIZE -> length plain0 = MAX_PACKET_SIZE -> wire w = [] ->
  clock_is_set -> Z.of_nat fuel < 2 ^ 56 -> start cipher0 plain0 w = Some (Some d, w1) ->
  exists ended d' w2 ls xs vs, main_loop fuel installed d w1 = Some ((ended, d'), w2) /\
    handed w2 = map (fun v => (v_packet v, v_taken v)) vs /\ Forall (delivery_ok w2 xs) vs /\
    Forall (accord_ok (cfg d) w2 ls) xs /\
    forall i, NoDup (receiving i xs) -> NoDup (opened_nonces i vs).
Proof.
  intros Hc Hp Ew Hclk Hf E1.
  destruct (run_transcript _ fuel installed cipher0 plain0 w d w1 eq_refl Hc Hp Ew Hclk Hf E1)
    as (ended & d' & w2 & n & ls & xs & vs & E2 & [[_ H2 _ H4 H5 _ _ H8] _ _]). by exists ended, d', w2, ls, xs, vs.
Qed.

(** C30. The traffic counters are accurate, for each peer.  At any moment of a
    run, after any number of rounds of the poll loop, the counters of a peer
    are, modulo 2^64, what really passed between the program and that peer:
    packets and bytes sent are the data messages of the peer (keepalives
    included) that the kernel took, with their sizes on the wire, and packets
    and bytes received are the packets of the peer that the TUN device took,
    with the sizes of the datagrams they came in.  What failed to be sent or
    written, and handshakes, are not counted. *)
Theorem statistics_are_accurate fuel installed cipher0 plain0 w d w1 :
  length cipher0 = SEALED_BUF_SIZE -> length plain0 = MAX_PACKET_SIZE -> wire w = [] ->
  clock_is_set -> Z.of_nat fuel < 2 ^ 56 -> start cipher0 plain0 w = Some (Some d, w1) ->
  exists ended d' w2 ls xs vs, main_loop fuel installed d w1 = Some ((ended, d'), w2) /\
    accounts (cfg d) w2 ls xs vs /\
    forall i ps, d_peers d' !! i = Some ps ->
      stat_packets_tx (stats ps) = u64 (sent_total one i ls) /\ stat_bytes_tx (stats ps) = u64 (sent_total size i ls) /\
      stat_packets_rx (stats ps) = u64 (received_total one i vs) /\
      stat_bytes_rx (stats ps) = u64 (received_total size i vs).
Proof.
  intros Hc Hp Ew Hclk Hf E1.
  destruct (run_transcript _ fuel installed cipher0 plain0 w d w1 eq_refl Hc Hp Ew Hclk Hf E1)
    as (ended & d' & w2 & n & ls & xs & vs & E2 & [HA _ Hps]). exists ended, d', w2, ls, xs, vs.
  split; [done|]. split; [done|]. intros i ps Hi. pose proof (pt_traffic _ _ _ _ _ _ _ _ (Hps i ps Hi)) as Ht.
  unfold traffic, traffic_total in Ht. by simplify_eq.
Qed.
End Claims.

(** The run of HistorySpec: three packets out, one in. *)
Lemma story_flows :
  length (data_datagrams (wire story_rounds.2)) = 3%nat /\ tun_packets (wire story_rounds.2) = [packet1].
Proof. by vm_compute. Qed.

Lemma story_clock_set : clock_is_set (EV:=story).
Proof. intros k. cbn. lia. Qed.

Ltac story_run := first [exact story_clock_set | exact story_started | by vm_compute].

Lemma packets_go_to_their_peer_witness :
  length (data_datagrams (wire story_rounds.2)) = 3%nat /\
  exists ended d' w2 ls xs, main_loop (EV:=story) 4 0 story_start.1 story_start.2 = Some ((ended, d'), w2) /\
    mail w2 = map (fun x => (letter_text x, l_taken x)) ls /\ Forall (letter_ok (EV:=story) (cfg story_start.1) w2 xs) ls /\
    Forall (accord_ok (EV:=story) (cfg story_start.1) w2 ls) xs /\ StronglySorted lt (omap l_read ls).
Proof.
  split; [apply story_flows|].
  apply (packets_go_to_their_peer (EV:=story) 4 0 cipher0 plain0 story_world); story_run.
Defined.

Lemma packets_come_from_a_peer_witness :
  tun_packets (wire story_rounds.2) = [packet1] /\
  exists ended d' w2 ls xs vs, main_loop (EV:=story) 4 0 story_start.1 story_start.2 = Some ((ended, d'), w2) /\
    handed w2 = map (fun v => (v_packet v, v_taken v)) vs /\ Forall (delivery_ok (EV:=story) w2 xs) vs /\
    Forall (accord_ok (EV:=story) (cfg story_start.1) w2 ls) xs /\
    forall i, NoDup (receiving i xs) -> NoDup (opened_nonces i vs).
Proof.
  split; [apply story_flows|].
  apply (packets_come_from_a_peer (EV:=story) 4 0 cipher0 plain0 story_world); story_run.
Defined.

Lemma story_counts :
  map (fun ps => (stat_packets_tx (stats ps), stat_bytes_tx (stats ps), stat_packets_rx (stats ps),
    stat_bytes_rx (stats ps))) (d_peers story_rounds.1) = [(3, 144, 1, 48); (0, 0, 0, 0)].
Proof. by vm_compute. Qed.

Lemma statistics_are_accurate_witness :
  map (fun ps => (stat_packets_tx (stats ps), stat_bytes_tx (stats ps), stat_packets_rx (stats ps),
    stat_bytes_rx (stats ps))) (d_peers story_rounds.1) = [(3, 144, 1, 48); (0, 0, 0, 0)] /\
  exists ended d' w2 ls xs vs, main_loop (EV:=story) 4 0 story_start.1 story_start.2 = Some ((ended, d'), w2) /\
    accounts (EV:=story) (cfg story_start.1) w2 ls xs vs /\
    forall i ps, d_peers d' !! i = Some ps ->
      stat_packets_tx (stats ps) = u64 (sent_total one i ls) /\ stat_bytes_tx (stats ps) = u64 (sent_total size i ls) /\
      stat_packets_rx (stats ps) = u64 (received_total one i vs) /\
      stat_bytes_rx (stats ps) = u64 (received_total size i vs).
Proof.
  split; [exact story_counts|].
  apply (statistics_are_accurate (EV:=story) 4 0 cipher0 plain0 story_world); story_run.
Defined.
