(* ===== verification/Tunnel.v ===== *)
(** * Two programs

    A run of the program at each end of a relationship, each in an outside of
    its own, and a network that loses, repeats, reorders, redirects and makes up
    datagrams but has no message under a key of the relationship that neither
    end sealed.  Nothing is said of the order in which the two runs proceed: the
    transcripts of both are enough to conclude that the keys they agree are the
    same, and that the packets that leave the tunnel at one end are packets
    that entered it at the other, each at most once. *)

From stdpp Require Import sorting.
From Stdlib Require Import String.
From S2P Require Import Prelude World Crypto Toy Session Replay SessionFacts SessionRuns Libc Config.
From S2P Require Import ConfigFacts Routing Log LogSpec Net Daemon DaemonFacts DaemonInput DaemonStart.
From S2P Require Import Effects Steps Scenario History HistoryLoop Handshakes Transcript TranscriptLoop.
Open Scope list_scope.

(** One end: its outside, the final world of its run, its configuration and its
    peer, with the account of the run. *)
Record site := {
  s_env : Env;
  s_world : world;
  s_cfg : edgarvpn_config_t;
  s_index : nat;
  s_peer : config_peer_t;
  s_letters : list letter;
  s_accords : list accord;
  s_deliveries : list delivery
}.

(** What concerns the peer. *)
Definition own_letters (s : site) : list letter := letters_of (s_index s) (s_letters s).
Definition own_accords (s : site) : list accord := accords_of (s_index s) (s_accords s).
Definition own_deliveries (s : site) : list delivery := deliveries_of (s_index s) (s_deliveries s).

(** The letters that carry a packet carry different ones. *)
Lemma read_once ls x y k :
  StronglySorted lt (omap l_read ls) -> x ∈ ls -> y ∈ ls -> l_read x = Some k -> l_read y = Some k -> x = y.
Proof.
  intros Hs Hx Hy Ex Ey. induction ls as [|z ls IH]; [by apply not_elem_of_nil in Hx|].
  assert (forall u, u ∈ ls -> l_read u = Some k -> l_read z = Some k -> False) as Hno.
  { intros u Hu Eu Ez. cbn in Hs. rewrite Ez in Hs. apply StronglySorted_inv in Hs as [_ Hs].
    assert (k ∈ omap l_read ls) as Hk by (apply list_elem_of_omap; by exists u). pose proof (Forall_in Hs _ Hk). lia. }
  apply elem_of_cons in Hx as [->|Hx], Hy as [->|Hy]; [done|by destruct (Hno y)|by destruct (Hno x)|].
  apply IH; try done. cbn in Hs. destruct (l_read z); [by apply StronglySorted_inv in Hs as [? _]|done].
Qed.

Lemma NoDup_map_same {A B} (f : A -> B) l x y : NoDup (map f l) -> x ∈ l -> y ∈ l -> f x = f y -> x = y.
Proof.
  intros Hnd [i Hi]%list_elem_of_lookup [j Hj]%list_elem_of_lookup E.
  assert (i = j) as ->; [|by rewrite Hi in Hj; injection Hj].
  eapply NoDup_lookup; [exact Hnd|..]; rewrite list_lookup_fmap; [by rewrite Hi|]. rewrite Hj. cbn. by rewrite E.
Qed.

Lemma Forall_choose {A B} (P : A -> B -> Prop) l : Forall (fun x => exists y, P x y) l -> exists k, Forall2 P l k.
Proof. induction 1 as [|x l [y Hy] _ [k Hk]]; [by exists []|exists (y :: k); by constructor]. Qed.

(** Different things are matched with different things. *)
Lemma Forall2_NoDup {A B C} (P : A -> B -> Prop) (f : A -> C) l k :
  Forall2 P l k -> (forall x x' y, P x y -> P x' y -> f x = f x') -> NoDup (map f l) -> NoDup k.
Proof.
  intros H Hf. induction H as [|x y l k Hxy H IH]; [by constructor|]. cbn. rewrite !NoDup_cons. intros [Hx Hnd].
  split; [|by apply IH]. intros [i Hi]%list_elem_of_lookup. destruct (Forall2_lookup_r _ _ _ _ _ H Hi) as (x' & Hx' & Hp).
  apply Hx. rewrite (Hf x x' y Hxy Hp). apply list_elem_of_fmap. exists x'. split; [done|]. by eapply list_elem_of_lookup_2.
Qed.

Section Tunnel.
  Context `{SO : Sodium} {SL : SodiumLaws}.

Definition static (s : site) : crypto_session_keys_t := static_of (s_cfg s) (s_peer s).
Definition relation_keys (s : site) : list crypto_session_keys_t := static s :: map a_keys (own_accords s).
Definition accounted (s : site) : Prop :=
  peers (s_cfg s) !! s_index s = Some (s_peer s) /\ @EnvLaws SO (s_env s) /\
  accounts (EV:=s_env s) (s_cfg s) (s_world s) (s_letters s) (s_accords s) (s_deliveries s).

(** The two ends of a relationship: each has the public key of the other, and
    they have different roles. *)
Definition mirrored (a b : site) : Prop :=
  public_key (s_peer a) = crypto_derive_public_key (private_key (s_cfg b)) /\
  public_key (s_peer b) = crypto_derive_public_key (private_key (s_cfg a)) /\
  peer_role (s_peer b) = other_role (peer_role (s_peer a)).

(** The network cannot forge: what [a] receives that is a message under a key
    it receives with, of any type, one of the two ends sealed for the other,
    under that key and counter. *)
Definition unforged (a b : site) : Prop :=
  forall inp t k cn p, got (EV:=s_env a) (s_world a) inp -> k ∈ map rx (relation_keys a) -> is_u64 cn ->
    inp = message t k cn p ->
    exists x, x ∈ own_letters a ++ own_letters b /\ l_key x = k /\ l_counter x = cn /\ l_payload x = p.

(** The exchanges gave no key twice in two rôles: no key to send with is one to
    receive with, no agreed key is a static one, and no two exchanges gave the
    same key to receive with. *)
Definition separated (s : site) : Prop :=
  Forall (fun k => Forall (fun k' => tx k <> rx k') (relation_keys s)) (relation_keys s) /\
  Forall (fun a => tx (a_keys a) <> tx (static s) /\ rx (a_keys a) <> rx (static s)) (own_accords s) /\
  NoDup (receiving (s_index s) (s_accords s)).

Lemma separated_tx_rx s k k' : separated s -> k ∈ relation_keys s -> k' ∈ relation_keys s -> tx k <> rx k'.
Proof. intros [H _] Hk Hk'. exact (Forall_in (Forall_in H _ Hk) _ Hk'). Qed.

Lemma other_role_twice r : other_role (other_role r) = r.
Proof. by destruct r. Qed.
Lemma swap_keys_twice k : swap_keys (swap_keys k) = k.
Proof. by destruct k. Qed.

Lemma mirrored_sym a b : mirrored a b -> mirrored b a.
Proof. intros (H1 & H2 & H3). split; [done|]. split; [done|]. by rewrite H3, other_role_twice. Qed.

(** The static keys of the two ends are mirror images. *)
Lemma static_mirrored_from a b :
  mirrored a b -> joined (s_cfg a) (s_index a) (s_peer a) -> peer_role (s_peer a) = CRYPTO_ROLE_INITIATOR ->
  static b = swap_keys (static a).
Proof.
  intros (E1 & E2 & E3) [_ Hj] Hr. unfold static, static_of. rewrite Hr in E3, Hj |- *. cbn in E3. rewrite E3, E2.
  rewrite E1 in Hj |- *. unfold crypto_derive_public_key in *.
  destruct (crypto_derive_session_keys CRYPTO_ROLE_INITIATOR _ _ _ _) as [rc keys] eqn:Ek. cbn in Hj. subst rc.
  by rewrite (derive_agree _ _ _ zero_keys _ Ek).
Qed.

Lemma static_mirrored a b :
  mirrored a b -> joined (s_cfg a) (s_index a) (s_peer a) -> joined (s_cfg b) (s_index b) (s_peer b) ->
  static b = swap_keys (static a).
Proof.
  intros Hm Ha Hb. destruct (peer_role (s_peer a)) eqn:Hr; [by apply static_mirrored_from|].
  rewrite (static_mirrored_from b a), swap_keys_twice; [done|by apply mirrored_sym|done|].
  destruct Hm as (_ & _ & ->). by rewrite Hr.
Qed.

(** ** What the letters of an end are sealed under *)
Section Site.
  Context (s : site) (HS : accounted s).

Lemma own_peer i q : i = s_index s -> joined (s_cfg s) i q -> q = s_peer s.
Proof. intros -> [Hq _]. destruct HS as [Hp _]. congruence. Qed.

Lemma own_accord a :
  a ∈ own_accords s -> a_peer a = s_index s /\ a_keys a ∈ relation_keys s /\
    accord_ok (EV:=s_env s) (s_cfg s) (s_world s) (s_letters s) a.
Proof.
  intros Ha. pose proof Ha as [Hp Hin]%list_elem_of_filter. split; [done|].
  split; [right; apply list_elem_of_fmap; by exists a|]. destruct HS as (_ & _ & HA). by apply (Forall_in (tr_accords _ _ _ _ _ HA)).
Qed.

Lemma own_letter x :
  x ∈ own_letters s -> joined (s_cfg s) (s_index s) (s_peer s) /\
  ((l_type x = handshake_type (peer_role (s_peer s)) /\ l_key x = tx (static s) /\
    match peer_role (s_peer s) with
    | CRYPTO_ROLE_INITIATOR => 0 < l_counter x
    | CRYPTO_ROLE_RESPONDER => exists a, a ∈ own_accords s /\ a_counter a = l_counter x /\
        (env_keypair (Env:=s_env s) (a_draw a)).1 = l_payload x
    end) \/
   (l_type x = SESSION_MSG_DATA /\ (exists a, a ∈ own_accords s /\ tx (a_keys a) = l_key x) /\
    payload_ok (EV:=s_env s) (s_cfg s) (s_world s) (s_index s) (l_read x) (l_payload x))).
Proof.
  intros [Hp Hx]%list_elem_of_filter. pose proof HS as (_ & _ & HA).
  destruct (Forall_in (tr_letters _ _ _ _ _ HA) _ Hx) as (q & Hq & H). rewrite Hp in Hq, H.
  pose proof (own_peer _ q eq_refl Hq) as ->. split; [done|]. destruct H as [(Ht & Hk & _ & H)|(Ht & (a & Ha & Hap & Hk) & H)].
  - left. split; [done|]. split; [done|]. destruct (peer_role (s_peer s)); [done|]. destruct H as (a & Ha & Hap & H).
    exists a. split; [|done]. by apply list_elem_of_filter.
  - right. split; [done|]. split; [|done]. exists a. split; [|done]. by apply list_elem_of_filter.
Qed.

(** None of them is sealed under a key to receive with. *)
Lemma own_letter_sends x k :
  separated s -> x ∈ own_letters s -> k ∈ relation_keys s -> l_key x <> rx k.
Proof.
  intros Hsep Hx Hk E. destruct (own_letter x Hx) as [_ [(_ & Ek & _)|(_ & (a & Ha & Ek) & _)]].
  - eapply (separated_tx_rx s (static s) k); [done|left|done|congruence].
  - destruct (own_accord a Ha) as (_ & Hin & _). eapply (separated_tx_rx s (a_keys a) k); [done..|congruence].
Qed.
End Site.

(** ** Packets *)

(** The packet of delivery [v] was read from the TUN device at call [k] of the
    run of [b], and was routed to the peer. *)
Definition entered (b : site) (v : delivery) (k : nat) : Prop :=
  exists data, env_tun_read (Env:=s_env b) k = Some data /\ (k < w_calls (s_world b))%nat /\
    v_packet v = take MAX_PACKET_SIZE data /\ route (s_cfg b) (v_packet v) = Some (Z.of_nat (s_index b)).

(** The letter it came in. *)
Definition conveyed (b : site) (v : delivery) (k : nat) : Prop :=
  entered b v k /\ exists x, x ∈ s_letters b /\ l_read x = Some k /\ l_key x = v_key v /\ l_counter x = v_counter v.

Section Pair.
  Context (a b : site) (HA : accounted a) (HB : accounted b) (Hm : mirrored a b).

Lemma delivery_conveyed v : unforged a b -> separated a -> v ∈ own_deliveries a -> exists k, conveyed b v k.
Proof.
  intros Hu Hsep Hv. pose proof Hv as [Hp Hin]%list_elem_of_filter. destruct HA as (_ & _ & Hac).
  destruct (Forall_in (tr_deliveries _ _ _ _ _ Hac) _ Hin) as ((ac & Hac' & Hap & Ek) & Hg & Hcn & Hne).
  assert (ac ∈ own_accords a) as Hown by (apply list_elem_of_filter; split; [congruence|done]).
  destruct (own_accord a HA ac Hown) as (_ & Hkey & (q & _ & Hj & _)).
  assert (q = s_peer a) as -> by (by eapply own_peer; [..|exact Hj]; congruence). rewrite Hap, Hp in Hj.
  destruct (Hu (delivery_text v) SESSION_MSG_DATA (v_key v) (v_counter v) (v_packet v) Hg) as (x & Hx & Exk & Exc & Exp); [|done..|].
  { rewrite <- Ek. apply list_elem_of_fmap. by exists (a_keys ac). }
  apply elem_of_app in Hx as [Hx|Hx].
  { destruct (own_letter_sends a HA x (a_keys ac) Hsep Hx Hkey). congruence. }
  destruct (own_letter b HB x Hx) as [Hjb [(_ & Exs & _)|(_ & _ & Hpay)]].
  { destruct Hsep as (_ & Hst & _). destruct (Forall_in Hst _ Hown) as [_ Hno]. destruct Hno.
    rewrite Ek, <- Exk, Exs, (static_mirrored a b Hm Hj Hjb). by destruct (static a). }
  unfold payload_ok in Hpay. destruct (l_read x) as [k|] eqn:Er; [|congruence].
  destruct Hpay as (Hk & data & Ed & Ep & Hrt). exists k. split; [exists data; rewrite <- Exp; done|].
  exists x. apply list_elem_of_filter in Hx as [_ Hx]. done.
Qed.

Lemma packets_conveyed :
  unforged a b -> separated a -> exists reads, Forall2 (entered b) (own_deliveries a) reads /\ NoDup reads.
Proof.
  intros Hu Hsep. destruct (Forall_choose (conveyed b) (own_deliveries a)) as (reads & H).
  { apply Forall_forall. intros v Hv. by apply delivery_conveyed. }
  exists reads. split; [eapply Forall2_impl; [exact H|]; by intros v k [? _]|].
  destruct HA as (_ & _ & Hac), HB as (_ & _ & Hbc), Hsep as (_ & _ & Hnd).
  apply (Forall2_NoDup (conveyed b) (fun v => (v_key v, v_counter v)) (own_deliveries a)); [done| |by apply (tr_once _ _ _ _ _ Hac)].
  intros v v' k (_ & x & Hx & Er & Ek & Ec) (_ & x' & Hx' & Er' & Ek' & Ec').
  assert (x = x') as -> by (by eapply read_once; [apply (tr_order _ _ _ _ _ Hbc)|..]). congruence.
Qed.

(** ** Keys *)

(** What [a] receives under its static key was sealed by [b] in a handshake. *)
Lemma greeting_from t cn p :
  unforged a b -> separated a -> separated b -> joined (s_cfg a) (s_index a) (s_peer a) -> is_u64 cn ->
  got (EV:=s_env a) (s_world a) (message t (rx (static a)) cn p) ->
  exists x, x ∈ own_letters b /\ l_type x = handshake_type (peer_role (s_peer b)) /\ l_counter x = cn /\ l_payload x = p /\
    match peer_role (s_peer b) with
    | CRYPTO_ROLE_INITIATOR => 0 < cn
    | CRYPTO_ROLE_RESPONDER => exists ac, ac ∈ own_accords b /\ a_counter ac = cn /\
        (env_keypair (Env:=s_env b) (a_draw ac)).1 = p
    end.
Proof.
  intros Hu Hsa Hsb Hj Hcn Hg.
  destruct (Hu _ t (rx (static a)) cn p Hg ltac:(left) Hcn eq_refl) as (x & Hx & Ek & Ec & Ep).
  apply elem_of_app in Hx as [Hx|Hx]; [by destruct (own_letter_sends a HA x (static a) Hsa Hx ltac:(left))|].
  destruct (own_letter b HB x Hx) as [Hjb [(Ht & _ & H)|(_ & (ac & Hac & Ea) & _)]].
  - exists x. subst cn p. do 4 (split; [done|]). exact H.
  - destruct Hsb as (_ & Hst & _). destruct (Forall_in Hst _ Hac) as [Hno _]. destruct Hno.
    rewrite Ea, Ek, (static_mirrored a b Hm Hj Hjb). by destruct (static a).
Qed.
End Pair.

(** The ephemeral key that the other end received is the one of the attempt. *)
Lemma attempt_is_unique s x cn pk :
  accounted s -> x ∈ own_letters s -> l_type x = handshake_type (peer_role (s_peer s)) -> l_counter x = cn ->
  offered (s_cfg s) (s_letters s) (s_index s) (s_peer s) cn pk -> l_payload x = pk.
Proof.
  intros (_ & _ & HA) [Hp Hx]%list_elem_of_filter Ht Ec (y & Hy & Hyp & Hyt & _ & Eyc & <-).
  assert (x = y) as ->; [|done]. apply (NoDup_map_same (fun z => (l_peer z, l_counter z)) (greetings (s_letters s))).
  - apply (tr_nonces _ _ _ _ _ HA).
  - apply list_elem_of_filter. split; [rewrite Ht; apply handshake_type_data|done].
  - apply list_elem_of_filter. split; [rewrite Hyt; apply handshake_type_data|done].
  - congruence.
Qed.

Section Agreement.
  Context (a b : site) (HA : accounted a) (HB : accounted b) (Hm : mirrored a b).
  Context (Hr : peer_role (s_peer a) = CRYPTO_ROLE_INITIATOR).
  Context (Hua : unforged a b) (Hub : unforged b a) (Hsa : separated a) (Hsb : separated b).

Lemma responder_role : peer_role (s_peer b) = CRYPTO_ROLE_RESPONDER.
Proof. destruct Hm as (_ & _ & ->). by rewrite Hr. Qed.

(** An accord of the responder answers an init of the initiator. *)
Lemma answers_an_init bc :
  bc ∈ own_accords b -> exists x, x ∈ own_letters a /\ l_type x = SESSION_MSG_HANDSHAKE_INIT /\
    l_counter x = a_counter bc /\ l_payload x = a_remote bc /\ 0 < a_counter bc.
Proof.
  intros Hbc. destruct (own_accord b HB bc Hbc) as (Hp & _ & (q & old & Hj & _ & Hcn & _ & Hg & _)).
  assert (q = s_peer b) as -> by (by eapply own_peer; [..|exact Hj]). rewrite Hp in Hj.
  destruct (greeting_from b a HB HA (mirrored_sym _ _ Hm) _ _ _ Hub Hsb Hsa Hj Hcn Hg) as (x & Hx & Ht & Ec & Ep & H).
  rewrite Hr in Ht, H. by exists x.
Qed.

(** An accord of the initiator is one of the responder. *)
Lemma agrees_with_responder ac :
  ac ∈ own_accords a -> exists bc, bc ∈ own_accords b /\ a_counter bc = a_counter ac /\ a_keys bc = swap_keys (a_keys ac).
Proof.
  intros Hac. destruct (own_accord a HA ac Hac) as (Hp & _ & (q & old & Hj & _ & Hcn & _ & Hg & Hk & Ho)).
  assert (q = s_peer a) as -> by (by eapply own_peer; [..|exact Hj]). rewrite Hp in Hj, Ho.
  destruct (greeting_from a b HA HB Hm _ _ _ Hua Hsa Hsb Hj Hcn Hg) as (x & _ & _ & _ & _ & H).
  rewrite responder_role in H. destruct H as (bc & Hbc & Ec & Epk). exists bc. split; [done|]. split; [done|].
  destruct (answers_an_init bc Hbc) as (y & Hy & Hyt & Eyc & Eyp & Hpos).
  destruct Ho as [[_ Ho]|Ho]; [lia|].
  pose proof (attempt_is_unique a y (a_counter ac) _ HA Hy ltac:(by rewrite Hr) ltac:(by rewrite Eyc, Ec) Ho) as Erem. rewrite Eyp in Erem.
  destruct (own_accord b HB bc Hbc) as (Hpb & _ & (q & oldb & Hjb & _ & _ & _ & _ & Hkb & _)).
  assert (q = s_peer b) as -> by (by eapply own_peer; [..|exact Hjb]). rewrite responder_role in Hkb. rewrite Hr in Hk.
  destruct HA as (_ & ELa & _), HB as (_ & ELb & _).
  rewrite Erem, !env_keypair_matches in Hkb. rewrite <- Epk, !env_keypair_matches in Hk.
  rewrite (derive_agree _ _ _ oldb _ Hk) in Hkb. by injection Hkb as <-.
Qed.
End Agreement.

(** ** Two runs *)

(** A run of the program in the outside [EV] that began with an empty trace,
    with the configuration of [d], and ended in the world [w]. *)
Definition ran (EV : Env) (d : daemon) (w : world) : Prop :=
  @EnvLaws SO EV /\ @ClockLaws EV /\ @IoLaws EV /\ clock_is_set (EV:=EV) /\
  exists fuel installed cipher0 plain0 w0 w1 ended d',
    length cipher0 = SEALED_BUF_SIZE /\ length plain0 = MAX_PACKET_SIZE /\ wire w0 = [] /\ Z.of_nat fuel < 2 ^ 56 /\
    start (EV:=EV) cipher0 plain0 w0 = Some (Some d, w1) /\
    main_loop (EV:=EV) fuel installed d w1 = Some ((ended, d'), w).

(** The end at peer [i] = [q] of that run, with an account of it. *)
Definition site_of (EV : Env) (d : daemon) (w : world) (i : nat) (q : config_peer_t) (ls : list letter) (xs : list accord)
    (vs : list delivery) : site :=
  {| s_env := EV; s_world := w; s_cfg := cfg d; s_index := i; s_peer := q; s_letters := ls; s_accords := xs; s_deliveries := vs |}.

Lemma run_accounted EV d w i q :
  ran EV d w -> peers (cfg d) !! i = Some q -> exists ls xs vs, accounted (site_of EV d w i q ls xs vs).
Proof.
  intros (EL & CL & IL & Hclk & fuel & installed & cipher0 & plain0 & w0 & w1 & ended & d' & Hc & Hp & Ew & Hf & E1 & E2) Hq.
  destruct (run_transcript _ fuel installed cipher0 plain0 w0 d w1 eq_refl Hc Hp Ew Hclk Hf E1)
    as (ended' & d'' & w' & n & ls & xs & vs & E2' & [HA _ _]). rewrite E2 in E2'. injection E2' as <- <- <-.
  by exists ls, xs, vs.
Qed.

(** C5. The two programs agree on their keys.  Take any run of the program at
    an initiator and any run at the responder it is configured with, each of
    any length, in any outside, with other peers and whatever traffic, over a
    network that can do anything but forge.  Each run has an account; and for
    every account of the two runs, every key the initiator agreed with the
    responder is, mirrored and under the same counter, one that the responder
    agreed with the initiator; and every key the responder agreed answers an
    init that the initiator sent, with the ephemeral key of that init. *)
Theorem programs_agree_on_keys EA dA wA i qA EB dB wB j qB :
  ran EA dA wA -> ran EB dB wB -> peers (cfg dA) !! i = Some qA -> peers (cfg dB) !! j = Some qB ->
  peer_role qA = CRYPTO_ROLE_INITIATOR ->
  (exists ls xs vs, accounted (site_of EA dA wA i qA ls xs vs)) /\
  (exists ls xs vs, accounted (site_of EB dB wB j qB ls xs vs)) /\
  forall lsA xsA vsA lsB xsB vsB,
    let a := site_of EA dA wA i qA lsA xsA vsA in
    let b := site_of EB dB wB j qB lsB xsB vsB in
    accounted a -> accounted b -> mirrored a b -> unforged a b -> unforged b a -> separated a -> separated b ->
    (forall ac, ac ∈ own_accords a ->
       exists bc, bc ∈ own_accords b /\ a_counter bc = a_counter ac /\ a_keys bc = swap_keys (a_keys ac)) /\
    (forall bc, bc ∈ own_accords b ->
       exists x, x ∈ own_letters a /\ l_type x = SESSION_MSG_HANDSHAKE_INIT /\ l_counter x = a_counter bc /\
         l_payload x = a_remote bc).
Proof.
  intros HA HB Hi Hj Hr. split; [by apply run_accounted|]. split; [by apply run_accounted|].
  intros lsA xsA vsA lsB xsB vsB a b Ha Hb Hm Hua Hub Hsa Hsb. split.
  - intros ac Hac. by eapply (agrees_with_responder a b).
  - intros bc Hbc. destruct (answers_an_init a b Ha Hb Hm Hr Hub Hsa Hsb bc Hbc) as (x & ? & ? & ? & ? & _). by exists x.
Qed.

(** C4. What leaves the tunnel entered it, at most once.  Take any run of the
    program at each end of a relationship, as above, over a network that can
    do anything but forge.  For every account of the two runs, the packets that
    one end writes to its TUN device for the other are packets that the other
    end read from its own TUN device and that its routing table gives to the
    first; and no packet read is written twice. *)
Theorem packets_cross_the_tunnel EA dA wA i qA EB dB wB j qB :
  ran EA dA wA -> ran EB dB wB -> peers (cfg dA) !! i = Some qA -> peers (cfg dB) !! j = Some qB ->
  (exists ls xs vs, accounted (site_of EA dA wA i qA ls xs vs)) /\
  (exists ls xs vs, accounted (site_of EB dB wB j qB ls xs vs)) /\
  forall lsA xsA vsA lsB xsB vsB,
    let a := site_of EA dA wA i qA lsA xsA vsA in
    let b := site_of EB dB wB j qB lsB xsB vsB in
    accounted a -> accounted b -> mirrored a b -> unforged a b -> separated a ->
    exists reads, Forall2 (entered b) (own_deliveries a) reads /\ NoDup reads.
Proof.
  intros HA HB Hi Hj. split; [by apply run_accounted|]. split; [by apply run_accounted|].
  intros lsA xsA vsA lsB xsB vsB a b Ha Hb Hm Hu Hs. by apply packets_conveyed.
Qed.
End Tunnel.
