(* ===== verification/TunnelRun.v ===== *)
(** * A tunnel between two programs, run

    The initiator "peer1" and the responder of the sample configuration, each
    started and run for two rounds: the handshake, then a packet that enters
    the tunnel at peer1 and leaves it at the other end.  The theorems of
    [Tunnel] are evaluated on the accounts of these runs. *)

From stdpp Require Import sorting.
From Stdlib Require Import String.
From S2P Require Import Prelude World Crypto Toy Session Replay SessionFacts SessionRuns Channel Protocol Libc Config.
From S2P Require Import ConfigFacts Routing Log LogSpec Net Daemon DaemonFacts DaemonInput DaemonStart.
From S2P Require Import Effects Steps Scenario History HistoryLoop Handshakes Transcript TranscriptLoop Tunnel.
Open Scope list_scope.

(** An outside with standing clocks, in which the key pairs are numbered from
    [base] and the datagrams are [early] up to call [k] and [late] then. *)
Definition end_env (file : bytes) (base k : nat) (early late : bytes) (from : sockaddr_in) (packet : option bytes) : Env := {|
  env_keypair n := env_keypair (base + n);
  env_time _ := 1700000000;
  env_monotonic _ := (100, 0);
  env_realtime := env_realtime;
  env_getenv := env_getenv;
  env_fopen _ _ := Some (9, file);
  env_getaddrinfo := env_getaddrinfo;
  env_open := env_open;
  env_socket := env_socket;
  env_bind := env_bind;
  env_sendto _ := 57;
  env_ioctl := env_ioctl;
  env_close := env_close;
  env_recvfrom n := Some (if (n <? k)%nat then early else late, from);
  env_tun_read _ := packet;
  env_tun_write _ := 23;
  env_poll _ := (1, true, true);
  env_errno _ := 11;
  env_signals _ := [];
  env_strerror _ := str "Resource temporarily unavailable"
|}.

#[global] Instance end_laws file base k early late from packet : @EnvLaws _ (end_env file base k early late from packet).
Proof. destruct toy_env_laws as [H1 H2 H3]. split; intros n; [apply H1|apply H2|apply H3]. Qed.

#[global] Instance end_clock file base k early late from packet : @ClockLaws (end_env file base k early late from packet).
Proof. destruct toy_clock as [H]. split. intros n. apply (H n). Qed.

Lemma end_io file base k early late from packet :
  bool_decide (zlen file < INT_MAX /\ is_bytes early /\ is_bytes late /\ is_bytes (default [] packet)) = true ->
  @IoLaws (end_env file base k early late from packet).
Proof.
  intros (Hf & He & Hl & Hp)%bool_decide_eq_true. split; cbn.
  - intros n data from' [= <- _]. by destruct (n <? k)%nat.
  - by intros _ p ->.
  - by intros _ _ fd f [= _ <-].
Qed.

Lemma end_clock_set file base k early late from packet : clock_is_set (EV:=end_env file base k early late from packet).
Proof. intros n. cbn. lia. Qed.

(** Start-up and [n] rounds. *)
Definition rounds (EV : Env) (n : nat) : daemon * daemon * world :=
  match start (EV:=EV) cipher0 plain0 toy_world with
  | Some (Some d, w) =>
      match main_loop (EV:=EV) n 0 d w with Some ((_, d'), w') => (d, d', w') | None => (d, d, toy_world) end
  | _ => (blank_daemon, blank_daemon, toy_world)
  end.

(** An IPv4 packet to 10.8.0.12, the responder's range at peer1. *)
Definition packet2 : bytes := [69] ++ replicate 15 0 ++ [10; 8; 0; 12] ++ [7; 8; 9].

(** peer1 sends its init, the other end answers, peer1 completes the handshake
    and sends the packet. *)
Definition init_out : bytes := Eval vm_compute in
  last_datagram (rounds (end_env peer1_file 0 0 [] [] from1 None) 0).2.
Definition answer_calls : nat := Eval vm_compute in
  w_calls (rounds (end_env sample_file 500 0 init_out init_out from1 None) 1).2.
Definition answer_out : bytes := Eval vm_compute in
  last_datagram (rounds (end_env sample_file 500 0 init_out init_out from1 None) 1).2.

Definition env1 : Env := end_env peer1_file 0 0 answer_out answer_out peer2_addr (Some packet2).
Definition end1 : daemon * daemon * world := Eval vm_compute in rounds env1 2.
Definition data_out : bytes := Eval vm_compute in last_datagram end1.2.

Definition env2 : Env := end_env sample_file 500 answer_calls init_out data_out from1 None.
Definition end2 : daemon * daemon * world := Eval vm_compute in rounds env2 2.

Lemma packet_crossed : tun_packets (wire end2.2) = [packet2].
Proof. by vm_compute. Qed.

(** ** The accounts of the two runs *)
Definition peer_at (d : daemon) (i : nat) : config_peer_t := default zero_peer (peers (cfg d) !! i).

(** The call that drew the pair with the public key [pk]. *)
Definition draw_of (EV : Env) (pk : bytes) (n : nat) : nat :=
  default 0%nat (List.find (fun m => bool_decide ((env_keypair (Env:=EV) m).1 = pk)) (seq 0 n)).

(** The ephemeral keys of the handshake, from its two messages. *)
Definition greeting_key (key inp : bytes) : bytes :=
  match crypto_open key (tail inp) (replicate 32 0) 0 with Some (_, out, _) => out | None => [] end.

Definition static1 : crypto_session_keys_t := Eval vm_compute in static_of (cfg end1.1.1) (peer_at end1.1.1 0).
Definition static2 : crypto_session_keys_t := Eval vm_compute in static_of (cfg end2.1.1) (peer_at end2.1.1 0).
Definition pk1 : bytes := Eval vm_compute in greeting_key (rx static2) init_out.
Definition pk2 : bytes := Eval vm_compute in greeting_key (rx static1) answer_out.
Definition keys1 : crypto_session_keys_t := Eval vm_compute in data_keys (session (first_peer end1.1.2)).
Definition keys2 : crypto_session_keys_t := Eval vm_compute in data_keys (session (first_peer end2.1.2)).

(** The call of the second round at which peer1 read its packet. *)
Definition read1 : nat := Eval vm_compute in w_calls (rounds env1 1).2 + 1.

Definition letters1 : list letter := [
  {| l_peer := 0; l_type := SESSION_MSG_HANDSHAKE_INIT; l_key := tx static1; l_counter := 1700000000; l_payload := pk1;
     l_read := None; l_taken := true |};
  {| l_peer := 0; l_type := SESSION_MSG_DATA; l_key := tx keys1; l_counter := 0; l_payload := packet2;
     l_read := Some read1; l_taken := true |}].
Definition accords1 : list accord := [
  {| a_peer := 0; a_counter := 1700000000; a_draw := draw_of env1 pk1 100; a_remote := pk2; a_keys := keys1 |}].

(** The init that the other end sends to its second peer. *)
Definition other_init : letter := Eval vm_compute in
  let d := end2.1.1 in
  let key := tx (static_of (cfg d) (peer_at d 1)) in
  {| l_peer := 1; l_type := SESSION_MSG_HANDSHAKE_INIT; l_key := key; l_counter := 1700000000;
     l_payload := greeting_key key (default [] (map fst (mail end2.2) !! 0%nat)); l_read := None; l_taken := true |}.
Definition letters2 : list letter := [other_init;
  {| l_peer := 0; l_type := SESSION_MSG_HANDSHAKE_RESPONSE; l_key := tx static2; l_counter := 1700000000; l_payload := pk2;
     l_read := None; l_taken := true |}].
Definition accords2 : list accord := [
  {| a_peer := 0; a_counter := 1700000000; a_draw := draw_of env2 pk2 100; a_remote := pk1; a_keys := keys2 |}].
Definition deliveries2 : list delivery := [
  {| v_peer := 0; v_key := rx keys2; v_counter := 0; v_packet := packet2; v_taken := true |}].

Definition near : site := site_of env1 end1.1.1 end1.2 0 (peer_at end1.1.1 0) letters1 accords1 [].
Definition far : site := site_of env2 end2.1.1 end2.2 0 (peer_at end2.1.1 0) letters2 accords2 deliveries2.


(** What evaluates. *)
Ltac calc := by vm_compute.
Ltac evaluate := by apply (bool_decide_unpack _); vm_compute.

Lemma got_at EV w inp n from :
  (n < w_calls w)%nat -> env_recvfrom (Env:=EV) n = Some (inp, from) -> (length inp <= SEALED_BUF_SIZE)%nat ->
  got (EV:=EV) w inp.
Proof. intros Hn E Hl. exists n, inp, from. split; [done|]. split; [done|]. by rewrite take_ge. Qed.

(** A single entry. *)
Lemma once_single i v : NoDup (opened_nonces i [v]).
Proof. unfold opened_nonces. rewrite filter_cons, filter_nil. case_decide; [apply NoDup_singleton|apply NoDup_nil_2]. Qed.

Lemma near_joined : joined (cfg end1.1.1) 0 (peer_at end1.1.1 0).
Proof. split; calc. Qed.
Lemma far_joined : joined (cfg end2.1.1) 0 (peer_at end2.1.1 0).
Proof. split; calc. Qed.

Lemma near_accord : accord_ok (EV:=env1) (cfg end1.1.1) end1.2 letters1 (default
  {| a_peer := 0; a_counter := 0; a_draw := 0; a_remote := []; a_keys := keys1 |} (head accords1)).
Proof.
  exists (peer_at end1.1.1 0), zero_keys. split; [exact near_joined|]. split; [evaluate|]. split; [calc|]. split; [calc|].
  split; [eapply (got_at env1 _ _ 0 peer2_addr); [evaluate|calc|evaluate]|]. split; [calc|].
  right. eexists. split; [left|]. do 4 (split; [calc|]). calc.
Qed.

Lemma far_accord : accord_ok (EV:=env2) (cfg end2.1.1) end2.2 letters2 (default
  {| a_peer := 0; a_counter := 0; a_draw := 0; a_remote := []; a_keys := keys1 |} (head accords2)).
Proof.
  exists (peer_at end2.1.1 0), zero_keys. split; [exact far_joined|]. split; [evaluate|]. split; [calc|]. split; [calc|].
  split; [eapply (got_at env2 _ _ 0 from1); [evaluate|calc|evaluate]|]. split; [calc|].
  right. eexists. split; [right; left|]. do 4 (split; [calc|]). calc.
Qed.

Lemma near_accounted : accounted near.
Proof.
  split; [calc|]. split; [apply _|]. split.
  - calc.
  - calc.
  - repeat constructor.
    + exists (peer_at end1.1.1 0). split; [exact near_joined|]. left. do 3 (split; [calc|]). calc.
    + exists (peer_at end1.1.1 0). split; [exact near_joined|]. right. split; [calc|]. split; [eexists; split; [left|]; split; calc|].
      split; [evaluate|]. exists packet2. split; [done|]. split; calc.
  - repeat constructor. exact near_accord.
  - constructor.
  - repeat constructor.
  - evaluate.
  - intros i _. constructor.
Qed.

Lemma far_accounted : accounted far.
Proof.
  split; [calc|]. split; [apply _|]. split.
  - calc.
  - calc.
  - repeat constructor.
    + exists (peer_at end2.1.1 1). split; [split; calc|]. left. do 3 (split; [calc|]). calc.
    + exists (peer_at end2.1.1 0). split; [exact far_joined|]. left. do 3 (split; [calc|]). eexists. split; [left|].
      split; [calc|]. split; calc.
  - repeat constructor. exact far_accord.
  - constructor; [|done]. split; [eexists; split; [left|]; split; calc|].
    split; [|split; [calc|done]]. eapply (got_at env2 _ _ answer_calls from1); [evaluate|calc|evaluate].
  - repeat constructor.
  - evaluate.
  - intros i _. apply once_single.
Qed.

(** ** Neither forged nor confused *)
Definition as_sealed (x : letter) : sealed :=
  {| m_type := l_type x; m_key := l_key x; m_counter := l_counter x; m_payload := l_payload x |}.

(** Whether a datagram is forged is decided by opening it. *)
Lemma unforged_check a b inps :
  (forall inp, got (EV:=s_env a) (s_world a) inp -> inp ∈ inps) ->
  forallb (fun inp => (zlen inp <? 2 ^ 64) &&
    forallb (fun k => opens_logged (map as_sealed (own_letters a ++ own_letters b)) k inp) (map rx (relation_keys a))) inps = true ->
  unforged a b.
Proof.
  intros Hgot Hc inp t k cn p Hg Hk Hcn E. rewrite forallb_forall in Hc.
  specialize (Hc inp (proj1 (list_elem_of_In _ _) (Hgot inp Hg))). apply andb_true_iff in Hc as [Hl%Z.ltb_lt Hc].
  rewrite forallb_forall in Hc. specialize (Hc k (proj1 (list_elem_of_In _ _) Hk)).
  destruct (opens_logged_sound _ _ _ t cn p Hc Hl Hcn E) as (m & (x & -> & Hx)%list_elem_of_fmap & H). by exists x.
Qed.

(** What an end of these runs receives. *)
Lemma end_receives file base k early late from packet w inp :
  got (EV:=end_env file base k early late from packet) w inp ->
  inp ∈ [take SEALED_BUF_SIZE early; take SEALED_BUF_SIZE late].
Proof. intros (n & data & f & _ & [= <- _] & ->). destruct (n <? k)%nat; [left|right; left]. Qed.

Lemma near_unforged : unforged near far.
Proof. eapply unforged_check; [intros inp; apply end_receives|]. calc. Qed.
Lemma far_unforged : unforged far near.
Proof. eapply unforged_check; [intros inp; apply end_receives|]. calc. Qed.

Lemma ends_separated : separated near /\ separated far.
Proof. split; (split; [evaluate|split; evaluate]). Qed.

Lemma ends_mirrored : mirrored near far.
Proof. split; [calc|]. split; calc. Qed.

(** The worlds after start-up. *)
Definition begun (EV : Env) : world := from_option snd toy_world (start (EV:=EV) cipher0 plain0 toy_world).

Lemma near_ran : ran env1 end1.1.1 end1.2.
Proof.
  split; [apply _|]. split; [apply _|]. split; [by apply end_io; vm_compute|]. split; [apply end_clock_set|].
  exists 2%nat, 0%nat, cipher0, plain0, toy_world, (begun env1), false, end1.1.2. do 3 (split; [calc|]). split; [done|]. split; calc.
Qed.

Lemma far_ran : ran env2 end2.1.1 end2.2.
Proof.
  split; [apply _|]. split; [apply _|]. split; [by apply end_io; vm_compute|]. split; [apply end_clock_set|].
  exists 2%nat, 0%nat, cipher0, plain0, toy_world, (begun env2), false, end2.1.2. do 3 (split; [calc|]). split; [done|]. split; calc.
Qed.

(** The key of peer1 is mirrored at the other end. *)
Lemma programs_agree_on_keys_witness :
  own_accords near = accords1 /\
  (forall ac, ac ∈ own_accords near ->
     exists bc, bc ∈ own_accords far /\ a_counter bc = a_counter ac /\ a_keys bc = swap_keys (a_keys ac)) /\
  (forall bc, bc ∈ own_accords far ->
     exists x, x ∈ own_letters near /\ l_type x = SESSION_MSG_HANDSHAKE_INIT /\ l_counter x = a_counter bc /\
       l_payload x = a_remote bc).
Proof.
  split; [done|].
  refine (proj2 (proj2 (programs_agree_on_keys env1 end1.1.1 end1.2 0 (peer_at end1.1.1 0)
    env2 end2.1.1 end2.2 0 (peer_at end2.1.1 0) near_ran far_ran _ _ _)) letters1 accords1 [] letters2 accords2 deliveries2
    near_accounted far_accounted ends_mirrored near_unforged far_unforged (proj1 ends_separated) (proj2 ends_separated)); by vm_compute.
Defined.

(** The packet that leaves at the other end is the one that entered at peer1. *)
Lemma packets_cross_the_tunnel_witness :
  map v_packet (own_deliveries far) = [packet2] /\
  exists reads, Forall2 (entered near) (own_deliveries far) reads /\ NoDup reads.
Proof.
  split; [done|].
  refine (proj2 (proj2 (packets_cross_the_tunnel env2 end2.1.1 end2.2 0 (peer_at end2.1.1 0)
    env1 end1.1.1 end1.2 0 (peer_at end1.1.1 0) far_ran near_ran _ _)) letters2 accords2 deliveries2 letters1 accords1 []
    far_accounted near_accounted (mirrored_sym _ _ ends_mirrored) far_unforged (proj2 ends_separated)); by vm_compute.
Defined.
