(* ===== verification/Shutdown.v ===== *)
(** * When the program stops

    The poll loop looks at [g_running] before every round, and every round
    makes at least one external call.  So no round starts once a signal
    arrived, and nothing but a signal or a failing [poll] ends the program with
    status 0. *)

From Stdlib Require Import String.
From S2P Require Import Prelude World Crypto Toy Session Replay SessionFacts SessionRuns Libc.
From S2P Require Import Config ConfigFacts Routing Log LogSpec Net Daemon DaemonFacts.
From S2P Require Import DaemonInput DaemonStart Effects Steps Scenario History.
Open Scope list_scope.

(** ** Calls only ever advance *)
Definition advancing {A} (m : M A) : Prop := forall w a w', m w = Some (a, w') -> (w_calls w <= w_calls w')%nat.

Create HintDb advance discriminated.
#[export] Hint Constants Opaque : advance.

Lemma advancing_only {A} P (m : M A) : only P m -> advancing m.
Proof. intros H w a w' E. by destruct (H w a w' E). Qed.

Lemma advancing_bind {A B} (m : M A) (k : A -> M B) :
  advancing m -> (forall a, advancing (k a)) -> advancing (x ← m; k x).
Proof.
  intros H1 H2 w b w2 (a & w1 & E1 & E2)%M_bind_inv. transitivity (w_calls w1); [by eapply H1|by eapply H2].
Qed.

Lemma advancing_emit e : advancing (emit_event e).
Proof. intros w a w' E. injection E as <- <-. done. Qed.

#[export] Hint Resolve advancing_emit : advance.

Ltac advancing :=
  repeat match goal with
  | |- advancing (mbind _ _) => apply advancing_bind; [|intros ?]
  | |- advancing (if ?b then _ else _) => destruct b
  | |- advancing (match ?x with _ => _ end) => destruct x
  | |- advancing _ => solve [eauto with advance | apply (advancing_only plain); solve [eauto with effects]]
  | |- advancing (let _ := _ in _) => cbv zeta
  end.

Section Advancing.
  Context `{SO : Sodium} `{EV : Env}.

Lemma advancing_send sock data dest : advancing (udp_send sock data dest).
Proof. unfold udp_send. advancing. Qed.
Lemma advancing_tun_write dev data : advancing (tun_write dev data).
Proof. unfold tun_write. advancing. Qed.
Lemma advancing_start_handshake s : advancing (session_start_handshake s).
Proof. unfold session_start_handshake, crypto_generate_keypair. advancing. Qed.
End Advancing.

#[export] Hint Resolve advancing_send advancing_tun_write advancing_start_handshake : advance.

Section AdvancingDaemon.
  Context `{SO : Sodium} `{EV : Env}.

Lemma advancing_handle_init s inp out : advancing (session_handle_init s inp out).
Proof. unfold session_handle_init. advancing. Qed.
Lemma advancing_initiate ps me sock buf now : advancing (initiate_handshake ps me sock buf now).
Proof. unfold initiate_handshake, start_attempt. advancing. Qed.
End AdvancingDaemon.

#[export] Hint Resolve advancing_handle_init advancing_initiate : advance.

Section AdvancingLoop.
  Context `{SO : Sodium} `{EV : Env}.

Lemma advancing_find_responder l inp out i : advancing (find_responder_for_init l inp out i).
Proof. revert out i. induction l; intros out i; cbn [find_responder_for_init]; advancing. Qed.
Lemma advancing_all_timers me sock now l buf : advancing (all_timers me sock now l buf).
Proof.
  revert buf. induction l; intros buf; cbn [all_timers]; unfold peer_timers, keepalive, rehandshake; advancing.
Qed.
Lemma advancing_tun_ready d : advancing (tun_ready d).
Proof. unfold tun_ready, forward_packet. advancing. Qed.
End AdvancingLoop.

#[export] Hint Resolve advancing_find_responder advancing_all_timers advancing_tun_ready : advance.

Section AdvancingRound.
  Context `{SO : Sodium} `{EV : Env}.

Lemma advancing_udp_ready d : advancing (udp_ready d).
Proof.
  unfold udp_ready, handle_datagram, unknown_init, unknown_source, known_init, known_response, known_data,
    unexpected. advancing.
Qed.
Lemma advancing_timers d : advancing (timers d).
Proof. unfold timers. advancing. Qed.
End AdvancingRound.

#[export] Hint Resolve advancing_udp_ready advancing_timers : advance.

Section Stop.
  Context `{SO : Sodium} {SL : SodiumLaws} `{EV : Env} {EL : EnvLaws} {CL : ClockLaws} {IL : IoLaws}.

Lemma advancing_session_init r pk sk peer : advancing (session_init r pk sk peer).
Proof. unfold session_init. destruct (crypto_derive_session_keys _ _ _ _ _). advancing. Qed.

Lemma advancing_start_peers c dev sock pk todo buf : advancing (start_peers c dev sock pk todo buf).
Proof.
  pose proof advancing_session_init. revert buf. induction todo; intros buf; cbn [start_peers]; advancing.
Qed.

Lemma advancing_start_network c dev cipher0 plain0 : advancing (start_network c dev cipher0 plain0).
Proof. pose proof advancing_start_peers. unfold start_network. advancing. Qed.

Lemma advancing_start cipher0 plain0 : advancing (start cipher0 plain0).
Proof. pose proof advancing_start_network. unfold start. advancing. Qed.

(** A round makes a call. *)
Lemma iteration_calls d w r w' : iteration d w = Some (r, w') -> (w_calls w < w_calls w')%nat.
Proof.
  unfold iteration. intros (p & w1 & E1 & E)%M_bind_inv. injection E1 as <- <-.
  apply (Nat.lt_le_trans _ (S (w_calls w))); [lia|]. revert E. destruct (env_poll _) as [[ready tun_in] udp_in].
  match goal with |- ?m _ = _ -> _ => assert (advancing m) as H by advancing end.
  apply H.
Qed.

(** ** The flag *)
Lemma running_cleared l : l <> [] -> foldl (fun g signum => handle_shutdown signum g) 1 l = 0.
Proof.
  intros H. destruct l as [|s l]; [done|]. cbn. clear. unfold handle_shutdown. by induction l.
Qed.

Lemma delivered_at installed now n :
  (installed <= n < now)%nat -> env_signals n <> [] -> delivered installed now <> [].
Proof.
  intros Hn Hs Hd. unfold delivered in Hd. apply concat_nil_Forall, Forall_map in Hd.
  apply Hs, (Forall_in Hd n), elem_of_seq. lia.
Qed.

(** ** The loop *)

(** A signal at call [n] is seen by the look that follows it. *)
Lemma main_loop_stops fuel installed d w n :
  env_signals n <> [] -> (installed <= n)%nat -> (S n < w_calls w + fuel)%nat -> (0 < fuel)%nat ->
  wlp (main_loop fuel installed d) (fun r _ => r.1 = true) w.
Proof.
  intros Hs Hi. revert d w. induction fuel as [|fuel IH]; intros d w Hn Hf; [lia|]. cbn [main_loop].
  apply wlp_bind. intros g w1 E. injection E as <- <-. destruct (decide (n < w_calls w)%nat) as [Hlt|Hge].
  - rewrite running_cleared by (apply (delivered_at _ _ n); [lia|done]). by apply wlp_ret.
  - destruct (negb _); [|by apply wlp_ret]. apply wlp_bind. intros [go d1] w2 E%iteration_calls.
    destruct go; [|by apply wlp_ret]. apply IH; lia.
Qed.

(** What ends a loop. *)
Definition asked_to_stop (installed : nat) (w : world) : Prop :=
  exists n, (installed <= n < w_calls w)%nat /\ env_signals n <> [].

Definition poll_failed (w : world) : Prop :=
  exists k, (k < w_calls w)%nat /\ (env_poll k).1.1 < 0 /\ env_errno (S k) <> EINTR.

Lemma delivered_nonempty installed now :
  delivered installed now <> [] -> exists n, (installed <= n < now)%nat /\ env_signals n <> [].
Proof.
  intros H. destruct (list_find (fun n => env_signals n <> []) (seq installed (now - installed))) as [[i n]|] eqn:E.
  - apply list_find_Some in E as (Hi & Hn & _). apply lookup_seq in Hi as [-> Hi]. exists (installed + i)%nat.
    split; [lia|done].
  - apply list_find_None in E. destruct H. unfold delivered. apply concat_nil_Forall, Forall_map.
    eapply Forall_impl; [exact E|]. intros n Hn. by apply dec_stable.
Qed.

Lemma iteration_breaks d w :
  wlp (iteration d) (fun r w' => r.1 = false -> poll_failed w') w.
Proof.
  unfold iteration. apply wlp_bind. intros p w1 E. injection E as <- <-.
  destruct (env_poll (w_calls w)) as [[ready tun_in] udp_in] eqn:Ep. destruct (Z.ltb_spec ready 0).
  - apply wlp_bind. intros e w2 E. injection E as <- <-. apply wlp_bind. intros [] w3 E. injection E as <-.
    cbn [w_calls] in *. destruct (Z.eqb_spec (env_errno (S (w_calls w))) EINTR) as [->|Hne].
    { by apply wlp_ret. }
    apply wlp_bind, (wlp_only plain); [effects|]. intros ? w4 [_ Hle]. apply wlp_ret. intros _.
    exists (w_calls w). rewrite Ep. split; [cbn in Hle; lia|done].
  - apply wlp_bind. intros d1 w2 _. apply wlp_bind. intros d2 w3 _. apply wlp_bind. intros d3 w4 _.
    by apply wlp_ret.
Qed.

Lemma main_loop_reason fuel installed d w :
  wlp (main_loop fuel installed d) (fun r w' => r.1 = true -> asked_to_stop installed w' \/ poll_failed w') w.
Proof.
  revert d w. induction fuel as [|fuel IH]; intros d w; cbn [main_loop]; [by apply wlp_ret|].
  apply wlp_bind. intros g w1 E. injection E as <- <-.
  destruct (decide (delivered installed (w_calls w) = [])) as [E|Hd].
  - rewrite E. cbn [foldl Z.eqb negb]. apply wlp_bind. eapply wlp_mono; [apply iteration_breaks|].
    intros [go d1] w1 Hb. destruct go; [apply IH|]. apply wlp_ret. auto.
  - rewrite running_cleared by done. cbn [Z.eqb negb]. apply wlp_ret. intros _. left. by apply delivered_nonempty.
Qed.

(** The rounds of a loop, with the world each of them starts in: all but the
    last go on. *)
Inductive rounds : list world -> daemon -> world -> daemon -> world -> Prop :=
| rounds_none d w : rounds [] d w d w
| rounds_break d w d' w' : iteration d w = Some ((false, d'), w') -> rounds [w] d w d' w'
| rounds_next starts d w d1 w1 d' w' :
    iteration d w = Some ((true, d1), w1) -> rounds starts d1 w1 d' w' -> rounds (w :: starts) d w d' w'.

(** No signal arrived between the installation of the handlers and [w]. *)
Definition undisturbed (installed : nat) (w : world) : Prop :=
  forall n, (installed <= n < w_calls w)%nat -> env_signals n = [].

Lemma delivered_undisturbed installed w : delivered installed (w_calls w) = [] -> undisturbed installed w.
Proof.
  intros Hd n Hn. destruct (decide (env_signals n = [])) as [|Hne]; [done|]. by destruct (delivered_at _ _ _ Hn Hne).
Qed.

(** The loop is made of rounds, none of which starts once a signal arrived. *)
Lemma main_loop_rounds fuel installed d w :
  wlp (main_loop fuel installed d) (fun r w' => exists starts,
    rounds starts d w r.2 w' /\ Forall (undisturbed installed) starts) w.
Proof.
  revert d w. induction fuel as [|fuel IH]; intros d w; cbn [main_loop].
  { apply wlp_ret. exists []. split; [constructor|done]. }
  apply wlp_bind. intros g w1 E. injection E as <- <-.
  destruct (decide (delivered installed (w_calls w) = [])) as [E|Hd].
  - rewrite E. cbn [foldl Z.eqb negb]. apply delivered_undisturbed in E. apply wlp_bind.
    intros [go d1] w1 Ei. destruct go.
    + intros r w' Er. apply IH in Er as (starts & Hr & Hu). exists (w :: starts).
      split; [by econstructor|by constructor].
    + apply wlp_ret. exists [w]. split; [by constructor|by repeat constructor].
  - rewrite running_cleared by done. apply wlp_ret. exists []. split; [constructor|done].
Qed.

Lemma advancing_shutdown d : advancing (shutdown d).
Proof. unfold shutdown. advancing. Qed.

Lemma asked_mono installed w w' :
  (w_calls w <= w_calls w')%nat -> asked_to_stop installed w -> asked_to_stop installed w'.
Proof. intros Hle (n & Hn & Hs). exists n. split; [lia|done]. Qed.

Lemma poll_failed_mono w w' : (w_calls w <= w_calls w')%nat -> poll_failed w -> poll_failed w'.
Proof. intros Hle (k & Hk & H). exists k. split; [lia|done]. Qed.

(** C29. Shutdown.  Every run of the program is made of the start-up, of rounds
    of the loop and, when it ends with status 0, of the closing of the
    descriptors, with nothing in between; and no round starts once SIGINT or
    SIGTERM arrived, at any call after the handlers are installed: the look at
    [g_running] that follows the signal ends the loop.  Every round makes a
    call, so a program that is given at least as many rounds as the number of
    the call has ended, and then every descriptor is closed, the one of the
    configuration file included.  It ends with status 0 only if such a signal
    arrived or [poll] failed for another reason than a signal. *)
Theorem program_stops_when_asked fuel cipher0 plain0 w :
  wire w = [] -> length cipher0 = SEALED_BUF_SIZE -> length plain0 = MAX_PACKET_SIZE ->
  let installed := (w_calls w + 2)%nat in
  exists r w', main fuel cipher0 plain0 w = Some (r, w') /\
    (exists w0 started w1, log_init w = Some (tt, w0) /\ w_calls w0 = installed /\
       start cipher0 plain0 w0 = Some (started, w1) /\
       match started with
       | None => r = Some 1 /\ w' = w1
       | Some d => exists starts d' w2, rounds starts d w1 d' w2 /\
           Forall (fun ws => forall n, (installed <= n < w_calls ws)%nat -> env_signals n = []) starts /\
           match r with
           | None => w' = w2
           | Some status => status = 0 /\ exists u, shutdown d' w2 = Some (u, w')
           end
       end) /\
    (forall n, env_signals n <> [] -> (installed <= n)%nat -> (S n < w_calls w + fuel)%nat ->
       exists status, r = Some status /\ fds w' = Some []) /\
    (r = Some 0 -> asked_to_stop installed w' \/ poll_failed w').
Proof.
  intros Ew Hlc Hlp installed.
  destruct (wp_exists _ _ _ (main_wp fuel cipher0 plain0 w [] Hlc Hlp ltac:(unfold fds; by rewrite Ew)))
    as (r & w' & E & Hr).
  exists r, w'. split; [done|]. unfold main in E.
  apply M_bind_inv in E as ([] & w1 & E1 & E). apply M_bind_inv in E as (i & w2 & E2 & E).
  assert (w_calls w1 = installed) as Hi1 by (injection E1 as <-; cbn; lia).
  injection E2 as <- <-. apply M_bind_inv in E as (d & w3 & E3 & E). rewrite Hi1 in E.
  pose proof (advancing_start _ _ _ _ _ E3) as Hle. rewrite Hi1 in Hle. destruct d as [d|].
  2:{ injection E as <- <-. split; [by exists w1, None, w3|]. split; [|done]. intros n _ _ _. exists 1.
      split; [done|apply Hr]. }
  apply M_bind_inv in E as ([ended d'] & w4 & E4 & E).
  destruct (main_loop_rounds _ _ _ _ _ _ E4) as (starts & Hrounds & Hu). cbn [snd] in Hrounds.
  pose proof (main_loop_reason _ _ _ _ _ _ E4) as Hreason. cbn [fst] in Hreason. split; [|split].
  - exists w1, (Some d), w3. do 3 (split; [done|]). exists starts, d', w4. split; [done|]. split; [done|].
    destruct ended; [|by injection E as <- <-].
    apply M_bind_inv in E as (u & w5 & E5 & E). injection E as <- <-. by eauto.
  - intros n Hs Hi Hn. assert (ended = true) as ->.
    { apply (main_loop_stops fuel installed d w3 n Hs Hi) in E4; [done|lia|lia]. }
    apply M_bind_inv in E as (? & w5 & _ & E). injection E as <- <-. exists 0. split; [done|apply Hr].
  - intros ->. destruct ended; [|by injection E].
    apply M_bind_inv in E as (? & w5 & E5 & E). injection E as <-. apply advancing_shutdown in E5.
    destruct (Hreason eq_refl); [left; by eapply asked_mono|right; by eapply poll_failed_mono].
Qed.
End Stop.

(** SIGTERM ends the program with status 0; without it, it is still running.
    No round starts after the call at which the signal arrives. *)
Lemma program_stops_when_asked_witness :
  (exists w', main (EV:=interrupted) 70 cipher0 plain0 toy_world = Some (Some 0, w') /\ fds w' = Some []) /\
  (exists w', main (EV:=idle) 70 cipher0 plain0 toy_world = Some (None, w')) /\
  exists d w1 starts d' w2, start (EV:=interrupted) cipher0 plain0 (run_or (log_init (EV:=interrupted) toy_world) tt).2 =
      Some (Some d, w1) /\
    rounds (EV:=interrupted) starts d w1 d' w2 /\ Forall (fun ws => (w_calls ws <= 60)%nat) starts.
Proof.
  split; [eexists; split; by vm_compute|]. split; [eexists; by vm_compute|].
  destruct (program_stops_when_asked (EV:=interrupted) 70 cipher0 plain0 toy_world) as (r & w' & E & Hrun & _ & _);
    [by vm_compute..|].
  destruct Hrun as (w0 & sd & w1 & E0 & Hi & E1 & H). rewrite E0. cbn [run_or default snd].
  destruct sd as [d|].
  2:{ destruct H as [-> ->]. vm_compute in E. discriminate E. }
  destruct H as (starts & d' & w2 & Hr & Hu & _). exists d, w1, starts, d', w2. split; [exact E1|]. split; [exact Hr|].
  eapply Forall_impl; [exact Hu|]. intros ws Hw. destruct (decide (w_calls ws <= 60)%nat) as [|Hgt]; [done|].
  assert (w_calls toy_world + 2 <= 60)%nat as Hle by (apply Nat.leb_le; by vm_compute).
  specialize (Hw 60%nat ltac:(split; [exact Hle|lia])). by vm_compute in Hw.
Defined.
