(* ===== verification/Twins.v ===== *)
(** * Two sections for one peer

    A peer has one AllowedIPs range, so a second range for the same peer takes
    a second [Peer] section with the same PublicKey, which the parser accepts.
    Each section gets a session of its own, with the same static keys: what
    their first handshake messages have in common. *)

From Stdlib Require Import String.
From S2P Require Import Prelude World Crypto Toy Session Replay SessionFacts SessionRuns Libc.
From S2P Require Import Config ConfigFacts Routing Log LogSpec Net ConfigFile Daemon DaemonFacts.
From S2P Require Import DaemonInput Timers DaemonStart Effects Steps Scenario History Shutdown.
Open Scope list_scope.

Section Twins.
  Context `{SO : Sodium} {SL : SodiumLaws} `{EV : Env} {EL : EnvLaws} {CL : ClockLaws} {IL : IoLaws}.

(** The pair that an attempt draws is the answer to its first call. *)
Lemma start_attempt_draw ps me sock buf now w r w' :
  peer_inv ps -> start_attempt ps me sock buf now w = Some (r, w') ->
  local_eph_pk (session r.1) = (env_keypair (w_calls w)).1 /\ (w_calls w < w_calls w')%nat.
Proof.
  intros Hi E. unfold start_attempt in E. apply M_bind_inv in E as (s1 & w1 & E1 & E).
  rewrite start_handshake_eq in E1. injection E1 as <- <-. split.
  2:{ assert (S (w_calls w) <= w_calls w')%nat; [|lia]. change (S (w_calls w)) with (w_calls (tick w)). revert E.
      match goal with |- ?m _ = _ -> _ => assert (advancing m) as H by advancing end. apply H. }
  cbv zeta in E. apply M_bind_inv in E as ([[len s] b] & w2 & Eb & E). apply lift_inv in Eb as [Eb ->].
  assert (local_eph_pk s = (env_keypair (w_calls w)).1) as Es.
  { destruct (build_init_eq (restarted (env_keypair (w_calls w)) (session ps)) buf
      (restarted_wf _ _ (pi_wf _ Hi))) as [[_ Eq]|[_ Eq]]; cbn [session set_session set_last_tx set_last_rx] in Eb;
      rewrite Eq in Eb; by injection Eb as _ <- _. }
  apply M_bind_inv in E as ([] & w3 & _ & E); apply M_bind_inv in E as (? & w4 & _ & E); by injection E as <- _.
Qed.

(** An attempt without an address asks the resolver. *)
Lemma initiate_asks ps me sock buf now w r w' :
  addr_resolved ps = false -> initiate_handshake ps me sock buf now w = Some (r, w') -> (w_calls w < w_calls w')%nat.
Proof.
  intros Ha E. unfold initiate_handshake in E. rewrite Ha in E. unfold udp_resolve in E.
  apply M_bind_inv in E as (x & w1 & E1 & E). apply M_bind_inv in E1 as (o & w2 & E2 & E1). injection E2 as <- <-.
  assert (w_calls w1 = S (w_calls w)) as Ec by (by destruct (env_getaddrinfo _ _); injection E1 as _ <-).
  assert (w_calls w1 <= w_calls w')%nat; [|lia]. revert E.
  match goal with |- ?m _ = _ -> _ => assert (advancing m) as H by (unfold start_attempt; advancing) end. apply H.
Qed.

(** The first attempt of a peer whose name resolves to [a]. *)
Lemma initiate_first ps me sock buf now w r w' a :
  peer_inv ps -> peer_role (config ps) = CRYPTO_ROLE_INITIATOR ->
  (SESSION_HANDSHAKE_MSG_LEN <= length buf)%nat -> addr_resolved ps = false ->
  resolution (w_calls w) ps = Some a -> initiate_handshake ps me sock buf now w = Some (r, w') ->
  length r.2 = length buf /\ (S (w_calls w) < w_calls w')%nat /\
  exists rc, wire w' = wire w ++ [EvSend (u_fd sock) a (message SESSION_MSG_HANDSHAKE_INIT
    (tx (static_keys (session ps))) (handshake_counter (session ps)) (env_keypair (S (w_calls w))).1) rc].
Proof.
  intros Hi Hr Hb Ha Hres E.
  pose proof (wp_run _ _ _ _ (initiate_unresolved ps me sock buf now w Hi Hr Hb Ha) E) as Hun.
  rewrite Hres in Hun. cbn [fst] in Hun. destruct Hun as [Har <-].
  pose proof (wp_run _ _ _ _ (initiate_handshake_wp ps me sock buf now w Hi Hr Hb) E) as (Hl & _ & ev & Ew & Hat).
  cbn [fst snd] in *. split; [done|].
  assert (local_eph_pk (session r.1) = (env_keypair (S (w_calls w))).1 /\ (S (w_calls w) < w_calls w')%nat) as [Epk Hc].
  { unfold initiate_handshake in E. rewrite Ha in E. unfold resolution in Hres. unfold udp_resolve in E.
    apply M_bind_inv in E as ([rc a'] & w1 & E1 & E). apply M_bind_inv in E1 as (o & w2 & E2 & E1).
    injection E2 as <- <-. cbn [config set_last_rx w_calls] in *.
    destruct (env_getaddrinfo _ _) as [x|]; [|done]. injection E1 as <- <- <-. cbn [Z.eqb negb] in E.
    apply start_attempt_draw in E; [done|]. by apply (peer_inv_bookkeeping ps). }
  split; [done|]. destruct Hat as (_ & _ & _ & _ & [(_ & Hps & _)|(_ & _ & _ & _ & n & rc & Hs & ->)]).
  { rewrite Hps in Har. cbn in Har. congruence. }
  rewrite Hs in Epk. cbn in Epk. exists rc. by rewrite Ew, <- Epk.
Qed.

(** ** The inits of the start-up *)

(** The key that the inits for the configured peer [q] are sealed with. *)
Definition init_key (c : edgarvpn_config_t) (q : config_peer_t) : bytes :=
  tx (crypto_derive_session_keys (peer_role q) (crypto_derive_public_key (private_key c)) (private_key c)
        (public_key q) zero_keys).2.

(** One init for each initiator relationship, in order: the payload is the
    public key of a draw of its own, made from call [lo] on and before [hi]. *)
Inductive greets (c : edgarvpn_config_t) (fd t : Z) : list config_peer_t -> nat -> nat -> list io_event -> Prop :=
| greets_nil lo hi : greets c fd t [] lo hi []
| greets_skip q todo lo hi events :
    peer_role q <> CRYPTO_ROLE_INITIATOR -> greets c fd t todo lo hi events -> greets c fd t (q :: todo) lo hi events
| greets_init q todo lo n hi a rc events :
    peer_role q = CRYPTO_ROLE_INITIATOR -> (lo <= n < hi)%nat -> greets c fd t todo (S n) hi events ->
    greets c fd t (q :: todo) lo hi (EvSend fd a (message SESSION_MSG_HANDSHAKE_INIT (init_key c q) (u64 t)
      (env_keypair n).1) rc :: events).

Lemma greets_from c fd t todo lo lo' hi events :
  (lo' <= lo)%nat -> greets c fd t todo lo hi events -> greets c fd t todo lo' hi events.
Proof. intros Hle H. revert lo' Hle. induction H; intros lo' Hle; constructor; auto; lia. Qed.

Lemma greets_until c fd t todo lo hi hi' events :
  (hi <= hi')%nat -> greets c fd t todo lo hi events -> greets c fd t todo lo hi' events.
Proof. intros Hle H. induction H; constructor; auto; lia. Qed.

Lemma greets_lookup c fd t todo lo hi events i q :
  greets c fd t todo lo hi events -> todo !! i = Some q -> peer_role q = CRYPTO_ROLE_INITIATOR ->
  exists n a rc, (lo <= n < hi)%nat /\
    EvSend fd a (message SESSION_MSG_HANDSHAKE_INIT (init_key c q) (u64 t) (env_keypair n).1) rc ∈ events.
Proof.
  intros H. revert i. induction H as [|q' todo lo hi ev Hr H IH|q' todo lo n hi a rc ev Hr Hn H IH]; intros [|i] Hq Hro;
    simplify_eq/=; [by eapply IH| |].
  - exists n, a, rc. split; [done|]. by left.
  - destruct (IH i Hq Hro) as (n' & a' & rc' & Hn' & Hin). exists n', a', rc'. split; [lia|]. by right.
Qed.

(** Two of them come from two draws. *)
Lemma greets_twice c fd t todo lo hi events i j q q' :
  greets c fd t todo lo hi events -> (i < j)%nat -> todo !! i = Some q -> todo !! j = Some q' ->
  peer_role q = CRYPTO_ROLE_INITIATOR -> peer_role q' = CRYPTO_ROLE_INITIATOR ->
  exists n n' a a' rc rc', (lo <= n < n')%nat /\ (n' < hi)%nat /\
    EvSend fd a (message SESSION_MSG_HANDSHAKE_INIT (init_key c q) (u64 t) (env_keypair n).1) rc ∈ events /\
    EvSend fd a' (message SESSION_MSG_HANDSHAKE_INIT (init_key c q') (u64 t) (env_keypair n').1) rc' ∈ events.
Proof.
  intros H. revert i j. induction H as [|q1 todo lo hi ev Hr H IH|q1 todo lo n hi a rc ev Hr Hn H IH];
    intros i j Hij Hi Hj Hri Hrj; [done| |]; destruct j as [|j]; try lia; cbn in Hj.
  - destruct i as [|i]; cbn in Hi; [congruence|]. by apply (IH i j); [lia|..].
  - destruct i as [|i]; cbn in Hi.
    + injection Hi as <-. destruct (greets_lookup _ _ _ _ _ _ _ _ _ H Hj Hrj) as (n' & a' & rc' & Hn' & Hin).
      exists n, n', a, a', rc, rc'. split; [lia|]. split; [lia|]. split; [by left|by right].
    + destruct (IH i j ltac:(lia) Hi Hj Hri Hrj) as (m & m' & b & b' & r & r' & Hm & Hm' & H1 & H2).
      exists m, m', b, b', r, r'. split; [lia|]. split; [lia|]. split; by right.
Qed.

(** The outside while the start-up is between two calls: the wall clock stays
    within one second, and names resolve. *)
Definition steady (t : Z) (lo hi : nat) : Prop :=
  forall n, (lo <= n < hi)%nat -> env_time n = t /\ forall h, env_getaddrinfo n h <> None.

Lemma steady_within t lo hi lo' hi' : steady t lo hi -> (lo <= lo')%nat -> (hi' <= hi)%nat -> steady t lo' hi'.
Proof. intros H Hl Hh n Hn. apply H. lia. Qed.

(** A session just made, for a peer that has no address yet. *)
Lemma new_session_inv r pk sk peer w s w' q tm :
  session_init r pk sk peer w = Some ((0, s), w') -> peer_role q = r ->
  peer_inv (set_last_rx tm (set_session s (new_peer q))) /\ w' = tick (tick w) /\
  handshake_counter s = u64 (env_time (w_calls w)) /\
  static_keys s = (crypto_derive_session_keys r pk sk peer zero_keys).2.
Proof.
  intros E Hr. destruct (session_init_inv _ _ _ _ _ _ _ E) as (R & Hro & Hst & _).
  pose proof (session_init_eq r pk sk peer w) as E'. rewrite E in E'.
  destruct (crypto_derive_session_keys _ _ _ _ _) as [rc keys]. case_decide; [|done]. injection E' as Es Ew.
  split; [|by rewrite Es, Ew]. split; cbn.
  - apply (inv_wf _ _ _ _ R).
  - destruct (inv_open _ _ _ _ R) as (_ & acc & Hacc & _). by exists acc.
  - congruence.
  - congruence.
  - intros _. rewrite Es. apply restarted_honest.
Qed.

Lemma monotonic_calls w t w' : monotonic_ms w = Some (t, w') -> wire w' = wire w /\ w_calls w' = S (w_calls w).
Proof.
  unfold monotonic_ms. intros (x & w1 & E1 & E)%M_bind_inv. injection E1 as <- <-.
  destruct (env_monotonic _). by injection E as _ <-.
Qed.

Lemma log_calls level component text w u w' :
  log_at level component text w = Some (u, w') -> wire w' = wire w /\ (w_calls w <= w_calls w')%nat.
Proof.
  intros E. pose proof (wp_run _ _ _ _ (wp_log level component text (fun _ w' => wire w' = wire w) w ltac:(done)) E) as H.
  split; [done|]. assert (advancing (log_at level component text)) as Ha by (apply (advancing_only plain), only_log). by apply Ha in E.
Qed.

Lemma start_peers_greets c dev sock todo buf w r w' t :
  (SESSION_HANDSHAKE_MSG_LEN <= length buf)%nat ->
  start_peers c dev sock (crypto_derive_public_key (private_key c)) todo buf w = Some (Some r, w') ->
  steady t (w_calls w) (w_calls w') ->
  exists events, wire w' = wire w ++ events /\ greets c (u_fd sock) t todo (w_calls w) (w_calls w') events.
Proof.
  revert buf w r. induction todo as [|q todo IH]; intros buf w r Hb E Hst; cbn [start_peers] in E.
  { injection E as _ <-. exists []. split; [by rewrite app_nil_r|constructor]. }
  apply M_bind_inv in E as ([rc s] & w1 & E1 & E). destruct (Z.eqb_spec rc 0) as [->|]; cbn [negb] in E.
  2:{ apply M_bind_inv in E as (? & ? & _ & E). apply M_bind_inv in E as (? & ? & _ & E).
      by apply M_bind_inv in E as (? & ? & _ & E). }
  apply M_bind_inv in E as (tm & w2 & E2 & E). apply monotonic_calls in E2 as [Ew2 Ec2].
  destruct (new_session_inv _ _ _ _ _ _ _ q tm E1 eq_refl) as (Hi & -> & Ehc & Esk). set (ps := set_last_rx _ _) in *.
  apply M_bind_inv in E as ([ps1 buf1] & w3 & E3 & E). apply M_bind_inv in E as (rest & w4 & E4 & E).
  destruct rest as [[rest buf2]|]; [|done]. injection E as _ <-.
  pose proof (advancing_start_peers _ _ _ _ _ _ _ _ _ E4) as Hle. cbn [tick w_calls] in *.
  case_bool_decide as Hro.
  - apply M_bind_inv in E3 as (now & w5 & E5 & E3). apply monotonic_calls in E5 as [Ew5 Ec5].
    destruct (resolution (w_calls w5) ps) as [a|] eqn:Hres.
    + destruct (initiate_first ps _ sock buf now w5 _ _ a Hi Hro Hb eq_refl Hres E3) as (Hl & Hc & rc & Ew3).
      cbn [fst snd] in *. destruct (IH buf1 w3 _ ltac:(lia) E4) as (ev & Ew4 & Hg).
      { eapply steady_within; [exact Hst|lia|lia]. }
      eexists (_ :: ev). split; [by rewrite Ew4, Ew3, Ew5, Ew2, <- app_assoc|].
      change (session ps) with s. rewrite Esk, Ehc, (proj1 (Hst (w_calls w) ltac:(lia))), Hro.
      replace (tx _) with (init_key c q) by (unfold init_key; by rewrite Hro).
      apply greets_init; [done|lia|]. eapply greets_from; [|exact Hg]. lia.
    + exfalso. assert (w_calls w5 < w_calls w4)%nat as Hlt.
      { apply initiate_asks in E3; [lia|done]. }
      unfold resolution in Hres. destruct (env_getaddrinfo _ _) eqn:Eg; [done|].
      by apply (proj2 (Hst (w_calls w5) ltac:(lia)) (host (config ps))).
  - apply M_bind_inv in E3 as (? & w5 & E5 & E3). injection E3 as <- <- <-. apply log_calls in E5 as [Ew5 Ec5].
    destruct (IH buf w5 _ Hb E4) as (ev & Ew4 & Hg); [eapply steady_within; [exact Hst|lia|lia]|].
    exists ev. split; [by rewrite Ew4, Ew5, Ew2|]. constructor; [done|]. eapply greets_from; [|exact Hg]. lia.
Qed.

Lemma start_network_greets c dev cipher0 plain0 w d w' t :
  length cipher0 = SEALED_BUF_SIZE -> start_network c dev cipher0 plain0 w = Some (Some d, w') ->
  steady t (w_calls w) (w_calls w') ->
  cfg d = c /\ exists events, greets c (u_fd (udp d)) t (take (peer_count c) (peers c)) (w_calls w) (w_calls w') events /\
    forall e, e ∈ events -> e ∈ wire w'.
Proof.
  intros Hb E Hst. unfold start_network in E. apply M_bind_inv in E as ([rc sock] & w1 & E1 & E).
  assert (advancing (udp_bind (listen_port c))) as Ha by advancing. apply Ha in E1. clear Ha.
  destruct (negb _).
  { apply M_bind_inv in E as (? & ? & _ & E). apply M_bind_inv in E as (? & ? & _ & E).
    by apply M_bind_inv in E as (? & ? & _ & E). }
  apply M_bind_inv in E as ([[ps buf]|] & w2 & E2 & E); [|done].
  apply M_bind_inv in E as (tm & w3 & E3 & E). apply monotonic_calls in E3 as [Ew3 Ec3].
  injection E as <- <-. cbn [cfg udp]. split; [done|].
  destruct (Nat.ltb_spec 0 (peer_count c)) as [Hn|Hn].
  2:{ replace (peer_count c) with 0%nat by lia. exists []. split; [constructor|]. intros e He. by apply not_elem_of_nil in He. }
  apply M_bind_inv in E2 as (r & w4 & E4 & E2). destruct r as [r|]; [|done].
  apply M_bind_inv in E2 as (? & w5 & E5 & E2). injection E2 as _ <-. apply log_calls in E5 as [Ew5 Ec5].
  pose proof (advancing_start_peers _ _ _ _ _ _ _ _ _ E4) as Hle.
  destruct (start_peers_greets c dev sock (take (peer_count c) (peers c)) cipher0 w1 r w4 t) as (ev & Ew4 & Hg);
    [rewrite Hb; by apply Nat.leb_le|exact E4|eapply steady_within; [exact Hst|lia|lia]|].
  exists ev. split.
  - eapply greets_from; [exact E1|]. eapply greets_until; [|exact Hg]. lia.
  - intros e He. rewrite Ew3, Ew5, Ew4. apply elem_of_app. by right.
Qed.

Lemma start_greets cipher0 plain0 w d w' t :
  length cipher0 = SEALED_BUF_SIZE -> start cipher0 plain0 w = Some (Some d, w') ->
  steady t (w_calls w) (w_calls w') ->
  exists events, greets (cfg d) (u_fd (udp d)) t (take (peer_count (cfg d)) (peers (cfg d))) (w_calls w) (w_calls w') events /\
    forall e, e ∈ events -> e ∈ wire w'.
Proof.
  intros Hb E Hst. unfold start in E. destruct (negb _); [by apply M_bind_inv in E as (? & ? & _ & E)|].
  apply M_bind_inv in E as (path & w1 & E1 & E). injection E1 as <- <-. cbv zeta in E.
  apply M_bind_inv in E as ([c|] & w2 & E2 & E); [|done].
  assert (forall p, advancing (config_load_file p)) as Ha by (intros; advancing). apply Ha in E2. clear Ha. cbn [w_calls] in E2.
  apply M_bind_inv in E as ([rc dev] & w3 & E3 & E).
  assert (forall n, advancing (tun_open n)) as Ha by (intros; advancing). apply Ha in E3. clear Ha. destruct (negb _).
  { apply M_bind_inv in E as (? & ? & _ & E). by apply M_bind_inv in E as (? & ? & _ & E). }
  apply M_bind_inv in E as (rc' & w4 & E4 & E).
  assert (forall a m, advancing (tun_configure dev a m)) as Ha by (intros; advancing). apply Ha in E4. clear Ha. destruct (negb _).
  { apply M_bind_inv in E as (? & ? & _ & E). apply M_bind_inv in E as (? & ? & _ & E).
    by apply M_bind_inv in E as (? & ? & _ & E). }
  pose proof (advancing_start_network _ _ _ _ _ _ _ E) as Hle.
  destruct (start_network_greets c dev cipher0 plain0 w4 d w' t Hb E) as (-> & ev & Hg & Hin);
    [eapply steady_within; [exact Hst|lia|lia]|].
  exists ev. split; [|done]. eapply greets_from; [|exact Hg]. lia.
Qed.

(** C22. A nonce of the handshake channel can repeat within one process.  The
    static keys depend on the two long-term keys and the role only, and every
    session starts its init counter at the wall clock of its own
    initialisation.  So whenever the program starts with a configuration that
    has two initiator sections for the same PublicKey, and the start-up falls
    within one second and resolves the names, it sends two inits sealed under
    one key and one counter, whose payloads are the public keys of two draws
    of the generator. *)
Theorem shared_public_key_reuses_nonce cipher0 plain0 w d w' t i j q q' :
  length cipher0 = SEALED_BUF_SIZE -> start cipher0 plain0 w = Some (Some d, w') ->
  (forall n, (w_calls w <= n < w_calls w')%nat -> env_time n = t /\ forall h, env_getaddrinfo n h <> None) ->
  (i < j < peer_count (cfg d))%nat -> peers (cfg d) !! i = Some q -> peers (cfg d) !! j = Some q' ->
  peer_role q = CRYPTO_ROLE_INITIATOR -> peer_role q' = CRYPTO_ROLE_INITIATOR -> public_key q = public_key q' ->
  exists key n n' a a' rc rc', (w_calls w <= n < n')%nat /\ (n' < w_calls w')%nat /\
    EvSend (u_fd (udp d)) a
      (message SESSION_MSG_HANDSHAKE_INIT key (u64 t) (env_keypair n).1) rc ∈ wire w' /\
    EvSend (u_fd (udp d)) a'
      (message SESSION_MSG_HANDSHAKE_INIT key (u64 t) (env_keypair n').1) rc' ∈ wire w'.
Proof.
  intros Hb E Hst Hij Hq Hq' Hr Hr' Hpk. destruct (start_greets _ _ _ _ _ t Hb E Hst) as (ev & Hg & Hin).
  assert (forall k x, (k < peer_count (cfg d))%nat -> peers (cfg d) !! k = Some x ->
    take (peer_count (cfg d)) (peers (cfg d)) !! k = Some x) as Ht by (intros; by rewrite lookup_take_lt).
  destruct (greets_twice _ _ _ _ _ _ _ i j q q' Hg ltac:(lia) (Ht i q ltac:(lia) Hq) (Ht j q' ltac:(lia) Hq') Hr Hr')
    as (n & n' & a & a' & rc & rc' & Hn & Hn' & H1 & H2).
  assert (init_key (cfg d) q' = init_key (cfg d) q) as Ek by (unfold init_key; by rewrite Hr, Hr', Hpk).
  rewrite Ek in H2. exists (init_key (cfg d) q), n, n', a, a', rc, rc'. auto.
Qed.
End Twins.

(** ** A configuration of that kind *)
Definition twin_file : bytes := lines [
  "[Interface]";
  "Name = peer1";
  "Address = 10.8.0.11/24";
  "PrivateKey = WH2RvdCDP2OfJ0K2WiFchwwi7XndB4uky9cYmQCAxEc=";
  "[Peer]";
  "Endpoint = peer2:51820";
  "PublicKey = /gtFMtBv9uKoGzLmj7Mf5/1I3tQ9lLIaTKIeOtzkyJc=";
  "Role = initiator";
  "AllowedIPs = 10.8.0.12/32";
  "[Peer]";
  "Endpoint = peer2:51820";
  "PublicKey = /gtFMtBv9uKoGzLmj7Mf5/1I3tQ9lLIaTKIeOtzkyJc=";
  "Role = initiator";
  "AllowedIPs = 192.168.7.0/24"]%string.

Definition twin_env : Env := {|
  env_keypair := env_keypair;
  env_time _ := 1700000000;
  env_monotonic _ := (100, 0);
  env_realtime := env_realtime;
  env_getenv := env_getenv;
  env_fopen _ _ := Some (9, twin_file);
  env_getaddrinfo := env_getaddrinfo;
  env_open := env_open;
  env_socket := env_socket;
  env_bind := env_bind;
  env_sendto _ := 57;
  env_ioctl := env_ioctl;
  env_close := env_close;
  env_recvfrom _ := None;
  env_tun_read _ := None;
  env_tun_write _ := 0;
  env_poll _ := (0, false, false);
  env_errno _ := 4;
  env_signals _ := [];
  env_strerror _ := []
|}.

#[global] Instance twin_laws : @EnvLaws _ twin_env.
Proof. destruct toy_env_laws. by split. Qed.
#[global] Instance twin_clock : @ClockLaws twin_env.
Proof. destruct toy_clock as [H]. split. intros n. apply (H n). Qed.
#[global] Instance twin_io : @IoLaws twin_env.
Proof. split; [done..|]. by intros _ _ fd f [= _ <-]. Qed.

Definition twin_start : daemon * world := Eval vm_compute in
  match start (EV:=twin_env) cipher0 plain0 toy_world with
  | Some (Some d, w) => (d, w)
  | _ => (blank_daemon, toy_world)
  end.

Lemma twin_started : start (EV:=twin_env) cipher0 plain0 toy_world = Some (Some twin_start.1, twin_start.2).
Proof. by vm_compute. Qed.

(** The key the two sessions send inits with, and the payload of an init in
    the clear (the toy cipher appends a tag to the plaintext). *)
Definition twin_key : bytes := Eval vm_compute in
  init_key (cfg twin_start.1) (default zero_peer (peers (cfg twin_start.1) !! 0%nat)).
Definition twin_payload (i : nat) : bytes := Eval vm_compute in
  take 32 (drop 9 (default [] (omap datagram_of (wire twin_start.2) !! i))).

(** The two inits, and that their payloads differ. *)
Lemma shared_public_key_reuses_nonce_witness :
  (exists key pk pk', pk <> pk' /\ omap datagram_of (wire twin_start.2) =
     [message SESSION_MSG_HANDSHAKE_INIT key 1700000000 pk; message SESSION_MSG_HANDSHAKE_INIT key 1700000000 pk']) /\
  exists key n n' a a' rc rc', (w_calls toy_world <= n < n')%nat /\ (n' < w_calls twin_start.2)%nat /\
    EvSend (u_fd (udp twin_start.1)) a
      (message SESSION_MSG_HANDSHAKE_INIT key (u64 1700000000) (env_keypair (Env:=twin_env) n).1) rc ∈ wire twin_start.2 /\
    EvSend (u_fd (udp twin_start.1)) a'
      (message SESSION_MSG_HANDSHAKE_INIT key (u64 1700000000) (env_keypair (Env:=twin_env) n').1) rc' ∈ wire twin_start.2.
Proof.
  split.
  - exists twin_key, (twin_payload 0), (twin_payload 1). split; [|by vm_compute].
    apply (bool_decide_unpack _). by vm_compute.
  - apply (shared_public_key_reuses_nonce (EV:=twin_env) cipher0 plain0 toy_world twin_start.1 twin_start.2 1700000000 0 1
      (default zero_peer (peers (cfg twin_start.1) !! 0%nat)) (default zero_peer (peers (cfg twin_start.1) !! 1%nat)));
      [by vm_compute|exact twin_started|done|split; apply Nat.ltb_lt; by vm_compute|by vm_compute..].
Defined.
